(* ===== verification/_CoqProject ===== *)
-Q . S2P
Prelude.v
GoBase.v
GoStrings.v
GoNet.v
GoTime.v
Config.v
LockManager.v
DbTypes.v
IpPool.v
IpPoolSpec.v
Session.v
SessionSpec.v
TcpParser.v
TcpParserSpec.v
TcpStream.v
TcpStreamSpec.v
ClientCert.v
ClientCertSpec.v
Auth.v
AuthSteps.v
AuthSpec.v
AuthCodesSpec.v
AuthFlow.v
AuthFlowSpec.v
FakeDns.v
FakeDnsSpec.v
Packet.v
PacketSpec.v
Policies.v
PoliciesSpec.v
Acl.v
AclSpec.v
PathSpec.v
Tunnel.v
TunnelSpec.v
TunnelLoopSpec.v
LinkTunnel.v
LinkTunnelSpec.v
Group.v
GroupSpec.v
AccessLog.v
AccessLogSpec.v
Jwt.v
WebVpn.v
WebVpnProxy.v
