(* ===== verification/Prelude.v ===== *)
(** * RemLink: verification library (root)

    RemLink is a TLS VPN server in Go (src/server).  A client logs in over an
    XML dialogue (package handler) that runs a pipeline of authentication steps
    (packages auth and auth/authsrv) under brute-force protection; a granted
    login becomes a session with an address from a pool, limits and accounting
    (package sessdata); the client then opens a tunnel over TLS and another over
    DTLS, whose packets pass an access control list, may go to fake addresses
    that stand for names, and are audited by protocol parsers.  This library
    models that path, from login to traffic, and proves what each part promises
    the next.

    ** Parts

    Each part is a file of definitions and, where it has properties, a file of
    theorems with the suffix Spec.  Paths are under src/server.

    - [GoBase], [GoStrings], [GoNet], [GoTime]: the language and standard library
      the code uses: fixed-width integers ([wrap]), [time] and its calendar,
      [strings], base64, and [net]'s address, prefix, MAC and host:port texts.
    - [Config] (base/config.go, base/log.go): the configuration the modelled
      code reads, the log rate limiter.  [DbTypes] (dbdata/tables.go, group.go,
      ip_map.go, user.go): the rows of the tables.
    - [LockManager] (auth/lockmanager.go): four tables of failure counters, the
      IP lists, every method; theorems in the same file.
    - [ClientCert], [ClientCertSpec] (dbdata/cert_client.go): issuing, renewing,
      binding devices to and validating client certificates, under a schedule
      of database failures.
    - [Auth] (auth/auth.go, pipeline.go, registry.go, config.go and the entry
      points of auth/authsrv/authsrv.go): login context, authenticator interface,
      profiles, [Pipeline_Run] and [Pipeline_Resume].  [AuthSteps] (auth/authsrv:
      local, cert, otp, sms, radius, forcepwd): the authenticators, the used-code
      table, the send limiters.  [AuthSpec]: what a granted login has passed;
      [AuthCodesSpec]: one-time codes.
    - [AuthFlow], [AuthFlowSpec] (handler/link_auth.go, link_auth_otp.go,
      link_auth_pipeline.go, link_auth_session.go, authflow.go,
      auth_challenge.go, link_webauth.go): the requests of the native client over
      the lock manager, the pending logins and the authenticators.
    - [IpPool], [IpPoolSpec] (sessdata/ip_pool.go): IPv4 and IPv6 allocation from
      the global and the group pools.
    - [Session], [SessionSpec] (sessdata/session.go, limit_client.go,
      limit_rate.go): a heap of sessions and connections, the client limits, the
      accounting of traffic, closing.
    - [FakeDns], [FakeDnsSpec] (sessdata/fakedns.go): fake addresses for names,
      resolution in the background, NAT rules.
    - [TcpParser], [TcpParserSpec] (handler/payload_tcp_parser.go,
      payload_dns_parser.go): TLS, HTTP, SSH and DNS recognition.  [TcpStream],
      [TcpStreamSpec] (handler/payload_tcp_stream.go): reassembly with bounded
      memory.  [AccessLog], [AccessLogSpec] (handler/payload_access_audit.go): the record of
      a packet, its deduplication per interval, the batches.
    - [Policies], [PoliciesSpec] (dbdata/policy.go and the checks of group.go and
      user.go it uses): validation and saving of a policy, which policy a user
      gets, quotas and their reset times.
    - [Packet], [PacketSpec] (handler/payload_v6.go, the builders of
      dns_intercept.go): the IPv6 reader, checksums, the packets of DNS replies.
    - [Acl], [AclSpec], [PathSpec] (handler/payload.go, dns_intercept.go): what
      happens to a client's packet: DNS interception, restoring of fake
      addresses, the link ACL.
    - [Group], [GroupSpec] (dbdata/group.go): the checks a group passes before it is
      saved; prefixes as sets of addresses; the pools of saved groups.
    - [Tunnel] (handler/pool.go, link_cstp.go, link_dtls.go, payload.go, dtls.go):
      frames in pooled buffers, both read loops and write steps, the handshake
      limit.  [TunnelSpec]: frames against their format; [TunnelLoopSpec]: the
      loops.  [LinkTunnel], [LinkTunnelSpec] (handler/link_tunnel.go): the request
      that sets a tunnel up, and its response headers.

    ** How the parts interact

    [AuthFlow] calls [LockManager] before a login, [Auth] for the steps, and its
    pending-login store between two rounds; a provider registry maps step names
    to the authenticators of [AuthSteps], which reach [ClientCert].  [Session]
    calls [IpPool] when a connection opens and gives the addresses back when it
    closes.  [TcpStream] hands contiguous data to [TcpParser].  [Acl] judges a
    packet by a policy [Policies] saved and is the client of [FakeDns]: it asks
    it for addresses when a name is queried and for mappings when one is used.
    [LinkTunnel] opens a connection of [Session] and hands it to the loops of
    [Tunnel], which run [Acl] on every payload, account for every frame and close
    the connection when they end; what goes into the network comes back to
    [AccessLog], the client of [TcpStream] and of the IPv6 reader of [Packet].
    [GetGroupIpPool] of [IpPool] builds its pools from the groups [Group] saved.

    What lies outside src/ or is only I/O is a type class, and its laws, where a
    theorem needs some, a second one: [IpMapStore]/[IpMapStoreLaws] (the ip_map
    table), [SessionDb] (user and traffic tables), [PolicyDb] (policies and quotas), [AuthEnv] (user and group tables,
    bcrypt, TOTP, SMS gateway, RADIUS), [Firewall]/[FirewallLaws], [Resolver]/
    [ResolverLaws] (DNS exchange, random choice), [WaterUtil]/[WaterUtilLaws] (IPv4
    field reader), [WaterUtilAudit]/[WaterUtilAuditLaws], [DnsCodec] (DNS messages), [GroupDb]/
    [GroupDbLaws] (the group table), [CmpEncoding]/[CmpLaws] (the compressors).  Each has a concrete instance on
    which the theorems are evaluated.

    ** Conventions

    A method under a mutex is one step.  [time.Now()] is an argument, so clocks
    may stand still or go back unless a theorem orders them.  A Go panic is
    [Panic] of [res]; an [error] is its text or a constructor.  Objects shared
    through pointers are locations of a heap ([Session]).  A loop that is not structural has a fuel argument.
    The bounds used: [scan_fuel] in the IPv4 scan, one more than the addresses of
    the segment, enough by [acquire_terminates] for ranges that end below
    255.255.255.255 (above it the code itself loops); the length of the input in
    the parsers, enough by [parsers_never_panic], in which running out is [Panic];
    the number of bytes in [LimitRater_Wait], enough by [LimitRater_Wait_splits];
    the length plus one in [match_suffix], three folds of a carry in
    [fold_carry], which 32-bit sums never need more of; and in [loopIpV6] a caller's bound on the addresses visited, since an IPv6
    pool may have 2^64 of them: its theorem is about every bound.

    ** What the theorems show

    - Login: a granted login passed exactly the profile's steps in order, over any
      rounds, with the password of an enabled user ([AuthSpec]); codes are tried
      a bounded number of times ([AuthCodesSpec]); certificates bind at most
      their limit of devices and validate only when authorised ([ClientCertSpec]).
    - Guessing: repeated failures lock the pair of user and address out; a lock on
      the second factor outlives the first; the sweep is unobservable; one user's
      failures do not touch another's ([LockManager], [AuthFlowSpec]).
    - Addresses: a grant is in range and unused, refusal means exhaustion, a device
      gets its address back, the scan ends ([IpPoolSpec]).
    - Sessions: the counters are the live connections in every reachable state,
      closing never panics and settles traffic once ([SessionSpec]).
    - Traffic: parsers return on every input and report the name that was sent
      ([TcpParserSpec]); reassembly yields the contiguous text within exact
      memory bounds ([TcpStreamSpec]); a fake address is one name's, and NAT rules
      match the mappings ([FakeDnsSpec]).
    - Packets: the ACL check is first-match semantics over what was saved
      ([AclSpec], [PoliciesSpec]); the IPv6 reader returns on every input and
      reads back what it understands, replies are well-formed ([PacketSpec]); an
      answered name works at once and a held packet gets through later
      ([PathSpec]); a quota's reset is the end of its period ([PoliciesSpec]).
    - Tunnels: the frame readers implement the CSTP and DTLS formats on every input
      and return what the writers wrote ([TunnelSpec]); every packet that reaches
      the network passed the ACL, and every end of a loop closes its connection
      ([TunnelLoopSpec]); what a tunnel request leaves open ([LinkTunnelSpec]).
    - Groups: the overlap check is sharing an address, and no address belongs to
      the pools of two groups or of a group and the server ([GroupSpec]).
    - Audit: one record per flow and interval, none lost by the batches ([AccessLogSpec]).
    - Where the code does not keep a promise a theorem exhibits it: a second
      factor that can be guessed under another name, a TOTP code accepted twice,
      a renewal recorded longer than signed, addresses granted twice, fake
      addresses taken over, a NAT rule lost on renewal, fragments that evade port
      rules, a parser panic, a connection left open when the socket is not handed
      over, a handshake limit that counts established tunnels, SSH and mail
      protocols that are recognised but never recorded.

    ** Not modelled

    HTTP and DTLS listeners, the creation of virtual devices, read deadlines, XML templates and cookies beyond the values the handlers
    compute; the management API; the browser login pages, portal and WebVPN; the
    SSO and LDAP exchanges; SQL, backup and ACME; firewall command lines; device
    I/O.  Two goroutines inside one method between its locks (AddMapping's table
    and firewall updates, a resolution another goroutine waits for) are not
    interleaved.  Log texts are kept where they are stored as rows.

    ** Plan

    Next: the sessions of WebVPN (webvpn/session.go) and of the portal with jwt
    (pkg/jwt); changes of users (dbdata/user.go); the online list and statistics;
    the backup format; LDAP and the SSO providers behind their exchanges. *)
From Stdlib Require Export ZArith Lia Strings.String.
From Stdlib Require Import Strings.Byte.
From stdpp Require Export base tactics numbers option list gmap strings fin_maps pretty.

#[export] Set Default Goal Selector "!".

(** ** Results of code that can panic

    A Go expression that indexes out of range panics; [Panic] is that outcome
    and [Ret] a normal result.  The bind is written [let! x := e in k]. *)
Inductive res (A : Type) : Type :=
  | Ret (a : A)
  | Panic.
Arguments Ret {A} a.
Arguments Panic {A}.

Definition res_bind {A B} (m : res A) (k : A → res B) : res B :=
  match m with Ret a => k a | Panic => Panic end.

Declare Scope remlink_scope.
Delimit Scope remlink_scope with rem.
Global Open Scope remlink_scope.

Notation "'let!' x ':=' e 'in' k" := (res_bind e (fun x => k))
  (at level 10, x pattern, e at level 200, k at level 200,
   format "'[v' 'let!'  x  ':='  e  'in' '/' k ']'") : remlink_scope.

Definition is_ret {A} (m : res A) : Prop := ∃ a, m = Ret a.

Lemma is_ret_Ret {A} (a : A) : is_ret (Ret a).
Proof. by exists a. Qed.

Lemma res_bind_Ret_inv {A B} (m : res A) (k : A → res B) b :
  res_bind m k = Ret b → ∃ a, m = Ret a ∧ k a = Ret b.
Proof. destruct m as [a|]; simpl; [by exists a|done]. Qed.

Lemma is_ret_bind {A B} (m : res A) (k : A → res B) :
  is_ret m → (∀ a, m = Ret a → is_ret (k a)) → is_ret (res_bind m k).
Proof. intros [a ->] H. simpl. by apply H. Qed.

(** ** Outcome of a lookup in a store: a value, no row, or an I/O error. *)
Inductive lookup_res (A : Type) : Type :=
  | Found (a : A)
  | NotFound
  | LookupErr.
Arguments Found {A} a.
Arguments NotFound {A}.
Arguments LookupErr {A}.

(** ** Tactics *)

(** Case analysis on the innermost [if]/[match] scrutinee of the goal or of a
    hypothesis, keeping the equation. *)
Ltac case_step :=
  match goal with
  | |- context [match ?x with _ => _ end] =>
      lazymatch x with context [match _ with _ => _ end] => fail | _ => destruct x eqn:? end
  | H : context [match ?x with _ => _ end] |- _ =>
      lazymatch x with context [match _ with _ => _ end] => fail | _ => destruct x eqn:? end
  end.

(** Boolean comparisons and connectives to propositions. *)
Ltac bool_to_prop :=
  repeat match goal with
  | H : (_ && _)%bool = true |- _ => apply andb_true_iff in H as [? ?]
  | H : (_ && _)%bool = false |- _ => apply andb_false_iff in H
  | H : (_ || _)%bool = false |- _ => apply orb_false_iff in H as [? ?]
  | H : (_ || _)%bool = true |- _ => apply orb_true_iff in H
  | H : negb _ = true |- _ => apply negb_true_iff in H
  | H : negb _ = false |- _ => apply negb_false_iff in H
  | H : (_ <? _)%Z = true |- _ => apply Z.ltb_lt in H
  | H : (_ <? _)%Z = false |- _ => apply Z.ltb_ge in H
  | H : (_ <=? _)%Z = true |- _ => apply Z.leb_le in H
  | H : (_ <=? _)%Z = false |- _ => apply Z.leb_gt in H
  | H : (_ >? _)%Z = _ |- _ => rewrite Z.gtb_ltb in H
  | H : (_ >=? _)%Z = _ |- _ => rewrite Z.geb_leb in H
  | H : (_ =? _)%Z = true |- _ => apply Z.eqb_eq in H
  | H : (_ =? _)%Z = false |- _ => apply Z.eqb_neq in H
  | H : bool_decide _ = true |- _ => apply bool_decide_eq_true in H
  | H : bool_decide _ = false |- _ => apply bool_decide_eq_false in H
  | H : String.eqb _ _ = true |- _ => apply String.eqb_eq in H
  | H : String.eqb _ _ = false |- _ => apply String.eqb_neq in H
  end.

(** [crush_cases]: split every conditional, turn booleans into facts and close
    what arithmetic and congruence close. *)
Ltac crush_cases :=
  repeat (case_step; simplify_eq/=); bool_to_prop; simplify_eq/=; try done; try lia.

(** The hint database of the development: lemmas that close common side
    conditions. *)
Create HintDb remlink.
#[export] Hint Resolve is_ret_Ret : remlink.

(** ** Generic lemmas on lists *)

Lemma firstn_skipn_length {A} (l : list A) a b :
  (a + b ≤ length l)%nat → length (firstn b (skipn a l)) = b.
Proof. intros ?. rewrite length_firstn, length_skipn. lia. Qed.

Lemma last_cons_cons {A} (l : list A) x d : List.last (x :: l) d = List.last l x.
Proof.
  revert x d. induction l as [|y l IH]; intros x d; [done|].
  change (List.last (x :: y :: l) d) with (List.last (y :: l) d). by rewrite !IH.
Qed.

Definition sumZ {A} (f : A → Z) (l : list A) : Z :=
  fold_right (λ x acc, (f x + acc)%Z) 0%Z l.

Lemma sumZ_app {A} (f : A → Z) l1 l2 : sumZ f (l1 ++ l2) = (sumZ f l1 + sumZ f l2)%Z.
Proof. induction l1 as [|x l1 IH]; simpl; [done|]. rewrite IH. lia. Qed.

Lemma sumZ_perm {A} (f : A → Z) l1 l2 : l1 ≡ₚ l2 → sumZ f l1 = sumZ f l2.
Proof. induction 1; simpl; lia. Qed.

Lemma sumZ_nonneg {A} (f : A → Z) l : (∀ x, x ∈ l → (0 ≤ f x)%Z) → (0 ≤ sumZ f l)%Z.
Proof.
  induction l as [|x l IH]; simpl; intros H; [lia|].
  assert (0 ≤ f x)%Z by (apply H; left).
  assert (0 ≤ sumZ f l)%Z by (apply IH; intros; apply H; by right). lia.
Qed.

(** Sum of a measure over the values of a finite map. *)
Definition map_sumZ {K V} `{Countable K} (f : V → Z) (m : gmap K V) : Z :=
  sumZ (λ kv, f kv.2) (map_to_list m).

Section map_sum.
Context {K V : Type} `{Countable K}.
Implicit Types (m : gmap K V) (f : V → Z).

Lemma map_sumZ_empty f : map_sumZ f (∅ : gmap K V) = 0%Z.
Proof. unfold map_sumZ. by rewrite map_to_list_empty. Qed.

Lemma map_sumZ_insert_None f m k v :
  m !! k = None → map_sumZ f (<[k:=v]> m) = (f v + map_sumZ f m)%Z.
Proof.
  intros Hk. unfold map_sumZ.
  by rewrite (sumZ_perm _ _ _ (map_to_list_insert m k v Hk)).
Qed.

Lemma map_sumZ_delete f m k v :
  m !! k = Some v → map_sumZ f (delete k m) = (map_sumZ f m - f v)%Z.
Proof.
  intros Hk. rewrite <- (insert_delete_id m k v Hk) at 2.
  rewrite map_sumZ_insert_None by apply lookup_delete_eq. lia.
Qed.

Lemma map_sumZ_insert_Some f m k v w :
  m !! k = Some w → map_sumZ f (<[k:=v]> m) = (map_sumZ f m - f w + f v)%Z.
Proof.
  intros Hk. rewrite <- insert_delete_eq.
  rewrite map_sumZ_insert_None by apply lookup_delete_eq.
  rewrite (map_sumZ_delete f m k w Hk). lia.
Qed.

Lemma map_sumZ_nonneg f m :
  (∀ k v, m !! k = Some v → (0 ≤ f v)%Z) → (0 ≤ map_sumZ f m)%Z.
Proof.
  intros Hf. apply sumZ_nonneg. intros [k v] Hin.
  apply elem_of_map_to_list in Hin. simpl. eauto.
Qed.

Lemma map_sumZ_ge f m k v :
  (∀ k v, m !! k = Some v → (0 ≤ f v)%Z) → m !! k = Some v → (f v ≤ map_sumZ f m)%Z.
Proof.
  intros Hf Hk.
  pose proof (map_sumZ_delete f m k v Hk) as Hd.
  assert (0 ≤ map_sumZ f (delete k m))%Z; [|lia].
  apply map_sumZ_nonneg. intros k' v' [? ?]%lookup_delete_Some. eauto.
Qed.
End map_sum.
