(* ===== verification/GoBase.v ===== *)
(** * The Go language and standard-library fragment the server relies on

    Fixed-width integers, [time.Time]/[time.Duration], byte slices and the
    functions of package [strings] the modelled code calls.  Go strings are
    byte sequences, so they are [String.string]; a [[]byte] is [list byte]. *)
From S2P Require Export Prelude.
From Stdlib Require Export Strings.Byte.
Local Open Scope Z_scope.

(** ** Integers

    [int] is 64 bits wide on the platforms the server is built for. *)
Definition wrap (w : Z) (z : Z) : Z := z `mod` 2 ^ w.
Definition sint (w : Z) (z : Z) : Z := (z + 2 ^ (w - 1)) `mod` 2 ^ w - 2 ^ (w - 1).

Abbreviation u8 := (wrap 8).
Abbreviation u16 := (wrap 16).
Abbreviation u32 := (wrap 32).
Abbreviation u64 := (wrap 64).
Abbreviation s64 := (sint 64).

Definition max_int64 : Z := 2 ^ 63 - 1.
Definition min_int64 : Z := - 2 ^ 63.

Lemma wrap_range w z : 0 ≤ w → 0 ≤ wrap w z < 2 ^ w.
Proof. intros. unfold wrap. apply Z.mod_pos_bound. lia. Qed.

Lemma wrap_small w z : 0 ≤ z < 2 ^ w → wrap w z = z.
Proof. intros. unfold wrap. by apply Z.mod_small. Qed.

Lemma sint64_small z : min_int64 ≤ z ≤ max_int64 → s64 z = z.
Proof.
  unfold min_int64, max_int64, sint. intros.
  change (64 - 1) with 63. rewrite Z.mod_small; lia.
Qed.

Lemma sint64_range z : min_int64 ≤ s64 z ≤ max_int64.
Proof.
  unfold min_int64, max_int64, sint.
  pose proof (Z.mod_pos_bound (z + 2 ^ (64 - 1)) (2 ^ 64) ltac:(lia)).
  change (64 - 1) with 63 in *. lia.
Qed.
#[export] Hint Rewrite wrap_small using lia : remlink.

(** ** Time

    A [time.Time] is its number of nanoseconds since the Unix epoch; the zero
    [Time] is January 1, year 1.  [Sub] saturates at the [Duration] bounds. *)
Definition Time := Z.
Definition Duration := Z.

Definition Nanosecond : Duration := 1.
Definition Millisecond : Duration := 1000000.
Definition Second : Duration := 1000000000.
Definition Minute : Duration := 60 * Second.
Definition Hour : Duration := 60 * Minute.

Definition zero_time : Time := - 62135596800 * Second.
Definition time_IsZero (t : Time) : bool := t =? zero_time.
Definition time_Before (t u : Time) : bool := t <? u.
Definition time_After (t u : Time) : bool := u <? t.
Definition time_Add (t : Time) (d : Duration) : Time := t + d.
Definition time_Sub (t u : Time) : Duration := Z.max min_int64 (Z.min max_int64 (t - u)).
Definition time_Unix (t : Time) : Z := t / Second.

(** [time.Duration(n) * time.Second], an [int64] product. *)
Definition seconds (n : Z) : Duration := s64 (n * Second).

Lemma seconds_small n : 0 ≤ n ≤ 9000000000 → seconds n = n * Second.
Proof.
  intros. unfold seconds. apply sint64_small. unfold min_int64, max_int64, Second. lia.
Qed.

Lemma time_Sub_le t u d : d < max_int64 → min_int64 ≤ d → time_Sub t u ≤ d ↔ t - u ≤ d.
Proof. unfold time_Sub, min_int64, max_int64. lia. Qed.

(** ** Bytes *)
Definition b2z (b : byte) : Z := Z.of_N (Byte.to_N b).
Definition z2b (z : Z) : byte :=
  match Byte.of_N (Z.to_N (u8 z)) with Some b => b | None => "000"%byte end.

#[export] Instance byte_eq_dec : EqDecision byte := Byte.byte_eq_dec.

Lemma b2z_range b : 0 ≤ b2z b < 256.
Proof.
  unfold b2z. pose proof (Byte.to_N_bounded b). lia.
Qed.

Lemma b2z_inj a b : b2z a = b2z b → a = b.
Proof.
  unfold b2z. intros H. apply N2Z.inj in H.
  apply (f_equal Byte.of_N) in H. rewrite !Byte.of_to_N in H. congruence.
Qed.

Lemma z2b_b2z b : z2b (b2z b) = b.
Proof.
  unfold z2b. rewrite wrap_small by (pose proof (b2z_range b); simpl; lia).
  unfold b2z. by rewrite N2Z.id, Byte.of_to_N.
Qed.

Lemma b2z_z2b z : b2z (z2b z) = u8 z.
Proof.
  unfold z2b. pose proof (wrap_range 8 z ltac:(lia)) as Hr.
  change (2 ^ 8) with 256 in Hr.
  destruct (Byte.of_N (Z.to_N (u8 z))) as [b|] eqn:E.
  - apply Byte.to_of_N in E. unfold b2z. rewrite E. lia.
  - apply Byte.of_N_None_iff in E. lia.
Qed.

Lemma b2z_z2b_small z : 0 ≤ z < 256 → b2z (z2b z) = z.
Proof. intros. rewrite b2z_z2b. apply wrap_small. simpl. lia. Qed.

(** Length of a slice, as the [int] that [len] returns. *)
Definition len {A} (l : list A) : Z := Z.of_nat (length l).

Lemma len_nonneg {A} (l : list A) : 0 ≤ len l.
Proof. unfold len. lia. Qed.
#[export] Hint Resolve len_nonneg : remlink.

Lemma len_app {A} (l1 l2 : list A) : len (l1 ++ l2) = len l1 + len l2.
Proof. unfold len. rewrite length_app. lia. Qed.

Lemma len_cons {A} (x : A) l : len (x :: l) = 1 + len l.
Proof. unfold len. simpl. lia. Qed.

Lemma len_nil {A} : len (@nil A) = 0.
Proof. done. Qed.
#[export] Hint Rewrite @len_app @len_cons @len_nil : remlink.

(** Indexing [b[i]]: panics out of range. *)
Definition at_ {A} (b : list A) (i : Z) : res A :=
  if (0 <=? i) && (i <? len b) then
    match b !! Z.to_nat i with Some x => Ret x | None => Panic end
  else Panic.

(** Slicing [b[lo:hi]] of a slice whose capacity is its length: panics unless
    [0 <= lo <= hi <= len(b)]. *)
Definition slice {A} (b : list A) (lo hi : Z) : res (list A) :=
  if (0 <=? lo) && (lo <=? hi) && (hi <=? len b) then
    Ret (firstn (Z.to_nat (hi - lo)) (skipn (Z.to_nat lo) b))
  else Panic.

Definition at_z (b : list byte) (i : Z) : res Z :=
  let! x := at_ b i in Ret (b2z x).

(** Big-endian reads: [binary.BigEndian.Uint16(b[i:i+2])] and its hand-written
    form [int(b[i])<<8 | int(b[i+1])]. *)
Definition be16 (b : list byte) (i : Z) : res Z :=
  let! x := at_z b i in
  let! y := at_z b (i + 1) in
  Ret (Z.lor (Z.shiftl x 8) y).

Definition be32 (b : list byte) (i : Z) : res Z :=
  let! x := be16 b i in
  let! y := be16 b (i + 2) in
  Ret (Z.lor (Z.shiftl x 16) y).

Lemma at_is_ret {A} (b : list A) i : 0 ≤ i < len b → is_ret (at_ b i).
Proof.
  intros Hi. unfold at_. rewrite (proj2 (Z.leb_le _ _)), (proj2 (Z.ltb_lt _ _)) by lia. simpl.
  destruct (b !! Z.to_nat i) eqn:E; [eauto with remlink|].
  apply lookup_ge_None in E. unfold len in *. lia.
Qed.

Lemma at_z_is_ret b i : 0 ≤ i < len b → is_ret (at_z b i).
Proof. intros. apply is_ret_bind; [by apply at_is_ret|eauto with remlink]. Qed.

Lemma at_z_range b i x : at_z b i = Ret x → 0 ≤ x < 256.
Proof.
  unfold at_z. intros (y & _ & H)%res_bind_Ret_inv. simplify_eq. apply b2z_range.
Qed.

Lemma be16_is_ret b i : 0 ≤ i → i + 2 ≤ len b → is_ret (be16 b i).
Proof.
  intros. apply is_ret_bind; [apply at_z_is_ret; lia|intros].
  apply is_ret_bind; [apply at_z_is_ret; lia|eauto with remlink].
Qed.

Lemma be32_is_ret b i : 0 ≤ i → i + 4 ≤ len b → is_ret (be32 b i).
Proof.
  intros. apply is_ret_bind; [apply be16_is_ret; lia|intros].
  apply is_ret_bind; [apply be16_is_ret; lia|eauto with remlink].
Qed.

Lemma slice_is_ret {A} (b : list A) lo hi : 0 ≤ lo ≤ hi → hi ≤ len b → is_ret (slice b lo hi).
Proof.
  intros. unfold slice.
  rewrite (proj2 (Z.leb_le 0 lo)), (proj2 (Z.leb_le lo hi)), (proj2 (Z.leb_le hi _)) by lia.
  simpl. eauto with remlink.
Qed.

Lemma slice_len {A} (b : list A) lo hi s : slice b lo hi = Ret s → len s = hi - lo.
Proof.
  unfold slice. intros H. crush_cases.
  unfold len in *. rewrite length_firstn, length_skipn. lia.
Qed.

Lemma land_shiftl_small x y n : 0 ≤ n → 0 ≤ y < 2 ^ n → Z.land (Z.shiftl x n) y = 0.
Proof.
  intros Hn Hy. apply Z.bits_inj'. intros k Hk. rewrite Z.land_spec, Z.bits_0.
  destruct (decide (k < n)).
  - by rewrite Z.shiftl_spec_low by lia.
  - rewrite <- (Z.mod_small y (2 ^ n)) by done.
    rewrite Z.mod_pow2_bits_high by lia. by rewrite andb_comm.
Qed.

Lemma lor_shiftl_add_n x y n : 0 ≤ n → 0 ≤ y < 2 ^ n → Z.lor (Z.shiftl x n) y = x * 2 ^ n + y.
Proof.
  intros. rewrite <- Z.add_nocarry_lor by (by apply land_shiftl_small).
  by rewrite Z.shiftl_mul_pow2.
Qed.

Lemma lor_shiftl_add x y : 0 ≤ y < 256 → Z.lor (Z.shiftl x 8) y = x * 256 + y.
Proof. intros. by rewrite lor_shiftl_add_n by (simpl; lia). Qed.

Lemma be16_range b i x : be16 b i = Ret x → 0 ≤ x < 65536.
Proof.
  unfold be16. intros (u & Hu%at_z_range & (v & Hv%at_z_range & H)%res_bind_Ret_inv)%res_bind_Ret_inv.
  simplify_eq. rewrite lor_shiftl_add by done. lia.
Qed.

(** ** Reading behind a cursor

    [at_cur b off rest]: at offset [off] of [b] the bytes [rest] remain. *)
Definition at_cur {A} (b : list A) (off : Z) (rest : list A) : Prop :=
  ∃ pre, b = pre ++ rest ∧ off = len pre.

Lemma at_cur_start {A} (b : list A) : at_cur b 0 b.
Proof. by exists []. Qed.

Lemma at_cur_len {A} (b : list A) off rest : at_cur b off rest → len b = off + len rest.
Proof. intros (pre & -> & ->). apply len_app. Qed.

Lemma at_cur_nonneg {A} (b : list A) off rest : at_cur b off rest → 0 ≤ off.
Proof. intros (pre & _ & ->). apply len_nonneg. Qed.

Lemma at_cur_app {A} (b : list A) off m rest :
  at_cur b off (m ++ rest) → at_cur b (off + len m) rest.
Proof.
  intros (pre & -> & ->). exists (pre ++ m). by rewrite <- app_assoc, len_app.
Qed.

Lemma at_cur_slice {A} (b : list A) off m rest :
  at_cur b off (m ++ rest) → slice b off (off + len m) = Ret m.
Proof.
  intros Hc. pose proof (at_cur_len _ _ _ Hc) as Hl. rewrite len_app in Hl.
  pose proof (at_cur_nonneg _ _ _ Hc). pose proof (len_nonneg m). pose proof (len_nonneg rest).
  unfold slice.
  rewrite (proj2 (Z.leb_le 0 off)), (proj2 (Z.leb_le off _)), (proj2 (Z.leb_le _ (len b))) by lia.
  cbn [andb]. f_equal. destruct Hc as (pre & -> & ->). unfold len.
  rewrite Nat2Z.id. replace (Z.of_nat (length pre) + Z.of_nat (length m) - Z.of_nat (length pre))
    with (Z.of_nat (length m)) by lia.
  rewrite Nat2Z.id. by rewrite drop_app_length, take_app_length.
Qed.

Lemma at_cur_at (b : list byte) off x rest : at_cur b off (x :: rest) → at_z b off = Ret (b2z x).
Proof.
  intros Hc. pose proof (at_cur_len _ _ _ Hc) as Hl. rewrite len_cons in Hl.
  pose proof (at_cur_nonneg _ _ _ Hc). pose proof (len_nonneg rest). unfold at_z, at_.
  rewrite (proj2 (Z.leb_le 0 off)), (proj2 (Z.ltb_lt off _)) by lia. cbn [andb].
  destruct Hc as (pre & -> & ->). unfold len. rewrite Nat2Z.id.
  by rewrite list_lookup_middle.
Qed.

Definition put16 (x : Z) : list byte := [z2b (x / 256); z2b (x mod 256)].
Lemma len_put16 x : len (put16 x) = 2.
Proof. done. Qed.

Lemma at_cur_be16 (b : list byte) off x rest :
  0 ≤ x < 65536 → at_cur b off (put16 x ++ rest) → be16 b off = Ret x.
Proof.
  intros Hx Hc. unfold be16, put16 in *. cbn [app] in Hc.
  rewrite (at_cur_at _ _ _ _ Hc). cbn [res_bind].
  apply (at_cur_app _ _ [z2b (x / 256)] (z2b (x mod 256) :: rest)) in Hc. change (len [_]) with 1 in Hc.
  rewrite (at_cur_at _ _ _ _ Hc). cbn [res_bind].
  pose proof (Z.mod_pos_bound x 256 ltac:(lia)).
  assert (0 ≤ x / 256 < 256) by (split; [apply Z.div_pos|apply Z.div_lt_upper_bound]; lia).
  rewrite !b2z_z2b_small, lor_shiftl_add by lia. f_equal.
  rewrite Z.mul_comm, <- Z.div_mod; lia.
Qed.

Lemma at_cur_cons {A} (b : list A) off x rest : at_cur b off (x :: rest) → at_cur b (off + 1) rest.
Proof. apply (at_cur_app b off [x] rest). Qed.
