(* ===== verification/GoStrings.v ===== *)
(** * Package [strings] (and [bytes]) on byte sequences *)
From S2P Require Export GoBase.
Local Open Scope Z_scope.

Definition bytes_of (s : string) : list byte := list_byte_of_string s.
Definition str_of (b : list byte) : string := string_of_list_byte b.

Lemma str_of_bytes_of s : str_of (bytes_of s) = s.
Proof. apply string_of_list_byte_of_string. Qed.

Lemma bytes_of_str_of b : bytes_of (str_of b) = b.
Proof. apply list_byte_of_string_of_list_byte. Qed.

Lemma bytes_of_inj s t : bytes_of s = bytes_of t → s = t.
Proof. intros H. by rewrite <- (str_of_bytes_of s), H, str_of_bytes_of. Qed.

Lemma str_of_inj a b : str_of a = str_of b → a = b.
Proof. intros H. by rewrite <- (bytes_of_str_of a), H, bytes_of_str_of. Qed.

Definition str_len (s : string) : Z := len (bytes_of s).

Definition beqb (a b : byte) : bool := bool_decide (a = b).
Definition bytes_eqb (a b : list byte) : bool := bool_decide (a = b).

(** [bytes.HasPrefix], [bytes.Index], [bytes.Contains] *)
Fixpoint has_prefix (p s : list byte) : bool :=
  match p, s with
  | [], _ => true
  | x :: p', y :: s' => beqb x y && has_prefix p' s'
  | _ :: _, [] => false
  end.

Fixpoint index_of (p s : list byte) : option nat :=
  if has_prefix p s then Some O
  else match s with [] => None | _ :: s' => S <$> index_of p s' end.

Definition contains (s p : list byte) : bool := bool_decide (is_Some (index_of p s)).
Definition str_contains (s p : string) : bool := contains (bytes_of s) (bytes_of p).
Definition str_has_prefix (s p : string) : bool := has_prefix (bytes_of p) (bytes_of s).

(** [IndexByte] *)
Fixpoint index_byte (c : byte) (s : list byte) : option nat :=
  match s with
  | [] => None
  | x :: s' => if beqb x c then Some O else S <$> index_byte c s'
  end.

(** [LastIndexByte] *)
Definition last_index_byte (c : byte) (s : list byte) : option nat :=
  (λ i, (length s - 1 - i)%nat) <$> index_byte c (rev s).

(** [Cut] around the first occurrence of a byte *)
Fixpoint cut_byte (c : byte) (s : list byte) : option (list byte * list byte) :=
  match s with
  | [] => None
  | x :: s' =>
      if beqb x c then Some ([], s')
      else match cut_byte c s' with
           | Some (a, b) => Some (x :: a, b)
           | None => None
           end
  end.

(** [Split]/[SplitSeq] with a one-byte separator: never empty *)
Fixpoint split_byte (c : byte) (s : list byte) : list (list byte) :=
  match s with
  | [] => [[]]
  | x :: s' =>
      if beqb x c then [] :: split_byte c s'
      else match split_byte c s' with
           | w :: ws => (x :: w) :: ws
           | [] => [[x]]
           end
  end.

Fixpoint join_byte (c : byte) (ws : list (list byte)) : list byte :=
  match ws with
  | [] => []
  | [w] => w
  | w :: ws' => w ++ c :: join_byte c ws'
  end.

Lemma beqb_true a b : beqb a b = true ↔ a = b.
Proof. apply bool_decide_eq_true. Qed.

Lemma beqb_refl a : beqb a a = true.
Proof. by apply beqb_true. Qed.
#[export] Hint Rewrite beqb_refl : remlink.

Lemma beqb_false a b : beqb a b = false ↔ a ≠ b.
Proof. apply bool_decide_eq_false. Qed.

Lemma split_byte_nonempty c s : split_byte c s ≠ [].
Proof.
  destruct s as [|x s]; simpl; [done|]. destruct (beqb x c); [done|].
  by destruct (split_byte c s).
Qed.

Lemma split_byte_no_sep c w : c ∉ w → split_byte c w = [w].
Proof.
  induction w as [|x w IH]; simpl; [done|]. intros Hn.
  rewrite (proj2 (beqb_false x c)) by (intros ->; apply Hn; left).
  rewrite IH; [done|]. intros ?. apply Hn. by right.
Qed.

Lemma split_byte_app c w s : c ∉ w → split_byte c (w ++ c :: s) = w :: split_byte c s.
Proof.
  induction w as [|x w IH]; simpl; intros Hn.
  - by rewrite beqb_refl.
  - rewrite (proj2 (beqb_false x c)) by (intros ->; apply Hn; left).
    rewrite IH; [done|]. intros ?. apply Hn. by right.
Qed.

Lemma split_join c ws :
  ws ≠ [] → (∀ w, w ∈ ws → c ∉ w) → split_byte c (join_byte c ws) = ws.
Proof.
  induction ws as [|w ws IH]; [done|]. intros _ Hn.
  assert (Hw : c ∉ w) by (apply Hn; left).
  destruct ws as [|w' ws]; simpl in *; [by apply split_byte_no_sep|].
  rewrite split_byte_app by done. f_equal. apply IH; [done|].
  intros v Hv. apply Hn. by right.
Qed.

(** ** White space: the ASCII spaces and the UTF-8 encodings of the other
    runes of Unicode's White_Space property *)
Definition ascii_space (b : byte) : bool :=
  let z := b2z b in (z =? 32) || ((9 <=? z) && (z <=? 13)).

Definition wide_space2 (a b : byte) : bool :=
  (b2z a =? 0xC2) && ((b2z b =? 0x85) || (b2z b =? 0xA0)).

Definition wide_space3 (a b c : byte) : bool :=
  let x := b2z a in let y := b2z b in let z := b2z c in
  ((x =? 0xE1) && (y =? 0x9A) && (z =? 0x80))
  || ((x =? 0xE2) && (y =? 0x80) && ((0x80 <=? z) && (z <=? 0x8A)))
  || ((x =? 0xE2) && (y =? 0x80) && ((z =? 0xA8) || (z =? 0xA9) || (z =? 0xAF)))
  || ((x =? 0xE2) && (y =? 0x81) && (z =? 0x9F))
  || ((x =? 0xE3) && (y =? 0x80) && (z =? 0x80)).

Fixpoint trim_left (s : list byte) : list byte :=
  match s with
  | a :: ((b :: ((c :: s3) as s2)) as s1) =>
      if ascii_space a then trim_left s1
      else if wide_space2 a b then trim_left s2
      else if wide_space3 a b c then trim_left s3
      else s
  | [a; b] =>
      if ascii_space a then (if ascii_space b then [] else [b])
      else if wide_space2 a b then [] else s
  | [a] => if ascii_space a then [] else s
  | [] => []
  end.

(** The mirror image, on the reversed string. *)
Fixpoint trim_left_rev (s : list byte) : list byte :=
  match s with
  | a :: ((b :: ((c :: s3) as s2)) as s1) =>
      if ascii_space a then trim_left_rev s1
      else if wide_space2 b a then trim_left_rev s2
      else if wide_space3 c b a then trim_left_rev s3
      else s
  | [a; b] =>
      if ascii_space a then (if ascii_space b then [] else [b])
      else if wide_space2 b a then [] else s
  | [a] => if ascii_space a then [] else s
  | [] => []
  end.

(** [strings.TrimSpace] *)
Definition trim_space (s : list byte) : list byte :=
  rev (trim_left_rev (rev (trim_left s))).
Definition str_trim (s : string) : string := str_of (trim_space (bytes_of s)).

(** [strings.ToUpper] as far as the ASCII content of the result goes: the ASCII
    letters, and the two other runes whose upper case is ASCII (dotless i,
    long s).  Bytes of other runes are left alone; they never become ASCII. *)
Definition byte_upper (b : byte) : byte :=
  let z := b2z b in if (97 <=? z) && (z <=? 122) then z2b (z - 32) else b.

Fixpoint to_upper (s : list byte) : list byte :=
  match s with
  | a :: ((b :: s2) as s1) =>
      if (b2z a =? 0xC4) && (b2z b =? 0xB1) then "I"%byte :: to_upper s2
      else if (b2z a =? 0xC5) && (b2z b =? 0xBF) then "S"%byte :: to_upper s2
      else byte_upper a :: to_upper s1
  | [a] => [byte_upper a]
  | [] => []
  end.

(** [strings.ToLower], in the same sense: the ASCII letters, and the two other
    runes whose lower case is ASCII (I with a dot above, the Kelvin sign). *)
Definition byte_lower (b : byte) : byte :=
  let z := b2z b in if (65 <=? z) && (z <=? 90) then z2b (z + 32) else b.

Fixpoint to_lower (s : list byte) : list byte :=
  match s with
  | [] => []
  | a :: s1 =>
      match s1 with
      | b :: s2 =>
          if (b2z a =? 0xC4) && (b2z b =? 0xB0) then "i"%byte :: to_lower s2
          else match s2 with
               | c :: s3 =>
                   if (b2z a =? 0xE2) && (b2z b =? 0x84) && (b2z c =? 0xAA) then "k"%byte :: to_lower s3
                   else byte_lower a :: to_lower s1
               | [] => byte_lower a :: to_lower s1
               end
      | [] => [byte_lower a]
      end
  end.
Definition str_lower (s : string) : string := str_of (to_lower (bytes_of s)).

(** ** Base64: [base64.StdEncoding.DecodeString], which skips line breaks *)
Definition b64_val (b : byte) : option Z :=
  let c := b2z b in
  if (65 <=? c) && (c <=? 90) then Some (c - 65)
  else if (97 <=? c) && (c <=? 122) then Some (c - 71)
  else if (48 <=? c) && (c <=? 57) then Some (c + 4)
  else if c =? 43 then Some 62
  else if c =? 47 then Some 63
  else None.

Fixpoint b64_quads (s : list byte) : option (list byte) :=
  match s with
  | [] => Some []
  | c1 :: c2 :: c3 :: c4 :: rest =>
      match b64_val c1, b64_val c2 with
      | Some v1, Some v2 =>
          if beqb c3 "="%byte then
            if beqb c4 "="%byte && bool_decide (rest = []) then Some [z2b (v1 * 4 + v2 / 16)] else None
          else
            match b64_val c3 with
            | None => None
            | Some v3 =>
                if beqb c4 "="%byte then
                  if bool_decide (rest = []) then Some [z2b (v1 * 4 + v2 / 16); z2b ((v2 mod 16) * 16 + v3 / 4)]
                  else None
                else
                  match b64_val c4, b64_quads rest with
                  | Some v4, Some r =>
                      Some (z2b (v1 * 4 + v2 / 16) :: z2b ((v2 mod 16) * 16 + v3 / 4)
                              :: z2b ((v3 mod 4) * 64 + v4) :: r)
                  | _, _ => None
                  end
            end
      | _, _ => None
      end
  | _ => None
  end.
Definition base64_DecodeString (s : string) : option string :=
  str_of <$> b64_quads (List.filter (λ b, negb (b2z b =? 10) && negb (b2z b =? 13)) (bytes_of s)).

(** ** Decimal numbers *)
Definition digit (b : byte) : option Z :=
  let z := b2z b in if (48 <=? z) && (z <=? 57) then Some (z - 48) else None.

Definition digit_byte (d : Z) : byte := z2b (48 + d).

(** [strconv.FormatInt] base 10 for an 8-bit value, as [net.IP.String] writes it *)
Definition dec_u8 (x : Z) : list byte :=
  if x <? 10 then [digit_byte x]
  else if x <? 100 then [digit_byte (x / 10); digit_byte (x mod 10)]
  else [digit_byte (x / 100); digit_byte ((x / 10) mod 10); digit_byte (x mod 10)].

(** [strconv.ParseUint(s, 10, bits)] *)
Fixpoint parse_digits (acc : Z) (s : list byte) : option Z :=
  match s with
  | [] => Some acc
  | b :: s' => match digit b with Some d => parse_digits (acc * 10 + d) s' | None => None end
  end.

Definition parse_uint (bits : Z) (s : list byte) : option Z :=
  match s with
  | [] => None
  | _ => match parse_digits 0 s with
         | Some n => if n <? 2 ^ bits then Some n else None
         | None => None
         end
  end.

Lemma digit_digit_byte d : 0 ≤ d < 10 → digit (digit_byte d) = Some d.
Proof.
  intros. unfold digit, digit_byte. rewrite b2z_z2b_small by lia.
  rewrite (proj2 (Z.leb_le _ _)), (proj2 (Z.leb_le _ _)) by lia. simpl. f_equal. lia.
Qed.

Lemma digit_byte_not_dot d : 0 ≤ d < 10 → digit_byte d ≠ "."%byte.
Proof.
  intros Hd H. apply (f_equal b2z) in H. unfold digit_byte in H.
  rewrite b2z_z2b_small in H by lia. change (b2z "."%byte) with 46 in H. lia.
Qed.

Lemma digit_byte_not_colon d : 0 ≤ d < 10 → digit_byte d ≠ ":"%byte.
Proof.
  intros Hd H. apply (f_equal b2z) in H. unfold digit_byte in H.
  rewrite b2z_z2b_small in H by lia. change (b2z ":"%byte) with 58 in H. lia.
Qed.

Example trim_ex : str_trim "  ab c  " = "ab c"%string.
Proof. reflexivity. Qed.
Example upper_ex : str_of (to_upper (bytes_of "ehLo x1")) = "EHLO X1"%string.
Proof. reflexivity. Qed.
Example split_ex : split_byte ","%byte (bytes_of "a,,b") = [bytes_of "a"; []; bytes_of "b"].
Proof. reflexivity. Qed.

(** ** Suffixes, cutting and case folding *)
(** [strings.HasSuffix], [strings.CutSuffix] *)
Definition has_suffix (p s : list byte) : bool := has_prefix (rev p) (rev s).
Definition str_has_suffix (s p : string) : bool := has_suffix (bytes_of p) (bytes_of s).
Definition cut_suffix (p s : list byte) : option (list byte) :=
  if has_suffix p s then Some (take (length s - length p) s) else None.
(** [strings.TrimRight] with one byte *)
Fixpoint trim_left_byte (c : byte) (s : list byte) : list byte :=
  match s with x :: s' => if beqb x c then trim_left_byte c s' else s | [] => [] end.
Definition trim_right_byte (c : byte) (s : list byte) : list byte := rev (trim_left_byte c (rev s)).

(** [strings.EqualFold] on ASCII and the two other runes that fold to ASCII (the
    long s, the Kelvin sign); the other bytes are compared as they are. *)
Fixpoint fold_go (s : list byte) : list byte :=
  match s with
  | [] => []
  | a :: s1 =>
      match s1 with
      | b :: s2 =>
          if (b2z a =? 0xC5) && (b2z b =? 0xBF) then "s"%byte :: fold_go s2
          else match s2 with
               | c :: s3 =>
                   if (b2z a =? 0xE2) && (b2z b =? 0x84) && (b2z c =? 0xAA) then "k"%byte :: fold_go s3
                   else byte_lower a :: fold_go s1
               | [] => byte_lower a :: fold_go s1
               end
      | [] => [byte_lower a]
      end
  end.
Definition fold_bytes (s : string) : list byte := fold_go (bytes_of s).
Definition EqualFold (s t : string) : bool := bool_decide (fold_bytes s = fold_bytes t).

(** [strconv.ParseInt(s, 10, 64)] with its error ignored: out of range clamps,
    bad syntax is zero. *)
Fixpoint parse_u64 (acc : Z) (s : list byte) : option Z :=
  match s with
  | [] => Some acc
  | b :: s' =>
      match digit b with
      | Some d => if 2 ^ 64 <=? acc * 10 + d then Some (2 ^ 64 - 1) else parse_u64 (acc * 10 + d) s'
      | None => None
      end
  end.
Definition parse_int64 (s : list byte) : Z :=
  let num neg ds :=
    match ds with
    | [] => 0
    | _ => match parse_u64 0 ds with
           | Some n => if neg : bool then Z.max min_int64 (- n) else Z.min max_int64 n
           | None => 0
           end
    end in
  match s with
  | c :: s' => if beqb c "-"%byte then num true s' else if beqb c "+"%byte then num false s' else num false s
  | [] => 0
  end.

Lemma has_prefix_spec p : ∀ s, has_prefix p s = true ↔ ∃ r, s = p ++ r.
Proof.
  induction p as [|x p IH]; intros s; cbn; [split; [by exists s|done]|].
  destruct s as [|y s]; [split; [done|by intros [r [=]]]|]. rewrite andb_true_iff, beqb_true, IH. split.
  - intros [-> [r ->]]. by exists r.
  - intros [r [= -> ->]]. split; [done|by exists r].
Qed.
Lemma has_suffix_spec p s : has_suffix p s = true ↔ ∃ r, s = r ++ p.
Proof.
  unfold has_suffix. rewrite has_prefix_spec. split; intros [r Hr].
  - exists (rev r). by rewrite <- (rev_involutive s), Hr, rev_app_distr, rev_involutive.
  - exists (rev r). by rewrite Hr, rev_app_distr.
Qed.

(** Splitting and joining are inverse, and splitting cuts at every separator. *)
Lemma join_byte_cons c w ws : ws ≠ [] → join_byte c (w :: ws) = w ++ c :: join_byte c ws.
Proof. by destruct ws. Qed.
Lemma join_byte_split c s : join_byte c (split_byte c s) = s.
Proof.
  induction s as [|x s IH]; [done|]. cbn [split_byte]. destruct (beqb x c) eqn:E.
  - apply beqb_true in E as ->. rewrite join_byte_cons by apply split_byte_nonempty. by rewrite IH.
  - destruct (split_byte c s) as [|w ws] eqn:Es; [by apply split_byte_nonempty in Es|].
    destruct ws as [|w' ws]; cbn in *; [by rewrite IH|]. by rewrite <- IH.
Qed.
Lemma split_byte_app_sep c a b : split_byte c (a ++ c :: b) = split_byte c a ++ split_byte c b.
Proof.
  induction a as [|x a IH]; cbn [app split_byte]; [by rewrite beqb_refl|]. destruct (beqb x c); rewrite IH; [done|].
  by destruct (split_byte c a) as [|w ws] eqn:E; [apply split_byte_nonempty in E|].
Qed.
Lemma join_byte_app c a b : a ≠ [] → b ≠ [] → join_byte c (a ++ b) = join_byte c a ++ c :: join_byte c b.
Proof.
  intros Ha Hb. induction a as [|w a IH]; [done|]. destruct a as [|w' a]; [by cbn; destruct b|].
  change ((w :: w' :: a) ++ b) with (w :: (w' :: a) ++ b).
  rewrite (join_byte_cons c w ((w' :: a) ++ b)), (join_byte_cons c w (w' :: a)), IH by done. by rewrite <- app_assoc.
Qed.
