(* ===== verification/GoNet.v ===== *)
(** * Package [net]: addresses, prefixes and host:port strings

    [net.IP] is a byte slice: 4 bytes, 16 bytes, or empty for [nil]. *)
From S2P Require Export GoStrings.
Local Open Scope Z_scope.

Definition IP := list byte.
Definition nil_ip : IP := [].
Definition ip_nil (ip : IP) : bool := bool_decide (ip = nil_ip).

Definition v4_in_v6_prefix : list byte :=
  replicate 10 "000"%byte ++ ["255"%byte; "255"%byte].

Definition ip_to4 (ip : IP) : option IP :=
  if Nat.eqb (length ip) 4 then Some ip
  else if Nat.eqb (length ip) 16 && bytes_eqb (firstn 12 ip) v4_in_v6_prefix
       then Some (skipn 12 ip)
  else None.

Definition ip_to16 (ip : IP) : option IP :=
  if Nat.eqb (length ip) 4 then Some (v4_in_v6_prefix ++ ip)
  else if Nat.eqb (length ip) 16 then Some ip
  else None.

(** [IP.Equal]: an IPv4 address and its IPv4-mapped form are equal. *)
Definition ip_Equal (a b : IP) : bool :=
  if Nat.eqb (length a) (length b) then bytes_eqb a b
  else if Nat.eqb (length a) 4 && Nat.eqb (length b) 16 then
    bytes_eqb (firstn 12 b) v4_in_v6_prefix && bytes_eqb a (skipn 12 b)
  else if Nat.eqb (length a) 16 && Nat.eqb (length b) 4 then
    bytes_eqb (firstn 12 a) v4_in_v6_prefix && bytes_eqb (skipn 12 a) b
  else false.

(** ** Printing *)
Definition dotted (ip : IP) : list byte :=
  join_byte "."%byte (map (λ b, dec_u8 (b2z b)) ip).

Definition hex_digit (d : Z) : byte := if d <? 10 then z2b (48 + d) else z2b (87 + d).

(** [appendHex]: lower case, no leading zeros *)
Definition hex16 (x : Z) : list byte :=
  (if 0x1000 <=? x then [hex_digit (x / 0x1000)] else [])
  ++ (if 0x100 <=? x then [hex_digit ((x / 0x100) mod 16)] else [])
  ++ (if 0x10 <=? x then [hex_digit ((x / 0x10) mod 16)] else [])
  ++ [hex_digit (x mod 16)].

Fixpoint groups16 (ip : list byte) : list Z :=
  match ip with
  | a :: b :: r => (b2z a * 256 + b2z b) :: groups16 r
  | _ => []
  end.

Fixpoint zero_run (gs : list Z) : nat :=
  match gs with g :: r => if g =? 0 then S (zero_run r) else O | [] => O end.

(** The longest run of at least two zero groups, the first one on ties:
    [(zeroStart, zeroEnd)]. *)
Fixpoint best_run (i : nat) (gs : list Z) (best : nat * nat) : nat * nat :=
  match gs with
  | [] => best
  | _ :: r =>
      let l := zero_run gs in
      let best' := if Nat.leb 2 l && Nat.ltb (best.2 - best.1) l then (i, i + l)%nat else best in
      best_run (S i) r best'
  end.

Fixpoint print_groups (i : nat) (gs : list Z) (zs ze : nat) : list byte :=
  match gs with
  | [] => []
  | g :: r =>
      if Nat.eqb i zs then
        [":"%byte; ":"%byte] ++ print_groups (S i) r zs ze
      else if Nat.ltb zs i && Nat.ltb i ze then print_groups (S i) r zs ze
      else (if Nat.ltb 0 i && negb (Nat.eqb i ze) then [":"%byte] else [])
             ++ hex16 g ++ print_groups (S i) r zs ze
  end.

Definition v6_string (ip : IP) : list byte :=
  let gs := groups16 ip in
  let '(zs, ze) := best_run 0 gs (255, 255)%nat in
  print_groups 0 gs zs ze.

Definition hex_bytes (ip : list byte) : list byte :=
  flat_map (λ b, [hex_digit (b2z b / 16); hex_digit (b2z b mod 16)]) ip.

(** [IP.String] *)
Definition ip_String (ip : IP) : string :=
  str_of
    match ip with
    | [] => bytes_of "<nil>"
    | _ =>
        match ip_to4 ip with
        | Some ip4 => dotted ip4
        | None => if Nat.eqb (length ip) 16 then v6_string ip
                  else "?"%byte :: hex_bytes ip
        end
    end.

(** ** Parsing: [netip.ParseAddr] *)

(** [parseIPv4Fields]: [first]/[after_dot] say whether the next byte is at
    index 0 or follows a dot; [acc] holds the fields stored so far. *)
Fixpoint v4_fields (s : list byte) (val ndig : Z) (first after_dot : bool)
    (acc : list byte) : option (list byte) :=
  match s with
  | [] => if Nat.ltb (length acc) 3 then None else Some (acc ++ [z2b val])
  | c :: s' =>
      match digit c with
      | Some d =>
          if (ndig =? 1) && (val =? 0) then None
          else let val' := val * 10 + d in
               if 255 <? val' then None
               else v4_fields s' val' (ndig + 1) false false acc
      | None =>
          if beqb c "."%byte then
            if first || after_dot || bool_decide (s' = []) then None
            else if Nat.eqb (length acc) 3 then None
            else v4_fields s' 0 0 false true (acc ++ [z2b val])
          else None
      end
  end.

Definition parse_v4 (s : list byte) : option (list byte) := v4_fields s 0 0 true false [].

Definition hexval (b : byte) : option Z :=
  let z := b2z b in
  if (48 <=? z) && (z <=? 57) then Some (z - 48)
  else if (97 <=? z) && (z <=? 102) then Some (z - 87)
  else if (65 <=? z) && (z <=? 70) then Some (z - 55)
  else None.

(** Scan one hexadecimal group: value, digits read, rest; fails on a fifth
    digit. *)
Fixpoint hex_group (s : list byte) (acc : Z) (off : nat) : option (Z * nat * list byte) :=
  match s with
  | [] => Some (acc, off, [])
  | c :: s' =>
      match hexval c with
      | Some d => if Nat.ltb 3 off then None else hex_group s' (acc * 16 + d) (S off)
      | None => Some (acc, off, s)
      end
  end.

(** The loop of [parseIPv6]: [ip] is the bytes written so far, [ell] the
    position of the ellipsis.  Returns the unparsed rest. *)
Fixpoint v6_loop (fuel : nat) (s ip : list byte) (ell : option nat)
  : option (list byte * option nat * list byte) :=
  match fuel with
  | O => Some (ip, ell, s)
  | S fuel' =>
      match hex_group s 0 0 with
      | None => None
      | Some (_, O, _) => None
      | Some (acc, _, rest) =>
          match rest with
          | [] => Some (ip ++ [z2b (acc / 256); z2b acc], ell, [])
          | c :: rest' =>
              if beqb c "."%byte then
                if bool_decide (ell = None) && negb (Nat.eqb (length ip) 12) then None
                else if Nat.ltb 16 (length ip + 4) then None
                else match parse_v4 s with
                     | Some f => Some (ip ++ f, ell, [])
                     | None => None
                     end
              else
                let ip' := ip ++ [z2b (acc / 256); z2b acc] in
                if negb (beqb c ":"%byte) then None
                else match rest' with
                     | [] => None
                     | c2 :: rest2 =>
                         if beqb c2 ":"%byte then
                           match ell with
                           | Some _ => None
                           | None =>
                               match rest2 with
                               | [] => Some (ip', Some (length ip'), [])
                               | _ => v6_loop fuel' rest2 ip' (Some (length ip'))
                               end
                           end
                         else v6_loop fuel' rest' ip' ell
                     end
          end
      end
  end.

Definition parse_v6_nozone (s : list byte) : option (list byte) :=
  let '(s1, ell0) :=
    match s with
    | a :: b :: r => if beqb a ":"%byte && beqb b ":"%byte then (r, Some O) else (s, None)
    | _ => (s, None)
    end in
  match ell0, s1 with
  | Some _, [] => Some (replicate 16 "000"%byte)
  | _, _ =>
      match v6_loop 8 s1 [] ell0 with
      | Some (ip, ell, []) =>
          if Nat.ltb (length ip) 16 then
            match ell with
            | None => None
            | Some e => Some (firstn e ip ++ replicate (16 - length ip) "000"%byte ++ skipn e ip)
            end
          else match ell with Some _ => None | None => Some ip end
      | _ => None
      end
  end.

(** An address with a zone is refused by [net.ParseIP] and [net.ParseCIDR]; so
    is any text with a percent sign, which is not part of a zone-free address. *)
Fixpoint parse_addr_scan (s : list byte) (whole : list byte) : option (list byte) :=
  match s with
  | [] => None
  | c :: s' =>
      if beqb c "."%byte then parse_v4 whole
      else if beqb c ":"%byte then
        if bool_decide ("%"%byte ∈ whole) then None else parse_v6_nozone whole
      else if beqb c "%"%byte then None
      else parse_addr_scan s' whole
  end.

(** The parsed address, 4 or 16 bytes. *)
Definition parse_addr (s : list byte) : option (list byte) := parse_addr_scan s s.

(** [net.ParseIP]: always the 16-byte form; [nil] on failure. *)
Definition ParseIP (s : string) : IP :=
  match parse_addr (bytes_of s) with
  | Some a => default nil_ip (ip_to16 a)
  | None => nil_ip
  end.

(** ** Prefixes *)
Record IPNet := { net_IP : IP; net_Mask : list byte }.

Definition byte_and (a b : byte) : byte := z2b (Z.land (b2z a) (b2z b)).

(** [CIDRMask(ones, bits)] *)
Fixpoint mask_bytes (n : nat) (ones : Z) : list byte :=
  match n with
  | O => []
  | S n' =>
      (if 8 <=? ones then "255"%byte
       else if ones <=? 0 then "000"%byte
       else z2b (255 - (2 ^ (8 - ones) - 1))) :: mask_bytes n' (ones - 8)
  end.
Definition cidr_mask (ones bits : Z) : list byte := mask_bytes (Z.to_nat (bits / 8)) ones.

(** [IP.Mask] *)
Definition ip_Mask (ip : IP) (mask : list byte) : IP :=
  let mask :=
    if Nat.eqb (length mask) 16 && Nat.eqb (length ip) 4
       && bytes_eqb (firstn 12 mask) (replicate 12 "255"%byte)
    then skipn 12 mask else mask in
  let ip :=
    if Nat.eqb (length mask) 4 && Nat.eqb (length ip) 16
       && bytes_eqb (firstn 12 ip) v4_in_v6_prefix
    then skipn 12 ip else ip in
  if Nat.eqb (length ip) (length mask) then zip_with byte_and ip mask else nil_ip.

(** [dtoi]: a decimal number below 0xFFFFFF, the whole text *)
Definition parse_prefix_len (s : list byte) : option Z :=
  match s with
  | [] => None
  | _ => match parse_digits 0 s with
         | Some n => if n <? 0xFFFFFF then Some n else None
         | None => None
         end
  end.

(** [net.ParseCIDR]: the address and the network *)
Definition ParseCIDR (s : string) : option (IP * IPNet) :=
  match cut_byte "/"%byte (bytes_of s) with
  | None => None
  | Some (addr, mask) =>
      match parse_addr addr with
      | None => None
      | Some a =>
          let bits := len a * 8 in
          match parse_prefix_len mask with
          | None => None
          | Some n =>
              if bits <? n then None
              else
                let m := cidr_mask n bits in
                let a16 := default nil_ip (ip_to16 a) in
                Some (a16, {| net_IP := ip_Mask a16 m; net_Mask := m |})
          end
      end
  end.

(** [networkNumberAndMask] *)
Definition network_number_and_mask (n : IPNet) : IP * list byte :=
  match (match ip_to4 (net_IP n) with
         | Some ip => Some ip
         | None => if Nat.eqb (length (net_IP n)) 16 then Some (net_IP n) else None
         end) with
  | None => (nil_ip, [])
  | Some ip =>
      let m := net_Mask n in
      if Nat.eqb (length m) 4 then
        (if Nat.eqb (length ip) 4 then (ip, m) else (nil_ip, []))
      else if Nat.eqb (length m) 16 then
        (if Nat.eqb (length ip) 4 then (ip, skipn 12 m) else (ip, m))
      else (nil_ip, [])
  end.

(** [IPNet.Contains] *)
Definition net_Contains (n : IPNet) (ip : IP) : bool :=
  let '(nn, m) := network_number_and_mask n in
  let x := default ip (ip_to4 ip) in
  Nat.eqb (length x) (length nn)
  && bytes_eqb (zip_with byte_and nn m) (zip_with byte_and x m).

(** [IPMask.Size]: [(ones, bits)], [(0, 0)] for a non-canonical mask *)
Fixpoint mask_ones (m : list byte) : Z :=
  match m with
  | [] => 0
  | b :: r => if beqb b "255"%byte then 8 + mask_ones r
              else match filter (λ k, mask_bytes 1 k = [b]) [0; 1; 2; 3; 4; 5; 6; 7] with
                   | k :: _ => k
                   | [] => 0
                   end
  end.
Definition mask_Size (m : list byte) : Z * Z :=
  let ones := mask_ones m in
  if bool_decide (m = cidr_mask ones (len m * 8)) then (ones, len m * 8) else (0, 0).

(** [IPNet.String] of a prefix with a canonical mask *)
Definition net_String (n : IPNet) : string :=
  let '(nn, m) := network_number_and_mask n in
  (ip_String nn +:+ "/" +:+ pretty (Z.to_N (mask_Size m).1))%string.

(** ** [net.SplitHostPort]: [None] is an error, whose results are empty *)
Definition SplitHostPort (hp : string) : option (string * string) :=
  let s := bytes_of hp in
  match last_index_byte ":"%byte s with
  | None => None
  | Some i =>
      let port := skipn (S i) s in
      match s with
      | c :: _ =>
          if beqb c "["%byte then
            match index_byte "]"%byte s with
            | None => None
            | Some e =>
                if Nat.eqb (S e) i then
                  let host := firstn (e - 1) (skipn 1 s) in
                  if bool_decide ("["%byte ∈ skipn 1 s) then None
                  else if bool_decide ("]"%byte ∈ skipn (S e) s) then None
                  else Some (str_of host, str_of port)
                else None
            end
          else
            let host := firstn i s in
            if bool_decide (":"%byte ∈ host) then None
            else if bool_decide ("["%byte ∈ s) then None
            else if bool_decide ("]"%byte ∈ s) then None
            else Some (str_of host, str_of port)
      | [] => None
      end
  end.

Example parse_ip_ex1 : ip_String (ParseIP "192.168.90.1") = "192.168.90.1"%string.
Proof. vm_compute. reflexivity. Qed.
Example parse_ip_ex2 : ip_String (ParseIP "2001:DB8:0:0::0:1") = "2001:db8::1"%string.
Proof. vm_compute. reflexivity. Qed.
Example parse_ip_ex3 : ParseIP "192.168.01.1" = nil_ip.
Proof. vm_compute. reflexivity. Qed.
Example parse_ip_ex4 : ip_String (ParseIP "::ffff:10.0.0.1") = "10.0.0.1"%string.
Proof. vm_compute. reflexivity. Qed.
Example parse_ip_ex5 : ip_String (ParseIP "fe80::") = "fe80::"%string.
Proof. vm_compute. reflexivity. Qed.
Example parse_ip_ex6 : ip_String (ParseIP "1:0:0:2:0:0:0:3") = "1:0:0:2::3"%string.
Proof. vm_compute. reflexivity. Qed.
Example parse_ip_ex7 : ip_String (ParseIP "::") = "::"%string ∧ ip_String nil_ip = "<nil>"%string.
Proof. vm_compute. done. Qed.
Example split_host_ex1 : SplitHostPort "10.0.0.1:443" = Some ("10.0.0.1", "443")%string.
Proof. vm_compute. reflexivity. Qed.
Example split_host_ex2 : SplitHostPort "[2001:db8::1]:443" = Some ("2001:db8::1", "443")%string.
Proof. vm_compute. reflexivity. Qed.
Example split_host_ex3 : SplitHostPort "2001:db8::1" = None.
Proof. vm_compute. reflexivity. Qed.
Example cidr_ex : (λ p, net_String p.2) <$> ParseCIDR "192.168.90.7/20" = Some "192.168.80.0/20"%string.
Proof. vm_compute. reflexivity. Qed.
Example cidr_ex6 : (λ p, net_String p.2) <$> ParseCIDR "2001:db8::1/33" = Some "2001:db8::/33"%string.
Proof. vm_compute. reflexivity. Qed.
Example contains_ex :
  (λ p, (net_Contains p.2 (ParseIP "192.168.95.1"), net_Contains p.2 (ParseIP "192.168.96.1")))
    <$> ParseCIDR "192.168.90.7/20" = Some (true, false).
Proof. vm_compute. reflexivity. Qed.

(** ** Dotted-decimal round trip *)
Section dotted.
Local Lemma v4_fields_digit d s val nd first ad acc :
  0 ≤ d < 10 → (nd = 1 → val ≠ 0) → val * 10 + d ≤ 255 →
  v4_fields (digit_byte d :: s) val nd first ad acc
  = v4_fields s (val * 10 + d) (nd + 1) false false acc.
Proof.
  intros Hd Hz Hv. simpl. rewrite digit_digit_byte by done.
  assert ((nd =? 1) && (val =? 0) = false) as ->.
  { destruct (Z.eqb_spec nd 1); [|done]. simpl. apply Z.eqb_neq. auto. }
  by rewrite (proj2 (Z.ltb_ge _ _)) by lia.
Qed.

Lemma v4_fields_octet x s first ad acc :
  0 ≤ x < 256 →
  ∃ nd, v4_fields (dec_u8 x ++ s) 0 0 first ad acc = v4_fields s x nd false false acc.
Proof.
  intros Hx. unfold dec_u8.
  destruct (Z.ltb_spec x 10); [|destruct (Z.ltb_spec x 100)]; cbn [app].
  - exists (0 + 1). rewrite v4_fields_digit by lia. f_equal; lia.
  - exists (0 + 1 + 1).
    pose proof (Z.mod_pos_bound x 10). pose proof (Z.div_mod x 10).
    rewrite !v4_fields_digit by lia. f_equal; lia.
  - exists (0 + 1 + 1 + 1).
    pose proof (Z.mod_pos_bound x 10). pose proof (Z.div_mod x 10).
    pose proof (Z.mod_pos_bound (x / 10) 10). pose proof (Z.div_mod (x / 10) 10).
    assert (x / 100 = x / 10 / 10) as -> by (rewrite Z.div_div by lia; done).
    rewrite !v4_fields_digit by lia. f_equal; lia.
Qed.

Lemma v4_fields_dot s val nd acc :
  s ≠ [] → length acc ≠ 3%nat →
  v4_fields ("."%byte :: s) val nd false false acc
  = v4_fields s 0 0 false true (acc ++ [z2b val]).
Proof.
  intros Hs Hl. cbn [v4_fields]. change (digit "."%byte) with (@None Z). cbn iota.
  rewrite beqb_refl, bool_decide_eq_false_2 by done. simpl.
  by rewrite (proj2 (Nat.eqb_neq _ _) Hl).
Qed.

Lemma dec_u8_nonempty x : dec_u8 x ≠ [].
Proof. unfold dec_u8. by repeat case_match. Qed.

Lemma parse_v4_dotted a b c d :
  parse_v4 (dotted [a; b; c; d]) = Some [a; b; c; d].
Proof.
  unfold parse_v4, dotted. cbn [map join_byte].
  destruct (v4_fields_octet (b2z a) ("."%byte :: dec_u8 (b2z b) ++ "."%byte :: dec_u8 (b2z c) ++ "."%byte :: dec_u8 (b2z d)) true false [] (b2z_range a)) as [n1 ->].
  rewrite v4_fields_dot by (try done; by intros [? ?]%app_nil).
  destruct (v4_fields_octet (b2z b) ("."%byte :: dec_u8 (b2z c) ++ "."%byte :: dec_u8 (b2z d)) false true ([] ++ [z2b (b2z a)]) (b2z_range b)) as [n2 ->].
  rewrite v4_fields_dot by (try done; by intros [? ?]%app_nil).
  destruct (v4_fields_octet (b2z c) ("."%byte :: dec_u8 (b2z d)) false true (([] ++ [z2b (b2z a)]) ++ [z2b (b2z b)]) (b2z_range c)) as [n3 ->].
  rewrite v4_fields_dot by (try done; apply dec_u8_nonempty).
  destruct (v4_fields_octet (b2z d) [] false true ((([] ++ [z2b (b2z a)]) ++ [z2b (b2z b)]) ++ [z2b (b2z c)]) (b2z_range d)) as [n4 E].
  rewrite app_nil_r in E. rewrite E. simpl. by rewrite !z2b_b2z.
Qed.

Lemma dec_u8_digits x : 0 ≤ x < 256 →
  Forall (λ b, ∃ d, 0 ≤ d < 10 ∧ b = digit_byte d) (dec_u8 x).
Proof.
  intros. unfold dec_u8.
  pose proof (Z.mod_pos_bound x 10 ltac:(lia)). pose proof (Z.mod_pos_bound (x / 10) 10 ltac:(lia)).
  assert (0 ≤ x / 10 < 26) by (split; [apply Z.div_pos|apply Z.div_lt_upper_bound]; lia).
  assert (0 ≤ x / 100 < 3) by (split; [apply Z.div_pos|apply Z.div_lt_upper_bound]; lia).
  destruct (Z.ltb_spec x 10); [|destruct (Z.ltb_spec x 100)];
    repeat constructor; eexists; (split; [|reflexivity]); try lia.
  split; [lia|]. apply Z.div_lt_upper_bound; lia.
Qed.

Lemma parse_addr_scan_digits w s whole :
  Forall (λ b, ∃ d, 0 ≤ d < 10 ∧ b = digit_byte d) w →
  parse_addr_scan (w ++ s) whole = parse_addr_scan s whole.
Proof.
  induction 1 as [|b w (d & Hd & ->) Hw IH]; [done|]. cbn [app parse_addr_scan].
  rewrite (proj2 (beqb_false _ _)) by (by apply digit_byte_not_dot).
  rewrite (proj2 (beqb_false _ _)) by (by apply digit_byte_not_colon).
  rewrite (proj2 (beqb_false _ _)); [done|].
  intros E. apply (f_equal b2z) in E. unfold digit_byte in E.
  rewrite b2z_z2b_small in E by lia. change (b2z "%"%byte) with 37 in E. lia.
Qed.

Lemma parse_addr_dotted a b c d :
  parse_addr (dotted [a; b; c; d]) = Some [a; b; c; d].
Proof.
  rewrite <- parse_v4_dotted. unfold parse_addr.
  generalize (dotted [a; b; c; d]) at 2 3. intros whole.
  unfold dotted. cbn [map join_byte].
  rewrite parse_addr_scan_digits by (apply dec_u8_digits, b2z_range). simpl. done.
Qed.

Lemma ip_to4_v4 ip : length ip = 4%nat → ip_to4 ip = Some ip.
Proof. unfold ip_to4. by intros ->. Qed.

Lemma ip_to4_mapped ip : length ip = 4%nat → ip_to4 (v4_in_v6_prefix ++ ip) = Some ip.
Proof.
  intros H. unfold ip_to4. rewrite length_app, H.
  change (length v4_in_v6_prefix) with 12%nat. cbn [Nat.add Nat.eqb andb].
  assert (firstn 12 (v4_in_v6_prefix ++ ip) = v4_in_v6_prefix) as -> by done.
  unfold bytes_eqb. by rewrite bool_decide_eq_true_2.
Qed.

(** [ParseIP] reads back what [String] prints for an IPv4 address. *)
Lemma ParseIP_String_v4 ip :
  length ip = 4%nat → ParseIP (ip_String ip) = v4_in_v6_prefix ++ ip.
Proof.
  intros Hl. destruct ip as [|a [|b [|c [|d [|]]]]]; try done.
  unfold ip_String, ParseIP. rewrite bytes_of_str_of.
  change (ip_to4 [a; b; c; d]) with (Some [a; b; c; d]). cbn iota.
  by rewrite parse_addr_dotted.
Qed.

Lemma ip_String_v4_inj ip1 ip2 :
  length ip1 = 4%nat → length ip2 = 4%nat → ip_String ip1 = ip_String ip2 → ip1 = ip2.
Proof.
  intros H1 H2 E. apply (f_equal ParseIP) in E.
  rewrite !ParseIP_String_v4 in E by done. by apply app_inv_head in E.
Qed.

Lemma ip_String_v4_no_colon ip :
  length ip = 4%nat → ":"%byte ∉ bytes_of (ip_String ip).
Proof.
  intros Hl. destruct ip as [|a [|b [|c [|d [|]]]]]; try done.
  unfold ip_String. rewrite bytes_of_str_of.
  change (ip_to4 [a; b; c; d]) with (Some [a; b; c; d]). cbn iota.
  assert (Hd : ∀ x, ":"%byte ∉ dec_u8 (b2z x)).
  { intros x Hin. pose proof (dec_u8_digits _ (b2z_range x)) as HF.
    rewrite Forall_forall in HF. destruct (HF _ Hin) as (k & Hk & E).
    by apply (digit_byte_not_colon k). }
  unfold dotted. cbn [map join_byte]. set_solver.
Qed.
End dotted.

(** ** [net.ParseMAC] and [HardwareAddr.String] *)

(** [xtoi2(s, e)]: two hex digits, followed by [e] when anything follows. *)
Definition xtoi2 (s : list byte) (e : byte) : option byte :=
  match s with
  | a :: b :: r =>
      if match r with c :: _ => negb (beqb c e) | [] => false end then None
      else match hexval a, hexval b with
           | Some x, Some y => Some (z2b (x * 16 + y))
           | _, _ => None
           end
  | _ => None
  end.

Fixpoint mac_pairs (n : nat) (s : list byte) (sep : byte) : option (list byte) :=
  match n with
  | O => Some []
  | S n => match xtoi2 s sep, mac_pairs n (skipn 3 s) sep with
           | Some b, Some r => Some (b :: r)
           | _, _ => None
           end
  end.

Fixpoint mac_quads (n : nat) (s : list byte) : option (list byte) :=
  match n with
  | O => Some []
  | S n => match xtoi2 (firstn 2 s) "000"%byte, xtoi2 (skipn 2 s) "."%byte, mac_quads n (skipn 5 s) with
           | Some a, Some b, Some r => Some (a :: b :: r)
           | _, _, _ => None
           end
  end.

Definition mac_size_ok (n : Z) : bool := (n =? 6) || (n =? 8) || (n =? 20).

Definition ParseMAC (str : string) : option (list byte) :=
  let s := bytes_of str in
  if len s <? 14 then None
  else
    let c2 := nth 2 s "000"%byte in
    if beqb c2 ":"%byte || beqb c2 "-"%byte then
      if negb ((len s + 1) mod 3 =? 0) then None
      else let n := (len s + 1) / 3 in
           if mac_size_ok n then mac_pairs (Z.to_nat n) s c2 else None
    else if beqb (nth 4 s "000"%byte) "."%byte then
      if negb ((len s + 1) mod 5 =? 0) then None
      else let n := 2 * (len s + 1) / 5 in
           if mac_size_ok n then mac_quads (Z.to_nat (n / 2)) s else None
    else None.

Definition hw_String (hw : list byte) : string :=
  str_of (join_byte ":"%byte (map (λ b, hex_bytes [b]) hw)).

Lemma hexval_hex_digit d : 0 ≤ d < 16 → hexval (hex_digit d) = Some d.
Proof.
  intros Hd. unfold hexval, hex_digit. destruct (Z.ltb_spec d 10); rewrite b2z_z2b_small by lia.
  - rewrite !(proj2 (Z.leb_le _ _)) by lia. simpl. f_equal. lia.
  - rewrite (proj2 (Z.leb_le 48 _)), (proj2 (Z.leb_gt (87 + d) 57)) by lia.
    rewrite !(proj2 (Z.leb_le _ _)) by lia. simpl. f_equal. lia.
Qed.

Lemma xtoi2_hex_bytes b r e :
  match r with c :: _ => c = e | [] => True end → xtoi2 (hex_bytes [b] ++ r) e = Some b.
Proof.
  intros Hr. unfold xtoi2, hex_bytes. cbn [flat_map app].
  assert (match r with c :: _ => negb (beqb c e) | [] => false end = false) as ->.
  { destruct r as [|c r]; [done|]. subst c. by rewrite beqb_refl. }
  pose proof (b2z_range b).
  rewrite !hexval_hex_digit
    by (apply Z.mod_pos_bound || (split; [apply Z.div_pos|apply Z.div_lt_upper_bound]); lia).
  rewrite Z.mul_comm, <- Z.div_mod, z2b_b2z by lia. done.
Qed.

(** A 6-byte hardware address is read back from its printed form. *)
Lemma ParseMAC_String hw : length hw = 6%nat → ParseMAC (hw_String hw) = Some hw.
Proof.
  intros Hl. unfold ParseMAC, hw_String. rewrite bytes_of_str_of.
  destruct hw as [|a [|b [|c [|d [|e [|f [|]]]]]]]; try done.
  change (len _ <? 14) with false. change (beqb (nth 2 _ _) ":"%byte) with true.
  change ((len _ + 1) mod 3 =? 0) with true. change ((len _ + 1) / 3) with 6.
  cbn iota. change (nth 2 _ _) with ":"%byte.
  change (mac_size_ok 6) with true. change (Z.to_nat 6) with 6%nat. cbn iota.
  cbn [map join_byte].
  assert (Hs : ∀ x r, skipn 3 (hex_bytes [x] ++ ":"%byte :: r) = r) by done.
  do 5 (cbn [mac_pairs]; rewrite xtoi2_hex_bytes, Hs by done).
  cbn [mac_pairs]. rewrite <- (app_nil_r (hex_bytes [f])) at 1. by rewrite xtoi2_hex_bytes.
Qed.
