(* ===== verification/GoTime.v ===== *)
(** * Package [time]: the calendar

    Dates of the proleptic Gregorian calendar in a location with a fixed offset
    from UTC, in seconds.  Years are counted from March, so that the leap day is
    a year's last. *)
From S2P Require Export GoNet.
Local Open Scope Z_scope.

(** Days from March 1, year 0 to March 1, year [y]. *)
Definition year_start (y : Z) : Z := 365 * y + y / 4 - y / 100 + y / 400.
(** Days from March 1 to the first of the month [mp] months later. *)
Definition month_start (mp : Z) : Z := (153 * mp + 2) / 5.
(** Days from March 1, year 0 to January 1, 1970. *)
Definition epoch_days : Z := 719468.

(** The March-based year of a day: an estimate from the mean year, corrected by one. *)
Definition year_of (n : Z) : Z :=
  let y := 400 * n / 146097 in
  if n <? year_start y then y - 1 else if year_start (y + 1) <=? n then y + 1 else y.
Definition month_of (doy : Z) : Z := (5 * doy + 2) / 153.

(** [Date()] of a day number since 1970. *)
Definition civil (day : Z) : Z * Z * Z :=
  let n := day + epoch_days in
  let y := year_of n in
  let doy := n - year_start y in
  let mp := month_of doy in
  (if 10 <=? mp then y + 1 else y, if 10 <=? mp then mp - 9 else mp + 3, doy - month_start mp + 1).

(** The day number of a date whose month and day may be out of range, as [time.Date] normalises it. *)
Definition days_of (y m d : Z) : Z :=
  let k := m - 3 in year_start (y + k / 12) + month_start (k mod 12) + d - 1 - epoch_days.

(** [Weekday] of a day, Sunday 0; January 1, 1970 was a Thursday. *)
Definition weekday (day : Z) : Z := (day + 4) mod 7.

Definition day_of (tz : Z) (t : Time) : Z := (t + tz * Second) / (86400 * Second).
Definition midnight (tz day : Z) : Time := day * (86400 * Second) - tz * Second.
Definition time_Date (tz y m d : Z) : Time := midnight tz (days_of y m d).

(** ** Laws *)
Ltac div_eqs := Z.div_mod_to_equations; lia.

Lemma year_of_spec n : year_start (year_of n) ≤ n < year_start (year_of n + 1).
Proof.
  unfold year_of, year_start. set (y := 400 * n / 146097).
  assert (146097 * y ≤ 400 * n < 146097 * (y + 1)) as Hy by (subst y; div_eqs). clearbody y.
  destruct (Z.ltb_spec n (365 * y + y / 4 - y / 100 + y / 400)); [div_eqs|].
  destruct (Z.leb_spec (365 * (y + 1) + (y + 1) / 4 - (y + 1) / 100 + (y + 1) / 400) n); div_eqs.
Qed.

Lemma month_of_spec doy : 0 ≤ doy ≤ 365 → 0 ≤ month_of doy ≤ 11 ∧ month_start (month_of doy) ≤ doy < month_start (month_of doy + 1).
Proof. unfold month_of, month_start. intros. div_eqs. Qed.

Lemma year_length y : 365 ≤ year_start (y + 1) - year_start y ≤ 366.
Proof. unfold year_start. div_eqs. Qed.

(** A date is the day it names. *)
Lemma days_of_civil day : let '(y, m, d) := civil day in days_of y m d = day ∧ 1 ≤ m ≤ 12 ∧ 1 ≤ d ≤ 31.
Proof.
  unfold civil. set (n := day + epoch_days). pose proof (year_of_spec n) as Hy. pose proof (year_length (year_of n)).
  set (y := year_of n) in *. set (doy := n - year_start y).
  destruct (month_of_spec doy ltac:(subst doy; lia)) as (Hm & Hd). set (mp := month_of doy) in *.
  assert (month_start (mp + 1) - month_start mp ≤ 31) by (unfold month_start; div_eqs).
  unfold days_of. destruct (Z.leb_spec 10 mp) as [Hl|Hl].
  - replace ((mp - 9 - 3) / 12) with (-1) by div_eqs. replace ((mp - 9 - 3) mod 12) with mp by div_eqs.
    replace (y + 1 + -1) with y by lia. subst doy n. lia.
  - replace ((mp + 3 - 3) / 12) with 0 by div_eqs. replace ((mp + 3 - 3) mod 12) with mp by div_eqs.
    replace (y + 0) with y by lia. subst doy n. lia.
Qed.

Lemma year_start_mono y z : y ≤ z → year_start y ≤ year_start z.
Proof. unfold year_start. intros. div_eqs. Qed.
Lemma year_of_unique n y : year_start y ≤ n < year_start (y + 1) → year_of n = y.
Proof.
  intros Hy. pose proof (year_of_spec n) as Hs. destruct (Z.lt_trichotomy (year_of n) y) as [Hl|[?|Hl]]; [|done|].
  - pose proof (year_start_mono (year_of n + 1) y ltac:(lia)). lia.
  - pose proof (year_start_mono (y + 1) (year_of n) ltac:(lia)). lia.
Qed.
Lemma month_of_unique doy mp : month_start mp ≤ doy < month_start (mp + 1) → month_of doy = mp.
Proof. unfold month_of, month_start. intros. div_eqs. Qed.

(** The first of the month after the month of [day], and that it is the next first. *)
Lemma next_month day : let '(y, m, d) := civil day in
  let n := days_of y (m + 1) 1 in
  day < n ≤ day + 31 ∧ (civil n).2 = 1 ∧ ∀ k, day < k < n → (civil k).2 ≠ 1.
Proof.
  unfold civil at 1. set (n := day + epoch_days). pose proof (year_of_spec n) as Hy. pose proof (year_length (year_of n)) as Hyl.
  set (y := year_of n) in *. set (doy := n - year_start y).
  destruct (month_of_spec doy ltac:(subst doy; lia)) as (Hm & Hd). set (mp := month_of doy) in *.
  assert (month_start (mp + 1) - month_start mp ≤ 31) by (unfold month_start; div_eqs).
  (* the next first: of the next month, or of March *)
  set (f := if decide (mp = 11) then year_start (y + 1) else year_start y + month_start (mp + 1)).
  assert (n < f ≤ n + 31) as Hf.
  { subst f doy. destruct (decide (mp = 11)) as [E|]; [|lia]. rewrite E in *. change (month_start 11) with 337 in *. lia. }
  assert (∀ k, n < k < f → (civil (k - epoch_days)).2 ≠ 1) as Hnone.
  { intros k Hk. unfold civil. replace (k - epoch_days + epoch_days) with k by lia.
    assert (k < year_start (y + 1)) as Hky.
    { subst f. destruct (decide (mp = 11)) as [E|]; [lia|].
      assert (mp + 1 ≤ 11) as Hmp by lia. assert (month_start (mp + 1) ≤ 337) by (unfold month_start; div_eqs). lia. }
    rewrite (year_of_unique k y) by lia. rewrite (month_of_unique (k - year_start y) mp).
    - cbn [snd]. subst doy. lia.
    - subst f doy. destruct (decide (mp = 11)) as [E|]; [|lia]. rewrite E in *. change (month_start 11) with 337 in *.
      change (month_start (11 + 1)) with 367. lia. }
  assert ((civil (f - epoch_days)).2 = 1) as Hfirst.
  { unfold civil. replace (f - epoch_days + epoch_days) with f by lia. subst f. destruct (decide (mp = 11)) as [E|].
    - rewrite (year_of_unique _ (y + 1)); [|pose proof (year_length (y + 1)); lia].
      replace (year_start (y + 1) - year_start (y + 1)) with 0 by lia. done.
    - assert (month_start (mp + 1) ≤ 337) by (unfold month_start; div_eqs).
      rewrite (year_of_unique _ y) by lia. replace (year_start y + month_start (mp + 1) - year_start y) with (month_start (mp + 1)) by lia.
      rewrite (month_of_unique _ (mp + 1)); [cbn [snd]; lia|]. unfold month_start. div_eqs. }
  assert (∀ y' m', days_of y' m' 1 = f - epoch_days →
    day < days_of y' m' 1 ≤ day + 31 ∧ (civil (days_of y' m' 1)).2 = 1 ∧
    ∀ k, day < k < days_of y' m' 1 → (civil k).2 ≠ 1) as Hfin.
  { intros y' m' ->. split_and!; [subst n; lia..|exact Hfirst|].
    intros k Hk. replace k with (k + epoch_days - epoch_days) by lia. apply Hnone. subst n. lia. }
  cbn zeta. apply Hfin. unfold days_of, f.
  destruct (Z.leb_spec 10 mp) as [Hl|Hl]; destruct (decide (mp = 11)) as [E|E].
  - rewrite E. change ((11 - 9 + 1 - 3) / 12) with 0. change ((11 - 9 + 1 - 3) mod 12) with 0. change (month_start 0) with 0.
    replace (y + 1 + 0) with (y + 1) by lia. lia.
  - assert (mp = 10) as -> by lia. change ((10 - 9 + 1 - 3) / 12) with (-1). change ((10 - 9 + 1 - 3) mod 12) with 11.
    replace (y + 1 + -1) with y by lia. change (10 + 1) with 11. lia.
  - lia.
  - replace ((mp + 3 + 1 - 3) / 12) with 0 by div_eqs. replace ((mp + 3 + 1 - 3) mod 12) with (mp + 1) by div_eqs.
    replace (y + 0) with y by lia. lia.
Qed.

Lemma midnight_day tz day : day_of tz (midnight tz day) = day.
Proof.
  unfold day_of, midnight. replace (day * (86400 * Second) - tz * Second + tz * Second) with (day * (86400 * Second)) by lia.
  apply Z.div_mul. unfold Second. lia.
Qed.
Lemma day_of_bounds tz t : midnight tz (day_of tz t) ≤ t < midnight tz (day_of tz t + 1).
Proof. unfold day_of, midnight, Second. div_eqs. Qed.
