(* ===== verification/Config.v ===== *)
(** * Package [base]: the configuration fields the modelled code reads, and the
    log rate limiter

    [ServerConfig] has the fields of [base.ServerConfig] (server/base/config.go)
    from the virtual-network group to the lock policy; [GetCfg()] is modelled by
    passing the record to the operation that reads it. *)
From S2P Require Export GoNet.
Local Open Scope Z_scope.

Record ServerConfig := {
  ServerDTLS : bool; AdvertiseDTLSAddr : string;
  LinkMode : string; MasterDev : string;
  Ipv4CIDR : string; Ipv4Gateway : string; Ipv4Start : string; Ipv4End : string;
  Ipv6CIDR : string; IpLease : Z; FirewallDriver : string;
  GlobalNat : bool; GlobalNat6 : bool;
  MaxClient : Z; MaxUserClient : Z; DefaultGroup : string;
  CstpKeepalive : Z; CstpDpd : Z; MobileKeepalive : Z; MobileDpd : Z; Mtu : Z;
  DefaultDomain : string; IdleTimeout : Z; SessionTimeout : Z;
  Compression : bool; NoCompressLimit : Z;
  LogPath : string; LogLevel : string; HttpServerLog : bool; Pprof : bool; AuditInterval : Z;
  DisplayError : bool; ExcludeExportIp : bool; SendOtp : bool; SendOtpType : string;
  EncryptionPassword : bool; EnableWebAuth : bool; AllowMobileSSO : bool;
  AntiBruteForce : bool; IPWhiteList_cfg : string; IPBlackList_cfg : string;
  MaxBanCount : Z; BanResetTime : Z; LockTime_cfg : Z;
  MaxGlobalUserBanCount : Z; GlobalUserBanResetTime : Z; GlobalUserLockTime : Z;
  MaxGlobalIPBanCount : Z; GlobalIPBanResetTime : Z; GlobalIPLockTime : Z;
  GlobalLockStateExpirationTime : Z
}.

(** A configuration to evaluate the model on: the lock policy and pool of the
    documentation's examples, other fields empty. *)
Definition example_cfg : ServerConfig := {|
  ServerDTLS := true; AdvertiseDTLSAddr := "443";
  LinkMode := "tun"; MasterDev := "eth0";
  Ipv4CIDR := "192.168.90.0/24"; Ipv4Gateway := "192.168.90.1";
  Ipv4Start := "192.168.90.100"; Ipv4End := "192.168.90.103";
  Ipv6CIDR := ""; IpLease := 86400; FirewallDriver := "";
  GlobalNat := true; GlobalNat6 := false;
  MaxClient := 200; MaxUserClient := 3; DefaultGroup := "";
  CstpKeepalive := 3; CstpDpd := 20; MobileKeepalive := 4; MobileDpd := 60; Mtu := 1460;
  DefaultDomain := ""; IdleTimeout := 0; SessionTimeout := 3600;
  Compression := false; NoCompressLimit := 256;
  LogPath := ""; LogLevel := "info"; HttpServerLog := false; Pprof := false; AuditInterval := 600;
  DisplayError := false; ExcludeExportIp := true; SendOtp := false; SendOtpType := "";
  EncryptionPassword := false; EnableWebAuth := false; AllowMobileSSO := false;
  AntiBruteForce := true; IPWhiteList_cfg := "192.168.90.1,172.16.0.0/24"; IPBlackList_cfg := "";
  MaxBanCount := 5; BanResetTime := 600; LockTime_cfg := 300;
  MaxGlobalUserBanCount := 20; GlobalUserBanResetTime := 600; GlobalUserLockTime := 300;
  MaxGlobalIPBanCount := 40; GlobalIPBanResetTime := 1200; GlobalIPLockTime := 300;
  GlobalLockStateExpirationTime := 3600
|}%string.

(** ** [base.WarnLimiter] (server/base/log.go) *)
Record WarnLimiter := { wl_last : gmap string Time; wl_interval : Duration }.

Definition NewWarnLimiter (interval : Duration) : WarnLimiter :=
  {| wl_last := ∅; wl_interval := interval |}.

Definition WarnLimiter_Allow (t : WarnLimiter) (key : string) (now : Time) : WarnLimiter * bool :=
  match wl_last t !! key with
  | Some lt =>
      if time_Sub now lt <? wl_interval t then (t, false)
      else ({| wl_last := <[key := now]> (wl_last t); wl_interval := wl_interval t |}, true)
  | None => ({| wl_last := <[key := now]> (wl_last t); wl_interval := wl_interval t |}, true)
  end.

Definition WarnLimiter_Clear (t : WarnLimiter) (now : Time) : WarnLimiter :=
  {| wl_last := filter (λ kv : string * Time, time_Sub now kv.2 < wl_interval t) (wl_last t);
     wl_interval := wl_interval t |}.

(** Within one interval a key is let through at most once. *)
Lemma WarnLimiter_Allow_twice t key now now' t1 :
  WarnLimiter_Allow t key now = (t1, true) → time_Sub now' now < wl_interval t →
  (WarnLimiter_Allow t1 key now').2 = false.
Proof.
  intros H Hlt. unfold WarnLimiter_Allow in *.
  assert (wl_last t1 !! key = Some now ∧ wl_interval t1 = wl_interval t) as [-> ->].
  { crush_cases; by rewrite lookup_insert_eq. }
  by rewrite (proj2 (Z.ltb_lt _ _) Hlt).
Qed.

(** Clearing never lets a suppressed key through early. *)
Lemma WarnLimiter_Clear_suppressed t key now :
  (WarnLimiter_Allow t key now).2 = false →
  (WarnLimiter_Allow (WarnLimiter_Clear t now) key now).2 = false.
Proof.
  unfold WarnLimiter_Allow. simpl. intros H.
  destruct (wl_last t !! key) as [lt|] eqn:E; [|done].
  destruct (Z.ltb_spec (time_Sub now lt) (wl_interval t)) as [Hlt|]; [|done].
  rewrite (map_lookup_filter_Some_2 _ _ _ lt) by done.
  by rewrite (proj2 (Z.ltb_lt _ _) Hlt).
Qed.
