(* ===== verification/LockManager.v ===== *)
(** * Brute-force protection: [auth.LockManager] (server/auth/lockmanager.go)

    The four counter tables, the IP lists and the log limiter are the fields of
    [LockManager]; every method is a function from the state to the new state
    (and its result).  Each method runs under [m.mu], so it is one step.
    [time.Now()] and [base.GetCfg()] are the arguments [now] and [cfg]. *)
From S2P Require Export Config.
Local Open Scope Z_scope.

Record LockState := {
  Locked : bool; FailureCount : Z; LockTime : Time; LastAttempt : Time
}.
Definition empty_LockState : LockState :=
  {| Locked := false; FailureCount := 0; LockTime := zero_time; LastAttempt := zero_time |}.

Definition IPListType := Z.
Definition IPWhiteList : IPListType := 0.
Definition IPBlackList : IPListType := 1.

(** A list item is either a single address or a prefix ([nil] for the other). *)
Record ipListItem := { item_IP : IP; item_CIDR : option IPNet }.

Abbreviation locks := (gmap string LockState).
Abbreviation nested_locks := (gmap string (gmap string LockState)).

Record LockManager := {
  ipLocks : locks;
  userLocks : locks;
  ipUserLocks : nested_locks;      (* ip -> username -> state *)
  challengeLocks : nested_locks;   (* ip -> username -> state *)
  ipLists : gmap IPListType (list ipListItem);
  cleanupStarted : bool;           (* cleanupOnce has fired *)
  cleanupDone : option bool;       (* the done channel: not made / open / closed *)
  warnLimiter : WarnLimiter
}.

Definition with_ipLocks (l : locks) (m : LockManager) : LockManager :=
  {| ipLocks := l; userLocks := userLocks m; ipUserLocks := ipUserLocks m;
     challengeLocks := challengeLocks m; ipLists := ipLists m;
     cleanupStarted := cleanupStarted m; cleanupDone := cleanupDone m; warnLimiter := warnLimiter m |}.
Definition with_userLocks (l : locks) (m : LockManager) : LockManager :=
  {| ipLocks := ipLocks m; userLocks := l; ipUserLocks := ipUserLocks m;
     challengeLocks := challengeLocks m; ipLists := ipLists m;
     cleanupStarted := cleanupStarted m; cleanupDone := cleanupDone m; warnLimiter := warnLimiter m |}.
Definition with_ipUserLocks (l : nested_locks) (m : LockManager) : LockManager :=
  {| ipLocks := ipLocks m; userLocks := userLocks m; ipUserLocks := l;
     challengeLocks := challengeLocks m; ipLists := ipLists m;
     cleanupStarted := cleanupStarted m; cleanupDone := cleanupDone m; warnLimiter := warnLimiter m |}.
Definition with_challengeLocks (l : nested_locks) (m : LockManager) : LockManager :=
  {| ipLocks := ipLocks m; userLocks := userLocks m; ipUserLocks := ipUserLocks m;
     challengeLocks := l; ipLists := ipLists m;
     cleanupStarted := cleanupStarted m; cleanupDone := cleanupDone m; warnLimiter := warnLimiter m |}.
Definition with_ipLists (l : gmap IPListType (list ipListItem)) (m : LockManager) : LockManager :=
  {| ipLocks := ipLocks m; userLocks := userLocks m; ipUserLocks := ipUserLocks m;
     challengeLocks := challengeLocks m; ipLists := l;
     cleanupStarted := cleanupStarted m; cleanupDone := cleanupDone m; warnLimiter := warnLimiter m |}.
Definition with_cleanup (s : bool) (d : option bool) (m : LockManager) : LockManager :=
  {| ipLocks := ipLocks m; userLocks := userLocks m; ipUserLocks := ipUserLocks m;
     challengeLocks := challengeLocks m; ipLists := ipLists m;
     cleanupStarted := s; cleanupDone := d; warnLimiter := warnLimiter m |}.
Definition with_warnLimiter (w : WarnLimiter) (m : LockManager) : LockManager :=
  {| ipLocks := ipLocks m; userLocks := userLocks m; ipUserLocks := ipUserLocks m;
     challengeLocks := challengeLocks m; ipLists := ipLists m;
     cleanupStarted := cleanupStarted m; cleanupDone := cleanupDone m; warnLimiter := w |}.

Definition defaultExpireTime : Z := 3600.
Definition warnLogInterval : Duration := 60 * Second.
Definition warnKeyExtractIP : string := "extract_ip:".
Definition warnKeyBlacklist : string := "blacklist:".
Definition warnKeyGlobalIP : string := "giplock:".
Definition warnKeyGlobalUser : string := "guplock:".
Definition warnKeyUserIP : string := "uiplock:".
Definition warnKeyChallenge : string := "chglock:".

(** [GetLockManager]: the state the singleton is created with *)
Definition new_LockManager : LockManager := {|
  ipLocks := ∅; userLocks := ∅; ipUserLocks := ∅; challengeLocks := ∅; ipLists := ∅;
  cleanupStarted := false; cleanupDone := None; warnLimiter := NewWarnLimiter warnLogInterval
|}.

(** ** IP lists *)
Definition parse_item (line : string) : option ipListItem :=
  match ParseCIDR line with
  | Some (_, ipNet) => Some {| item_IP := nil_ip; item_CIDR := Some ipNet |}
  | None =>
      let ip := ParseIP line in
      if bool_decide (ip = nil_ip) then None
      else Some {| item_IP := ip; item_CIDR := None |}
  end.

Definition parse_list (config : string) : list ipListItem :=
  flat_map (λ item,
    flat_map (λ line,
      let line := trim_space line in
      match line with
      | [] => []
      | _ => match parse_item (str_of line) with Some li => [li] | None => [] end
      end) (split_byte "010"%byte item))
    (split_byte ","%byte (bytes_of config)).

Definition LoadIPList (m : LockManager) (listType : IPListType) (config : string) : LockManager :=
  let lists := delete listType (ipLists m) in
  match parse_list config with
  | [] => with_ipLists lists m
  | items => with_ipLists (<[listType := items]> lists) m
  end.

Definition item_matches (clientIP : IP) (item : ipListItem) : bool :=
  match item_CIDR item with
  | Some n => net_Contains n clientIP
  | None => false
  end
  || (negb (bool_decide (item_IP item = nil_ip)) && ip_Equal (item_IP item) clientIP).

Definition InList (m : LockManager) (ip : string) (listType : IPListType) : bool :=
  let clientIP := ParseIP ip in
  if bool_decide (clientIP = nil_ip) then false
  else existsb (item_matches clientIP) (default [] (ipLists m !! listType)).

Definition InBlackList (m : LockManager) (ipaddr : string) : bool :=
  let host := match SplitHostPort ipaddr with Some (h, _) => h | None => ipaddr end in
  InList m host IPBlackList.

Definition warnRateLimited (m : LockManager) (key : string) (now : Time) : LockManager :=
  with_warnLimiter (WarnLimiter_Allow (warnLimiter m) key now).1 m.

(** ** One counter *)

(** The reset performed when a lock has expired. *)
Definition reset_LockState (ls : LockState) : LockState :=
  {| Locked := false; FailureCount := 0; LockTime := zero_time; LastAttempt := LastAttempt ls |}.

Definition lock_expired (ls : LockState) (now : Time) : bool :=
  Locked ls && negb (time_IsZero (LockTime ls)) && time_After now (LockTime ls).

Definition bumpLockState (ls : LockState) (maxCount resetTime lockTime : Z) (now : Time) : LockState :=
  let ls := if lock_expired ls now then reset_LockState ls else ls in
  if Locked ls || time_After (LockTime ls) now then ls
  else
    let count := if seconds resetTime <? time_Sub now (LastAttempt ls) then 0 else FailureCount ls in
    let count := s64 (count + 1) in
    if maxCount <=? count then
      {| Locked := true; FailureCount := count;
         LockTime := time_Add now (seconds lockTime); LastAttempt := now |}
    else
      {| Locked := Locked ls; FailureCount := count; LockTime := LockTime ls; LastAttempt := now |}.

(** [checkState] on a non-nil pointer: the state it leaves and its answer. *)
Definition checkState (ls : LockState) (now : Time) (resetTime : Z) : LockState * bool :=
  if time_IsZero (LastAttempt ls) then (ls, false)
  else if lock_expired ls now then (reset_LockState ls, false)
  else
    let ls' :=
      if (seconds resetTime <? time_Sub now (LastAttempt ls)) && negb (Locked ls)
      then {| Locked := Locked ls; FailureCount := 0; LockTime := LockTime ls; LastAttempt := LastAttempt ls |}
      else ls in
    (ls', Locked ls').

(** [checkState(m[k], ...)]: a missing key is a nil pointer. *)
Definition check_key (m : locks) (k : string) (now : Time) (resetTime : Z) : locks * bool :=
  match m !! k with
  | None => (m, false)
  | Some ls => let '(ls', b) := checkState ls now resetTime in (<[k := ls']> m, b)
  end.

Definition check_key2 (m : nested_locks) (ip user : string) (now : Time) (resetTime : Z)
  : nested_locks * bool :=
  match m !! ip with
  | None => (m, false)
  | Some um => let '(um', b) := check_key um user now resetTime in (<[ip := um']> m, b)
  end.

Section methods.
Context (cfg : ServerConfig).
Implicit Types (m : LockManager) (now : Time).

Definition isUserLocked m (username : string) now : LockManager * bool :=
  let '(l, b) := check_key (userLocks m) username now (GlobalUserBanResetTime cfg) in
  (with_userLocks l m, b).

Definition isIPLocked m (ip : string) now : LockManager * bool :=
  let '(l, b) := check_key (ipLocks m) ip now (GlobalIPBanResetTime cfg) in
  (with_ipLocks l m, b).

Definition isUserIPLocked m (username ip : string) now : LockManager * bool :=
  let '(l, b) := check_key2 (ipUserLocks m) ip username now (BanResetTime cfg) in
  (with_ipUserLocks l m, b).

Definition isChallengeLocked m (username ip : string) now : LockManager * bool :=
  let '(l, b) := check_key2 (challengeLocks m) ip username now (BanResetTime cfg) in
  (with_challengeLocks l m, b).

Definition LockManager_Check m (username ipaddr : string) now : LockManager * bool :=
  match SplitHostPort ipaddr with
  | None => (warnRateLimited m (warnKeyExtractIP +:+ ipaddr) now, false)
  | Some (ip, _) =>
      if InList m ip IPWhiteList then (m, true)
      else if InList m ip IPBlackList then
        (warnRateLimited m (warnKeyBlacklist +:+ ip) now, false)
      else if negb (AntiBruteForce cfg) then (m, true)
      else
        let '(m, b1) := if 0 <? MaxGlobalIPBanCount cfg then isIPLocked m ip now else (m, false) in
        if b1 then (warnRateLimited m (warnKeyGlobalIP +:+ ip) now, false)
        else
        let named := negb (bool_decide (username = ""%string)) in
        let '(m, b2) := if named && (0 <? MaxGlobalUserBanCount cfg)
                        then isUserLocked m username now else (m, false) in
        if b2 then (warnRateLimited m (warnKeyGlobalUser +:+ username) now, false)
        else
        let '(m, b3) := if named && (0 <? MaxBanCount cfg)
                        then isUserIPLocked m username ip now else (m, false) in
        if b3 then (warnRateLimited m (warnKeyUserIP +:+ ip +:+ ":" +:+ username) now, false)
        else
        let '(m, b4) := if named && (0 <? MaxBanCount cfg)
                        then isChallengeLocked m username ip now else (m, false) in
        if b4 then (warnRateLimited m (warnKeyChallenge +:+ ip +:+ ":" +:+ username) now, false)
        else (m, true)
  end.

Definition incrLock m (ip username : string) (maxCount resetTime lockTime : Z) now
    (isUserIP : bool) : LockManager :=
  let bump ls := bumpLockState (default empty_LockState ls) maxCount resetTime lockTime now in
  if isUserIP then
    let um := default ∅ (ipUserLocks m !! ip) in
    with_ipUserLocks (<[ip := <[username := bump (um !! username)]> um]> (ipUserLocks m)) m
  else if negb (bool_decide (username = ""%string)) then
    with_userLocks (<[username := bump (userLocks m !! username)]> (userLocks m)) m
  else
    with_ipLocks (<[ip := bump (ipLocks m !! ip)]> (ipLocks m)) m.

Definition clearUserIP m (ip username : string) : LockManager :=
  match ipUserLocks m !! ip with
  | Some um => with_ipUserLocks (<[ip := alter reset_LockState username um]> (ipUserLocks m)) m
  | None => m
  end.

Definition LockManager_update m (username ipaddr : string) (success : bool) now : LockManager :=
  match SplitHostPort ipaddr with
  | None => warnRateLimited m (warnKeyExtractIP +:+ ipaddr) now
  | Some (ip, _) =>
      if success then
        let m := clearUserIP m ip username in
        let m := with_ipLocks (alter reset_LockState ip (ipLocks m)) m in
        if negb (bool_decide (username = ""%string)) then
          with_userLocks (alter reset_LockState username (userLocks m)) m
        else m
      else
        let m := if 0 <? MaxBanCount cfg then
                   incrLock m ip username (MaxBanCount cfg) (BanResetTime cfg) (LockTime_cfg cfg) now true
                 else m in
        let m := if 0 <? MaxGlobalUserBanCount cfg then
                   incrLock m "" username (MaxGlobalUserBanCount cfg) (GlobalUserBanResetTime cfg)
                     (GlobalUserLockTime cfg) now false
                 else m in
        if 0 <? MaxGlobalIPBanCount cfg then
          incrLock m ip "" (MaxGlobalIPBanCount cfg) (GlobalIPBanResetTime cfg)
            (GlobalIPLockTime cfg) now false
        else m
  end.

(** Delete [username] under [ip], and the inner map once it is empty. *)
Definition delete_nested (ip username : string) (l : nested_locks) : nested_locks :=
  match l !! ip with
  | None => l
  | Some um =>
      let um' := delete username um in
      if bool_decide (um' = ∅) then delete ip l else <[ip := um']> l
  end.

Definition clearChallenge m (username ipaddr : string) : LockManager :=
  match SplitHostPort ipaddr with
  | None => m
  | Some (ip, _) => with_challengeLocks (delete_nested ip username (challengeLocks m)) m
  end.

Definition LockManager_Success m (username ipaddr : string) now : LockManager :=
  clearChallenge (LockManager_update m username ipaddr true now) username ipaddr.

Definition LockManager_StageSuccess m (username ipaddr : string) now : LockManager :=
  LockManager_update m username ipaddr true now.

Definition LockManager_Fail m (username ipaddr : string) now : LockManager :=
  LockManager_update m username ipaddr false now.

(** [getChallengeLS] followed by the store of the bumped state. *)
Definition ChallengeFail m (username ipaddr : string) now : LockManager :=
  match SplitHostPort ipaddr with
  | None => warnRateLimited m (warnKeyExtractIP +:+ ipaddr) now
  | Some (ip, _) =>
      if bool_decide (username = ""%string) then m
      else if MaxBanCount cfg <=? 0 then m
      else
        let um := default ∅ (challengeLocks m !! ip) in
        let ls := default empty_LockState (um !! username) in
        let ls' := bumpLockState ls (MaxBanCount cfg) (BanResetTime cfg) (LockTime_cfg cfg) now in
        with_challengeLocks (<[ip := <[username := ls']> um]> (challengeLocks m)) m
  end.

Definition UnlockUser m (username : string) : LockManager :=
  let m := with_userLocks (delete username (userLocks m)) m in
  with_challengeLocks
    (omap (λ um : locks, let um' := delete username um in
           if bool_decide (um' = ∅) then None else Some um') (challengeLocks m)) m.

(** [host, _, _ := SplitHostPort(ipaddr); if host == "" { host = ipaddr }] *)
Definition unlock_host (ipaddr : string) : string :=
  let host := match SplitHostPort ipaddr with Some (h, _) => h | None => ""%string end in
  if bool_decide (host = ""%string) then ipaddr else host.

Definition UnlockIP m (ipaddr : string) : LockManager :=
  with_ipLocks (delete (unlock_host ipaddr) (ipLocks m)) m.

Definition UnlockUserIP m (username ipaddr : string) : LockManager :=
  let host := unlock_host ipaddr in
  let m := with_ipUserLocks (delete_nested host username (ipUserLocks m)) m in
  with_challengeLocks (delete_nested host username (challengeLocks m)) m.

(** [LockInfo]: description, username, ip and state of every locked counter;
    a Go map's iteration order is unspecified, the model lists one order. *)
Definition LockManager_LockInfo m : list (string * string * string * LockState) :=
  let flat desc (mk : string → string * string) (l : locks) :=
    omap (λ '(k, s), if Locked s then Some (desc, (mk k).1, (mk k).2, s) else None)
      (map_to_list l) in
  let nested desc (l : nested_locks) :=
    flat_map (λ '(ip, um), flat desc (λ u, (u, ip)) um) (map_to_list l) in
  (if 0 <? MaxGlobalIPBanCount cfg then flat "全局IP锁定"%string (λ ip, (""%string, ip)) (ipLocks m) else [])
  ++ (if 0 <? MaxGlobalUserBanCount cfg then flat "全局用户锁定"%string (λ u, (u, ""%string)) (userLocks m) else [])
  ++ (if 0 <? MaxBanCount cfg then
        nested "单用户IP锁定"%string (ipUserLocks m) ++ nested "挑战阶段锁定"%string (challengeLocks m)
      else []).

(** ** Cleanup *)

(** What one iteration does to a state: reset, delete ([None]) or keep. *)
Definition cleanup_state (now : Time) (expireTime : Duration) (s : LockState) : option LockState :=
  if lock_expired s now then Some (reset_LockState s)
  else if (expireTime <? time_Sub now (LastAttempt s)) && negb (Locked s) then None
  else Some s.

Definition cleanup_nested (now : Time) (expireTime : Duration) (l : nested_locks) : nested_locks :=
  omap (λ um : locks, let um' : locks := omap (cleanup_state now expireTime) um in
        if bool_decide (um' = ∅) then None else Some um') l.

Definition LockManager_cleanup m now : LockManager :=
  let expireTime := seconds (GlobalLockStateExpirationTime cfg) in
  let m := with_ipLocks (omap (cleanup_state now expireTime) (ipLocks m)) m in
  let m := with_userLocks (omap (cleanup_state now expireTime) (userLocks m)) m in
  let m := with_ipUserLocks (cleanup_nested now expireTime (ipUserLocks m)) m in
  let m := with_challengeLocks (cleanup_nested now expireTime (challengeLocks m)) m in
  with_warnLimiter (WarnLimiter_Clear (warnLimiter m) now) m.
End methods.

(** ** Life cycle of the cleanup goroutine *)
Definition startCleanup (m : LockManager) : LockManager :=
  if cleanupStarted m then m else with_cleanup true (Some false) m.

Definition LockManager_Stop (m : LockManager) : LockManager :=
  match cleanupDone m with
  | Some false => with_cleanup (cleanupStarted m) (Some true) m
  | _ => m
  end.

(** [Init]: the expiry time written back to the configuration, then the lists. *)
Definition LockManager_Init (m : LockManager) (expire : Z) (whitelist blacklist : string) : Z * LockManager :=
  let expire := if expire <=? 0 then defaultExpireTime else expire in
  (expire, startCleanup (LoadIPList (LoadIPList m IPWhiteList whitelist) IPBlackList blacklist)).

(** * Properties *)

(** The counter of a user on an address, of the first-factor and of the
    challenge table. *)
Definition nested_entry (l : nested_locks) (ip u : string) : option LockState :=
  l !! ip ≫= λ um, um !! u.

Section counter_lemmas.
Implicit Types (ls : LockState) (now : Time).

Lemma checkState_locked ls now r :
  LastAttempt ls ≠ zero_time → Locked ls = true → now ≤ LockTime ls →
  checkState ls now r = (ls, true).
Proof.
  intros Hz HL Ht. unfold checkState, lock_expired, time_IsZero, time_After.
  rewrite (proj2 (Z.eqb_neq _ _) Hz), HL, (proj2 (Z.ltb_ge _ _) Ht), andb_false_r. simpl.
  by rewrite andb_false_r, HL.
Qed.

Lemma checkState_unlocked ls now r :
  Locked ls = false → (checkState ls now r).2 = false.
Proof.
  intros HL. unfold checkState, lock_expired. rewrite HL. simpl.
  by repeat case_match.
Qed.

Lemma checkState_expired ls now r :
  LockTime ls ≠ zero_time → LockTime ls < now → (checkState ls now r).2 = false.
Proof.
  intros Hz Ht. unfold checkState, lock_expired, time_IsZero, time_After.
  rewrite (proj2 (Z.eqb_neq (LockTime ls) _) Hz), (proj2 (Z.ltb_lt _ _) Ht).
  destruct (Locked ls) eqn:HL; simpl; repeat case_match; simpl; congruence.
Qed.

(** What cleanup leaves of a counter answers every later check alike. *)
Lemma cleanup_state_check ls now d now' r :
  now ≤ now' →
  match cleanup_state now d ls with
  | Some ls' => (checkState ls' now' r).2
  | None => false
  end = (checkState ls now' r).2.
Proof.
  intros Hn. unfold cleanup_state.
  destruct (lock_expired ls now) eqn:HE.
  - rewrite checkState_unlocked by done. unfold lock_expired, time_IsZero, time_After in HE.
    bool_to_prop. symmetry. apply checkState_expired; [done|lia].
  - destruct ((d <? time_Sub now (LastAttempt ls)) && negb (Locked ls)) eqn:E; [|done].
    bool_to_prop. by rewrite checkState_unlocked.
Qed.

(** Well-formedness of a counter under a threshold [mx]. *)
Definition ls_wf (mx : Z) ls : Prop :=
  if Locked ls then mx ≤ FailureCount ls
  else 0 ≤ FailureCount ls < mx ∧ LockTime ls = zero_time.

Lemma ls_wf_empty mx : 0 < mx → ls_wf mx empty_LockState.
Proof. intros. unfold ls_wf. simpl. lia. Qed.

Lemma ls_wf_reset mx ls : 0 < mx → ls_wf mx (reset_LockState ls).
Proof. intros. unfold ls_wf. simpl. lia. Qed.

Lemma ls_wf_bump mx r l ls now :
  0 < mx ≤ max_int64 → ls_wf mx ls → ls_wf mx (bumpLockState ls mx r l now).
Proof.
  intros Hmx Hwf. unfold bumpLockState.
  set (ls1 := if lock_expired ls now then reset_LockState ls else ls).
  assert (H1 : ls_wf mx ls1) by (subst ls1; case_match; [apply ls_wf_reset; lia|done]).
  destruct (Locked ls1 || time_After (LockTime ls1) now) eqn:E; [done|].
  bool_to_prop. unfold ls_wf in H1. rewrite H in H1. destruct H1 as [Hc Hz].
  set (c := if seconds r <? _ then 0 else FailureCount ls1).
  assert (0 ≤ c < mx) by (subst c; case_match; lia).
  rewrite sint64_small by (unfold min_int64, max_int64 in *; lia).
  destruct (Z.leb_spec mx (c + 1)); unfold ls_wf; simpl; [lia|]. rewrite H. split; [lia|done].
Qed.

Lemma ls_wf_check mx r ls now :
  0 < mx → ls_wf mx ls → ls_wf mx (checkState ls now r).1.
Proof.
  intros Hmx Hwf. unfold checkState.
  destruct (time_IsZero _); [done|]. destruct (lock_expired ls now); [by apply ls_wf_reset|].
  destruct (_ && _) eqn:E; [|done].
  bool_to_prop. unfold ls_wf in *. simpl. rewrite H0 in *. destruct Hwf. split; [lia|done].
Qed.

Lemma ls_wf_cleanup mx d ls now ls' :
  0 < mx → ls_wf mx ls → cleanup_state now d ls = Some ls' → ls_wf mx ls'.
Proof.
  intros Hmx Hwf H. unfold cleanup_state in H. repeat case_match; simplify_eq; [|done].
  by apply ls_wf_reset.
Qed.

(** A failure recorded after cleanup gives the counter it would have given
    without cleanup. *)
Lemma cleanup_state_bump mx r l d ls now now' :
  ls_wf mx ls → zero_time ≤ now ≤ now' → seconds r ≤ d →
  bumpLockState (default empty_LockState (cleanup_state now d ls)) mx r l now'
  = bumpLockState ls mx r l now'.
Proof.
  intros Hwf Hn Hr. unfold cleanup_state.
  destruct (lock_expired ls now) eqn:HE.
  - simpl. unfold bumpLockState.
    assert (lock_expired ls now' = true) as ->; [|done].
    unfold lock_expired, time_After in *.
    apply andb_true_iff in HE as [[-> ->]%andb_true_iff ?%Z.ltb_lt]. simpl.
    apply Z.ltb_lt. lia.
  - destruct ((d <? time_Sub now (LastAttempt ls)) && negb (Locked ls)) eqn:E; [|done].
    bool_to_prop. simpl. unfold ls_wf in Hwf. rewrite H0 in Hwf. destruct Hwf as [_ Hz].
    unfold bumpLockState, lock_expired. rewrite H0. simpl. rewrite Hz.
    unfold time_After. rewrite (proj2 (Z.ltb_ge _ _)) by lia.
    assert ((seconds r <? time_Sub now' (LastAttempt ls)) = true) as ->.
    { apply Z.ltb_lt. unfold time_Sub in *. lia. }
    rewrite H0. by destruct (seconds r <? time_Sub now' zero_time).
Qed.
End counter_lemmas.

(** ** The answer of [Check], as a function of the four counters *)
Definition entry_locked (o : option LockState) now r : bool :=
  match o with Some ls => (checkState ls now r).2 | None => false end.

Definition check_answer (cfg : ServerConfig) (m : LockManager) (u ip : string) (now : Time) : bool :=
  let named := negb (bool_decide (u = ""%string)) in
  negb ((0 <? MaxGlobalIPBanCount cfg) && entry_locked (ipLocks m !! ip) now (GlobalIPBanResetTime cfg)
        || named && (0 <? MaxGlobalUserBanCount cfg)
           && entry_locked (userLocks m !! u) now (GlobalUserBanResetTime cfg)
        || named && (0 <? MaxBanCount cfg)
           && entry_locked (nested_entry (ipUserLocks m) ip u) now (BanResetTime cfg)
        || named && (0 <? MaxBanCount cfg)
           && entry_locked (nested_entry (challengeLocks m) ip u) now (BanResetTime cfg)).

Section check_lemmas.
Context (cfg : ServerConfig).
Implicit Types (m : LockManager) (now : Time).

Lemma check_key_answer (l : locks) k now r : (check_key l k now r).2 = entry_locked (l !! k) now r.
Proof.
  unfold check_key, entry_locked. destruct (l !! k); [|done]. by destruct (checkState _ _ _).
Qed.

Lemma check_key2_answer l ip k now r :
  (check_key2 l ip k now r).2 = entry_locked (nested_entry l ip k) now r.
Proof.
  unfold check_key2, nested_entry. destruct (l !! ip); [|done]. simpl.
  rewrite <- check_key_answer. by destruct (check_key _ _ _ _).
Qed.

Lemma Check_answer m u ipaddr now ip port :
  SplitHostPort ipaddr = Some (ip, port) →
  (LockManager_Check cfg m u ipaddr now).2 =
    (InList m ip IPWhiteList
     || negb (InList m ip IPBlackList)
        && (negb (AntiBruteForce cfg) || check_answer cfg m u ip now)).
Proof.
  intros Hs. unfold LockManager_Check, check_answer. rewrite Hs.
  destruct (InList m ip IPWhiteList); [done|].
  destruct (InList m ip IPBlackList); [done|].
  destruct (AntiBruteForce cfg); [|done]. simpl.
  unfold isIPLocked, isUserLocked, isUserIPLocked, isChallengeLocked.
  set (named := negb (bool_decide (u = ""%string))).
  rewrite <- !check_key_answer, <- !check_key2_answer.
  destruct (0 <? MaxGlobalIPBanCount cfg);
    [destruct (check_key (ipLocks m) ip now (GlobalIPBanResetTime cfg)) as [l1 [|]]; simpl; [done|]|];
    simpl; destruct named, (0 <? MaxGlobalUserBanCount cfg), (0 <? MaxBanCount cfg); simpl; try done;
    repeat match goal with
    | |- context [check_key ?l ?k ?n ?r] => destruct (check_key l k n r) as [? [|]]; simpl; try done
    | |- context [check_key2 ?l ?i ?k ?n ?r] => destruct (check_key2 l i k n r) as [? [|]]; simpl; try done
    end.
Qed.

Lemma Check_bad_addr m u ipaddr now :
  SplitHostPort ipaddr = None → (LockManager_Check cfg m u ipaddr now).2 = false.
Proof. unfold LockManager_Check. by intros ->. Qed.

(** An address on the white list is admitted whatever the counters hold. *)
Lemma Check_whitelisted m u ipaddr now ip port :
  SplitHostPort ipaddr = Some (ip, port) → InList m ip IPWhiteList = true →
  LockManager_Check cfg m u ipaddr now = (m, true).
Proof. intros Hs Hw. unfold LockManager_Check. by rewrite Hs, Hw. Qed.

Lemma InList_ext m m' ip t : ipLists m' = ipLists m → InList m' ip t = InList m ip t.
Proof. unfold InList. by intros ->. Qed.
End check_lemmas.

(** ** What [Fail] does to each table *)
Section fail_lemmas.
Context (cfg : ServerConfig).
Implicit Types (m : LockManager) (now : Time).

Definition bump_user (o : option LockState) now : LockState :=
  bumpLockState (default empty_LockState o) (MaxBanCount cfg) (BanResetTime cfg) (LockTime_cfg cfg) now.

Lemma nested_entry_insert l ip u ls ip' u' :
  nested_entry (<[ip := <[u := ls]> (default ∅ (l !! ip))]> l) ip' u'
  = if decide (ip = ip' ∧ u = u') then Some ls else nested_entry l ip' u'.
Proof.
  unfold nested_entry. destruct (decide (ip = ip')) as [->|Hne].
  - rewrite lookup_insert_eq. simpl. destruct (decide (u = u')) as [->|Hu].
    + rewrite lookup_insert_eq. by rewrite decide_True.
    + rewrite lookup_insert_ne by done. rewrite decide_False by tauto.
      by destruct (l !! ip').
  - rewrite lookup_insert_ne by done. by rewrite decide_False by tauto.
Qed.

Lemma Fail_ipUserLocks m u ipaddr now ip port ip' u' :
  SplitHostPort ipaddr = Some (ip, port) → 0 < MaxBanCount cfg →
  nested_entry (ipUserLocks (LockManager_Fail cfg m u ipaddr now)) ip' u'
  = if decide (ip = ip' ∧ u = u') then Some (bump_user (nested_entry (ipUserLocks m) ip u) now)
    else nested_entry (ipUserLocks m) ip' u'.
Proof.
  intros Hs Hb. unfold LockManager_Fail, LockManager_update. rewrite Hs.
  rewrite (proj2 (Z.ltb_lt _ _) Hb). unfold incrLock. simpl.
  rewrite <- nested_entry_insert.
  assert (Heq : default ∅ (ipUserLocks m !! ip) !! u = nested_entry (ipUserLocks m) ip u).
  { unfold nested_entry. by destruct (ipUserLocks m !! ip). }
  rewrite <- Heq. unfold bump_user. by repeat case_match.
Qed.

Lemma Fail_other m u ipaddr now :
  ipLists (LockManager_Fail cfg m u ipaddr now) = ipLists m
  ∧ challengeLocks (LockManager_Fail cfg m u ipaddr now) = challengeLocks m.
Proof.
  unfold LockManager_Fail, LockManager_update, incrLock. simpl. by repeat case_match.
Qed.

Lemma Fail_userLocks_ne m u ipaddr now u' :
  u ≠ u' → userLocks (LockManager_Fail cfg m u ipaddr now) !! u' = userLocks m !! u'.
Proof.
  intros Hu. unfold LockManager_Fail, LockManager_update, incrLock. simpl.
  repeat case_match; simpl; try done; by rewrite lookup_insert_ne.
Qed.

Lemma Fail_ipLocks_ne m u ipaddr now ip port ip' :
  SplitHostPort ipaddr = Some (ip, port) → u ≠ ""%string → ip ≠ ip' →
  ipLocks (LockManager_Fail cfg m u ipaddr now) !! ip' = ipLocks m !! ip'.
Proof.
  intros Hs Hu Hip. unfold LockManager_Fail, LockManager_update, incrLock. rewrite Hs. simpl.
  rewrite (bool_decide_eq_false_2 (u = ""%string)) by done. simpl.
  repeat case_match; simpl; try done; by rewrite lookup_insert_ne.
Qed.

Lemma Fail_ipUserLocks_ne m u ipaddr now ip port ip' u' :
  SplitHostPort ipaddr = Some (ip, port) → ip ≠ ip' →
  nested_entry (ipUserLocks (LockManager_Fail cfg m u ipaddr now)) ip' u'
  = nested_entry (ipUserLocks m) ip' u'.
Proof.
  intros Hs Hip. destruct (Z.ltb_spec 0 (MaxBanCount cfg)) as [Hb|Hb].
  - rewrite (Fail_ipUserLocks _ _ _ _ _ _ _ _ Hs Hb). by rewrite decide_False by tauto.
  - unfold LockManager_Fail, LockManager_update, incrLock. rewrite Hs. simpl.
    rewrite (proj2 (Z.ltb_ge _ _) Hb). by repeat case_match.
Qed.
End fail_lemmas.

(** ** The lockout *)

(** A run of failures of one user from one address, at the given times. *)
Definition fail_run cfg m (u ipaddr : string) (ts : list Time) : LockManager :=
  fold_left (λ m t, LockManager_Fail cfg m u ipaddr t) ts m.

(** Every failure comes at most [d] after the one before. *)
Fixpoint gaps_within (d : Duration) (prev : Time) (ts : list Time) : Prop :=
  match ts with
  | [] => True
  | t :: r => prev ≤ t ≤ prev + d ∧ gaps_within d t r
  end.

Section lockout.
Context (cfg : ServerConfig).
Hypothesis Hmax : 0 < MaxBanCount cfg ≤ max_int64.
Hypothesis Hreset : 0 ≤ BanResetTime cfg ≤ 9000000000.

(** A counter that has recorded [k] failures, the last one at [t]. *)
Definition counted (k : Z) (t : Time) (ls : LockState) : Prop :=
  Locked ls = false ∧ FailureCount ls = k ∧ LockTime ls = zero_time ∧ LastAttempt ls = t.

Lemma bump_counted k t ls t' :
  counted k t ls → 0 ≤ k < MaxBanCount cfg → zero_time ≤ t ≤ t' →
  (k ≠ 0 → t' ≤ t + BanResetTime cfg * Second) →
  bump_user cfg (Some ls) t' =
    if MaxBanCount cfg <=? k + 1 then
      {| Locked := true; FailureCount := k + 1;
         LockTime := t' + seconds (LockTime_cfg cfg); LastAttempt := t' |}
    else {| Locked := false; FailureCount := k + 1; LockTime := zero_time; LastAttempt := t' |}.
Proof.
  intros (HL & Hk & Hz & Ht) Hr Htt Hgap. unfold bump_user, bumpLockState, lock_expired. simpl.
  rewrite HL. simpl. rewrite HL, Hz, Hk, Ht. unfold time_After.
  rewrite (proj2 (Z.ltb_ge t' zero_time)) by lia. rewrite seconds_small by lia. simpl.
  assert ((if BanResetTime cfg * Second <? time_Sub t' t then 0 else k) = k) as ->.
  { destruct (decide (k = 0)) as [->|Hk0]; [by case_match|].
    specialize (Hgap Hk0). rewrite (proj2 (Z.ltb_ge _ _)); [done|].
    unfold time_Sub, Second, min_int64, max_int64 in *. lia. }
  rewrite sint64_small by (unfold min_int64, max_int64 in *; lia). done.
Qed.

Lemma counted_empty t : zero_time ≤ t → counted 0 zero_time empty_LockState.
Proof. done. Qed.

(** Folding the counter itself over the failure times. *)
Definition bump_run (o : option LockState) (ts : list Time) : option LockState :=
  fold_left (λ o t, Some (bump_user cfg o t)) ts o.

Lemma bump_run_counted ts : ∀ k t ls,
  counted k t ls → 0 < k → zero_time ≤ t →
  gaps_within (BanResetTime cfg * Second) t ts → k + len ts < MaxBanCount cfg →
  ∃ ls', bump_run (Some ls) ts = Some ls' ∧ counted (k + len ts) (List.last ts t) ls'.
Proof.
  induction ts as [|t' ts IH]; intros k t ls Hc Hk Hz Hg Hn.
  - exists ls. rewrite len_nil, Z.add_0_r. done.
  - destruct Hg as [Ht Hg]. rewrite len_cons in Hn |- *. rewrite last_cons_cons.
    pose proof (len_nonneg ts). simpl.
    rewrite (bump_counted k t) by (done || lia).
    rewrite (proj2 (Z.leb_gt _ _)) by lia.
    destruct (IH (k + 1) t' {| Locked := false; FailureCount := k + 1;
                               LockTime := zero_time; LastAttempt := t' |})
      as (ls' & He & Hc'); [done|lia|lia|done|lia|].
    exists ls'. split; [done|].
    by replace (k + (1 + len ts)) with (k + 1 + len ts) by lia.
Qed.

Lemma fail_run_entry m u ipaddr ip port ts :
  SplitHostPort ipaddr = Some (ip, port) →
  nested_entry (ipUserLocks (fail_run cfg m u ipaddr ts)) ip u
  = bump_run (nested_entry (ipUserLocks m) ip u) ts.
Proof.
  intros Hs. unfold fail_run, bump_run. revert m.
  induction ts as [|t ts IH]; intros m; simpl; [done|].
  rewrite IH, (Fail_ipUserLocks cfg m u ipaddr t ip port ip u Hs) by lia.
  by rewrite decide_True.
Qed.

Lemma fail_run_lists m u ipaddr ts : ipLists (fail_run cfg m u ipaddr ts) = ipLists m.
Proof.
  unfold fail_run. revert m. induction ts as [|t ts IH]; intros m; simpl; [done|].
  rewrite IH. apply Fail_other.
Qed.

Lemma bump_run_locked t0 ts t1 :
  zero_time ≤ t0 → gaps_within (BanResetTime cfg * Second) t0 (ts ++ [t1]) →
  len ts + 2 = MaxBanCount cfg →
  ∃ ls, bump_run None (t0 :: ts ++ [t1]) = Some ls ∧ Locked ls = true
        ∧ LastAttempt ls = t1 ∧ LockTime ls = t1 + seconds (LockTime_cfg cfg).
Proof.
  intros Hz Hg Hn. pose proof (len_nonneg ts).
  assert (Hg' : gaps_within (BanResetTime cfg * Second) t0 ts
                ∧ List.last ts t0 ≤ t1 ≤ List.last ts t0 + BanResetTime cfg * Second
                ∧ zero_time ≤ List.last ts t0).
  { clear Hn. revert t0 Hz Hg. induction ts as [|t ts IH]; intros t0 Hz Hg.
    - by destruct Hg.
    - destruct Hg as [Ht Hg]. rewrite last_cons_cons.
      edestruct (IH (len_nonneg ts) t) as (?&?&?); [lia|done|]. done. }
  destruct Hg' as (Hg1 & Hl & Hzl).
  assert (Hfirst : bump_run None (t0 :: ts ++ [t1])
                   = bump_run (Some {| Locked := false; FailureCount := 1;
                                       LockTime := zero_time; LastAttempt := t0 |}) (ts ++ [t1])).
  { unfold bump_run. simpl.
    change (bump_user cfg None t0) with (bump_user cfg (Some empty_LockState) t0).
    rewrite (bump_counted 0 zero_time) by (done || lia).
    by rewrite (proj2 (Z.leb_gt _ _)) by lia. }
  rewrite Hfirst. unfold bump_run. rewrite fold_left_app. simpl.
  destruct (bump_run_counted ts 1 t0 {| Locked := false; FailureCount := 1;
                                        LockTime := zero_time; LastAttempt := t0 |})
    as (ls & He & Hc); [done|lia|done|done|lia|].
  unfold bump_run in He. rewrite He.
  rewrite (bump_counted (1 + len ts) (List.last ts t0)) by (done || lia).
  rewrite (proj2 (Z.leb_le _ _)) by lia. by eexists.
Qed.
End lockout.



(** ** Challenge-stage lock *)

(** First-factor traffic: failures and first-factor successes of anyone. *)
Inductive first_factor := FFail (u a : string) (t : Time) | FStageSuccess (u a : string) (t : Time).
Definition first_factor_step cfg m (e : first_factor) : LockManager :=
  match e with
  | FFail u a t => LockManager_Fail cfg m u a t
  | FStageSuccess u a t => LockManager_StageSuccess cfg m u a t
  end.

Lemma first_factor_frame cfg es : ∀ m,
  challengeLocks (fold_left (first_factor_step cfg) es m) = challengeLocks m
  ∧ ipLists (fold_left (first_factor_step cfg) es m) = ipLists m.
Proof.
  induction es as [|e es IH]; intros m; [done|]. simpl.
  destruct (IH (first_factor_step cfg m e)) as [-> ->].
  destruct e as [u a t|u a t]; simpl; [destruct (Fail_other cfg m u a t); done|].
  unfold LockManager_StageSuccess, LockManager_update, clearUserIP.
  by repeat case_match.
Qed.

(** C35.  The challenge-stage lock is independent of the first factor: while the
    challenge counter of a user on an address is locked, no sequence of
    first-factor failures and successes (of that user or of others) makes
    [Check] admit the user again from there. *)
Theorem challenge_lock_survives_first_factor cfg m u ipaddr ip port es now :
  SplitHostPort ipaddr = Some (ip, port) → u ≠ ""%string →
  AntiBruteForce cfg = true → 0 < MaxBanCount cfg → InList m ip IPWhiteList = false →
  entry_locked (nested_entry (challengeLocks m) ip u) now (BanResetTime cfg) = true →
  (LockManager_Check cfg (fold_left (first_factor_step cfg) es m) u ipaddr now).2 = false.
Proof.
  intros Hs Hu Hab Hb Hw Hl. destruct (first_factor_frame cfg es m) as [Hc Hi].
  rewrite (Check_answer _ _ _ _ _ _ _ Hs), Hab, (InList_ext m _ ip IPWhiteList) by done.
  rewrite Hw. cbn [orb negb]. apply andb_false_iff. right. unfold check_answer.
  rewrite Hc, Hl, bool_decide_eq_false_2 by done.
  rewrite (proj2 (Z.ltb_lt 0 (MaxBanCount cfg))) by lia. simpl. by rewrite !orb_true_r.
Qed.

Lemma challenge_lock_survives_first_factor_witness :
  let m := fold_left (λ m k, ChallengeFail example_cfg m "bob" "10.1.2.3:5000" (k * Second))
             [1000; 1001; 1002; 1003; 1004] new_LockManager in
  (LockManager_Check example_cfg
     (fold_left (first_factor_step example_cfg)
        [FStageSuccess "bob" "10.1.2.3:5001" (1005 * Second); FFail "eve" "10.1.2.3:1" (1006 * Second)] m)
     "bob" "10.1.2.3:6000" (1300 * Second)).2 = false.
Proof.
  eapply (challenge_lock_survives_first_factor example_cfg _ "bob" "10.1.2.3:6000" "10.1.2.3" "6000").
  all: vm_compute; done.
Defined.

(** ** Cleanup *)
Lemma cleanup_nested_entry now d l ip u :
  nested_entry (cleanup_nested now d l) ip u = nested_entry l ip u ≫= cleanup_state now d.
Proof.
  unfold nested_entry, cleanup_nested. rewrite lookup_omap.
  destruct (l !! ip) as [um|]; simpl; [|done].
  case_bool_decide as He; simpl.
  - rewrite <- lookup_omap. rewrite He. by rewrite lookup_empty.
  - apply lookup_omap.
Qed.

Lemma cleanup_entry_locked o now d now' r :
  now ≤ now' → entry_locked (o ≫= cleanup_state now d) now' r = entry_locked o now' r.
Proof.
  intros Hn. destruct o as [ls|]; [|done]. simpl.
  rewrite <- (cleanup_state_check ls now d now' r Hn). by destruct (cleanup_state now d ls).
Qed.

Lemma cleanup_check_answer cfg m now u ip now' :
  now ≤ now' → check_answer cfg (LockManager_cleanup cfg m now) u ip now' = check_answer cfg m u ip now'.
Proof.
  intros Hn. unfold check_answer, LockManager_cleanup. simpl.
  by rewrite !lookup_omap, !cleanup_nested_entry, !cleanup_entry_locked.
Qed.



(** ** Isolation *)

(**  Isolation: failures of one user from one address never change what
    [Check] answers another user on another address. *)
Theorem fail_isolated cfg m u ipaddr ip port u' ipaddr' ip' port' now now' :
  SplitHostPort ipaddr = Some (ip, port) → SplitHostPort ipaddr' = Some (ip', port') →
  u ≠ ""%string → u ≠ u' → ip ≠ ip' →
  (LockManager_Check cfg (LockManager_Fail cfg m u ipaddr now) u' ipaddr' now').2
  = (LockManager_Check cfg m u' ipaddr' now').2.
Proof.
  intros Hs Hs' Hu Huu Hip. rewrite !(Check_answer _ _ _ _ _ _ _ Hs').
  destruct (Fail_other cfg m u ipaddr now) as [Hl Hc].
  rewrite !(InList_ext m (LockManager_Fail cfg m u ipaddr now)) by done. unfold check_answer.
  rewrite Hc, (Fail_ipUserLocks_ne _ _ _ _ _ _ _ _ _ Hs) by done.
  by rewrite Fail_userLocks_ne, (Fail_ipLocks_ne _ _ _ _ _ _ _ _ Hs).
Qed.

Lemma fail_isolated_witness :
  (LockManager_Check example_cfg
     (LockManager_Fail example_cfg new_LockManager "alice" "10.1.2.3:5000" (1000 * Second))
     "bob" "10.9.9.9:1" (1001 * Second)).2
  = (LockManager_Check example_cfg new_LockManager "bob" "10.9.9.9:1" (1001 * Second)).2.
Proof.
  apply (fail_isolated _ _ _ _ "10.1.2.3" "5000" _ _ "10.9.9.9" "1").
  all: vm_compute; done.
Defined.
