(* ===== verification/DbTypes.v ===== *)
(** * Package [dbdata]: the rows the modelled code reads and writes

    The structs of server/dbdata/tables.go, ip_map.go and group.go.  A Go nil
    pointer field is [None].  Fields of different structs that share a name
    carry the struct's prefix. *)
From S2P Require Export Config.
Local Open Scope Z_scope.

(** [dbdata.IpMap]: one v4 binding (and its optional v6 address) of a MAC in a group. *)
Record IpMap := {
  im_Id : Z; im_IpAddr : string; im_IpAddr6 : string; im_MacAddr : string;
  im_Group : string; im_UniqueMac : bool; im_Username : string; im_Nickname : string;
  im_Keep : bool; im_KeepTime : Time; im_Note : string;
  im_LastLogin : Time; im_UpdatedAt : Time
}.

(** [&dbdata.IpMap{...}] with the fields the pool sets, the others zero. *)
Definition new_IpMap (addr addr6 mac : string) (unique : bool) (user : string) (t : Time)
    (grp : string) : IpMap := {|
  im_Id := 0; im_IpAddr := addr; im_IpAddr6 := addr6; im_MacAddr := mac; im_Group := grp;
  im_UniqueMac := unique; im_Username := user; im_Nickname := ""; im_Keep := false;
  im_KeepTime := zero_time; im_Note := ""; im_LastLogin := t; im_UpdatedAt := zero_time |}.

(** The assignments [mi.Username = ..; mi.LastLogin = ..; mi.MacAddr = ..;
    mi.UniqueMac = ..; mi.Group = ..] that hand a row to a client. *)
Definition rebind (mi : IpMap) (user : string) (t : Time) (mac : string) (unique : bool)
    (grp : string) : IpMap := {|
  im_Id := im_Id mi; im_IpAddr := im_IpAddr mi; im_IpAddr6 := im_IpAddr6 mi;
  im_MacAddr := mac; im_Group := grp; im_UniqueMac := unique; im_Username := user;
  im_Nickname := im_Nickname mi; im_Keep := im_Keep mi; im_KeepTime := im_KeepTime mi;
  im_Note := im_Note mi; im_LastLogin := t; im_UpdatedAt := im_UpdatedAt mi |}.

(** The assignments [mi.IpAddr6 = ..; mi.Username = ..; mi.LastLogin = ..]. *)
Definition set_addr6 (mi : IpMap) (addr6 user : string) (t : Time) : IpMap := {|
  im_Id := im_Id mi; im_IpAddr := im_IpAddr mi; im_IpAddr6 := addr6;
  im_MacAddr := im_MacAddr mi; im_Group := im_Group mi; im_UniqueMac := im_UniqueMac mi;
  im_Username := user; im_Nickname := im_Nickname mi; im_Keep := im_Keep mi;
  im_KeepTime := im_KeepTime mi; im_Note := im_Note mi; im_LastLogin := t;
  im_UpdatedAt := im_UpdatedAt mi |}.

Record ValData := { Val : string; IpMask : string; vd_Note : string }.

(** [dbdata.GroupLinkAcl]; [Ports] is the [map[uint16]int8], [None] when nil. *)
Record GroupLinkAcl := {
  Action : string; Protocol : string; IpProto : Z; acl_Val : string; Port : string;
  Ports : option (gmap Z Z); acl_IpNet : option IPNet; acl_Note : string
}.

Record Group := {
  grp_Id : Z; grp_Name : string; grp_Note : string; SplitDns : list ValData;
  grp_PolicyId : Z; AuthProfile : string; grp_Status : Z; Hidden : Z;
  ClientCidr : string; ClientStart : string; ClientEnd : string; ClientGateway : string;
  ClientCidr6 : string; OutDev : string; grp_CreatedAt : Time; grp_UpdatedAt : Time
}.

Record User := {
  usr_Id : Z; usr_Type : string; usr_Username : string; usr_Nickname : string;
  Email : string; Phone : string; PinCode : string; LimitTime : option Time;
  OtpSecret : string; DisableOtp : bool; Groups : list string; usr_Mtu : Z;
  usr_PolicyId : Z; TrafficUsed : Z; TrafficResetAt : option Time; usr_Status : Z;
  ForcePwd : bool; SendEmail : bool; usr_CreatedAt : Time; usr_UpdatedAt : Time
}.

(** [&User{}] *)
Definition zero_User : User := {|
  usr_Id := 0; usr_Type := ""; usr_Username := ""; usr_Nickname := ""; Email := ""; Phone := "";
  PinCode := ""; LimitTime := None; OtpSecret := ""; DisableOtp := false; Groups := [];
  usr_Mtu := 0; usr_PolicyId := 0; TrafficUsed := 0; TrafficResetAt := None; usr_Status := 0;
  ForcePwd := false; SendEmail := false; usr_CreatedAt := zero_time; usr_UpdatedAt := zero_time |}.

Record Policy := {
  pol_Id : Z; pol_Name : string; pol_Note : string; AllowLan : bool;
  ClientDns : list ValData; RouteInclude : list ValData; RouteExclude : list ValData;
  DsExcludeDomains : string; DsIncludeDomains : string; LinkAcl : list GroupLinkAcl;
  Bandwidth : Z; BandwidthUp : Z; TrafficQuota : Z; TrafficReset : string;
  EnableFakeDNS : bool; FakeDNSUpstream : string; FakeDNSInclude : string;
  FakeDNSExclude : string; PreferIPv6 : bool;
  FakeDNSIncludeSet : gset string; FakeDNSExcludeSet : gset string;
  pol_Status : Z; pol_CreatedAt : Time; pol_UpdatedAt : Time
}.

(** [user_act_log.go]: reasons of a logout. *)
Definition UserLogoutLose : Z := 0.
Definition UserLogoutBanner : Z := 1.
Definition UserLogoutClient : Z := 2.
Definition UserLogoutTimeout : Z := 3.
Definition UserLogoutAdmin : Z := 4.
Definition UserLogoutExpire : Z := 5.
Definition UserIdleTimeout : Z := 6.
Definition UserLogoutQuota : Z := 8.
Definition UserLogoutReconn : Z := 9.
Definition UserLogoutLink : Z := 10.
Definition UserLogoutTunErr : Z := 11.

(** [dbdata.IsExpired] *)
Definition IsExpired (limitTime : option Time) (now : Time) : bool :=
  match limitTime with Some t => negb (time_Before now t) | None => false end.
