(* ===== verification/IpPool.v ===== *)
(** * The address pools (server/sessdata/ip_pool.go)

    The state under [ipPoolMux]: the global pool, the cached group pools, the
    set of active addresses and the binding table.  The table is the SQL table
    [ip_map] behind xorm; it is the type class [IpMapStore], whose operations
    are the queries the code issues, and [IpMapStoreLaws] is what SQL's WHERE
    guarantees of their answers. *)
From S2P Require Export DbTypes.
Local Open Scope Z_scope.

(** ** The binding table *)
Class IpMapStore (db : Type) := {
  one_addr : db → string → lookup_res IpMap;            (* One("ip_addr", s, mi) *)
  one_addr6 : db → string → lookup_res IpMap;           (* One("ip_addr6", s, mi) *)
  one_mac : db → string → string → lookup_res IpMap;    (* mac_addr=? AND ip_group=? *)
  find_user : db → Z → string → string → lookup_res (list IpMap); (* username=? AND ip_group=? *)
  store_add : db → IpMap → db * bool;                   (* Add: false is an error *)
  store_set : db → IpMap → db * bool;                   (* Set, by Id *)
  store_del : db → Z → db * bool                        (* Del, by Id *)
}.

Class IpMapStoreLaws (db : Type) `{IpMapStore db} : Prop := {
  one_addr_where : ∀ d s r, one_addr d s = Found r → im_IpAddr r = s;
  one_addr_id : ∀ d s r, one_addr d s = Found r → 0 < im_Id r;   (* pk autoincr *)
  one_addr6_where : ∀ d s r, one_addr6 d s = Found r → im_IpAddr6 r = s;
  one_mac_where : ∀ d m g r, one_mac d m g = Found r → im_MacAddr r = m ∧ im_Group r = g;
  find_user_where : ∀ d n u g l, find_user d n u g = Found l →
    Forall (λ r, im_Username r = u ∧ im_Group r = g) l
}.

(** ** Data *)
Definition ipPoolUserQueryLimit : Z := 30.

(** [ipPoolConfig]; a nil [*big.Int] or [*net.IPNet] is [None]. *)
Record ipPoolConfig := {
  Ipv4Gateway_p : IP; Ipv4Mask : IP; Ipv4IPNet : option IPNet;
  IpLongMin : Z; IpLongMax : Z;
  loopCurIp : Z; loopFarIp : option IpMap; GroupName : string;
  Ipv6IPNet : option IPNet; Ipv6Gateway : IP;
  ipv6Start : option Z; ipv6End : option Z; ipv6Cursor : option Z
}.

Definition zero_pool : ipPoolConfig := {|
  Ipv4Gateway_p := nil_ip; Ipv4Mask := nil_ip; Ipv4IPNet := None; IpLongMin := 0; IpLongMax := 0;
  loopCurIp := 0; loopFarIp := None; GroupName := ""; Ipv6IPNet := None; Ipv6Gateway := nil_ip;
  ipv6Start := None; ipv6End := None; ipv6Cursor := None |}.

Definition set_loopFarIp (f : option IpMap) (p : ipPoolConfig) : ipPoolConfig :=
  {| Ipv4Gateway_p := Ipv4Gateway_p p; Ipv4Mask := Ipv4Mask p; Ipv4IPNet := Ipv4IPNet p;
     IpLongMin := IpLongMin p; IpLongMax := IpLongMax p; loopCurIp := loopCurIp p; loopFarIp := f;
     GroupName := GroupName p; Ipv6IPNet := Ipv6IPNet p; Ipv6Gateway := Ipv6Gateway p;
     ipv6Start := ipv6Start p; ipv6End := ipv6End p; ipv6Cursor := ipv6Cursor p |}.
Definition set_loopCurIp (i : Z) (p : ipPoolConfig) : ipPoolConfig :=
  {| Ipv4Gateway_p := Ipv4Gateway_p p; Ipv4Mask := Ipv4Mask p; Ipv4IPNet := Ipv4IPNet p;
     IpLongMin := IpLongMin p; IpLongMax := IpLongMax p; loopCurIp := i; loopFarIp := loopFarIp p;
     GroupName := GroupName p; Ipv6IPNet := Ipv6IPNet p; Ipv6Gateway := Ipv6Gateway p;
     ipv6Start := ipv6Start p; ipv6End := ipv6End p; ipv6Cursor := ipv6Cursor p |}.
Definition set_ipv6 (n : option IPNet) (gw : IP) (s e c : option Z) (p : ipPoolConfig) : ipPoolConfig :=
  {| Ipv4Gateway_p := Ipv4Gateway_p p; Ipv4Mask := Ipv4Mask p; Ipv4IPNet := Ipv4IPNet p;
     IpLongMin := IpLongMin p; IpLongMax := IpLongMax p; loopCurIp := loopCurIp p;
     loopFarIp := loopFarIp p; GroupName := GroupName p; Ipv6IPNet := n; Ipv6Gateway := gw;
     ipv6Start := s; ipv6End := e; ipv6Cursor := c |}.

(** A [*ipPoolConfig]: the global pool or an entry of [groupPoolCache], whose
    entries are never removed, so the key identifies the pointer. *)
Inductive pool_ref := PGlobal | PGroup (cacheKey : string).

Record pool_state (db : Type) := {
  IpPool_g : ipPoolConfig; groupPoolCache : gmap string ipPoolConfig;
  ipActive : gmap string bool; ipmap_db : db
}.
Arguments IpPool_g {db} _. Arguments groupPoolCache {db} _.
Arguments ipActive {db} _. Arguments ipmap_db {db} _.
Arguments Build_pool_state {db} _ _ _ _.

(** ** Address arithmetic (server/pkg/utils/ip.go and ip_pool.go) *)
Definition Long2ip (i : Z) : IP :=
  [z2b (Z.shiftr i 24); z2b (Z.shiftr i 16); z2b (Z.shiftr i 8); z2b i].

Definition Ip2long (ip : IP) : Z :=
  match ip_to4 ip with
  | None => 0
  | Some ip => match be32 ip 0 with Ret x => x | Panic => 0 end
  end.

(** [SetBytes]: big-endian bytes. *)
Definition bytes_to_Z (b : list byte) : Z := fold_left (λ acc x, acc * 256 + b2z x) b 0.
Fixpoint Z_to_bytes (n : nat) (z : Z) : list byte :=
  match n with O => [] | S n' => Z_to_bytes n' (z / 256) ++ [z2b (z mod 256)] end.

Definition ipToBig (ip : IP) : Z := bytes_to_Z (default nil_ip (ip_to16 ip)).

(** [copy(ip[16-len(buf):], buf)] panics when [b] needs more than 16 bytes. *)
Definition bigToIP (b : Z) : res IP :=
  if 2 ^ 128 <=? b then Panic else Ret (Z_to_bytes 16 b).

Section pool.
Context {db : Type} `{IpMapStore db} (cfg : ServerConfig).
Implicit Types (st : pool_state db) (r : pool_ref) (now : Time).

Definition get_pool st r : ipPoolConfig :=
  match r with
  | PGlobal => IpPool_g st
  | PGroup k => default (IpPool_g st) (groupPoolCache st !! k)
  end.
Definition set_pool (r : pool_ref) (p : ipPoolConfig) st : pool_state db :=
  match r with
  | PGlobal => Build_pool_state p (groupPoolCache st) (ipActive st) (ipmap_db st)
  | PGroup k => Build_pool_state (IpPool_g st) (<[k := p]> (groupPoolCache st)) (ipActive st) (ipmap_db st)
  end.
Definition set_db (d : db) st : pool_state db :=
  Build_pool_state (IpPool_g st) (groupPoolCache st) (ipActive st) d.
(** [ipActive[ipStr] = true] *)
Definition activate (ipStr : string) st : pool_state db :=
  Build_pool_state (IpPool_g st) (groupPoolCache st) (<[ipStr := true]> (ipActive st)) (ipmap_db st).
Definition deactivate (ipStr : string) st : pool_state db :=
  Build_pool_state (IpPool_g st) (groupPoolCache st) (delete ipStr (ipActive st)) (ipmap_db st).

(** A failed write is logged and the allocation goes on. *)
Definition db_Set (mi : IpMap) st : pool_state db := set_db (store_set (ipmap_db st) mi).1 st.
Definition db_Add (mi : IpMap) st : pool_state db := set_db (store_add (ipmap_db st) mi).1 st.

(** [time.Now().Add(-1 * time.Duration(IpLease) * time.Second)] *)
Definition leaseTime now : Time := time_Add now (s64 (s64 (-1 * IpLease cfg) * Second)).

(** ** Construction *)
Definition initV6 (p : ipPoolConfig) (cidr : string) : option ipPoolConfig :=
  match ParseCIDR cidr with
  | None => None
  | Some (_, v6Net) =>
      let '(ones, bits) := mask_Size (net_Mask v6Net) in
      if negb (bits =? 128) || (128 <=? ones) then None
      else
        let network := ip_Mask (net_IP v6Net) (net_Mask v6Net) in
        let networkBig := ipToBig network in
        let hosts := Z.shiftl 1 (128 - ones) in
        match bigToIP (networkBig + 1) with
        | Panic => None
        | Ret gw =>
            let start := networkBig + 2 in
            Some (set_ipv6 (Some v6Net) gw (Some start) (Some (networkBig + (hosts - 1))) (Some start) p)
        end
  end.

Definition group_cacheKey (g : Group) : string :=
  grp_Name g +:+ "|" +:+ ClientCidr g +:+ "|" +:+ ClientStart g +:+ "|" +:+ ClientEnd g
    +:+ "|" +:+ ClientGateway g +:+ "|" +:+ ClientCidr6 g.

Definition str_empty (s : string) : bool := bool_decide (s = ""%string).

Definition GetGroupIpPool st (group : option Group) : pool_state db * pool_ref :=
  match group with
  | None => (st, PGlobal)
  | Some g =>
      if str_empty (ClientCidr g) || str_empty (ClientStart g) || str_empty (ClientEnd g)
         || str_empty (ClientGateway g) then (st, PGlobal)
      else
        let cacheKey := group_cacheKey g in
        match groupPoolCache st !! cacheKey with
        | Some _ => (st, PGroup cacheKey)
        | None =>
            match ParseCIDR (ClientCidr g) with
            | None => (st, PGlobal)
            | Some (_, ipNet) =>
                let start := ParseIP (ClientStart g) in
                let end_ := ParseIP (ClientEnd g) in
                let gateway := ParseIP (ClientGateway g) in
                if negb (ip_nil start) && negb (ip_nil end_) && negb (ip_nil gateway)
                   && net_Contains ipNet start && net_Contains ipNet end_
                   && net_Contains ipNet gateway then
                  let p := {| Ipv4Gateway_p := gateway; Ipv4Mask := net_Mask ipNet;
                              Ipv4IPNet := Some ipNet; IpLongMin := Ip2long start;
                              IpLongMax := Ip2long end_; loopCurIp := Ip2long start;
                              loopFarIp := None; GroupName := grp_Name g; Ipv6IPNet := None;
                              Ipv6Gateway := nil_ip; ipv6Start := None; ipv6End := None;
                              ipv6Cursor := None |} in
                  let p := if negb (str_empty (ClientCidr6 g)) && negb (str_empty (Ipv6CIDR cfg))
                           then default p (initV6 p (ClientCidr6 g)) else p in
                  (set_pool (PGroup cacheKey) p st, PGroup cacheKey)
                else (st, PGlobal)
            end
        end
  end.

Definition V6Gateway st (r : option pool_ref) : IP :=
  let gw := match r with Some r => Ipv6Gateway (get_pool st r) | None => nil_ip end in
  if negb (ip_nil gw) then gw else Ipv6Gateway (IpPool_g st).

(** [initIpPool]: the new global pool and the (possibly raised) [cfg.Mtu], or
    an error. *)
Definition initIpPool st : option (pool_state db * Z) :=
  match ParseCIDR (Ipv4CIDR cfg) with
  | None => None
  | Some (_, ipNet) =>
      let gateway := ParseIP (Ipv4Gateway cfg) in
      let start := ParseIP (Ipv4Start cfg) in
      let end_ := ParseIP (Ipv4End cfg) in
      if negb (net_Contains ipNet gateway) || negb (net_Contains ipNet start)
         || negb (net_Contains ipNet end_) then None
      else
        let g := IpPool_g st in
        let p := {| Ipv4Gateway_p := gateway; Ipv4Mask := net_Mask ipNet; Ipv4IPNet := Some ipNet;
                    IpLongMin := Ip2long start; IpLongMax := Ip2long end_;
                    loopCurIp := Ip2long start; loopFarIp := loopFarIp g; GroupName := "";
                    Ipv6IPNet := Ipv6IPNet g; Ipv6Gateway := Ipv6Gateway g;
                    ipv6Start := ipv6Start g; ipv6End := ipv6End g; ipv6Cursor := ipv6Cursor g |} in
        if str_empty (Ipv6CIDR cfg) then Some (set_pool PGlobal p st, Mtu cfg)
        else
          let mtu := if (0 <? Mtu cfg) && (Mtu cfg <? 1280) then 1280 else Mtu cfg in
          match initV6 p (Ipv6CIDR cfg) with
          | None => None
          | Some p => Some (set_pool PGlobal p st, mtu)
          end
  end.

(** ** IPv4 allocation *)
Definition ipInPool (ip : IP) (ipRange : ipPoolConfig) : bool :=
  match ip_to4 ip with
  | None => false
  | Some _ => (IpLongMin ipRange <=? Ip2long ip) && (Ip2long ip <=? IpLongMax ipRange)
  end.

(** [for i := start; i <= end; i++] on [uint32]: [fuel] iterations, [None]
    when the loop has not finished within them. *)
Fixpoint loopLong (fuel : nat) st r (i end_ : Z) (username macAddr : string)
    (uniqueMac : bool) now : option (pool_state db * (Z * IP)) :=
  match fuel with
  | O => None
  | S fuel =>
      if end_ <? i then Some (st, (0, nil_ip))
      else
        let continue st := loopLong fuel st r (u32 (i + 1)) end_ username macAddr uniqueMac now in
        let ipRange := get_pool st r in
        let ip := Long2ip i in
        let ipStr := ip_String ip in
        if negb (ip_nil (Ipv4Gateway_p ipRange)) && ip_Equal ip (Ipv4Gateway_p ipRange)
        then continue st
        else if bool_decide (is_Some (ipActive st !! ipStr)) then continue st
        else
          match one_addr (ipmap_db st) ipStr with
          | NotFound =>
              let mi := new_IpMap ipStr "" macAddr uniqueMac username now (GroupName ipRange) in
              Some (activate ipStr (db_Add mi st), (i, ip))
          | LookupErr => Some (st, (0, nil_ip))
          | Found mi =>
              if im_Keep mi then continue st
              else if time_Before (im_LastLogin mi) (leaseTime now) then
                let mi := rebind mi username now macAddr uniqueMac (GroupName ipRange) in
                Some (activate ipStr (db_Set mi st), (i, ip))
              else if time_Before (im_LastLogin mi)
                        (match loopFarIp ipRange with Some f => im_LastLogin f | None => zero_time end)
              then continue (set_pool r (set_loopFarIp (Some mi) ipRange) st)
              else continue st
          end
  end.

(** Iterations enough for the range [start..end]. *)
Definition scan_fuel (start end_ : Z) : nat := S (Z.to_nat (end_ - start + 1)).

Definition loopIp st r (username macAddr : string) (uniqueMac : bool) now
    : option (pool_state db * IP) :=
  let st := set_pool r (set_loopFarIp (Some (new_IpMap "" "" "" false "" now "")) (get_pool st r)) st in
  let cur := loopCurIp (get_pool st r) in
  let min := IpLongMin (get_pool st r) in
  let max := IpLongMax (get_pool st r) in
  match loopLong (scan_fuel cur max) st r cur max username macAddr uniqueMac now with
  | None => None
  | Some (st, (i, ip)) =>
      if negb (ip_nil ip) then Some (set_pool r (set_loopCurIp i (get_pool st r)) st, ip)
      else
        match loopLong (scan_fuel min cur) st r min cur username macAddr uniqueMac now with
        | None => None
        | Some (st, (i, ip)) =>
            if negb (ip_nil ip) then Some (set_pool r (set_loopCurIp i (get_pool st r)) st, ip)
            else
              let st := set_pool r (set_loopCurIp min (get_pool st r)) st in
              match loopFarIp (get_pool st r) with
              | Some far =>
                  if 0 <? im_Id far then
                    let ipStr := im_IpAddr far in
                    let far := rebind far username now macAddr uniqueMac (GroupName (get_pool st r)) in
                    let st := set_pool r (set_loopFarIp (Some far) (get_pool st r)) st in
                    Some (activate ipStr (db_Set far st), ParseIP ipStr)
                  else Some (st, nil_ip)
              | None => Some (st, nil_ip)
              end
        end
  end.

(** The client's own MAC is known: its binding in the group, else (for a
    group pool) its binding without a group. *)
Definition mac_binding st r (macAddr : string) : lookup_res IpMap :=
  let grp := GroupName (get_pool st r) in
  match one_mac (ipmap_db st) macAddr grp with
  | NotFound => if negb (str_empty grp) then one_mac (ipmap_db st) macAddr "" else NotFound
  | x => x
  end.

Definition user_bindings st r (username : string) : lookup_res (list IpMap) :=
  let grp := GroupName (get_pool st r) in
  match find_user (ipmap_db st) ipPoolUserQueryLimit username grp with
  | Found [] => if negb (str_empty grp)
                then find_user (ipmap_db st) ipPoolUserQueryLimit username ""
                else Found []
  | x => x
  end.

(** The loop over a user's rows, which falls through to [loopIp]. *)
Fixpoint reuse_user_rows st r (rows : list IpMap) (username macAddr : string)
    (uniqueMac : bool) now : option (pool_state db * IP) :=
  match rows with
  | [] => loopIp st r username macAddr uniqueMac now
  | mi :: rows =>
      let next := reuse_user_rows st r rows username macAddr uniqueMac now in
      let ipStr := im_IpAddr mi in
      let ip := ParseIP ipStr in
      if default false (ipActive st !! ipStr) && negb (bool_decide (im_MacAddr mi = macAddr)) then next
      else if im_Keep mi then next
      else if im_UniqueMac mi then next
      else if ipInPool ip (get_pool st r) then
        let mi := rebind mi username now macAddr uniqueMac (GroupName (get_pool st r)) in
        Some (activate ipStr (db_Set mi st), ip)
      else next
  end.

(** [AcquireIpWithRange]; [r = None] is a nil [ipRange]. *)
Definition AcquireIpWithRange st (r : option pool_ref) (username macAddr : string)
    (uniqueMac : bool) now : option (pool_state db * IP) :=
  let r := default PGlobal r in
  if uniqueMac then
    match mac_binding st r macAddr with
    | NotFound => loopIp st r username macAddr uniqueMac now
    | LookupErr => Some (st, nil_ip)
    | Found mi =>
        let ipStr := im_IpAddr mi in
        let ip := ParseIP ipStr in
        if negb (bool_decide (is_Some (ipActive st !! ipStr))) && ipInPool ip (get_pool st r) then
          let mi := rebind mi username now (im_MacAddr mi) uniqueMac (GroupName (get_pool st r)) in
          Some (activate ipStr (db_Set mi st), ip)
        else if im_Keep mi then Some (st, nil_ip)
        else
          let '(d, ok) := store_del (ipmap_db st) (im_Id mi) in
          if negb ok then Some (set_db d st, nil_ip)
          else loopIp (set_db d st) r username macAddr uniqueMac now
    end
  else
    match user_bindings st r username with
    | NotFound => loopIp st r username macAddr uniqueMac now
    | LookupErr => Some (st, nil_ip)
    | Found ipMaps => reuse_user_rows st r ipMaps username macAddr uniqueMac now
    end.

(** ** IPv6 allocation *)

(** What one candidate address leads to. *)
Inductive v6_outcome :=
  | V6Skip
  | V6Stop
  | V6Take (st : pool_state db).

Definition v6_candidate st (groupPool : pool_ref) (ipStr username macAddr : string)
    (uniqueMac : bool) now : v6_outcome :=
  if bool_decide (is_Some (ipActive st !! ipStr)) then V6Skip
  else
    match one_addr6 (ipmap_db st) ipStr with
    | Found m6 =>
        if negb (bool_decide (im_MacAddr m6 = macAddr))
           || time_Before (im_LastLogin m6) (leaseTime now) then V6Skip
        else V6Take (activate ipStr st)
    | LookupErr => V6Stop
    | NotFound =>
        let grp := GroupName (get_pool st groupPool) in
        match one_mac (ipmap_db st) macAddr grp with
        | LookupErr => V6Stop
        | NotFound =>
            V6Take (activate ipStr
              (db_Add (new_IpMap "" ipStr macAddr uniqueMac username now grp) st))
        | Found row => V6Take (activate ipStr (db_Set (set_addr6 row ipStr username now) st))
        end
    end.

(** One segment [cur..hi]; [Ret None] is a segment without a usable address
    and [Ret (Some None)] a query error, which ends the allocation. *)
Fixpoint scan_v6 (fuel : nat) st (cur hi : Z) (groupPool allocPool : pool_ref)
    (username macAddr : string) (uniqueMac : bool) now
    : option (res (option (option (pool_state db * IP)))) :=
  match fuel with
  | O => None
  | S fuel =>
      if hi <? cur then Some (Ret None)
      else
        match bigToIP cur with
        | Panic => Some Panic
        | Ret ip =>
            match v6_candidate st groupPool (ip_String ip) username macAddr uniqueMac now with
            | V6Skip => scan_v6 fuel st (cur + 1) hi groupPool allocPool username macAddr uniqueMac now
            | V6Stop => Some (Ret (Some None))
            | V6Take st =>
                let p := get_pool st allocPool in
                let p := set_ipv6 (Ipv6IPNet p) (Ipv6Gateway p) (ipv6Start p) (ipv6End p)
                           (Some (cur + 1)) p in
                Some (Ret (Some (Some (set_pool allocPool p st, ip))))
            end
        end
  end.

(** [fuel] bounds the addresses visited in each segment: an IPv6 pool may
    hold 2^64 addresses and more, so it is an argument. *)
Definition loopIpV6 (fuel : nat) st (groupPool allocPool : pool_ref) (username macAddr : string)
    (uniqueMac : bool) now : option (res (pool_state db * IP)) :=
  let p := get_pool st allocPool in
  match ipv6Start p, ipv6End p with
  | Some start, Some end_ =>
      match ipv6Cursor p with
      | None => Some Panic
      | Some cursor =>
          let cursor := if (cursor <? start) || (end_ <? cursor) then start else cursor in
          match scan_v6 fuel st cursor end_ groupPool allocPool username macAddr uniqueMac now with
          | None => None
          | Some Panic => Some Panic
          | Some (Ret (Some None)) => Some (Ret (st, nil_ip))
          | Some (Ret (Some (Some (st, ip)))) => Some (Ret (st, ip))
          | Some (Ret None) =>
              match scan_v6 fuel st start (cursor - 1) groupPool allocPool username macAddr uniqueMac now with
              | None => None
              | Some Panic => Some Panic
              | Some (Ret (Some None)) | Some (Ret None) => Some (Ret (st, nil_ip))
              | Some (Ret (Some (Some (st, ip)))) => Some (Ret (st, ip))
              end
          end
      end
  | _, _ => Some (Ret (st, nil_ip))
  end.

Definition acquireIpV6 (fuel : nat) st (groupPool : pool_ref) (username macAddr : string)
    (uniqueMac : bool) now : option (res (pool_state db * IP)) :=
  let allocPool := match Ipv6IPNet (get_pool st groupPool) with None => PGlobal | Some _ => groupPool end in
  match Ipv6IPNet (get_pool st allocPool) with
  | None => Some (Ret (st, nil_ip))
  | Some _ => loopIpV6 fuel st groupPool allocPool username macAddr uniqueMac now
  end.

(** ** Release *)
Definition touch (mi : IpMap) (t : Time) : IpMap :=
  rebind mi (im_Username mi) t (im_MacAddr mi) (im_UniqueMac mi) (im_Group mi).

Definition release4 st (ip : IP) now : pool_state db :=
  if ip_nil ip then st
  else
    let st := deactivate (ip_String ip) st in
    match one_addr (ipmap_db st) (ip_String ip) with
    | Found mi => db_Set (touch mi now) st
    | _ => st
    end.

Definition release6 st (ip6 : IP) now : pool_state db :=
  if ip_nil ip6 then st
  else
    let st := deactivate (ip_String ip6) st in
    match one_addr6 (ipmap_db st) (ip_String ip6) with
    | Found mi => db_Set (set_addr6 mi "" (im_Username mi) now) st
    | _ => st
    end.

Definition ReleaseIp st (ip ip6 : IP) now : pool_state db := release6 (release4 st ip now) ip6 now.
End pool.

(** ** [dbdata.SetIpMap]: the administrator's bindings *)
Definition SetIpMap {db} `{IpMapStore db} (d : db) (v : IpMap) (now : Time) : db * bool :=
  if (str_len (im_IpAddr v) <? 4) || (str_len (im_MacAddr v) <? 6) then (d, false)
  else
    let ip := ParseIP (im_IpAddr v) in
    if ip_nil ip || negb (bool_decide (is_Some (ip_to4 ip))) then (d, false)
    else
      let ip6 := ParseIP (im_IpAddr6 v) in
      if negb (str_empty (im_IpAddr6 v)) && (ip_nil ip6 || bool_decide (is_Some (ip_to4 ip6)))
      then (d, false)
      else
        match ParseMAC (im_MacAddr v) with
        | None => (d, false)
        | Some macHw =>
            let v := {| im_Id := im_Id v; im_IpAddr := im_IpAddr v; im_IpAddr6 := im_IpAddr6 v;
                        im_MacAddr := hw_String macHw; im_Group := im_Group v;
                        im_UniqueMac := im_UniqueMac v; im_Username := im_Username v;
                        im_Nickname := im_Nickname v; im_Keep := im_Keep v;
                        im_KeepTime := im_KeepTime v; im_Note := im_Note v;
                        im_LastLogin := im_LastLogin v; im_UpdatedAt := now |} in
            if 0 <? im_Id v then store_set d v else store_add d v
        end.

