(* ===== verification/IpPoolSpec.v ===== *)
(** * Correctness of the address pools

    The scan and allocation lemmas of [IpPool], an in-memory binding table to
    evaluate them on, and the properties: a granted address is in range and
    unused, allocation terminates and refuses only when exhausted, a device
    keeps its address across reconnections, the IPv6 range never overflows. *)
From S2P Require Export IpPool.
Local Open Scope Z_scope.

(** * Address arithmetic *)
Lemma Long2ip_length i : length (Long2ip i) = 4%nat.
Proof. done. Qed.

Lemma be32_4 a b c d :
  be32 [a; b; c; d] 0
  = Ret (Z.lor (Z.shiftl (Z.lor (Z.shiftl (b2z a) 8) (b2z b)) 16)
               (Z.lor (Z.shiftl (b2z c) 8) (b2z d))).
Proof. reflexivity. Qed.

Lemma Ip2long_Long2ip i : 0 ≤ i < 2 ^ 32 → Ip2long (Long2ip i) = i.
Proof.
  intros Hi. unfold Ip2long. rewrite ip_to4_v4 by done.
  unfold Long2ip. rewrite be32_4, !b2z_z2b. unfold wrap. rewrite !Z.shiftr_div_pow2 by lia.
  change (2 ^ 24) with 16777216. change (2 ^ 16) with 65536. change (2 ^ 8) with 256.
  change (2 ^ 32) with 4294967296 in Hi.
  replace (i / 16777216) with (i / 256 / 256 / 256) by (by rewrite !Z.div_div by lia).
  replace (i / 65536) with (i / 256 / 256) by (by rewrite !Z.div_div by lia).
  set (x := i / 256). set (y := x / 256). set (z := y / 256).
  assert (Hdm : ∀ n, n = 256 * (n / 256) + n mod 256 ∧ 0 ≤ n mod 256 < 256).
  { intros n. split; [by apply Z.div_mod|by apply Z.mod_pos_bound]. }
  destruct (Hdm i) as [Ei Hi']. fold x in Ei. destruct (Hdm x) as [Ex Hx]. fold y in Ex.
  destruct (Hdm y) as [Ey Hy]. fold z in Ey. destruct (Hdm z) as [Ez Hz].
  clearbody x y z. rewrite !lor_shiftl_add by done.
  rewrite lor_shiftl_add_n by (change (2 ^ 16) with 65536; lia).
  change (2 ^ 16) with 65536. rewrite (Z.mod_small z) by lia. lia.
Qed.

Lemma Ip2long_mapped ip : length ip = 4%nat → Ip2long (v4_in_v6_prefix ++ ip) = Ip2long ip.
Proof. intros Hl. unfold Ip2long. by rewrite ip_to4_mapped, ip_to4_v4. Qed.

Lemma ip_String_mapped ip : length ip = 4%nat → ip_String (v4_in_v6_prefix ++ ip) = ip_String ip.
Proof.
  intros Hl. destruct ip as [|a [|b [|c [|d [|]]]]]; try done.
Qed.

Definition addr_key (k : Z) : string := ip_String (Long2ip k).

Lemma ParseIP_key k : ParseIP (addr_key k) = v4_in_v6_prefix ++ Long2ip k.
Proof. by apply ParseIP_String_v4. Qed.

Lemma addr_key_inj k1 k2 : 0 ≤ k1 < 2 ^ 32 → 0 ≤ k2 < 2 ^ 32 → addr_key k1 = addr_key k2 → k1 = k2.
Proof.
  intros H1 H2 E. apply ip_String_v4_inj in E; [|done..].
  rewrite <- (Ip2long_Long2ip k1), <- (Ip2long_Long2ip k2) by done. by rewrite E.
Qed.

(** * The scan *)
Section scan.
Context {db : Type} `{IpMapStoreLaws db} (cfg : ServerConfig).
Implicit Types (st : pool_state db) (r : pool_ref) (now : Time) (p : ipPoolConfig).

(** The reference points at an existing pool. *)
Definition ref_ok st r : Prop :=
  match r with PGlobal => True | PGroup k => is_Some (groupPoolCache st !! k) end.

Definition upd_far r (f : option IpMap) st : pool_state db :=
  set_pool r (set_loopFarIp f (get_pool st r)) st.

Lemma get_set_pool st r p : get_pool (set_pool r p st) r = p.
Proof. destruct r; [done|]. simpl. by rewrite lookup_insert_eq. Qed.

Lemma set_pool_twice st r p p' : set_pool r p' (set_pool r p st) = set_pool r p' st.
Proof. destruct r; [done|]. unfold set_pool. simpl. by rewrite insert_insert_eq. Qed.

Lemma upd_far_twice st r f f' : upd_far r f' (upd_far r f st) = upd_far r f' st.
Proof. unfold upd_far. rewrite get_set_pool, set_pool_twice. by destruct (get_pool st r). Qed.

Lemma upd_far_active st r f : ipActive (upd_far r f st) = ipActive st.
Proof. by destruct r. Qed.
Lemma upd_far_db st r f : ipmap_db (upd_far r f st) = ipmap_db st.
Proof. by destruct r. Qed.
Lemma get_upd_far st r f : get_pool (upd_far r f st) r = set_loopFarIp f (get_pool st r).
Proof. apply get_set_pool. Qed.

(** An address the scan may look at: not the gateway and not active. *)
Definition addr_free st (p : ipPoolConfig) (k : Z) : Prop :=
  ipActive st !! addr_key k = None
  ∧ (Ipv4Gateway_p p = nil_ip ∨ ip_Equal (Long2ip k) (Ipv4Gateway_p p) = false).

Definition far_time (f : option IpMap) : Time :=
  match f with Some m => im_LastLogin m | None => zero_time end.

(** [f'] is [f] or a row of the free address [k] that is not reserved. *)
Definition far_from st p (lo hi : Z) (f f' : option IpMap) : Prop :=
  f' = f ∨ ∃ k mi, lo ≤ k ≤ hi ∧ f' = Some mi ∧ addr_free st p k
                   ∧ one_addr (ipmap_db st) (addr_key k) = Found mi ∧ im_Keep mi = false.

(** Why an address was passed over by a scan that ends with candidate [f']. *)
Definition passed_over st p (f' : option IpMap) (k : Z) : Prop :=
  addr_free st p k → ∃ mi, one_addr (ipmap_db st) (addr_key k) = Found mi
                           ∧ (im_Keep mi = true ∨ far_time f' ≤ im_LastLogin mi).

Definition scan_failed st (lo hi : Z) : Prop :=
  ∃ k, lo ≤ k ≤ hi ∧ one_addr (ipmap_db st) (addr_key k) = LookupErr.

Lemma loopLong_spec fuel st r e u mac uniq now st' j ip : ∀ i f,
  0 ≤ i → e < 2 ^ 32 - 1 →
  loopLong cfg fuel (upd_far r f st) r i e u mac uniq now = Some (st', (j, ip)) →
  let p := get_pool st r in
  (ip = nil_ip ∧ ∃ f', st' = upd_far r f' st ∧ far_from st p i e f f' ∧ far_time f' ≤ far_time f
     ∧ (scan_failed st i e ∨ ∀ k, i ≤ k ≤ e → passed_over st p f' k))
  ∨ (ip = Long2ip j ∧ i ≤ j ≤ e ∧ addr_free st p j
     ∧ ∃ f' d, st' = activate (addr_key j) (set_db d (upd_far r f' st))).
Proof.
  induction fuel as [|fuel IH]; intros i f Hi He; [done|]. cbn [loopLong].
  destruct (Z.ltb_spec e i) as [Hei|Hie].
  { intros [= <- <- <-]. left. split; [done|]. exists f. split_and!; [done|by left|done|].
    right. intros. lia. }
  set (p := get_pool st r).
  change (ip_String (Long2ip i)) with (addr_key i).
  assert (Hw : u32 (i + 1) = i + 1) by (apply wrap_small; lia). rewrite Hw.
  rewrite get_upd_far. fold p.
  assert (Hgw : Ipv4Gateway_p (set_loopFarIp f p) = Ipv4Gateway_p p) by done. rewrite Hgw.
  rewrite upd_far_active, upd_far_db.
  (* a step to [i + 1] with candidate [f1], the address [i] being passed over *)
  assert (Hstep : ∀ f1,
    (f1 = f ∨ ∃ mi, f1 = Some mi ∧ addr_free st p i
              ∧ one_addr (ipmap_db st) (addr_key i) = Found mi ∧ im_Keep mi = false) →
    far_time f1 ≤ far_time f →
    (∀ f', far_time f' ≤ far_time f1 → passed_over st p f' i) →
    loopLong cfg fuel (upd_far r f1 st) r (i + 1) e u mac uniq now = Some (st', (j, ip)) →
    (ip = nil_ip ∧ ∃ f', st' = upd_far r f' st ∧ far_from st p i e f f' ∧ far_time f' ≤ far_time f
       ∧ (scan_failed st i e ∨ ∀ k, i ≤ k ≤ e → passed_over st p f' k))
    ∨ (ip = Long2ip j ∧ i ≤ j ≤ e ∧ addr_free st p j
       ∧ ∃ f' d, st' = activate (addr_key j) (set_db d (upd_far r f' st)))).
  { intros f1 Hf1 Ht1 Hpass Hl. apply IH in Hl; [|lia..].
    destruct Hl as [(-> & f' & -> & Hfar & Hle & Hcov)|(-> & Hj & Hfree & Hst)].
    - left. split; [done|]. exists f'. split_and!; [done| |lia|].
      + destruct Hfar as [->|(k & mi & ? & ? & ?)].
        * destruct Hf1 as [->|(mi & ? & ? & ? & ?)]; [by left|right].
          exists i, mi. split_and!; try done; lia.
        * right. exists k, mi. split_and!; try tauto; lia.
      + destruct Hcov as [(k & ? & ?)|Hcov]; [left; exists k; split; [lia|done]|right].
        intros k Hk. destruct (decide (k = i)) as [->|]; [by apply Hpass|apply Hcov; lia].
    - right. split_and!; try done; lia. }
  destruct (negb (ip_nil (Ipv4Gateway_p p)) && ip_Equal (Long2ip i) (Ipv4Gateway_p p)) eqn:EG.
  { apply Hstep; [by left|done|]. intros f' _ [_ [Hn|Hn]]; unfold ip_nil in EG.
    - by rewrite bool_decide_true in EG.
    - by rewrite Hn, andb_false_r in EG. }
  case_bool_decide as HA.
  { apply Hstep; [by left|done|]. intros f' _ [Hn _]. rewrite Hn in HA. by destruct HA. }
  assert (Hfree : addr_free st p i).
  { split; [by apply eq_None_not_Some|]. apply andb_false_iff in EG as [EG|EG]; [left|by right].
    unfold ip_nil in EG. by bool_to_prop. }
  destruct (one_addr (ipmap_db st) (addr_key i)) as [mi| |] eqn:EO.
  - destruct (im_Keep mi) eqn:EK.
    { apply Hstep; [by left|done|]. intros f' _ _. exists mi. auto. }
    destruct (time_Before (im_LastLogin mi) (leaseTime cfg now)).
    { intros [= <- <- <-]. right. split_and!; [done|lia..|done|].
      exists f. eexists. unfold db_Set. reflexivity. }
    cbn [loopFarIp set_loopFarIp].
    unfold time_Before. fold (far_time f). destruct (Z.ltb_spec (im_LastLogin mi) (far_time f)).
    + rewrite (eq_refl : set_pool r (set_loopFarIp (Some mi) (set_loopFarIp f p)) (upd_far r f st)
                 = set_pool r (set_loopFarIp (Some mi) p) (upd_far r f st)).
      unfold upd_far at 1. rewrite set_pool_twice. fold p. fold (upd_far r (Some mi) st).
      apply Hstep; [right; eauto|simpl; lia|]. intros f' Hf' _. exists mi. simpl in Hf'. auto.
    + apply Hstep; [by left|done|]. intros f' Hf' _. exists mi. split; [done|]. right. lia.
  - intros [= <- <- <-]. right. split_and!; [done|lia..|done|].
    exists f. eexists. unfold db_Add. reflexivity.
  - intros [= <- <- <-]. left. split; [done|]. exists f.
    split_and!; [done|by left|done|]. left. exists i. split; [lia|done].
Qed.

Lemma loopLong_total fuel r e u mac uniq now : ∀ st i,
  0 ≤ i → e < 2 ^ 32 - 1 → (scan_fuel i e ≤ fuel)%nat →
  is_Some (loopLong cfg fuel st r i e u mac uniq now).
Proof.
  unfold scan_fuel. induction fuel as [|fuel IH]; intros st i Hi He Hf; [lia|].
  cbn [loopLong]. destruct (Z.ltb_spec e i); [eauto|].
  assert (Hw : u32 (i + 1) = i + 1) by (apply wrap_small; lia). rewrite Hw.
  assert (Hrec : ∀ st, is_Some (loopLong cfg fuel st r (i + 1) e u mac uniq now)).
  { intros st1. apply IH; lia. }
  repeat case_match; eauto.
Qed.

(** ** [loopIp] *)

(** The range does not reach 255.255.255.255, where the [uint32] loop
    counter wraps, and the cursor is inside it. *)
Definition pool_valid p : Prop :=
  0 ≤ IpLongMin p ≤ loopCurIp p ∧ loopCurIp p ≤ IpLongMax p < 2 ^ 32 - 1.

(** [ip] is the address [k], which is marked active and nothing else is. *)
Definition granted (act act' : gmap string bool) (k : Z) (ip : IP) : Prop :=
  ip ≠ nil_ip ∧ Ip2long ip = k ∧ ip_String ip = addr_key k ∧ act' = <[addr_key k := true]> act.

Lemma granted_Long2ip act k :
  0 ≤ k < 2 ^ 32 → granted act (<[addr_key k := true]> act) k (Long2ip k).
Proof. intros. split_and!; [done|by apply Ip2long_Long2ip|done..]. Qed.

Lemma granted_ParseIP act k :
  0 ≤ k < 2 ^ 32 → granted act (<[addr_key k := true]> act) k (ParseIP (addr_key k)).
Proof.
  intros. rewrite ParseIP_key. split_and!; [done| | |done].
  - rewrite Ip2long_mapped by done. by apply Ip2long_Long2ip.
  - by rewrite ip_String_mapped.
Qed.

(** The whole outcome of [loopIp]: a free address of the range is granted,
    or the state is left as it was but for the cursor, and then a query
    failed or every free address is reserved or in use until [now]. *)
Definition loopIp_outcome st r now st' (ip : IP) : Prop :=
  let p := get_pool st r in
  (pool_valid (get_pool st' r) ∧ IpLongMin (get_pool st' r) = IpLongMin p
   ∧ IpLongMax (get_pool st' r) = IpLongMax p) ∧
  ((ip = nil_ip ∧ ipActive st' = ipActive st ∧ ipmap_db st' = ipmap_db st
    ∧ (scan_failed st (IpLongMin p) (IpLongMax p)
       ∨ ∀ k, IpLongMin p ≤ k ≤ IpLongMax p → addr_free st p k →
           ∃ mi, one_addr (ipmap_db st) (addr_key k) = Found mi
                 ∧ (im_Keep mi = true ∨ now ≤ im_LastLogin mi)))
   ∨ ∃ k, IpLongMin p ≤ k ≤ IpLongMax p ∧ addr_free st p k
          ∧ granted (ipActive st) (ipActive st') k ip).

Lemma outcome_scan st r now f d j :
  pool_valid (get_pool st r) → IpLongMin (get_pool st r) ≤ j ≤ IpLongMax (get_pool st r) →
  addr_free st (get_pool st r) j →
  let s := activate (addr_key j) (set_db d (upd_far r f st)) in
  loopIp_outcome st r now (set_pool r (set_loopCurIp j (get_pool s r)) s) (Long2ip j).
Proof.
  intros [Hv1 Hv2] Hj Hfree s. split.
  - rewrite get_set_pool. change (get_pool s r) with (get_pool (upd_far r f st) r).
    rewrite get_upd_far. unfold pool_valid. simpl. lia.
  - right. exists j. split; [done|]. split; [done|].
    assert (Ha : ∀ q, ipActive (set_pool r q s) = <[addr_key j := true]> (ipActive st))
      by (intros; unfold s; by destruct r).
    rewrite Ha. apply granted_Long2ip. lia.
Qed.

Lemma outcome_recycle st r now f d k far :
  pool_valid (get_pool st r) → IpLongMin (get_pool st r) ≤ k ≤ IpLongMax (get_pool st r) →
  addr_free st (get_pool st r) k →
  let q := set_loopCurIp (IpLongMin (get_pool st r)) (set_loopFarIp f (get_pool st r)) in
  let s := set_pool r q (upd_far r f st) in
  loopIp_outcome st r now
    (activate (addr_key k) (set_db d (set_pool r (set_loopFarIp far q) s))) (ParseIP (addr_key k)).
Proof.
  intros [Hv1 Hv2] Hk Hfree q s. split.
  - change (get_pool (activate _ (set_db d ?t)) r) with (get_pool t r).
    rewrite get_set_pool. unfold pool_valid. simpl. lia.
  - right. exists k. split; [done|]. split; [done|].
    assert (Ha : ∀ q, ipActive (activate (addr_key k) (set_db d (set_pool r q s)))
                 = <[addr_key k := true]> (ipActive st)) by (intros; unfold s; by destruct r).
    rewrite Ha. apply granted_ParseIP. lia.
Qed.

(** Two scans that found nothing cover the range between them. *)
Lemma two_scans st p f0 f1 f2 :
  pool_valid p →
  far_from st p (loopCurIp p) (IpLongMax p) f0 f1 →
  (scan_failed st (loopCurIp p) (IpLongMax p)
   ∨ ∀ k, loopCurIp p ≤ k ≤ IpLongMax p → passed_over st p f1 k) →
  far_from st p (IpLongMin p) (loopCurIp p) f1 f2 → far_time f2 ≤ far_time f1 →
  (scan_failed st (IpLongMin p) (loopCurIp p)
   ∨ ∀ k, IpLongMin p ≤ k ≤ loopCurIp p → passed_over st p f2 k) →
  (scan_failed st (IpLongMin p) (IpLongMax p)
   ∨ ∀ k, IpLongMin p ≤ k ≤ IpLongMax p → passed_over st p f2 k)
  ∧ far_from st p (IpLongMin p) (IpLongMax p) f0 f2.
Proof.
  intros [Hv1 Hv2] Hf1 Hc1 Hf2 Ht2 Hc2. split.
  - destruct Hc1 as [(k & ? & ?)|Hc1]; [left; exists k; split; [lia|done]|].
    destruct Hc2 as [(k & ? & ?)|Hc2]; [left; exists k; split; [lia|done]|]. right.
    intros k Hk. destruct (decide (k ≤ loopCurIp p)); [apply Hc2; lia|].
    intros Hfr. destruct (Hc1 k ltac:(lia) Hfr) as (mi & ? & Hm). exists mi. split; [done|].
    destruct Hm as [?|Hm]; [by left|right; lia].
  - destruct Hf2 as [->|(k & mi & ? & ?)]; [|right; exists k, mi; split; [lia|done]].
    destruct Hf1 as [->|(k & mi & ? & ?)]; [by left|right; exists k, mi; split; [lia|done]].
Qed.

Lemma loopIp_spec st r u mac uniq now st' ip :
  pool_valid (get_pool st r) →
  loopIp cfg st r u mac uniq now = Some (st', ip) → loopIp_outcome st r now st' ip.
Proof.
  intros Hv. pose proof Hv as [Hv1 Hv2]. unfold loopIp. rewrite get_set_pool.
  set (f0 := Some (new_IpMap "" "" "" false "" now "")). fold (upd_far r f0 st).
  cbn [IpLongMin IpLongMax loopCurIp set_loopFarIp].
  destruct (loopLong _ _ _ _ (loopCurIp _) _ _ _ _ _) as [[st1 [i1 ip1]]|] eqn:E1; [|done].
  apply loopLong_spec in E1; [|lia..].
  destruct E1 as [(-> & f1 & -> & Hf1 & Ht1 & Hc1)|(-> & Hi & Hfree & f1 & d & ->)]; cycle 1.
  { change (negb (ip_nil (Long2ip i1))) with true. intros [= <- <-]. apply outcome_scan; auto with lia. }
  change (negb (ip_nil nil_ip)) with false. cbn iota.
  destruct (loopLong _ _ _ _ (IpLongMin _) _ _ _ _ _) as [[st2 [i2 ip2]]|] eqn:E2; [|done].
  apply loopLong_spec in E2; [|lia..].
  destruct E2 as [(-> & f2 & -> & Hf2 & Ht2 & Hc2)|(-> & Hi & Hfree & f2 & d & ->)]; cycle 1.
  { change (negb (ip_nil (Long2ip i2))) with true. intros [= <- <-]. apply outcome_scan; auto with lia. }
  change (negb (ip_nil nil_ip)) with false. cbn iota.
  rewrite !get_set_pool, get_upd_far. cbn [loopFarIp set_loopCurIp set_loopFarIp].
  destruct (two_scans _ _ _ _ _ Hv Hf1 Hc1 Hf2 Ht2 Hc2) as [Hcov Hfar].
  destruct Hfar as [->|(k & mi & Hk & -> & Hfree & Ho & _)].
  - cbn [im_Id f0 new_IpMap]. change (0 <? 0) with false. cbn iota.
    intros [= <- <-]. split; [rewrite get_set_pool; unfold pool_valid; simpl; lia|].
    left. split_and!; [done|by destruct r|by destruct r|exact Hcov].
  - rewrite (proj2 (Z.ltb_lt 0 (im_Id mi)) (one_addr_id _ _ _ Ho)).
    intros [= <- <-]. rewrite (one_addr_where _ _ _ Ho).
    by apply outcome_recycle.
Qed.

Lemma loopIp_total st r u mac uniq now :
  pool_valid (get_pool st r) → is_Some (loopIp cfg st r u mac uniq now).
Proof.
  intros [Hv1 Hv2]. unfold loopIp. rewrite get_set_pool.
  cbn [IpLongMin IpLongMax loopCurIp set_loopFarIp].
  set (p := get_pool st r) in *.
  match goal with |- context [loopLong _ _ ?s _ ?i ?e _ _ _ _] =>
    destruct (loopLong_total (scan_fuel i e) r e u mac uniq now s i) as [[? [? ?]] ->]; [lia..|] end.
  case_match; [eauto|].
  match goal with |- context [loopLong _ _ ?s _ ?i ?e _ _ _ _] =>
    destruct (loopLong_total (scan_fuel i e) r e u mac uniq now s i) as [[? [? ?]] ->]; [lia..|] end.
  repeat case_match; eauto.
Qed.
End scan.

(** ** A list-backed table

    A table for evaluation: rows in id order, with the unique constraints of
    the [IpMap] struct tags ([ip_addr]; [mac_addr]+[ip_group]). *)
Record mem_db := { mem_rows : list IpMap; mem_next : Z }.

Definition set_Id (i : Z) (m : IpMap) : IpMap := {|
  im_Id := i; im_IpAddr := im_IpAddr m; im_IpAddr6 := im_IpAddr6 m; im_MacAddr := im_MacAddr m;
  im_Group := im_Group m; im_UniqueMac := im_UniqueMac m; im_Username := im_Username m;
  im_Nickname := im_Nickname m; im_Keep := im_Keep m; im_KeepTime := im_KeepTime m;
  im_Note := im_Note m; im_LastLogin := im_LastLogin m; im_UpdatedAt := im_UpdatedAt m |}.

Definition find_row (f : IpMap → bool) (rows : list IpMap) : lookup_res IpMap :=
  match List.find f rows with
  | Some r => if 0 <? im_Id r then Found r else LookupErr
  | None => NotFound
  end.

Definition conflicts (a b : IpMap) : bool :=
  negb (im_Id a =? im_Id b)
  && (String.eqb (im_IpAddr a) (im_IpAddr b)
      || (String.eqb (im_MacAddr a) (im_MacAddr b) && String.eqb (im_Group a) (im_Group b))).

#[export] Instance mem_store : IpMapStore mem_db := {
  one_addr d s := find_row (λ r, String.eqb (im_IpAddr r) s) (mem_rows d);
  one_addr6 d s := find_row (λ r, String.eqb (im_IpAddr6 r) s) (mem_rows d);
  one_mac d m g := find_row (λ r, String.eqb (im_MacAddr r) m && String.eqb (im_Group r) g) (mem_rows d);
  find_user d n u g := Found (firstn (Z.to_nat n)
    (List.filter (λ r, String.eqb (im_Username r) u && String.eqb (im_Group r) g) (mem_rows d)));
  store_add d r :=
    let r := set_Id (mem_next d) r in
    if existsb (conflicts r) (mem_rows d) then (d, false)
    else ({| mem_rows := mem_rows d ++ [r]; mem_next := mem_next d + 1 |}, true);
  store_set d r :=
    if existsb (conflicts r) (mem_rows d) then (d, false)
    else ({| mem_rows := map (λ x, if im_Id x =? im_Id r then r else x) (mem_rows d);
             mem_next := mem_next d |}, true);
  store_del d i := ({| mem_rows := List.filter (λ x, negb (im_Id x =? i)) (mem_rows d);
                       mem_next := mem_next d |}, true)
}.

Lemma find_row_Found f rows r : find_row f rows = Found r → f r = true ∧ 0 < im_Id r.
Proof.
  unfold find_row. destruct (List.find f rows) eqn:E; [|done].
  apply List.find_some in E as [_ E]. intros H. crush_cases.
Qed.

#[export] Instance mem_store_laws : IpMapStoreLaws mem_db.
Proof.
  split; simpl.
  - intros d s r [E _]%find_row_Found. by apply String.eqb_eq.
  - intros d s r [_ E]%find_row_Found. done.
  - intros d s r [E _]%find_row_Found. by apply String.eqb_eq.
  - intros d m g r [E _]%find_row_Found. bool_to_prop. done.
  - intros d n u g l [= <-]. apply Forall_take, Forall_forall. intros r Hr.
    apply list_elem_of_In, filter_In in Hr as [_ Hr]. by bool_to_prop.
Qed.

(** A pool of four addresses built from [example_cfg], with an empty table. *)
Definition example_pool : pool_state mem_db :=
  match initIpPool example_cfg (Build_pool_state zero_pool ∅ ∅ {| mem_rows := []; mem_next := 1 |}) with
  | Some (st, _) => st
  | None => Build_pool_state zero_pool ∅ ∅ {| mem_rows := []; mem_next := 1 |}
  end.

(** * Properties *)
Section properties.
Context {db : Type} `{IpMapStoreLaws db} (cfg : ServerConfig).
Implicit Types (st : pool_state db) (r : pool_ref) (now : Time) (p : ipPoolConfig).

(** The stored address is the text the server prints for it. *)
Definition canonical (mi : IpMap) : Prop :=
  is_Some (ip_to4 (ParseIP (im_IpAddr mi))) → ip_String (ParseIP (im_IpAddr mi)) = im_IpAddr mi.

Definition rows_canonical (d : db) : Prop :=
  (∀ m g mi, one_mac d m g = Found mi → canonical mi)
  ∧ (∀ n u g l, find_user d n u g = Found l → Forall canonical l).

Definition in_range p (ip : IP) : Prop := IpLongMin p ≤ Ip2long ip ≤ IpLongMax p.

(** A granted address: of the pool, marked active, and marked before only if
    the client without a device MAC reconnects to its own row. *)
Definition grant_ok st r (u mac : string) (uniq : bool) st' (ip : IP) : Prop :=
  in_range (get_pool st r) ip
  ∧ ipActive st' = <[ip_String ip := true]> (ipActive st)
  ∧ (ipActive st !! ip_String ip = None
     ∨ uniq = false ∧ ∃ rows mi, user_bindings st r u = Found rows ∧ mi ∈ rows
         ∧ im_MacAddr mi = mac ∧ im_IpAddr mi = ip_String ip).

Lemma outcome_grant_ok st r u mac uniq now st0 st' ip :
  ip ≠ nil_ip → ipActive st0 = ipActive st → get_pool st0 r = get_pool st r →
  loopIp_outcome st0 r now st' ip → grant_ok st r u mac uniq st' ip.
Proof.
  intros Hip Ha Hp [_ [[-> _]|(k & Hk & [Hf _] & _ & Hl & Hs & Hact)]]; [done|].
  unfold grant_ok, in_range. rewrite Ha, Hp in *. rewrite Hl, Hs. auto.
Qed.

Lemma ipInPool_true ip p : ipInPool ip p = true → is_Some (ip_to4 ip) ∧ in_range p ip.
Proof. unfold ipInPool, in_range. destruct (ip_to4 ip); [|done]. intros. bool_to_prop. eauto. Qed.

(** [ipActive] only ever holds [true]. *)
Definition active_true st : Prop := ∀ k b, ipActive st !! k = Some b → b = true.

Lemma reuse_user_rows_ok st r u mac uniq now st' ip all rows :
  pool_valid (get_pool st r) → active_true st → uniq = false →
  user_bindings st r u = Found all → Forall canonical all → rows ⊆ all → ip ≠ nil_ip →
  reuse_user_rows cfg st r rows u mac uniq now = Some (st', ip) →
  grant_ok st r u mac uniq st' ip.
Proof.
  intros Hv Hat Hu Hall Hcan Hsub Hip. induction rows as [|mi rows IH]; cbn [reuse_user_rows].
  { intros Hl%loopIp_spec; [|done]. by eapply outcome_grant_ok. }
  assert (Hmi : mi ∈ all) by (apply Hsub; left).
  specialize (IH ltac:(set_solver)).
  destruct (default false _ && _) eqn:Eact; [done|].
  destruct (im_Keep mi), (im_UniqueMac mi); try done.
  destruct (ipInPool _ _) eqn:Ep; [|done]. intros [= <- <-].
  apply ipInPool_true in Ep as [H4 Hr].
  pose proof (proj1 (Forall_forall _ _) Hcan mi Hmi H4) as Hs.
  unfold grant_ok. rewrite Hs. split_and!; [done|done|].
  apply andb_false_iff in Eact as [Ea|Em].
  - left. destruct (ipActive st !! im_IpAddr mi) as [b|] eqn:E; [|done].
    apply Hat in E. by subst b.
  - right. split; [done|]. exists all, mi. bool_to_prop. auto.
Qed.

Lemma mac_binding_canonical st r mac mi :
  rows_canonical (ipmap_db st) → mac_binding st r mac = Found mi → canonical mi.
Proof.
  intros [Hc _]. unfold mac_binding.
  destruct (one_mac _ mac (GroupName _)) eqn:E; [intros [= <-]; eauto| |done].
  case_match; [eauto|done].
Qed.

Lemma user_bindings_canonical st r u rows :
  rows_canonical (ipmap_db st) → user_bindings st r u = Found rows → Forall canonical rows.
Proof.
  intros [_ Hc]. unfold user_bindings.
  destruct (find_user _ _ u (GroupName _)) as [[|]| |] eqn:E; [|intros [= <-]; eauto|done..].
  case_match; [eauto|intros [= <-]; done].
Qed.


Lemma reuse_user_rows_total st r rows u mac uniq now :
  pool_valid (get_pool st r) → is_Some (reuse_user_rows cfg st r rows u mac uniq now).
Proof.
  intros Hv. induction rows as [|mi rows IH]; cbn [reuse_user_rows]; [by apply loopIp_total|].
  repeat case_match; eauto.
Qed.

(** C38.  Termination: on a range that ends below 255.255.255.255 the
    allocation always returns, whatever the binding table answers. *)
Theorem acquire_terminates st r u mac uniq now :
  pool_valid (get_pool st r) → is_Some (AcquireIpWithRange cfg st (Some r) u mac uniq now).
Proof.
  intros Hv. unfold AcquireIpWithRange. cbn [from_option id].
  destruct uniq; repeat case_match; eauto using loopIp_total, reuse_user_rows_total.
Qed.

(** The bound the previous theorem needs: a [uint32] counter never exceeds
    2^32-1, so the scan of a range ending there does not stop by itself. *)
Lemma loopLong_max_diverges fuel st r u mac uniq now : ∀ i,
  0 ≤ i < 2 ^ 32 → (∀ k, 0 ≤ k < 2 ^ 32 → is_Some (ipActive st !! addr_key k)) →
  loopLong cfg fuel st r i (2 ^ 32 - 1) u mac uniq now = None.
Proof.
  induction fuel as [|fuel IH]; intros i Hi Hall; [done|]. cbn [loopLong].
  rewrite (proj2 (Z.ltb_ge (2 ^ 32 - 1) i)) by lia.
  assert (Hw : 0 ≤ u32 (i + 1) < 2 ^ 32) by (apply wrap_range; lia).
  rewrite !(IH (u32 (i + 1)) Hw Hall).
  rewrite bool_decide_true by (by apply Hall). by destruct (_ && _).
Qed.

(** C37.  Completeness: a client without a binding is refused only when a
    query failed or every address of the range is the gateway, active,
    reserved, or bound with a login time not before now. *)
Theorem acquire_refuses_only_when_exhausted st r u mac now st' :
  pool_valid (get_pool st r) → mac_binding st r mac = NotFound →
  AcquireIpWithRange cfg st (Some r) u mac true now = Some (st', nil_ip) →
  let p := get_pool st r in
  ipActive st' = ipActive st ∧
  ((∃ k, IpLongMin p ≤ k ≤ IpLongMax p ∧ one_addr (ipmap_db st) (addr_key k) = LookupErr)
   ∨ ∀ k, IpLongMin p ≤ k ≤ IpLongMax p →
       is_Some (ipActive st !! addr_key k)
       ∨ ip_Equal (Long2ip k) (Ipv4Gateway_p p) = true
       ∨ ∃ mi, one_addr (ipmap_db st) (addr_key k) = Found mi
               ∧ (im_Keep mi = true ∨ now ≤ im_LastLogin mi)).
Proof.
  intros Hv Hm. unfold AcquireIpWithRange. cbn [from_option id]. rewrite Hm.
  intros [_ [(_ & Ha & _ & Hcov)|(k & _ & _ & Hn & _)]]%loopIp_spec; [|done|done].
  split; [done|]. destruct Hcov as [?|Hcov]; [by left|right]. intros k Hk.
  destruct (ipActive st !! addr_key k) eqn:E; [left; eauto|right].
  destruct (ip_Equal (Long2ip k) (Ipv4Gateway_p (get_pool st r))) eqn:EG; [by left|right].
  apply Hcov; [done|]. split; [done|by right].
Qed.
End properties.

Definition acquire_example : option (pool_state mem_db * IP) :=
  AcquireIpWithRange example_cfg example_pool (Some PGlobal) "alice" "aa:bb:cc:00:00:01" true (1000 * Second).

Definition acquired_state (o : option (pool_state mem_db * IP)) : pool_state mem_db :=
  match o with Some (st, _) => st | None => example_pool end.
Definition acquired_ip (o : option (pool_state mem_db * IP)) : IP :=
  match o with Some (_, ip) => ip | None => nil_ip end.


Lemma acquire_terminates_witness :
  is_Some (AcquireIpWithRange example_cfg example_pool (Some PGlobal) "alice" "aa:bb:cc:00:00:01" true 0).
Proof. apply (acquire_terminates example_cfg example_pool PGlobal). vm_compute. done. Defined.

(** Four clients take the four addresses of the example pool. *)
Definition mac_of (n : Z) : string := hw_String [z2b 2; z2b 0; z2b 0; z2b 0; z2b 0; z2b n].
Definition acquire_as (st : pool_state mem_db) (n : Z) (now : Time) : option (pool_state mem_db * IP) :=
  AcquireIpWithRange example_cfg st (Some PGlobal) "alice" (mac_of n) true now.
Definition full_pool : pool_state mem_db :=
  foldl (λ st n, acquired_state (acquire_as st n (1000 * Second))) example_pool [1; 2; 3; 4].

Lemma acquire_refuses_only_when_exhausted_witness :
  let p := get_pool full_pool PGlobal in
  let st' := acquired_state (acquire_as full_pool 5 (1001 * Second)) in
  ipActive st' = ipActive full_pool ∧
  ((∃ k, IpLongMin p ≤ k ≤ IpLongMax p ∧ one_addr (ipmap_db full_pool) (addr_key k) = LookupErr)
   ∨ ∀ k, IpLongMin p ≤ k ≤ IpLongMax p →
       is_Some (ipActive full_pool !! addr_key k)
       ∨ ip_Equal (Long2ip k) (Ipv4Gateway_p p) = true
       ∨ ∃ mi, one_addr (ipmap_db full_pool) (addr_key k) = Found mi
               ∧ (im_Keep mi = true ∨ 1001 * Second ≤ im_LastLogin mi)).
Proof.
  apply (acquire_refuses_only_when_exhausted example_cfg full_pool PGlobal "alice" (mac_of 5)).
  all: vm_compute; done.
Defined.

(** ** Reconnection *)
Section reconnect.
Context {db : Type} `{IpMapStoreLaws db} (cfg : ServerConfig).
Implicit Types (st : pool_state db) (r : pool_ref) (now : Time).

(** Writing a new login time to the row of address [s] leaves the address
    bound to [mac] in group [g] unchanged. *)
Definition touch_keeps (d : db) (s : string) (t : Time) (mac g : string) : Prop :=
  ∀ row, one_addr d s = Found row →
    ∃ q, one_mac (store_set d (touch row t)).1 mac g = Found q ∧ im_IpAddr q = s.

(**  Reconnection: a device whose binding in the group is in the pool
    gets the same address back after its release. *)
Theorem release_then_reacquire st r u mac mi now now' :
  one_mac (ipmap_db st) mac (GroupName (get_pool st r)) = Found mi →
  canonical mi → ipInPool (ParseIP (im_IpAddr mi)) (get_pool st r) = true →
  touch_keeps (ipmap_db st) (im_IpAddr mi) now mac (GroupName (get_pool st r)) →
  let ip := ParseIP (im_IpAddr mi) in
  ∃ st', AcquireIpWithRange cfg (ReleaseIp st ip nil_ip now) (Some r) u mac true now' = Some (st', ip)
         ∧ ipActive st' = <[im_IpAddr mi := true]> (ipActive st).
Proof.
  intros Ho Hc Hp Ht ip. pose proof Hp as [H4 _]%ipInPool_true. specialize (Hc H4). fold ip in Hc, H4.
  assert (Hn : ip_nil ip = false).
  { unfold ip_nil. apply bool_decide_eq_false. intros E. rewrite E in H4. by destruct H4. }
  unfold ReleaseIp, release4, release6. rewrite Hn, Hc.
  change (ip_nil nil_ip) with true. cbn iota.
  set (st1 := match one_addr _ _ with Found _ => _ | _ => _ end).
  assert (Hst1 : get_pool st1 r = get_pool st r ∧ ipActive st1 = delete (im_IpAddr mi) (ipActive st)
                 ∧ ∃ q, one_mac (ipmap_db st1) mac (GroupName (get_pool st r)) = Found q
                        ∧ im_IpAddr q = im_IpAddr mi).
  { unfold st1. destruct (one_addr (ipmap_db _) (im_IpAddr mi)) as [row| |] eqn:E.
    - split_and!; [by destruct r|done|]. apply (Ht row E).
    - split_and!; [by destruct r|done|eauto].
    - split_and!; [by destruct r|done|eauto]. }
  destruct Hst1 as (Hg & Ha & q & Hq & Hqa). clearbody st1.
  unfold AcquireIpWithRange, mac_binding. cbn [from_option id]. rewrite Hg, Hq, Ha, Hqa.
  rewrite bool_decide_false by (rewrite lookup_delete_eq; by intros []).
  fold ip in Hp. fold ip. rewrite Hp. cbn [negb andb]. eexists. split; [done|].
  cbn [ipActive activate]. change (ipActive (db_Set _ st1)) with (ipActive st1).
  by rewrite Ha, insert_delete_eq.
Qed.
End reconnect.

Lemma release_then_reacquire_witness :
  ∃ st', AcquireIpWithRange example_cfg
           (ReleaseIp full_pool (ParseIP "192.168.90.101") nil_ip (2000 * Second))
           (Some PGlobal) "alice" (mac_of 2) true (3000 * Second)
         = Some (st', ParseIP "192.168.90.101")
         ∧ ipActive st' = <["192.168.90.101"%string := true]> (ipActive full_pool).
Proof.
  refine (release_then_reacquire example_cfg full_pool PGlobal "alice" (mac_of 2)
            (set_Id 2 (new_IpMap "192.168.90.101" "" (mac_of 2) true "alice" (1000 * Second) ""))
            (2000 * Second) (3000 * Second) _ _ _ _).
  - vm_compute; done.
  - vm_compute; done.
  - vm_compute; done.
  - unfold touch_keeps. vm_compute. intros row [= <-]. eexists. split; done.
Defined.

(** The binding of 192.168.90.100 to device 9, spelled as an IPv4-mapped
    IPv6 address. *)
Definition mapped_binding_db : mem_db :=
  (SetIpMap {| mem_rows := []; mem_next := 1 |}
     (new_IpMap "::ffff:192.168.90.100" "" (mac_of 9) true "admin" (1000 * Second) "") 0).1.
Definition mapped_pool : pool_state mem_db := set_db mapped_binding_db example_pool.

(**  [SetIpMap] accepts an IPv4-mapped spelling, under which the pool
    records the address as active; the scan looks for the dotted spelling, so
    the same address is handed to a second client while the first holds it. *)
Theorem mapped_binding_double_grant :
  let o1 := acquire_as mapped_pool 9 (2000 * Second) in
  let o2 := acquire_as (acquired_state o1) 1 (2001 * Second) in
  mem_rows mapped_binding_db ≠ []
  ∧ ip_String (acquired_ip o1) = "192.168.90.100"%string
  ∧ ip_String (acquired_ip o2) = "192.168.90.100"%string.
Proof. vm_compute. done. Qed.

(** A pool of the single address 192.168.90.100. *)
Definition single_pool : pool_state mem_db :=
  let p := get_pool example_pool PGlobal in
  set_pool PGlobal {| Ipv4Gateway_p := Ipv4Gateway_p p; Ipv4Mask := Ipv4Mask p; Ipv4IPNet := Ipv4IPNet p;
     IpLongMin := IpLongMin p; IpLongMax := IpLongMin p; loopCurIp := IpLongMin p; loopFarIp := None;
     GroupName := ""; Ipv6IPNet := None; Ipv6Gateway := nil_ip; ipv6Start := None; ipv6End := None;
     ipv6Cursor := None |} example_pool.

(**  A client without a device MAC that connects again while its first
    connection is still up shares the address; when the first connection
    closes, [ReleaseIp] clears the mark of the second, and the address is
    handed to another client. *)
Theorem shared_address_release_double_grant :
  let acq st u mac t := AcquireIpWithRange example_cfg st (Some PGlobal) u mac false t in
  let o1 := acq single_pool "alice"%string (mac_of 1) (1000 * Second) in
  let o2 := acq (acquired_state o1) "alice"%string (mac_of 1) (1010 * Second) in
  let st := ReleaseIp (acquired_state o2) (acquired_ip o1) nil_ip (1020 * Second) in
  let o3 := acq st "bob"%string (mac_of 2) (1030 * Second) in
  ip_String (acquired_ip o1) = "192.168.90.100"%string
  ∧ ip_String (acquired_ip o2) = "192.168.90.100"%string
  ∧ ip_String (acquired_ip o3) = "192.168.90.100"%string.
Proof. vm_compute. done. Qed.

(** ** IPv6 *)
Lemma bytes_to_Z_app l b : bytes_to_Z (l ++ [b]) = bytes_to_Z l * 256 + b2z b.
Proof. unfold bytes_to_Z. by rewrite fold_left_app. Qed.

Lemma Z_to_bytes_length n : ∀ z, length (Z_to_bytes n z) = n.
Proof. induction n as [|n IH]; intros z; [done|]. cbn [Z_to_bytes]. rewrite length_app, IH. simpl. lia. Qed.

Lemma bytes_to_Z_to_bytes n : ∀ z, 0 ≤ z < 256 ^ Z.of_nat n → bytes_to_Z (Z_to_bytes n z) = z.
Proof.
  induction n as [|n IH]; intros z Hz.
  - change (256 ^ Z.of_nat 0) with 1 in Hz. simpl. unfold bytes_to_Z. simpl. lia.
  - cbn [Z_to_bytes]. rewrite bytes_to_Z_app, IH.
    + pose proof (Z.mod_pos_bound z 256 ltac:(lia)). rewrite b2z_z2b_small by lia.
      rewrite Z.mul_comm, <- Z.div_mod; lia.
    + rewrite Nat2Z.inj_succ, Z.pow_succ_r in Hz by lia.
      split; [apply Z.div_pos|apply Z.div_lt_upper_bound]; lia.
Qed.

Lemma ipToBig_bigToIP' x : 0 ≤ x < 2 ^ 128 →
  match bigToIP x with Ret ip => ipToBig ip = x | Panic => False end.
Proof.
  intros Hx. unfold bigToIP. rewrite (proj2 (Z.leb_gt (2 ^ 128) x)) by lia.
  unfold ipToBig, ip_to16. rewrite Z_to_bytes_length. cbn [Nat.eqb from_option].
  by apply bytes_to_Z_to_bytes.
Qed.

(**  Round trip: [ipToBig] inverts [bigToIP] on the 128-bit range, and
    [bigToIP] panics above it. *)
Theorem ipToBig_bigToIP x :
  0 ≤ x →
  match bigToIP x with
  | Ret ip => x < 2 ^ 128 ∧ ipToBig ip = x
  | Panic => 2 ^ 128 ≤ x
  end.
Proof.
  intros Hx. destruct (Z.leb_spec (2 ^ 128) x) as [H|H].
  - unfold bigToIP. by rewrite (proj2 (Z.leb_le _ _) H).
  - pose proof (ipToBig_bigToIP' x ltac:(lia)). by destruct (bigToIP x).
Qed.

Lemma ipToBig_bigToIP_witness :
  match bigToIP (2 ^ 127 + 5) with
  | Ret ip => 2 ^ 127 + 5 < 2 ^ 128 ∧ ipToBig ip = 2 ^ 127 + 5
  | Panic => 2 ^ 128 ≤ 2 ^ 127 + 5
  end.
Proof. apply (ipToBig_bigToIP (2 ^ 127 + 5)). vm_compute. done. Defined.

Section v6.
Context {db : Type} `{IpMapStore db} (cfg : ServerConfig).
Implicit Types (st : pool_state db) (r : pool_ref) (now : Time).

(** The v6 part of a pool that [initV6] filled. *)
Definition v6_range (p : ipPoolConfig) (s e : Z) : Prop :=
  ipv6Start p = Some s ∧ ipv6End p = Some e ∧ is_Some (ipv6Cursor p) ∧ 0 ≤ s ≤ e + 1 ∧ e < 2 ^ 128.

(** [x] was free and is now the only new active address; the cursor moved
    past it. *)
Definition v6_granted st r st' (ip : IP) (x : Z) : Prop :=
  bigToIP x = Ret ip ∧ ipActive st !! ip_String ip = None
  ∧ ipActive st' = <[ip_String ip := true]> (ipActive st)
  ∧ ipv6Cursor (get_pool st' r) = Some (x + 1).

Lemma v6_candidate_take st gp s u mac uniq now st' :
  v6_candidate cfg st gp s u mac uniq now = V6Take st' →
  ipActive st !! s = None ∧ ipActive st' = <[s := true]> (ipActive st).
Proof.
  unfold v6_candidate. case_bool_decide as Ha; [done|]. apply eq_None_not_Some in Ha.
  intros E. repeat case_match; simplify_eq; done.
Qed.

Lemma scan_v6_spec fuel st gp ap hi u mac uniq now : ∀ cur,
  hi < 2 ^ 128 → (Z.to_nat (hi - cur + 1) < fuel)%nat →
  ∃ o, scan_v6 cfg fuel st cur hi gp ap u mac uniq now = Some (Ret o)
    ∧ ∀ st' ip, o = Some (Some (st', ip)) → ∃ x, cur ≤ x ≤ hi ∧ v6_granted st ap st' ip x.
Proof.
  induction fuel as [|fuel IH]; intros cur Hhi Hf; [lia|]. cbn [scan_v6].
  destruct (Z.ltb_spec hi cur) as [Hc|Hc]; [by exists None|].
  destruct (bigToIP cur) as [ip|] eqn:Eb; cycle 1.
  { unfold bigToIP in Eb. rewrite (proj2 (Z.leb_gt (2 ^ 128) cur)) in Eb by lia. done. }
  destruct (v6_candidate _ _ _ _ _ _ _ _) as [| |st1] eqn:Ec.
  - destruct (IH (cur + 1)) as (o & -> & Ho); [done|lia|]. exists o. split; [done|].
    intros st' ip' (x & ? & ?)%Ho. exists x. split; [lia|done].
  - by exists (Some None).
  - eexists. split; [done|]. intros st' ip' [= <- <-]. exists cur. split; [lia|].
    apply v6_candidate_take in Ec as [Hn Ha]. split_and!; [done..| |].
    + rewrite <- Ha. by destruct ap.
    + by rewrite get_set_pool.
Qed.

(**  IPv6 allocation: on a pool below 2^128 the allocation returns
    without panicking; an address it returns is in [start..end], was not
    active, is the only new active address, and the cursor moves past it. *)
Theorem loopIpV6_grants fuel st gp ap u mac uniq now s e :
  v6_range (get_pool st ap) s e → (Z.to_nat (e - s + 1) < fuel)%nat →
  ∃ st' ip, loopIpV6 cfg fuel st gp ap u mac uniq now = Some (Ret (st', ip))
    ∧ (ip = nil_ip ∧ st' = st ∨ ∃ x, s ≤ x ≤ e ∧ v6_granted st ap st' ip x).
Proof.
  intros (Es & Ee & [c Ec] & Hs & He) Hf. unfold loopIpV6. rewrite Es, Ee, Ec.
  set (cur := if (c <? s) || (e <? c) then s else c).
  assert (Hcur : s ≤ cur).
  { unfold cur. destruct ((c <? s) || (e <? c)) eqn:E; [done|]. by bool_to_prop. }
  destruct (scan_v6_spec fuel st gp ap e u mac uniq now cur He) as (o & -> & Ho); [lia|].
  destruct o as [[[st' ip]|]|].
  - eexists _, _. split; [done|]. right. destruct (Ho _ _ eq_refl) as (x & ? & ?).
    exists x. split; [lia|done].
  - eexists _, _. split; [done|]. by left.
  - assert (Hce : cur ≤ e + 1).
    { unfold cur. destruct ((c <? s) || (e <? c)) eqn:E; [lia|]. bool_to_prop. lia. }
    destruct (scan_v6_spec fuel st gp ap (cur - 1) u mac uniq now s) as (o' & -> & Ho'); [lia..|].
    destruct o' as [[[st' ip]|]|]; eexists _, _; (split; [done|]); [right|by left..].
    destruct (Ho' _ _ eq_refl) as (x & ? & ?). exists x. split; [lia|done].
Qed.
End v6.

(** A dual-stack pool: 2001:db8::/120, 254 addresses. *)
Definition dual_pool : pool_state mem_db :=
  match initV6 (get_pool example_pool PGlobal) "2001:db8::/120" with
  | Some p => set_pool PGlobal p example_pool
  | None => example_pool
  end.

Lemma loopIpV6_grants_witness :
  let s := 42540766411282592856903984951653826562 in
  let e := 42540766411282592856903984951653826815 in
  ∃ st' ip, loopIpV6 example_cfg 300 dual_pool PGlobal PGlobal "alice" (mac_of 1) true (1000 * Second)
            = Some (Ret (st', ip))
    ∧ (ip = nil_ip ∧ st' = dual_pool ∨ ∃ x, s ≤ x ≤ e ∧ v6_granted dual_pool PGlobal st' ip x).
Proof.
  apply (loopIpV6_grants example_cfg 300 dual_pool PGlobal PGlobal).
  - assert (ipv6Cursor (get_pool dual_pool PGlobal) = Some 42540766411282592856903984951653826562) as Hc
      by (vm_compute; done).
    unfold v6_range. rewrite Hc. split_and!; [vm_compute; done..|eauto|lia|lia|lia].
  - lia.
Defined.

Example dual_pool_first :
  match acquireIpV6 example_cfg 3 dual_pool PGlobal "alice" (mac_of 1) true 0 with
  | Some (Ret (_, ip)) => ip_String ip = "2001:db8::2"%string
  | _ => False
  end.
Proof. vm_compute. done. Qed.

(** ** [initV6] *)
Lemma land_le_r a m : 0 ≤ m → Z.land a m ≤ m.
Proof.
  intros Hm. assert (H0 : Z.ldiff (Z.land a m) m = 0).
  { apply Z.bits_inj'. intros n Hn. rewrite Z.ldiff_spec, Z.land_spec, Z.bits_0.
    by destruct (Z.testbit a n), (Z.testbit m n). }
  apply Z.sub_nocarry_ldiff in H0.
  assert (0 ≤ Z.ldiff m (Z.land a m)) by (apply Z.ldiff_nonneg; by left). lia.
Qed.

Lemma byte_and_le a m : b2z (byte_and a m) ≤ b2z m.
Proof.
  unfold byte_and. pose proof (b2z_range m). pose proof (b2z_range a).
  assert (0 ≤ Z.land (b2z a) (b2z m)) by (apply Z.land_nonneg; lia).
  pose proof (land_le_r (b2z a) (b2z m) ltac:(lia)).
  rewrite b2z_z2b_small by lia. done.
Qed.

Lemma bytes_to_Z_cons b l : bytes_to_Z (b :: l) = b2z b * 256 ^ len l + bytes_to_Z l.
Proof.
  induction l as [|x l IH] using rev_ind.
  - change (256 ^ len (@nil byte)) with 1. unfold bytes_to_Z. simpl. lia.
  - rewrite app_comm_cons, !bytes_to_Z_app, IH, len_app.
    change (len [x]) with 1. rewrite Z.pow_add_r by (unfold len; lia). lia.
Qed.

Lemma bytes_to_Z_range l : 0 ≤ bytes_to_Z l < 256 ^ len l.
Proof.
  induction l as [|b l IH]; [done|]. rewrite bytes_to_Z_cons, len_cons, Z.pow_add_r by (unfold len; lia).
  pose proof (b2z_range b). assert (0 < 256 ^ len l) by (apply Z.pow_pos_nonneg; unfold len; lia). nia.
Qed.

Lemma masked_zero n : ∀ ones l, ones ≤ 0 → bytes_to_Z (zip_with byte_and l (mask_bytes n ones)) = 0.
Proof.
  induction n as [|n IH]; intros ones [|b l] Ho; try done. cbn [mask_bytes zip_with].
  rewrite bytes_to_Z_cons, IH by lia.
  rewrite (proj2 (Z.leb_gt 8 ones)), (proj2 (Z.leb_le ones 0)) by lia.
  pose proof (byte_and_le b "000"%byte). pose proof (b2z_range (byte_and b "000"%byte)).
  change (b2z "000"%byte) with 0 in *. lia.
Qed.

(** The network number and the host part of a prefix fit together. *)
Lemma masked_bound n : ∀ ones l, length l = n → 0 ≤ ones ≤ 8 * Z.of_nat n →
  bytes_to_Z (zip_with byte_and l (mask_bytes n ones)) + 2 ^ (8 * Z.of_nat n - ones) ≤ 256 ^ Z.of_nat n.
Proof.
  induction n as [|n IH]; intros ones [|b l] Hl Ho; try done.
  { assert (ones = 0) as -> by lia. done. }
  cbn [mask_bytes zip_with]. injection Hl as Hl.
  assert (Hlen : ∀ k, len (zip_with byte_and l (mask_bytes n k)) = Z.of_nat n).
  { intros k. unfold len. rewrite length_zip_with.
    assert (length (mask_bytes n k) = n) as ->; [|lia].
    clear. revert k. induction n as [|n IH]; intros k; [done|]. simpl. by rewrite IH. }
  rewrite bytes_to_Z_cons, Hlen. rewrite Nat2Z.inj_succ, (Z.pow_succ_r 256) in * by lia.
  assert (HP : 0 < 256 ^ Z.of_nat n) by lia.
  destruct (Z.leb_spec 8 ones) as [H8|H8].
  - specialize (IH (ones - 8) l Hl ltac:(lia)).
    replace (8 * Z.succ (Z.of_nat n) - ones) with (8 * Z.of_nat n - (ones - 8)) by lia.
    pose proof (b2z_range (byte_and b "255"%byte)). nia.
  - rewrite masked_zero by lia. rewrite Z.add_0_r.
    destruct (Z.leb_spec ones 0) as [H0|H0].
    + assert (ones = 0) as -> by lia. pose proof (byte_and_le b "000"%byte).
      pose proof (b2z_range (byte_and b "000"%byte)). change (b2z "000"%byte) with 0 in *.
      replace (8 * Z.succ (Z.of_nat n) - 0) with (8 * Z.succ (Z.of_nat n)) by lia.
      rewrite Z.pow_mul_r by lia. change (2 ^ 8) with 256. rewrite Z.pow_succ_r by lia. nia.
    + pose proof (byte_and_le b (z2b (255 - (2 ^ (8 - ones) - 1)))) as Hb.
      assert (Hp2 : 2 ^ (8 - ones) ≤ 2 ^ 8) by (apply Z.pow_le_mono_r; lia). change (2 ^ 8) with 256 in Hp2.
      assert (0 < 2 ^ (8 - ones)) by (apply Z.pow_pos_nonneg; lia).
      rewrite b2z_z2b_small in Hb by lia.
      replace (8 * Z.succ (Z.of_nat n) - ones) with ((8 - ones) + 8 * Z.of_nat n) by lia.
      rewrite Z.pow_add_r by lia. rewrite (Z.pow_mul_r 2 8) by lia. change (2 ^ 8) with 256. nia.
Qed.

Lemma mask_Size_inv m ones bits : mask_Size m = (ones, bits) → bits = 128 → m = mask_bytes 16 ones.
Proof.
  unfold mask_Size. case_bool_decide as Hm; intros [= <- <-] Hb; [|done].
  rewrite Hb in Hm. by rewrite Hm at 1.
Qed.

Lemma ip_Mask_16 a m : length a = 16%nat → length m = 16%nat → ip_Mask a m = zip_with byte_and a m.
Proof. intros Ha Hm. unfold ip_Mask. rewrite Ha, Hm. cbn [Nat.eqb andb]. rewrite Hm. cbn [Nat.eqb andb]. by rewrite Ha. Qed.

Lemma mask_ones_nonneg m : 0 ≤ mask_ones m.
Proof.
  induction m as [|b m IH]; [done|]. cbn [mask_ones]. case_match; [lia|].
  destruct (filter _ _) as [|k l] eqn:E; [done|].
  assert (k ∈ [0; 1; 2; 3; 4; 5; 6; 7]) as Hk.
  { eapply (list_elem_of_filter (λ k, mask_bytes 1 k = [b])). rewrite E. left. }
  rewrite !elem_of_cons in Hk. destruct Hk as [->|[->|[->|[->|[->|[->|[->|[->|Hk]]]]]]]]; try done.
  by apply not_elem_of_nil in Hk.
Qed.

Lemma mask_Size_nonneg m ones bits : mask_Size m = (ones, bits) → 0 ≤ ones.
Proof. unfold mask_Size. pose proof (mask_ones_nonneg m). case_bool_decide; intros [= <- <-]; done. Qed.

Lemma ipToBig_masked a ones : 0 ≤ ones ≤ 128 → (length a = 16 ∨ length a = 0)%nat →
  0 ≤ ipToBig (ip_Mask a (mask_bytes 16 ones)) ∧
  ipToBig (ip_Mask a (mask_bytes 16 ones)) + 2 ^ (128 - ones) ≤ 2 ^ 128.
Proof.
  intros Ho [Ha|Ha].
  - rewrite ip_Mask_16 by done. unfold ipToBig, ip_to16.
    rewrite length_zip_with, Ha. cbn [length mask_bytes Nat.min Nat.eqb from_option id].
    split; [apply bytes_to_Z_range|]. apply (masked_bound 16 ones a Ha). lia.
  - apply length_zero_iff_nil in Ha as ->.
    assert (ip_Mask [] (mask_bytes 16 ones) = nil_ip) as -> by done.
    change (ipToBig nil_ip) with 0. split; [done|]. apply Z.pow_le_mono_r; lia.
Qed.

Lemma ip_to16_length a : (length (default nil_ip (ip_to16 a)) = 16 ∨ length (default nil_ip (ip_to16 a)) = 0)%nat.
Proof.
  unfold ip_to16. destruct (Nat.eqb (length a) 4) eqn:E4; simpl.
  { left. apply Nat.eqb_eq in E4. by rewrite E4. }
  destruct (Nat.eqb (length a) 16) eqn:E; simpl; [left; by apply Nat.eqb_eq|by right].
Qed.

Lemma ip_Mask_length a m : length m = 16%nat → (length a = 16 ∨ length a = 0)%nat →
  (length (ip_Mask a m) = 16 ∨ length (ip_Mask a m) = 0)%nat.
Proof.
  intros Hm [Ha|Ha].
  - left. rewrite ip_Mask_16 by done. by rewrite length_zip_with, Ha, Hm.
  - right. apply length_zero_iff_nil in Ha as ->. unfold ip_Mask. rewrite Hm. cbn. by rewrite Hm.
Qed.

Lemma ParseCIDR_net s a n : ParseCIDR s = Some (a, n) → length (net_Mask n) = 16%nat →
  (length (net_IP n) = 16 ∨ length (net_IP n) = 0)%nat.
Proof.
  unfold ParseCIDR. intros H Hm. repeat (case_match; try done). simplify_eq. simpl in *.
  apply ip_Mask_length; [done|apply ip_to16_length].
Qed.

(**  The IPv6 pool [initV6] builds: the gateway is one below the first
    address, the range is non-negative and stays below 2^128, so that
    allocation from it never panics. *)
Theorem initV6_range p cidr p' :
  initV6 p cidr = Some p' →
  ∃ s e, v6_range p' s e ∧ ipToBig (Ipv6Gateway p') + 1 = s ∧ ipv6Cursor p' = Some s
         ∧ is_Some (Ipv6IPNet p').
Proof.
  unfold initV6. destruct (ParseCIDR cidr) as [[a n]|] eqn:EP; [|done].
  destruct (mask_Size (net_Mask n)) as [ones bits] eqn:EM.
  destruct (negb (bits =? 128) || (128 <=? ones)) eqn:Eb; [done|].
  apply orb_false_iff in Eb as [Eb Eo]. apply negb_false_iff, Z.eqb_eq in Eb. apply Z.leb_gt in Eo.
  pose proof (mask_Size_inv _ _ _ EM Eb) as Hm.
  assert (Hl : length (net_Mask n) = 16%nat) by (rewrite Hm; done).
  assert (H0 : 0 ≤ ones) by (eapply mask_Size_nonneg, EM).
  destruct (ipToBig_masked (net_IP n) ones ltac:(lia) (ParseCIDR_net _ _ _ EP Hl)) as [Hn Hb].
  rewrite <- Hm in Hn, Hb. set (N := ipToBig _) in *.
  assert (2 ≤ 2 ^ (128 - ones)).
  { change 2 with (2 ^ 1) at 1. apply Z.pow_le_mono_r; lia. }
  rewrite Z.shiftl_mul_pow2 by lia.
  pose proof (ipToBig_bigToIP' (N + 1) ltac:(lia)) as Hg.
  destruct (bigToIP (N + 1)) as [gw|]; [|done]. intros [= <-].
  exists (N + 2), (N + (1 * 2 ^ (128 - ones) - 1)). unfold v6_range. simpl. rewrite Hg.
  split_and!; [done..|eauto|lia|lia|lia|lia|done|eauto].
Qed.

Lemma initV6_range_witness :
  ∃ p', initV6 zero_pool "2001:db8::/64" = Some p' ∧
  ∃ s e, v6_range p' s e ∧ ipToBig (Ipv6Gateway p') + 1 = s ∧ ipv6Cursor p' = Some s
         ∧ is_Some (Ipv6IPNet p').
Proof.
  destruct (initV6 zero_pool "2001:db8::/64") as [p'|] eqn:E.
  - exists p'. split; [done|]. exact (initV6_range zero_pool "2001:db8::/64" p' E).
  - exfalso. vm_compute in E. discriminate E.
Defined.
