(* ===== verification/Session.v ===== *)
(** * Sessions and connections (server/sessdata/session.go, limit_client.go)

    A [*Session] and a [*ConnSession] are shared and mutated through pointers,
    so the model keeps two heaps; [sessions] maps a token to a session's
    location and [dtlsIds] a DTLS session id to a token.  Every operation runs
    under the mutexes of the code, so a step is atomic.  Rows of other tables
    and the policy layer are the class [SessionDb]. *)
From S2P Require Export IpPool.
Local Open Scope Z_scope.

(** ** The connection limit *)
Definition limitAllKey : string := "__ALL__".

Definition LimitClient (cfg : ServerConfig) (lc : gmap string Z) (user : string) (close : bool)
    : gmap string Z * bool :=
  let all := default 0 (lc !! limitAllKey) in
  let c := default 0 (lc !! user) in
  let lc := match lc !! user with None => <[user := 0]> lc | Some _ => lc end in
  if close then
    let lc := if 0 <? c then <[user := c - 1]> lc else lc in
    let lc := if 0 <? all then <[limitAllKey := all - 1]> lc else lc in
    (lc, true)
  else if MaxClient cfg <=? all then (lc, false)
  else if MaxUserClient cfg <=? c then (lc, false)
  else (<[limitAllKey := all + 1]> (<[user := c + 1]> lc), true).

(** ** The rate limiter (limit_rate.go)

    [rate.Limiter] is a token bucket outside the sources: [waitN n] says
    whether [WaitN] for [n] tokens succeeds; it fails for [n] above the burst. *)
Definition maxBurst : Z := 1500.

Record LimitRater := { lr_rate : Z; lr_burst : Z }.

Definition NewLimitRater (bytesPerSec : Z) : LimitRater :=
  {| lr_rate := bytesPerSec; lr_burst := Z.max (Z.min bytesPerSec maxBurst) 1 |}.

(** The requests [Wait] makes of the limiter and whether it succeeds. *)
Fixpoint LimitRater_Wait (fuel : nat) (waitN : Z → bool) (l : LimitRater) (bt : Z)
    : option (list Z * bool) :=
  match fuel with
  | O => None
  | S fuel =>
      if 0 <? bt then
        let n := Z.min bt (lr_burst l) in
        if waitN n then
          match LimitRater_Wait fuel waitN l (bt - n) with
          | Some (ns, ok) => Some (n :: ns, ok)
          | None => None
          end
        else Some ([n], false)
      else Some ([], true)
  end.

(** A limiter is created for a positive rate only. *)
Definition limit_of (bytesPerSec : Z) : option LimitRater :=
  if 0 <? bytesPerSec then Some (NewLimitRater bytesPerSec) else None.

(** ** Data *)
Abbreviation loc := positive.

(** [DtlsSession]; [ds_CloseChan] is the channel: nil, open or closed. *)
Inductive chan_state := ChanNil | ChanOpen | ChanClosed.
#[export] Instance chan_state_eq_dec : EqDecision chan_state.
Proof. solve_decision. Defined.

Record DtlsSession := {
  isActive : Z; ds_CloseChan : chan_state; ds_closeOnce : bool; ds_IpAddr : IP
}.

(** The byte counters of a connection ([atomic.Uint64]). *)
Record Traffic := {
  bwUp : Z; bwDown : Z; bwUpPeriod : Z; bwDownPeriod : Z;
  bwUpAll : Z; bwDownAll : Z; trafficSettled : Z; quotaTick : Z
}.

(** The fields of a [ConnSession] that [NewConn] fixes. *)
Record ConnInfo := {
  cs_Sess : loc; IpAddr : IP; IpAddr6 : IP; cs_IpPool : pool_ref; MacHw : list byte;
  cs_Username : string; cs_Nickname : string; cs_Group : Group; cs_Policy : option Policy;
  Limit : option LimitRater; LimitUp : option LimitRater; FakeDNS : bool
}.

Record ConnSession := {
  info : ConnInfo; cs_Mtu : Z; userLogoutCode : Z; traffic : Traffic;
  cs_closed : bool; dSess : DtlsSession; LastDataTime : Z; MasterSecret : string;
  CstpPickCmp : option string; DtlsPickCmp : option string
}.

Record Session := {
  Sid : string; Token : string; DtlsSid : string; MacAddr : string; s_MacHw : list byte;
  UniqueMac : bool; Username : string; s_Group : string; RemoteAddr : string;
  LastLogin : Time; IsActive : bool; s_LimitTime : option Time; CSess : option loc
}.

(** What the database was told: settled traffic and logout records. *)
Inductive db_event :=
  | AddTraffic (user : string) (delta : Z)
  | ActLog (user : string) (ip : string) (code : Z).

Record world (db : Type) := {
  pools : pool_state db; limitClient : gmap string Z;
  sessions : gmap string loc; dtlsIds : gmap string string;
  sess_heap : gmap loc Session; conn_heap : gmap loc ConnSession;
  events : list db_event
}.
Arguments pools {db} _. Arguments limitClient {db} _. Arguments sessions {db} _.
Arguments dtlsIds {db} _. Arguments sess_heap {db} _. Arguments conn_heap {db} _.
Arguments events {db} _. Arguments Build_world {db} _ _ _ _ _ _ _.

(** The rows and the policy layer [NewConn] consults. *)
Class SessionDb := {
  group_by_name : string → lookup_res Group;
  user_by_name : string → lookup_res User;
  apply_policy : string → Group → option Policy;
  quota_exceeded : string → Policy → bool
}.

(** ** Record updates *)
Definition set_traffic (t : Traffic) (c : ConnSession) : ConnSession :=
  {| info := info c; cs_Mtu := cs_Mtu c; userLogoutCode := userLogoutCode c; traffic := t;
     cs_closed := cs_closed c; dSess := dSess c; LastDataTime := LastDataTime c;
     MasterSecret := MasterSecret c; CstpPickCmp := CstpPickCmp c; DtlsPickCmp := DtlsPickCmp c |}.
Definition set_mtu (m : Z) (c : ConnSession) : ConnSession :=
  {| info := info c; cs_Mtu := m; userLogoutCode := userLogoutCode c; traffic := traffic c;
     cs_closed := cs_closed c; dSess := dSess c; LastDataTime := LastDataTime c;
     MasterSecret := MasterSecret c; CstpPickCmp := CstpPickCmp c; DtlsPickCmp := DtlsPickCmp c |}.
Definition set_code (n : Z) (c : ConnSession) : ConnSession :=
  {| info := info c; cs_Mtu := cs_Mtu c; userLogoutCode := n; traffic := traffic c;
     cs_closed := cs_closed c; dSess := dSess c; LastDataTime := LastDataTime c;
     MasterSecret := MasterSecret c; CstpPickCmp := CstpPickCmp c; DtlsPickCmp := DtlsPickCmp c |}.
Definition set_closed (b : bool) (d : DtlsSession) (c : ConnSession) : ConnSession :=
  {| info := info c; cs_Mtu := cs_Mtu c; userLogoutCode := userLogoutCode c; traffic := traffic c;
     cs_closed := b; dSess := d; LastDataTime := LastDataTime c;
     MasterSecret := MasterSecret c; CstpPickCmp := CstpPickCmp c; DtlsPickCmp := DtlsPickCmp c |}.
Definition set_cmp (cstp dtls : option string) (c : ConnSession) : ConnSession :=
  {| info := info c; cs_Mtu := cs_Mtu c; userLogoutCode := userLogoutCode c; traffic := traffic c;
     cs_closed := cs_closed c; dSess := dSess c; LastDataTime := LastDataTime c;
     MasterSecret := MasterSecret c; CstpPickCmp := cstp; DtlsPickCmp := dtls |}.

Definition set_conn_state (act : bool) (t : Time) (c : option loc) (s : Session) : Session :=
  {| Sid := Sid s; Token := Token s; DtlsSid := DtlsSid s; MacAddr := MacAddr s; s_MacHw := s_MacHw s;
     UniqueMac := UniqueMac s; Username := Username s; s_Group := s_Group s;
     RemoteAddr := RemoteAddr s; LastLogin := t; IsActive := act;
     s_LimitTime := s_LimitTime s; CSess := c |}.
Definition set_limit_time (lt : option Time) (s : Session) : Session :=
  {| Sid := Sid s; Token := Token s; DtlsSid := DtlsSid s; MacAddr := MacAddr s; s_MacHw := s_MacHw s;
     UniqueMac := UniqueMac s; Username := Username s; s_Group := s_Group s;
     RemoteAddr := RemoteAddr s; LastLogin := LastLogin s; IsActive := IsActive s;
     s_LimitTime := lt; CSess := CSess s |}.

(** ** Logout code: stored as [code + 1], zero meaning unset *)
Definition SetLogoutCode (code : Z) (cs : ConnSession) : ConnSession :=
  if userLogoutCode cs =? 0 then set_code (u32 (u8 code + 1)) cs else cs.

Definition LogoutCode (cs : ConnSession) : Z :=
  if userLogoutCode cs =? 0 then UserLogoutLose else u8 (userLogoutCode cs - 1).

(** ** DTLS *)

(** [close(nil)] and a second [close] panic; [closeOnce] guards the second. *)
Definition DtlsSession_Close (ds : DtlsSession) : res DtlsSession :=
  if ds_closeOnce ds then Ret ds
  else match ds_CloseChan ds with
       | ChanOpen => Ret {| isActive := -1; ds_CloseChan := ChanClosed; ds_closeOnce := true;
                            ds_IpAddr := ds_IpAddr ds |}
       | _ => Panic
       end.

Definition GetDtlsSession (cs : ConnSession) : option DtlsSession :=
  if 0 <? isActive (dSess cs) then Some (dSess cs) else None.

Definition NewDtlsConn (cs : ConnSession) : ConnSession * option DtlsSession :=
  if 0 <? isActive (dSess cs) then (cs, None)
  else
    let ds := {| isActive := 1; ds_CloseChan := ChanOpen; ds_closeOnce := false;
                 ds_IpAddr := IpAddr (info cs) |} in
    (set_closed (cs_closed cs) ds cs, Some ds).

(** ** MTU, compression, accounting *)
Definition enforceMtuFloorV6 (cfg : ServerConfig) (cs : ConnSession) : ConnSession :=
  if str_empty (Ipv6CIDR cfg) then cs
  else if cs_Mtu cs <? 1280 then set_mtu 1280 cs else cs.

(** [strconv.Atoi]: an optional sign and decimal digits, in [int64]. *)
Definition Atoi (s : string) : option Z :=
  let num neg ds :=
    match ds with
    | [] => None
    | _ => match parse_digits 0 ds with
           | Some n => let n := if neg : bool then - n else n in
                       if (min_int64 <=? n) && (n <=? max_int64) then Some n else None
           | None => None
           end
    end in
  match bytes_of s with
  | c :: r => if beqb c "-"%byte then num true r
              else if beqb c "+"%byte then num false r else num false (c :: r)
  | [] => None
  end.

(** [SetMtu]; the package variable [MaxMtu] is threaded. *)
Definition SetMtu (cfg : ServerConfig) (MaxMtu : Z) (cs : ConnSession) (mtu : string)
    : Z * ConnSession :=
  let MaxMtu := if 0 <? Mtu cfg then Mtu cfg else MaxMtu in
  let cs := set_mtu MaxMtu cs in
  match Atoi mtu with
  | None => (MaxMtu, enforceMtuFloorV6 cfg cs)
  | Some mi =>
      if mi <? 100 then (MaxMtu, enforceMtuFloorV6 cfg cs)
      else
        let cs := if mi <? MaxMtu then set_mtu mi cs else cs in
        (MaxMtu, enforceMtuFloorV6 cfg cs)
  end.

Definition SetPickCmp (cfg : ServerConfig) (cs : ConnSession) (cate encoding : string)
    : ConnSession * (string * bool) :=
  if negb (Compression cfg) then (cs, (""%string, false))
  else if str_contains encoding "lzs" then
    let cs := if String.eqb cate "cstp" then set_cmp (Some "lzs"%string) (DtlsPickCmp cs) cs
              else set_cmp (CstpPickCmp cs) (Some "lzs"%string) cs in
    (cs, ("lzs"%string, true))
  else (cs, (""%string, false)).

(** [RateLimit]: the accounting; the second component is the limiter waited on
    and the number of bytes. *)
Definition RateLimit (cs : ConnSession) (byt : Z) (isUp : bool) : ConnSession * option (LimitRater * Z) :=
  let t := traffic cs in
  if isUp then
    (set_traffic {| bwUp := u64 (bwUp t + u64 byt); bwDown := bwDown t; bwUpPeriod := bwUpPeriod t;
        bwDownPeriod := bwDownPeriod t; bwUpAll := bwUpAll t; bwDownAll := bwDownAll t;
        trafficSettled := trafficSettled t; quotaTick := quotaTick t |} cs,
     match LimitUp (info cs) with Some l => Some (l, byt) | None => None end)
  else
    (set_traffic {| bwUp := bwUp t; bwDown := u64 (bwDown t + u64 byt); bwUpPeriod := bwUpPeriod t;
        bwDownPeriod := bwDownPeriod t; bwUpAll := bwUpAll t; bwDownAll := bwDownAll t;
        trafficSettled := trafficSettled t; quotaTick := quotaTick t |} cs,
     match Limit (info cs) with Some l => Some (l, byt) | None => None end).

Definition has_quota (cs : ConnSession) : bool :=
  match cs_Policy (info cs) with Some p => 0 <? TrafficQuota p | None => false end.

(** [settleTraffic]: the new connection and the amount added in the database. *)
Definition settleTraffic (cs : ConnSession) : ConnSession * list db_event :=
  if negb (has_quota cs) then (cs, [])
  else
    let t := traffic cs in
    let totalAll := u64 (bwUpAll t + bwDownAll t) in
    if totalAll <=? trafficSettled t then (cs, [])
    else
      (set_traffic {| bwUp := bwUp t; bwDown := bwDown t; bwUpPeriod := bwUpPeriod t;
          bwDownPeriod := bwDownPeriod t; bwUpAll := bwUpAll t; bwDownAll := bwDownAll t;
          trafficSettled := totalAll; quotaTick := quotaTick t |} cs,
       (* AddTrafficUsed ignores a delta that is not positive *)
       let delta := s64 (totalAll - trafficSettled t) in
       if delta <=? 0 then [] else [AddTraffic (cs_Username (info cs)) delta]).

Definition BandwidthPeriodSec : Z := 10.
Definition QuotaCheckSec : Z := 60.

(** One tick of [ratePeriod] on an open connection; the flag asks for the
    asynchronous [CloseSess(token, UserLogoutQuota)] and ends the loop. *)
Definition ratePeriod_tick `{SessionDb} (cs : ConnSession) : ConnSession * list db_event * bool :=
  let t := traffic cs in
  let rtUp := bwUp t in
  let rtDown := bwDown t in
  let t' tick := {| bwUp := 0; bwDown := 0; bwUpPeriod := rtUp / BandwidthPeriodSec;
      bwDownPeriod := rtDown / BandwidthPeriodSec; bwUpAll := u64 (bwUpAll t + rtUp);
      bwDownAll := u64 (bwDownAll t + rtDown); trafficSettled := trafficSettled t;
      quotaTick := tick |} in
  if negb (has_quota cs) then (set_traffic (t' (quotaTick t)) cs, [], false)
  else
    let tick := quotaTick t + 1 in
    if tick * BandwidthPeriodSec <? QuotaCheckSec then (set_traffic (t' tick) cs, [], false)
    else
      let '(cs, ev) := settleTraffic (set_traffic (t' 0) cs) in
      let exceeded := match cs_Policy (info cs) with
                      | Some p => quota_exceeded (cs_Username (info cs)) p
                      | None => false
                      end in
      (cs, ev, exceeded).

Section ops.
Context {db : Type} `{IpMapStore db, SessionDb} (cfg : ServerConfig).
Implicit Types (w : world db) (now : Time).

Definition set_conn (c : loc) (cs : ConnSession) w : world db :=
  Build_world (pools w) (limitClient w) (sessions w) (dtlsIds w) (sess_heap w)
    (<[c := cs]> (conn_heap w)) (events w).
Definition set_sess (l : loc) (s : Session) w : world db :=
  Build_world (pools w) (limitClient w) (sessions w) (dtlsIds w) (<[l := s]> (sess_heap w))
    (conn_heap w) (events w).
Definition set_pools (p : pool_state db) w : world db :=
  Build_world p (limitClient w) (sessions w) (dtlsIds w) (sess_heap w) (conn_heap w) (events w).
Definition set_limit (lc : gmap string Z) w : world db :=
  Build_world (pools w) lc (sessions w) (dtlsIds w) (sess_heap w) (conn_heap w) (events w).
Definition log (ev : list db_event) w : world db :=
  Build_world (pools w) (limitClient w) (sessions w) (dtlsIds w) (sess_heap w) (conn_heap w)
    (events w ++ ev).

(** [LimitClient(user, true)] *)
Definition limit_close (user : string) w : world db :=
  set_limit (LimitClient cfg (limitClient w) user true).1 w.

(** [NewSession]: [rnd_token] and [rnd_dtls] are the two [RandomHex(32)]. *)
Definition NewSession w (token rnd_token rnd_dtls : string) now : world db * loc :=
  let token := if str_empty token then rnd_token else token in
  let l := fresh (dom (sess_heap w)) in
  let s := {| Sid := pretty (time_Unix now); Token := token; DtlsSid := rnd_dtls; MacAddr := "";
              s_MacHw := []; UniqueMac := false; Username := ""; s_Group := ""; RemoteAddr := "";
              LastLogin := now; IsActive := false; s_LimitTime := None; CSess := None |} in
  (Build_world (pools w) (limitClient w) (<[token := l]> (sessions w))
     (<[rnd_dtls := token]> (dtlsIds w)) (<[l := s]> (sess_heap w)) (conn_heap w) (events w), l).

(** [ConnSession.Close]: [cs.closeOnce] makes it idempotent. *)
Definition ConnSession_Close w (c : loc) now : res (world db) :=
  match conn_heap w !! c with
  | None => Panic
  | Some cs =>
      if cs_closed cs then Ret w
      else
        match sess_heap w !! cs_Sess (info cs) with
        | None => Panic
        | Some s =>
            let w := set_sess (cs_Sess (info cs)) (set_conn_state false now None s) w in
            let! d := match GetDtlsSession cs with
                      | Some ds => DtlsSession_Close ds
                      | None => Ret (dSess cs)
                      end in
            let cs := set_closed true d cs in
            let w := set_pools (ReleaseIp (pools w) (IpAddr (info cs)) (IpAddr6 (info cs)) now) w in
            let w := limit_close (cs_Username (info cs)) w in
            let '(cs, ev) := settleTraffic cs in
            let w := set_conn c cs w in
            Ret (log (ev ++ [ActLog (Username s) (ip_String (IpAddr (info cs))) (LogoutCode cs)]) w)
        end
  end.

(** How a call ends: it returns, panics, or is still in its scan loop. *)
Inductive run (A : Type) := Done (a : A) | Crash | Looping.
Arguments Done {A} a. Arguments Crash {A}. Arguments Looping {A}.

Definition new_traffic : Traffic :=
  {| bwUp := 0; bwDown := 0; bwUpPeriod := 0; bwDownPeriod := 0; bwUpAll := 0; bwDownAll := 0;
     trafficSettled := 0; quotaTick := 0 |}.

(** The part of [NewConn] after the addresses are allocated. *)
Definition NewConn_setup w (l : loc) (s : Session) (group : Group) (r : pool_ref)
    (ip ip6 : IP) now : world db * option loc :=
  let username := Username s in
  let user := match user_by_name username with Found u => u | _ => zero_User end in
  let refuse :=
    let w := set_pools (ReleaseIp (pools w) ip ip6 now) w in
    (limit_close username w, None) in
  match apply_policy username group with
  | None => refuse
  | Some pol =>
      if quota_exceeded username pol then refuse
      else
        let mtu := usr_Mtu user in
        let mtu := if negb (str_empty (Ipv6CIDR cfg)) && negb (mtu =? 0) && (mtu <? 1280)
                   then 1280 else mtu in
        let cs := {|
          info := {| cs_Sess := l; IpAddr := ip; IpAddr6 := ip6; cs_IpPool := r; MacHw := s_MacHw s;
                     cs_Username := username; cs_Nickname := usr_Nickname user; cs_Group := group;
                     cs_Policy := Some pol; Limit := limit_of (Bandwidth pol);
                     LimitUp := limit_of (BandwidthUp pol); FakeDNS := EnableFakeDNS pol |};
          cs_Mtu := mtu; userLogoutCode := 0; traffic := new_traffic; cs_closed := false;
          dSess := {| isActive := -1; ds_CloseChan := ChanNil; ds_closeOnce := false; ds_IpAddr := nil_ip |};
          LastDataTime := time_Unix now; MasterSecret := ""; CstpPickCmp := None; DtlsPickCmp := None |} in
        let c := fresh (dom (conn_heap w)) in
        (set_sess l (set_conn_state true (LastLogin s) (Some c) s) (set_conn c cs w), Some c)
  end.

(** [NewConn] from [LimitClient] on; [v6fuel] bounds the IPv6 scan. *)
Definition NewConn_open (v6fuel : nat) w (l : loc) (s : Session) now : run (world db * option loc) :=
  let username := Username s in
  let '(lc, ok) := LimitClient cfg (limitClient w) username false in
  let w := set_limit lc w in
  if negb ok then Done (w, None)
  else
    match group_by_name (s_Group s) with
    | NotFound | LookupErr => Done (limit_close username w, None)
    | Found group =>
        let '(ps, r) := GetGroupIpPool cfg (pools w) (Some group) in
        match AcquireIpWithRange cfg ps (Some r) username (MacAddr s) (UniqueMac s) now with
        | None => Looping
        | Some (ps, ip) =>
            let w := set_pools ps w in
            if ip_nil ip then Done (limit_close username w, None)
            else if str_empty (Ipv6CIDR cfg) then Done (NewConn_setup w l s group r ip nil_ip now)
            else
              match acquireIpV6 cfg v6fuel (pools w) r username (MacAddr s) (UniqueMac s) now with
              | None => Looping
              | Some Panic => Crash
              | Some (Ret (ps, ip6)) =>
                  Done (NewConn_setup (set_pools ps w) l s group r ip ip6 now)
              end
        end
    end.

(** [Session.NewConn]: an active session's old connection is closed first. *)
Definition NewConn (v6fuel : nat) w (l : loc) now : run (world db * option loc) :=
  match sess_heap w !! l with
  | None => Crash
  | Some s =>
      if IsActive s then
        match CSess s with
        | None => Crash
        | Some c =>
            match conn_heap w !! c with
            | None => Crash
            | Some cs =>
                match ConnSession_Close (set_conn c (SetLogoutCode UserLogoutReconn cs) w) c now with
                | Panic => Crash
                | Ret w => match sess_heap w !! l with
                           | Some s' => NewConn_open v6fuel w l s' now
                           | None => Crash
                           end
                end
            end
        end
      else NewConn_open v6fuel w l s now
  end.

(** ** Lookups *)
Definition Token2Sess w (token : string) : option loc := sessions w !! token.

(** [strings.SplitN(strings.TrimSpace(stoken), "@", 2)], the second part. *)
Definition stoken_token (stoken : string) : option string :=
  match cut_byte "@"%byte (trim_space (bytes_of stoken)) with
  | Some (_, t) => if str_empty (str_of t) then None else Some (str_of t)
  | None => None
  end.

Definition SToken2Sess w (stoken : string) : option loc := stoken_token stoken ≫= Token2Sess w.

(** A missing id gives the empty token. *)
Definition Dtls2Sess w (did : string) : option loc :=
  sessions w !! default ""%string (dtlsIds w !! did).

Definition Dtls2CSess w (did : string) : option loc :=
  Dtls2Sess w did ≫= λ l, sess_heap w !! l ≫= CSess.

Definition Dtls2MasterSecret w (did : string) : string :=
  match Dtls2CSess w did ≫= λ c, conn_heap w !! c with
  | Some cs => MasterSecret cs
  | None => ""
  end.

(** ** Closing sessions *)

(** [CloseSess(token, code...)] *)
Definition CloseSess w (token : string) (code : option Z) now : res (world db) :=
  match sessions w !! token with
  | None => Ret w
  | Some l =>
      match sess_heap w !! l with
      | None => Panic
      | Some s =>
          let w := Build_world (pools w) (limitClient w) (delete token (sessions w))
                     (delete (DtlsSid s) (dtlsIds w)) (sess_heap w) (conn_heap w) (events w) in
          match CSess s with
          | Some c =>
              match conn_heap w !! c with
              | None => Panic
              | Some cs =>
                  let cs := match code with Some k => SetLogoutCode k cs | None => cs end in
                  ConnSession_Close (set_conn c cs w) c now
              end
          | None => Ret (log [ActLog (Username s) "" (default UserLogoutBanner code)] w)
          end
      end
  end.

Definition CloseCSess w (token : string) now : res (world db) :=
  match sessions w !! token with
  | None => Ret w
  | Some l =>
      match sess_heap w !! l with
      | None => Panic
      | Some s => match CSess s with Some c => ConnSession_Close w c now | None => Ret w end
      end
  end.

Definition DelSessByStoken w (stoken : string) now : res (world db) :=
  match stoken_token stoken with
  | None => Ret w
  | Some t => CloseSess w t (Some UserLogoutBanner) now
  end.

Fixpoint close_all w (tokens : list string) (code : option Z) now : res (world db) :=
  match tokens with
  | [] => Ret w
  | t :: ts => let! w := CloseSess w t code now in close_all w ts code now
  end.

(** The tokens whose session satisfies a test; the Go map's order is one of
    the permutations of this list. *)
Definition tokens_where w (f : Session → bool) : list string :=
  omap (λ '(t, l), match sess_heap w !! l with
                   | Some s => if f s then Some t else None
                   | None => None
                   end) (map_to_list (sessions w)).

Definition CloseUserSessions w (username : string) (code : option Z) now : res (world db) :=
  let username := str_trim username in
  if str_empty username then Ret w
  else close_all w (tokens_where w (λ s, String.eqb (Username s) username)) code now.

(** One round of [checkSession]. *)
Definition checkSession w now : res (world db) :=
  let timeout := seconds (SessionTimeout cfg) in
  let expired s := IsExpired (s_LimitTime s) now in
  let timed_out s := negb (expired s) && negb (IsActive s) && negb (SessionTimeout cfg =? 0)
                     && (timeout <? time_Sub now (LastLogin s)) in
  let expiredToken := tokens_where w expired in
  let timeoutToken := tokens_where w timed_out in
  let! w := close_all w timeoutToken (Some UserLogoutTimeout) now in
  close_all w expiredToken (Some UserLogoutExpire) now.

Definition UpdateUserLimitTime w (username : string) (limitTime : option Time) now : res (world db) :=
  let upd s := if String.eqb (Username s) username then set_limit_time limitTime s else s in
  let expiredToken := if IsExpired limitTime now
                      then tokens_where w (λ s, String.eqb (Username s) username) else [] in
  let locs : gset loc := list_to_set (map snd (map_to_list (sessions w))) in
  let w := Build_world (pools w) (limitClient w) (sessions w) (dtlsIds w)
             (map_imap (λ l s, Some (if bool_decide (l ∈ locs) then upd s else s)) (sess_heap w))
             (conn_heap w) (events w) in
  close_all w expiredToken (Some UserLogoutExpire) now.
End ops.
Arguments Done {A} a. Arguments Crash {A}. Arguments Looping {A}.
