(* ===== verification/SessionSpec.v ===== *)
(** * Correctness of sessions and connections

    The world invariant ([winv]): the limit counters count the live
    connections, pointers between sessions and connections agree, an active
    DTLS session can be closed.  Every operation preserves it and none panics
    under it. *)
From S2P Require Export Session IpPoolSpec.
Local Open Scope Z_scope.

(** ** The limit counters *)
Definition cnt (lc : gmap string Z) (k : string) : Z := default 0 (lc !! k).

(** Whether a counter under [k] counts a connection of [u]. *)
Definition counts (k u : string) : Z :=
  if decide (k = limitAllKey ∨ k = u) then 1 else 0.

Lemma cnt_insert lc u v k : cnt (<[u := v]> lc) k = if decide (k = u) then v else cnt lc k.
Proof.
  unfold cnt. destruct (decide (k = u)) as [->|Hk]; [by rewrite lookup_insert_eq|].
  by rewrite lookup_insert_ne.
Qed.

Lemma cnt_init lc u k :
  cnt (match lc !! u with None => <[u := 0]> lc | Some _ => lc end) k = cnt lc k.
Proof.
  destruct (lc !! u) eqn:E; [done|]. rewrite cnt_insert. case_decide; [|done].
  subst. unfold cnt. by rewrite E.
Qed.

Lemma LimitClient_close_cnt cfg lc u k :
  u ≠ limitAllKey → 0 < cnt lc u → 0 < cnt lc limitAllKey →
  cnt (LimitClient cfg lc u true).1 k = cnt lc k - counts k u.
Proof.
  intros Hu Hc Ha. unfold LimitClient. fold (cnt lc u) (cnt lc limitAllKey).
  rewrite (proj2 (Z.ltb_lt 0 (cnt lc u))), (proj2 (Z.ltb_lt 0 (cnt lc limitAllKey))) by done.
  cbn [fst]. rewrite !cnt_insert, cnt_init. unfold counts.
  repeat case_decide; subst; try tauto; lia.
Qed.

Lemma LimitClient_open_cnt cfg lc u lc' ok k :
  u ≠ limitAllKey → LimitClient cfg lc u false = (lc', ok) →
  cnt lc' k = cnt lc k + (if ok then counts k u else 0).
Proof.
  intros Hu. unfold LimitClient. fold (cnt lc u) (cnt lc limitAllKey).
  destruct (_ <=? _); [intros [= <- <-]; rewrite cnt_init; lia|].
  destruct (_ <=? _); [intros [= <- <-]; rewrite cnt_init; lia|].
  intros [= <- <-]. rewrite !cnt_insert, cnt_init. unfold counts.
  repeat case_decide; subst; try tauto; lia.
Qed.

(** The configured bound of a counter. *)
Definition bound (cfg : ServerConfig) (k : string) : Z :=
  Z.max 0 (if decide (k = limitAllKey) then MaxClient cfg else MaxUserClient cfg).

Lemma LimitClient_open_bound cfg lc u lc' ok :
  u ≠ limitAllKey → LimitClient cfg lc u false = (lc', ok) →
  (∀ k, cnt lc k ≤ bound cfg k) → ∀ k, cnt lc' k ≤ bound cfg k.
Proof.
  intros Hu. unfold LimitClient. fold (cnt lc u) (cnt lc limitAllKey).
  destruct (Z.leb_spec (MaxClient cfg) (cnt lc limitAllKey)) as [|Ha];
    [intros [= <- <-] Hb k; by rewrite cnt_init|].
  destruct (Z.leb_spec (MaxUserClient cfg) (cnt lc u)) as [|Hc];
    [intros [= <- <-] Hb k; by rewrite cnt_init|].
  intros [= <- <-] Hb k. rewrite !cnt_insert, cnt_init.
  specialize (Hb k). unfold bound in *.
  repeat (case_decide; subst; try done); lia.
Qed.

(** ** The world invariant *)
Definition weight (k : string) (cs : ConnSession) : Z :=
  if cs_closed cs then 0 else counts k (cs_Username (info cs)).
Definition live (k : string) (h : gmap loc ConnSession) : Z := map_sumZ (weight k) h.

Lemma weight_nonneg k cs : 0 ≤ weight k cs.
Proof. unfold weight, counts. case_match; [done|]. case_decide; done. Qed.

Definition dtls_ok (d : DtlsSession) : Prop :=
  0 < isActive d → ds_CloseChan d = ChanOpen ∧ ds_closeOnce d = false.

Section inv.
Context {db : Type} `{IpMapStore db, SessionDb} (cfg : ServerConfig).
Implicit Types (w : world db) (now : Time).

Record winv w : Prop := {
  inv_limit : ∀ k, cnt (limitClient w) k = live k (conn_heap w);
  inv_bound : ∀ k, cnt (limitClient w) k ≤ bound cfg k;
  inv_user : ∀ c cs, conn_heap w !! c = Some cs → cs_Username (info cs) ≠ limitAllKey;
  inv_conn : ∀ c cs, conn_heap w !! c = Some cs → cs_closed cs = false →
    ∃ s, sess_heap w !! cs_Sess (info cs) = Some s ∧ CSess s = Some c;
  inv_csess : ∀ l s c, sess_heap w !! l = Some s → CSess s = Some c →
    ∃ cs, conn_heap w !! c = Some cs ∧ cs_closed cs = false ∧ cs_Sess (info cs) = l;
  inv_active : ∀ l s, sess_heap w !! l = Some s → IsActive s = true ↔ is_Some (CSess s);
  inv_token : ∀ t l, sessions w !! t = Some l → is_Some (sess_heap w !! l);
  inv_dtls : ∀ c cs, conn_heap w !! c = Some cs → dtls_ok (dSess cs);
  inv_name : ∀ l s, sess_heap w !! l = Some s → Username s ≠ limitAllKey
}.

(** Replacing a connection by one that differs in its counters, code or DTLS
    state only. *)
Lemma winv_set_conn w c cs cs' :
  winv w → conn_heap w !! c = Some cs → info cs' = info cs → cs_closed cs' = cs_closed cs →
  dtls_ok (dSess cs') → winv (set_conn c cs' w).
Proof.
  intros Hw Hc Hi Hcl Hd. destruct Hw. split; simpl; try done.
  - intros k. unfold live. rewrite (map_sumZ_insert_Some _ _ _ _ cs Hc).
    assert (weight k cs' = weight k cs) as -> by (unfold weight; by rewrite Hi, Hcl).
    rewrite inv_limit0. unfold live. lia.
  - intros c' cs1. rewrite lookup_insert_Some. intros [[<- <-]|[_ ?]]; [rewrite Hi|]; eauto.
  - intros c' cs1. rewrite lookup_insert_Some. intros [[<- <-]|[_ ?]]; [rewrite Hi, Hcl|]; eauto.
  - intros l s c' Hs HC. destruct (inv_csess0 _ _ _ Hs HC) as (cs1 & H1 & H2 & H3).
    destruct (decide (c = c')) as [<-|]; [|exists cs1; by rewrite lookup_insert_ne].
    simplify_eq. exists cs'. rewrite lookup_insert_eq. split_and!; [done|by rewrite Hcl|by rewrite Hi].
  - intros c' cs1. rewrite lookup_insert_Some. intros [[<- <-]|[_ ?]]; eauto.
Qed.

(** Closing a connection: its session loses it, its user's counter and the
    total are decremented. *)
Lemma winv_closed w c cs cs' s w' now :
  winv w → conn_heap w !! c = Some cs → cs_closed cs = false →
  sess_heap w !! cs_Sess (info cs) = Some s →
  info cs' = info cs → cs_closed cs' = true → dtls_ok (dSess cs') →
  conn_heap w' = <[c := cs']> (conn_heap w) →
  sess_heap w' = <[cs_Sess (info cs) := set_conn_state false now None s]> (sess_heap w) →
  limitClient w' = (LimitClient cfg (limitClient w) (cs_Username (info cs)) true).1 →
  sessions w' = sessions w → winv w'.
Proof.
  intros Hw Hc Ho Hs Hi Hcl Hd Ech Esh El Es.
  assert (Hpos : ∀ k, counts k (cs_Username (info cs)) ≤ cnt (limitClient w) k).
  { intros k. rewrite (inv_limit _ Hw).
    pose proof (map_sumZ_ge (weight k) (conn_heap w) c cs (λ _ _ _, weight_nonneg k _) Hc) as Hg.
    unfold weight at 1 in Hg. by rewrite Ho in Hg. }
  assert (Hclose : ∀ k, cnt (LimitClient cfg (limitClient w) (cs_Username (info cs)) true).1 k
                        = cnt (limitClient w) k - counts k (cs_Username (info cs))).
  { intros k. apply LimitClient_close_cnt; [by eapply inv_user|..];
      (eapply Z.lt_le_trans; [|apply Hpos]); unfold counts; rewrite decide_True by auto; done. }
  destruct Hw. split; rewrite ?Ech, ?Esh, ?El, ?Es.
  - intros k. rewrite Hclose. unfold live. rewrite (map_sumZ_insert_Some _ _ _ _ cs Hc), inv_limit0.
    unfold live, weight at 3 4. rewrite Hcl, Ho. lia.
  - intros k. rewrite Hclose. specialize (inv_bound0 k).
    assert (0 ≤ counts k (cs_Username (info cs))) by (unfold counts; case_decide; done). lia.
  - intros c' cs1. rewrite lookup_insert_Some. intros [[<- <-]|[_ ?]]; [rewrite Hi|]; eauto.
  - intros c' cs1. rewrite lookup_insert_Some. intros [[<- <-]|[Hne H1]] H2; [congruence|].
    destruct (inv_conn0 _ _ H1 H2) as (s1 & H3 & H4). exists s1.
    rewrite lookup_insert_ne; [done|]. intros E. rewrite <- E in H3. simplify_eq.
    destruct (inv_conn0 _ _ Hc Ho) as (s2 & ? & ?). simplify_eq.
  - intros l s1 c'. rewrite lookup_insert_Some. intros [[<- <-]|[Hne H1]] HC; [done|].
    destruct (inv_csess0 _ _ _ H1 HC) as (cs1 & H2 & H3 & H4). exists cs1.
    rewrite lookup_insert_ne; [done|]. intros <-. simplify_eq.
  - intros l s1. rewrite lookup_insert_Some. intros [[<- <-]|[_ ?]]; [|by eapply inv_active0].
    simpl. split; [done|by intros []].
  - intros t l Ht. rewrite lookup_insert_is_Some. destruct (decide (cs_Sess (info cs) = l)); eauto.
  - intros c' cs1. rewrite lookup_insert_Some. intros [[<- <-]|[_ ?]]; eauto.
  - intros l s1. rewrite lookup_insert_Some. intros [[<- <-]|[_ ?]]; simpl; eauto.
Qed.

Lemma settle_frame cs : info (settleTraffic cs).1 = info cs
  ∧ cs_closed (settleTraffic cs).1 = cs_closed cs ∧ dSess (settleTraffic cs).1 = dSess cs
  ∧ userLogoutCode (settleTraffic cs).1 = userLogoutCode cs.
Proof. unfold settleTraffic. by repeat case_match. Qed.

Lemma dtls_close_ok d : dtls_ok d → 0 < isActive d →
  ∃ d', DtlsSession_Close d = Ret d' ∧ dtls_ok d' ∧ isActive d' = -1.
Proof.
  intros Hd Ha. destruct (Hd Ha) as [H1 H2]. unfold DtlsSession_Close. rewrite H1, H2.
  eexists. split; [done|]. split; [|done]. intros ?. simpl in *. lia.
Qed.

(** [Close] on an open connection returns, and its effect on the heaps. *)
Lemma Close_open w c cs now :
  winv w → conn_heap w !! c = Some cs → cs_closed cs = false →
  ∃ w' cs' s, ConnSession_Close cfg w c now = Ret w' ∧ winv w'
    ∧ sessions w' = sessions w ∧ dtlsIds w' = dtlsIds w
    ∧ conn_heap w' = <[c := cs']> (conn_heap w) ∧ cs_closed cs' = true ∧ info cs' = info cs
    ∧ sess_heap w !! cs_Sess (info cs) = Some s
    ∧ sess_heap w' = <[cs_Sess (info cs) := set_conn_state false now None s]> (sess_heap w)
    ∧ pools w' = ReleaseIp (pools w) (IpAddr (info cs)) (IpAddr6 (info cs)) now.
Proof.
  intros Hw Hc Ho. destruct (inv_conn _ Hw _ _ Hc Ho) as (s & Hs & HC).
  assert (∃ d, match GetDtlsSession cs with Some ds => DtlsSession_Close ds | None => Ret (dSess cs) end
               = Ret d ∧ dtls_ok d) as (d & Ed & Hd).
  { pose proof (inv_dtls _ Hw _ _ Hc) as Hd. unfold GetDtlsSession.
    destruct (Z.ltb_spec 0 (isActive (dSess cs))); [|eauto].
    destruct (dtls_close_ok _ Hd) as (d & ? & ? & _); eauto. }
  unfold ConnSession_Close. rewrite Hc, Ho, Hs, Ed. cbn [res_bind].
  destruct (settleTraffic (set_closed true d cs)) as [cs' ev] eqn:Es.
  pose proof (settle_frame (set_closed true d cs)) as (Hi & Hcl & Hds & _).
  rewrite Es in Hi, Hcl, Hds. cbn in Hi, Hcl, Hds.
  eexists _, cs', s. split; [done|]. split_and!; try done.
  eapply (winv_closed w c cs cs' s _ now); try done. by rewrite Hds.
Qed.

Lemma Close_spec w c cs now :
  winv w → conn_heap w !! c = Some cs →
  ∃ w' cs', ConnSession_Close cfg w c now = Ret w' ∧ winv w'
    ∧ conn_heap w' !! c = Some cs' ∧ cs_closed cs' = true ∧ info cs' = info cs.
Proof.
  intros Hw Hc. destruct (cs_closed cs) eqn:Ho.
  - exists w, cs. unfold ConnSession_Close. by rewrite Hc, Ho.
  - destruct (Close_open _ _ _ now Hw Hc Ho) as (w' & cs' & s & E & ? & _ & _ & Ech & ? & ? & _).
    exists w', cs'. split_and!; try done. by rewrite Ech, lookup_insert_eq.
Qed.

Lemma SetLogoutCode_frame k cs : info (SetLogoutCode k cs) = info cs
  ∧ cs_closed (SetLogoutCode k cs) = cs_closed cs ∧ dSess (SetLogoutCode k cs) = dSess cs.
Proof. unfold SetLogoutCode. by case_match. Qed.

Lemma winv_SetLogoutCode w c cs k :
  winv w → conn_heap w !! c = Some cs → winv (set_conn c (SetLogoutCode k cs) w).
Proof.
  intros Hw Hc. destruct (SetLogoutCode_frame k cs) as (? & ? & Hd).
  eapply winv_set_conn; try done. rewrite Hd. by eapply inv_dtls.
Qed.

(** Worlds with the same heaps, counters and a subset of the tokens. *)
Lemma winv_frame w w' :
  winv w → limitClient w' = limitClient w → conn_heap w' = conn_heap w →
  sess_heap w' = sess_heap w → sessions w' ⊆ sessions w → winv w'.
Proof.
  intros [] El Ec Es Et. split; rewrite ?El, ?Ec, ?Es; try done.
  intros t l Ht. eapply inv_token0. by eapply lookup_weaken.
Qed.

Lemma CloseSess_spec w token code now :
  winv w → ∃ w', CloseSess cfg w token code now = Ret w' ∧ winv w'.
Proof.
  intros Hw. unfold CloseSess. destruct (sessions w !! token) as [l|] eqn:Et; [|eauto].
  destruct (inv_token _ Hw _ _ Et) as [s Hs]. rewrite Hs.
  set (w1 := Build_world _ _ _ _ _ _ _).
  assert (Hw1 : winv w1) by (apply (winv_frame w); try done; apply delete_subseteq).
  destruct (CSess s) as [c|] eqn:HC.
  - destruct (inv_csess _ Hw _ _ _ Hs HC) as (cs & Hc & Ho & _).
    change (conn_heap w1) with (conn_heap w). rewrite Hc.
    assert (∃ cs1, match code with Some k => SetLogoutCode k cs | None => cs end = cs1
              ∧ winv (set_conn c cs1 w1)) as (cs1 & -> & Hw2).
    { destruct code as [k|]; eexists; (split; [done|]).
      - by apply winv_SetLogoutCode.
      - eapply winv_set_conn; try done. by eapply inv_dtls. }
    destruct (Close_spec (set_conn c cs1 w1) c cs1 now Hw2) as (w' & ? & -> & ? & _); [|eauto].
    apply lookup_insert_eq.
  - eexists. split; [done|]. by apply (winv_frame w1).
Qed.

Lemma close_all_spec tokens code now : ∀ w,
  winv w → ∃ w', close_all cfg w tokens code now = Ret w' ∧ winv w'.
Proof.
  induction tokens as [|t ts IH]; intros w Hw; cbn [close_all]; [eauto|].
  destruct (CloseSess_spec w t code now Hw) as (w1 & -> & Hw1). by apply IH.
Qed.

Lemma checkSession_spec w now : winv w → ∃ w', checkSession cfg w now = Ret w' ∧ winv w'.
Proof.
  intros Hw. unfold checkSession.
  destruct (close_all_spec (tokens_where w (λ s, negb (IsExpired (s_LimitTime s) now) && negb (IsActive s)
      && negb (SessionTimeout cfg =? 0) && (seconds (SessionTimeout cfg) <? time_Sub now (LastLogin s))))
      (Some UserLogoutTimeout) now w Hw) as (w1 & -> & Hw1).
  by apply close_all_spec.
Qed.

Lemma CloseUserSessions_spec w u code now :
  winv w → ∃ w', CloseUserSessions cfg w u code now = Ret w' ∧ winv w'.
Proof. intros Hw. unfold CloseUserSessions. case_match; [eauto|]. by apply close_all_spec. Qed.

Lemma CloseCSess_spec w t now : winv w → ∃ w', CloseCSess cfg w t now = Ret w' ∧ winv w'.
Proof.
  intros Hw. unfold CloseCSess. destruct (sessions w !! t) as [l|] eqn:Et; [|eauto].
  destruct (inv_token _ Hw _ _ Et) as [s Hs]. rewrite Hs.
  destruct (CSess s) as [c|] eqn:HC; [|eauto].
  destruct (inv_csess _ Hw _ _ _ Hs HC) as (cs & Hc & _).
  destruct (Close_spec w c cs now Hw Hc) as (w' & ? & -> & ? & _). eauto.
Qed.

(** ** [NewConn] *)

(** One connection of [u] is counted but not yet (or no longer) live. *)
Definition pending (u : string) w : Prop :=
  ∃ lc, winv (set_limit lc w) ∧ ∀ k, cnt (limitClient w) k = cnt lc k + counts k u
                                      ∧ cnt (limitClient w) k ≤ bound cfg k.

Lemma winv_cnt w lc : winv w → (∀ k, cnt lc k = cnt (limitClient w) k) → winv (set_limit lc w).
Proof. intros [] Hl. split; simpl; try done; intros k; by rewrite Hl. Qed.

Lemma counts_self u : counts u u = 1.
Proof. unfold counts. rewrite decide_True by auto. done. Qed.
Lemma counts_all u : counts limitAllKey u = 1.
Proof. unfold counts. rewrite decide_True by auto. done. Qed.

Lemma live_nonneg k h : 0 ≤ live k h.
Proof. apply map_sumZ_nonneg. intros. apply weight_nonneg. Qed.

Lemma limit_close_pending u w : u ≠ limitAllKey → pending u w → winv (limit_close cfg u w).
Proof.
  intros Hu (lc & Hw & Hl).
  assert (Hp : ∀ k, counts k u ≤ cnt (limitClient w) k).
  { intros k. rewrite (proj1 (Hl k)). pose proof (inv_limit _ Hw k) as E. simpl in E. rewrite E.
    pose proof (live_nonneg k (conn_heap w)). lia. }
  apply (winv_cnt (set_limit lc w) _ Hw). intros k. rewrite LimitClient_close_cnt; try done.
  - rewrite (proj1 (Hl k)). simpl. lia.
  - pose proof (Hp u). rewrite counts_self in *. lia.
  - pose proof (Hp limitAllKey). rewrite counts_all in *. lia.
Qed.

Lemma pending_pools u w p : pending u w → pending u (set_pools p w).
Proof. intros (lc & Hw & Hl). exists lc. split; [|done]. by apply (winv_frame (set_limit lc w)). Qed.

Lemma winv_new_conn w l s c cs :
  pending (Username s) w → sess_heap w !! l = Some s → CSess s = None → conn_heap w !! c = None →
  cs_closed cs = false → cs_Sess (info cs) = l → cs_Username (info cs) = Username s →
  dtls_ok (dSess cs) →
  winv (set_sess l (set_conn_state true (LastLogin s) (Some c) s) (set_conn c cs w)).
Proof.
  intros (lc & Hw & Hl) Hs HC Hc Ho Hse Hu Hd. destruct Hw. simpl in *. split; simpl.
  - intros k. rewrite (proj1 (Hl k)), inv_limit0. unfold live. rewrite map_sumZ_insert_None by done.
    unfold weight at 2. rewrite Ho, Hu. lia.
  - intros k. apply Hl.
  - intros c' cs1. rewrite lookup_insert_Some. intros [[<- <-]|[_ ?]]; [rewrite Hu|]; eauto.
  - intros c' cs1. rewrite lookup_insert_Some. intros [[<- <-]|[Hne H1]] H2.
    + rewrite Hse, lookup_insert_eq. eauto.
    + destruct (inv_conn0 _ _ H1 H2) as (s1 & H3 & H4). exists s1.
      rewrite lookup_insert_ne; [done|]. intros E. rewrite <- E in H3. simplify_eq.
  - intros l' s1 c'. rewrite lookup_insert_Some. intros [[<- <-]|[Hne H1]] HC'.
    + simpl in HC'. simplify_eq. exists cs. by rewrite lookup_insert_eq.
    + destruct (inv_csess0 _ _ _ H1 HC') as (cs1 & H2 & H3). exists cs1.
      rewrite lookup_insert_ne; [done|]. intros <-. simplify_eq.
  - intros l' s1. rewrite lookup_insert_Some. intros [[<- <-]|[_ ?]]; [simpl|by eapply inv_active0].
    split; eauto.
  - intros t l' Ht. rewrite lookup_insert_is_Some. destruct (decide (l = l')); eauto.
  - intros c' cs1. rewrite lookup_insert_Some. intros [[<- <-]|[_ ?]]; eauto.
  - intros l' s1. rewrite lookup_insert_Some. intros [[<- <-]|[_ ?]]; simpl; eauto.
Qed.

Lemma NewConn_setup_spec w l s g r ip ip6 now w' o :
  pending (Username s) w → sess_heap w !! l = Some s → CSess s = None →
  NewConn_setup cfg w l s g r ip ip6 now = (w', o) → winv w'.
Proof.
  intros Hp Hs HC. unfold NewConn_setup.
  assert (Hu : Username s ≠ limitAllKey).
  { destruct Hp as (lc & Hw & _). apply (inv_name _ Hw l s Hs). }
  assert (Href : ∀ p, winv (limit_close cfg (Username s) (set_pools p w))).
  { intros p. by apply limit_close_pending, pending_pools. }
  destruct (apply_policy _ _) as [pol|]; [|intros [= <- <-]; apply Href].
  destruct (quota_exceeded _ _); [intros [= <- <-]; apply Href|].
  intros [= <- <-]. apply winv_new_conn; try done.
  apply not_elem_of_dom, is_fresh.
Qed.

Lemma NewConn_open_spec f w l s now w' o :
  winv w → sess_heap w !! l = Some s → CSess s = None →
  NewConn_open cfg f w l s now = Done (w', o) → winv w'.
Proof.
  intros Hw Hs HC. unfold NewConn_open.
  pose proof (inv_name _ Hw _ _ Hs) as Hu.
  destruct (LimitClient _ _ _ _) as [lc ok] eqn:El.
  pose proof (λ k, LimitClient_open_cnt _ _ _ _ _ k Hu El) as Hcnt.
  destruct ok; cbn [negb].
  2: { intros [= <- <-]. apply winv_cnt; [done|]. intros k. rewrite Hcnt. lia. }
  assert (Hp : pending (Username s) (set_limit lc w)).
  { exists (limitClient w). split; [by apply (winv_frame w)|]. intros k. split; [done|].
    by apply (LimitClient_open_bound _ _ _ _ _ Hu El), (inv_bound _ Hw). }
  destruct (group_by_name _) as [g| |];
    [|intros [= <- <-]; by apply limit_close_pending..].
  destruct (GetGroupIpPool _ _ _) as [ps r].
  destruct (AcquireIpWithRange _ _ _ _ _ _ _) as [[ps' ip]|]; [|done].
  destruct (ip_nil ip).
  { intros [= <- <-]. apply limit_close_pending; [done|by apply pending_pools]. }
  destruct (str_empty _).
  { intros [= E]. eapply NewConn_setup_spec; [| | |exact E]; try done. by apply pending_pools. }
  destruct (acquireIpV6 _ _ _ _ _ _ _ _) as [[[ps6 ip6]|]|]; try done.
  intros [= E]. eapply NewConn_setup_spec; [| | |exact E]; try done. by do 2 apply pending_pools.
Qed.

Lemma NewConn_spec f w l now w' o :
  winv w → NewConn cfg f w l now = Done (w', o) → winv w'.
Proof.
  intros Hw. unfold NewConn. destruct (sess_heap w !! l) as [s|] eqn:Hs; [|done].
  destruct (IsActive s) eqn:Ha.
  - destruct (CSess s) as [c|] eqn:HC; [|done].
    destruct (inv_csess _ Hw _ _ _ Hs HC) as (cs & Hc & Ho & Hl). rewrite Hc.
    pose proof (winv_SetLogoutCode _ _ _ UserLogoutReconn Hw Hc) as Hw1.
    destruct (SetLogoutCode_frame UserLogoutReconn cs) as (Hi & Hcl & _).
    destruct (Close_open _ c (SetLogoutCode UserLogoutReconn cs) now Hw1)
      as (w2 & cs2 & s2 & -> & Hw2 & _ & _ & _ & _ & _ & Hs2 & Esh & _);
      [apply lookup_insert_eq|congruence|].
    rewrite Hi, Hl in Hs2, Esh. rewrite Esh, lookup_insert_eq.
    eapply NewConn_open_spec; [done| |done]. by rewrite Esh, lookup_insert_eq.
  - apply NewConn_open_spec; [done..|].
    destruct (CSess s) eqn:HC; [|done]. pose proof (inv_active _ Hw _ _ Hs) as Hia.
    rewrite HC, Ha in Hia. destruct Hia as [_ Hia]. by specialize (Hia ltac:(eauto)).
Qed.
End inv.

(** * Reachable worlds *)
Section reach.
Context {db : Type} `{IpMapStore db, SessionDb} (cfg : ServerConfig).
Implicit Types (w : world db) (now : Time).

(** Two sessions that agree on their connection state and keep a valid name. *)
Definition same_conn (s s' : Session) : Prop :=
  IsActive s' = IsActive s ∧ CSess s' = CSess s ∧ Username s' ≠ limitAllKey.

(** Rewriting sessions without touching their connection state. *)
Lemma winv_map_sessions w w' :
  winv cfg w → limitClient w' = limitClient w → conn_heap w' = conn_heap w →
  sessions w' = sessions w →
  (∀ l, option_Forall2 same_conn (sess_heap w !! l) (sess_heap w' !! l)) → winv cfg w'.
Proof.
  intros Hw El Ec Et Hm.
  assert (Hfw : ∀ l s, sess_heap w !! l = Some s → ∃ s', sess_heap w' !! l = Some s' ∧ same_conn s s').
  { intros l s Hs. specialize (Hm l). rewrite Hs in Hm. inversion Hm; subst; eauto. }
  assert (Hbw : ∀ l s', sess_heap w' !! l = Some s' → ∃ s, sess_heap w !! l = Some s ∧ same_conn s s').
  { intros l s Hs. specialize (Hm l). rewrite Hs in Hm. inversion Hm; subst; eauto. }
  destruct Hw. split; rewrite ?El, ?Ec, ?Et; try done.
  - intros c cs Hc Ho. destruct (inv_conn0 _ _ Hc Ho) as (s & Hs & HC).
    destruct (Hfw _ _ Hs) as (s' & ? & _ & E & _). exists s'. split; [done|congruence].
  - intros l s' c Hs' HC. destruct (Hbw _ _ Hs') as (s & ? & _ & E & _).
    eapply inv_csess0; [done|congruence].
  - intros l s' Hs'. destruct (Hbw _ _ Hs') as (s & Hs & Ea & Ec' & _). rewrite Ea, Ec'. eauto.
  - intros t l Ht. destruct (inv_token0 _ _ Ht) as [s Hs]. destruct (Hfw _ _ Hs) as (s' & ? & _). eauto.
  - intros l s' Hs'. by destruct (Hbw _ _ Hs') as (s & _ & _ & _ & ?).
Qed.

Lemma UpdateUserLimitTime_spec w u lt now :
  winv cfg w → ∃ w', UpdateUserLimitTime cfg w u lt now = Ret w' ∧ winv cfg w'.
Proof.
  intros Hw. unfold UpdateUserLimitTime. apply close_all_spec.
  eapply (winv_map_sessions w); try done. intros l. simpl. rewrite map_lookup_imap.
  destruct (sess_heap w !! l) as [s|] eqn:Hs; simpl; constructor.
  pose proof (inv_name _ _ Hw _ _ Hs). unfold same_conn.
  repeat case_match; simpl; done.
Qed.

Lemma NewSession_spec w t rt rd now : winv cfg w → winv cfg (NewSession w t rt rd now).1.
Proof.
  intros Hw. unfold NewSession. set (l := fresh _).
  assert (Hl : sess_heap w !! l = None) by (apply not_elem_of_dom, is_fresh).
  destruct Hw. split; simpl; try done.
  - intros c cs Hc Ho. destruct (inv_conn0 _ _ Hc Ho) as (s & Hs & HC). exists s.
    rewrite lookup_insert_ne; [done|congruence].
  - intros l' s c. rewrite lookup_insert_Some. intros [[<- <-]|[_ ?]]; [done|eauto].
  - intros l' s. rewrite lookup_insert_Some. intros [[<- <-]|[_ ?]]; [|eauto].
    simpl. split; [done|by intros []].
  - intros t' l'. rewrite lookup_insert_Some, lookup_insert_is_Some.
    destruct (decide (l = l')); [by left|]. intros [[_ <-]|[_ ?]]; [done|]. right. eauto.
  - intros l' s. rewrite lookup_insert_Some. intros [[<- <-]|[_ ?]]; [done|eauto].
Qed.

Inductive step w : world db → Prop :=
  | step_new_session t rt rd now : step w (NewSession w t rt rd now).1
  | step_login l s s' : sess_heap w !! l = Some s → same_conn s s' → step w (set_sess l s' w)
  | step_new_conn f l now w' o : NewConn cfg f w l now = Done (w', o) → step w w'
  | step_close c now w' : ConnSession_Close cfg w c now = Ret w' → step w w'
  | step_close_sess t code now w' : CloseSess cfg w t code now = Ret w' → step w w'
  | step_close_csess t now w' : CloseCSess cfg w t now = Ret w' → step w w'
  | step_del_stoken t now w' : DelSessByStoken cfg w t now = Ret w' → step w w'
  | step_close_user u code now w' : CloseUserSessions cfg w u code now = Ret w' → step w w'
  | step_check now w' : checkSession cfg w now = Ret w' → step w w'
  | step_limit_time u lt now w' : UpdateUserLimitTime cfg w u lt now = Ret w' → step w w'
  | step_dtls_open c cs : conn_heap w !! c = Some cs → step w (set_conn c (NewDtlsConn cs).1 w)
  | step_dtls_close c cs ds d : conn_heap w !! c = Some cs → GetDtlsSession cs = Some ds →
      DtlsSession_Close ds = Ret d → step w (set_conn c (set_closed (cs_closed cs) d cs) w)
  | step_rate c cs n up : conn_heap w !! c = Some cs → step w (set_conn c (RateLimit cs n up).1 w)
  | step_fields c cs cs' : conn_heap w !! c = Some cs → info cs' = info cs → cs_closed cs' = cs_closed cs →
      dSess cs' = dSess cs → step w (set_conn c cs' w)
  | step_tick c cs : conn_heap w !! c = Some cs → cs_closed cs = false →
      step w (log (ratePeriod_tick cs).1.2 (set_conn c (ratePeriod_tick cs).1.1 w)).

Inductive reachable (p0 : pool_state db) : world db → Prop :=
  | reach_init : reachable p0 (Build_world p0 ∅ ∅ ∅ ∅ ∅ [])
  | reach_step w w' : reachable p0 w → step w w' → reachable p0 w'.

Lemma dtls_ok_new cs : dtls_ok (dSess cs) → dtls_ok (dSess (NewDtlsConn cs).1).
Proof. unfold NewDtlsConn. case_match; [done|]. intros _ _. done. Qed.

Lemma tick_frame cs : info (ratePeriod_tick cs).1.1 = info cs
  ∧ cs_closed (ratePeriod_tick cs).1.1 = cs_closed cs ∧ dSess (ratePeriod_tick cs).1.1 = dSess cs.
Proof.
  unfold ratePeriod_tick. repeat (case_match; try done).
  all: match goal with E : settleTraffic ?x = _ |- _ => pose proof (settle_frame x) as Hf; rewrite E in Hf end.
  all: simpl in *; tauto.
Qed.

Lemma step_winv w w' : winv cfg w → step w w' → winv cfg w'.
Proof.
  intros Hw Hs. destruct Hs.
  - by apply NewSession_spec.
  - eapply (winv_map_sessions w); try done. intros l'. simpl.
    destruct (decide (l = l')) as [<-|].
    + rewrite lookup_insert_eq, H1. by constructor.
    + rewrite lookup_insert_ne by done. destruct (sess_heap w !! l') eqn:E; constructor.
      split_and!; try done. by eapply (inv_name cfg w).
  - by eapply NewConn_spec.
  - destruct (conn_heap w !! c) as [cs|] eqn:Hc; [|unfold ConnSession_Close in H1; by rewrite Hc in H1].
    destruct (Close_spec cfg w c cs now Hw Hc) as (w1 & ? & E & ? & _). congruence.
  - destruct (CloseSess_spec cfg w t code now Hw) as (w1 & E & ?). congruence.
  - destruct (CloseCSess_spec cfg w t now Hw) as (w1 & E & ?). congruence.
  - unfold DelSessByStoken in H1. destruct (stoken_token t) as [t'|]; [|congruence].
    destruct (CloseSess_spec cfg w t' (Some UserLogoutBanner) now Hw) as (w1 & E & ?). congruence.
  - destruct (CloseUserSessions_spec cfg w u code now Hw) as (w1 & E & ?). congruence.
  - destruct (checkSession_spec cfg w now Hw) as (w1 & E & ?). congruence.
  - destruct (UpdateUserLimitTime_spec w u lt now Hw) as (w1 & E & ?). congruence.
  - eapply winv_set_conn; [done..|unfold NewDtlsConn; by case_match|unfold NewDtlsConn; by case_match|].
    by apply dtls_ok_new; eapply (inv_dtls cfg w).
  - eapply winv_set_conn; try done. unfold GetDtlsSession in H2. case_match; [|done]. simplify_eq.
    destruct (dtls_close_ok (dSess cs)) as (d' & E & ? & _); [by eapply (inv_dtls cfg w)|by apply Z.ltb_lt|].
    simpl. assert (d = d') as -> by congruence. done.
  - eapply winv_set_conn; [done..| | |]; unfold RateLimit; case_match; simpl; try done.
    all: by eapply (inv_dtls cfg w).
  - match goal with E : dSess cs' = _ |- _ => eapply winv_set_conn; [done..|rewrite E] end. by eapply (inv_dtls cfg w).
  - destruct (tick_frame cs) as (Hi & Hcl & Hd).
    eapply (winv_frame cfg (set_conn c (ratePeriod_tick cs).1.1 w)); try done.
    eapply winv_set_conn; try done. rewrite Hd. by eapply (inv_dtls cfg w).
Qed.

Lemma reachable_winv p0 w : reachable p0 w → winv cfg w.
Proof.
  induction 1; [|by eapply step_winv].
  split; simpl; try done.
  intros k. unfold cnt, bound. rewrite lookup_empty. simpl. lia.
Qed.
End reach.

(** ** Properties *)

(** C12.  Connection limits: in every reachable state the counter of each user
    is the number of that user's live connections and the global counter the
    number of all live connections, and neither exceeds its configured bound;
    so no path of [NewConn], [Close] or the session sweeps leaks a slot. *)
Theorem limit_counts_live_connections {db} `{IpMapStore db, SessionDb} cfg p0 (w : world db) :
  reachable cfg p0 w →
  (∀ u, u ≠ limitAllKey → cnt (limitClient w) u = live u (conn_heap w)
                        ∧ live u (conn_heap w) ≤ Z.max 0 (MaxUserClient cfg))
  ∧ cnt (limitClient w) limitAllKey = live limitAllKey (conn_heap w)
  ∧ live limitAllKey (conn_heap w) ≤ Z.max 0 (MaxClient cfg).
Proof.
  intros Hr%reachable_winv. pose proof (inv_limit _ _ Hr) as Hl. pose proof (inv_bound _ _ Hr) as Hb.
  split_and!; [|done|].
  - intros u Hu. split; [done|]. specialize (Hb u). rewrite Hl in Hb. unfold bound in Hb.
    by rewrite decide_False in Hb.
  - specialize (Hb limitAllKey). rewrite Hl in Hb. unfold bound in Hb. by rewrite decide_True in Hb.
Qed.


(**  Closing twice: a second [Close] of a connection changes nothing, so an
    address and a slot are released once. *)
Theorem close_idempotent {db} `{IpMapStore db, SessionDb} cfg p0 (w w' : world db) c now now' :
  reachable cfg p0 w → ConnSession_Close cfg w c now = Ret w' →
  ConnSession_Close cfg w' c now' = Ret w'.
Proof.
  intros Hr%reachable_winv Hc1.
  destruct (conn_heap w !! c) as [cs|] eqn:Hc; [|unfold ConnSession_Close in Hc1; by rewrite Hc in Hc1].
  destruct (Close_spec cfg w c cs now Hr Hc) as (w1 & cs1 & E & _ & Hcs1 & Hcl & _).
  assert (w' = w1) as -> by congruence. unfold ConnSession_Close. by rewrite Hcs1, Hcl.
Qed.

(** ** A concrete session database *)
Definition example_group : Group := {|
  grp_Id := 1; grp_Name := "ops"; grp_Note := ""; SplitDns := []; grp_PolicyId := 1; AuthProfile := "";
  grp_Status := 1; Hidden := 0; ClientCidr := ""; ClientStart := ""; ClientEnd := ""; ClientGateway := "";
  ClientCidr6 := ""; OutDev := ""; grp_CreatedAt := 0; grp_UpdatedAt := 0 |}.

Definition example_policy : Policy := {|
  pol_Id := 1; pol_Name := "default"; pol_Note := ""; AllowLan := false; ClientDns := [];
  RouteInclude := []; RouteExclude := []; DsExcludeDomains := ""; DsIncludeDomains := ""; LinkAcl := [];
  Bandwidth := 0; BandwidthUp := 0; TrafficQuota := 1000000; TrafficReset := "monthly";
  EnableFakeDNS := false; FakeDNSUpstream := ""; FakeDNSInclude := ""; FakeDNSExclude := "";
  PreferIPv6 := false; FakeDNSIncludeSet := ∅; FakeDNSExcludeSet := ∅; pol_Status := 1;
  pol_CreatedAt := 0; pol_UpdatedAt := 0 |}.

#[local] Instance example_session_db : SessionDb := {
  group_by_name n := if String.eqb n "ops" then Found example_group else NotFound;
  user_by_name _ := NotFound;
  apply_policy _ _ := Some example_policy;
  quota_exceeded _ _ := false
}.

Definition world0 : world mem_db := Build_world example_pool ∅ ∅ ∅ ∅ ∅ [].
Definition world1 : world mem_db := (NewSession world0 "" "tok" "dtls" (1000 * Second)).1.
Definition alice_session : Session := {|
  Sid := "1000"; Token := "tok"; DtlsSid := "dtls"; MacAddr := mac_of 1; s_MacHw := []; UniqueMac := true;
  Username := "alice"; s_Group := "ops"; RemoteAddr := ""; LastLogin := 1000 * Second; IsActive := false;
  s_LimitTime := None; CSess := None |}.
Definition world2 : world mem_db := set_sess 1 alice_session world1.
Definition world3 : world mem_db :=
  match NewConn example_cfg 0 world2 1 (1001 * Second) with Done (w, _) => w | _ => world2 end.

Lemma world3_reachable : reachable example_cfg example_pool world3.
Proof.
  eapply (reach_step _ _ world2); [eapply (reach_step _ _ world1); [eapply (reach_step _ _ world0)|]|].
  - constructor.
  - apply step_new_session.
  - eapply (step_login _ _ 1%positive).
    + vm_compute; reflexivity.
    + vm_compute. done.
  - apply (step_new_conn _ _ 0 1%positive (1001 * Second) _ (Some 1%positive)). vm_compute. reflexivity.
Defined.

Lemma limit_counts_live_connections_witness :
  live "alice" (conn_heap world3) = 1 ∧
  (∀ u, u ≠ limitAllKey → cnt (limitClient world3) u = live u (conn_heap world3)
                        ∧ live u (conn_heap world3) ≤ Z.max 0 (MaxUserClient example_cfg))
  ∧ cnt (limitClient world3) limitAllKey = live limitAllKey (conn_heap world3)
  ∧ live limitAllKey (conn_heap world3) ≤ Z.max 0 (MaxClient example_cfg).
Proof.
  split; [vm_compute; reflexivity|].
  apply (limit_counts_live_connections example_cfg example_pool world3 world3_reachable).
Defined.


Definition world4 : world mem_db :=
  match ConnSession_Close example_cfg world3 1 (1002 * Second) with Ret w => w | Panic => world3 end.

Lemma close_idempotent_witness :
  ConnSession_Close example_cfg world4 1 (1003 * Second) = Ret world4.
Proof.
  apply (close_idempotent example_cfg example_pool world3 world4 1 (1002 * Second)).
  - exact world3_reachable.
  - vm_compute. reflexivity.
Defined.

(** ** MTU *)

(**  MTU: the negotiated MTU never exceeds the server's maximum nor falls
    below 100 on a v4-only server, and is at least 1280 on a dual-stack one. *)
Theorem SetMtu_bounds cfg mx cs mtu :
  100 ≤ mx → (0 < Mtu cfg → 100 ≤ Mtu cfg) →
  let '(mx', cs') := SetMtu cfg mx cs mtu in
  100 ≤ mx' ∧
  (Ipv6CIDR cfg = ""%string → 100 ≤ cs_Mtu cs' ≤ mx') ∧
  (Ipv6CIDR cfg ≠ ""%string → 1280 ≤ cs_Mtu cs' ≤ Z.max 1280 mx').
Proof.
  intros Hmx Hm. unfold SetMtu.
  assert (Hfloor : ∀ m c, 100 ≤ cs_Mtu c ≤ m →
    (Ipv6CIDR cfg = ""%string → 100 ≤ cs_Mtu (enforceMtuFloorV6 cfg c) ≤ m) ∧
    (Ipv6CIDR cfg ≠ ""%string → 1280 ≤ cs_Mtu (enforceMtuFloorV6 cfg c) ≤ Z.max 1280 m)).
  { intros m c Hc. unfold enforceMtuFloorV6, str_empty. case_bool_decide; [split; [done|done]|].
    split; [done|]. intros _. destruct (Z.ltb_spec (cs_Mtu c) 1280); simpl; lia. }
  set (M := if 0 <? Mtu cfg then Mtu cfg else mx).
  assert (HM : 100 ≤ M) by (unfold M; destruct (Z.ltb_spec 0 (Mtu cfg)); lia).
  destruct (Atoi mtu) as [mi|]; [destruct (Z.ltb_spec mi 100)|];
    (split; [done|]); apply Hfloor; simpl; try lia.
  destruct (Z.ltb_spec mi M); simpl; lia.
Qed.

Definition example_conn : ConnSession :=
  match conn_heap world3 !! 1%positive with
  | Some cs => cs
  | None => {| info := {| cs_Sess := 1; IpAddr := nil_ip; IpAddr6 := nil_ip; cs_IpPool := PGlobal; MacHw := [];
                 cs_Username := ""; cs_Nickname := ""; cs_Group := example_group; cs_Policy := None;
                 Limit := None; LimitUp := None; FakeDNS := false |};
               cs_Mtu := 0; userLogoutCode := 0; traffic := new_traffic; cs_closed := false;
               dSess := {| isActive := -1; ds_CloseChan := ChanNil; ds_closeOnce := false; ds_IpAddr := nil_ip |};
               LastDataTime := 0; MasterSecret := ""; CstpPickCmp := None; DtlsPickCmp := None |}
  end.

Lemma SetMtu_bounds_witness :
  let '(mx', cs') := SetMtu example_cfg 1460 example_conn "1300" in
  100 ≤ mx' ∧
  (Ipv6CIDR example_cfg = ""%string → 100 ≤ cs_Mtu cs' ≤ mx') ∧
  (Ipv6CIDR example_cfg ≠ ""%string → 1280 ≤ cs_Mtu cs' ≤ Z.max 1280 mx').
Proof. apply (SetMtu_bounds example_cfg 1460 example_conn "1300"); vm_compute; done. Defined.

(** ** Traffic accounting *)
Inductive traffic_op := TUp (n : Z) | TDown (n : Z) | TTick.

Definition traffic_step `{SessionDb} (st : ConnSession * list db_event) (o : traffic_op) :=
  let '(cs, ev) := st in
  match o with
  | TUp n => ((RateLimit cs n true).1, ev)
  | TDown n => ((RateLimit cs n false).1, ev)
  | TTick => ((ratePeriod_tick cs).1.1, ev ++ (ratePeriod_tick cs).1.2)
  end.

Definition op_up (o : traffic_op) : Z := match o with TUp n => n | _ => 0 end.
Definition op_down (o : traffic_op) : Z := match o with TDown n => n | _ => 0 end.
Definition settled (ev : list db_event) : Z := sumZ (λ e, match e with AddTraffic _ d => d | _ => 0 end) ev.

(** The ledger of a connection that has carried [u] bytes up and [d] down. *)
Definition ledger (u d : Z) (st : ConnSession * list db_event) : Prop :=
  let t := traffic st.1 in
  bwUp t + bwUpAll t = u ∧ bwDown t + bwDownAll t = d ∧ settled st.2 = trafficSettled t
  ∧ 0 ≤ bwUp t ∧ 0 ≤ bwUpAll t ∧ 0 ≤ bwDown t ∧ 0 ≤ bwDownAll t
  ∧ 0 ≤ trafficSettled t ≤ bwUpAll t + bwDownAll t.

Lemma u64_id z : 0 ≤ z < 2 ^ 63 → u64 z = z.
Proof. intros. apply wrap_small. lia. Qed.

Lemma settle_ledger u d cs ev :
  u + d < 2 ^ 63 → ledger u d (cs, ev) →
  ledger u d ((settleTraffic cs).1, ev ++ (settleTraffic cs).2)
  ∧ (has_quota cs = true →
     settled (ev ++ (settleTraffic cs).2) = bwUpAll (traffic cs) + bwDownAll (traffic cs)).
Proof.
  intros Hb (H1 & H2 & H3 & H4 & H5 & H6 & H7 & H8). simpl in *. unfold settleTraffic.
  destruct (has_quota cs) eqn:Eq; cbn [negb].
  2: { simpl. rewrite app_nil_r. split; [|done]. unfold ledger. simpl. lia. }
  rewrite u64_id by lia.
  destruct (Z.leb_spec (bwUpAll (traffic cs) + bwDownAll (traffic cs)) (trafficSettled (traffic cs))).
  { simpl. rewrite app_nil_r. split; [unfold ledger; simpl; lia|]. intros _. unfold settled in *. lia. }
  rewrite sint64_small by (unfold min_int64, max_int64; lia).
  rewrite (proj2 (Z.leb_gt (bwUpAll (traffic cs) + bwDownAll (traffic cs) - trafficSettled (traffic cs)) 0)) by lia.
  unfold ledger, settled in *. simpl. rewrite sumZ_app. simpl. split; [|intros _]; lia.
Qed.

Lemma traffic_step_ledger `{SessionDb} u d st o :
  0 ≤ op_up o → 0 ≤ op_down o → u + op_up o + (d + op_down o) < 2 ^ 63 → ledger u d st →
  ledger (u + op_up o) (d + op_down o) (traffic_step st o).
Proof.
  intros Hu Hd Hb Hl. destruct st as [cs ev].
  pose proof Hl as (H1 & H2 & H3 & H4 & H5 & H6 & H7 & H8). simpl in *.
  destruct o as [n|n|]; cbn [op_up op_down traffic_step] in *.
  - unfold ledger, RateLimit. simpl. rewrite (u64_id n), u64_id by lia. lia.
  - unfold ledger, RateLimit. simpl. rewrite (u64_id n), u64_id by lia. lia.
  - rewrite !Z.add_0_r in *. unfold ratePeriod_tick.
    rewrite !u64_id by lia.
    set (T := λ tick, {| bwUp := 0; bwDown := 0; bwUpPeriod := bwUp (traffic cs) / BandwidthPeriodSec;
           bwDownPeriod := bwDown (traffic cs) / BandwidthPeriodSec;
           bwUpAll := bwUpAll (traffic cs) + bwUp (traffic cs);
           bwDownAll := bwDownAll (traffic cs) + bwDown (traffic cs);
           trafficSettled := trafficSettled (traffic cs); quotaTick := tick |}).
    assert (HT : ∀ k, ledger u d (set_traffic (T k) cs, ev)) by (intros k; unfold ledger; simpl; lia).
    destruct (has_quota cs); cbn [negb]; [|simpl; rewrite app_nil_r; apply HT].
    destruct (_ <? _); [simpl; rewrite app_nil_r; apply HT|].
    destruct (settleTraffic (set_traffic (T 0) cs)) as [cs' ev'] eqn:Es.
    destruct (settle_ledger u d (set_traffic (T 0) cs) ev) as [Hs _]; [lia|apply HT|].
    rewrite Es in Hs. exact Hs.
Qed.

Lemma traffic_run_ledger `{SessionDb} ops : ∀ u d st,
  Forall (λ o, 0 ≤ op_up o ∧ 0 ≤ op_down o) ops → ledger u d st → 0 ≤ u → 0 ≤ d →
  u + sumZ op_up ops + (d + sumZ op_down ops) < 2 ^ 63 → has_quota st.1 = true →
  ledger (u + sumZ op_up ops) (d + sumZ op_down ops) (foldl traffic_step st ops)
  ∧ has_quota (foldl traffic_step st ops).1 = true.
Proof.
  induction ops as [|o ops IH]; intros u d st Hf Hl Hu Hd Hb Hq; simpl in *.
  { rewrite !Z.add_0_r. done. }
  apply Forall_cons in Hf as [[Ho1 Ho2] Hf].
  assert (0 ≤ sumZ op_up ops ∧ 0 ≤ sumZ op_down ops) as [? ?].
  { split; apply sumZ_nonneg; intros x Hx; by apply (proj1 (Forall_forall _ _) Hf x Hx). }
  rewrite !Z.add_assoc. apply IH; try done; try lia.
  - apply traffic_step_ledger; try done; lia.
  - destruct st as [cs ev], o; simpl in *; try done. unfold has_quota.
    by rewrite (proj1 (tick_frame cs)).
Qed.



(** ** Rate limiting *)

(**  The rate limiter: when the token bucket grants requests up to its
    burst, [Wait] terminates, asks for exactly the packet's bytes in total and
    never for more than the burst at once. *)
Theorem LimitRater_Wait_splits bps bt waitN :
  0 ≤ bt → (∀ n, 0 < n ≤ lr_burst (NewLimitRater bps) → waitN n = true) →
  ∃ ns, LimitRater_Wait (S (Z.to_nat bt)) waitN (NewLimitRater bps) bt = Some (ns, true)
        ∧ sumZ id ns = bt ∧ Forall (λ n, 0 < n ≤ lr_burst (NewLimitRater bps)) ns.
Proof.
  intros Hbt Hw. set (l := NewLimitRater bps) in *.
  assert (Hburst : 1 ≤ lr_burst l) by (unfold l; simpl; lia).
  remember (S (Z.to_nat bt)) as fuel eqn:Ef.
  assert (Hf : (Z.to_nat bt < fuel)%nat) by lia. clear Ef. revert bt Hbt Hf.
  induction fuel as [|fuel IH]; intros bt Hbt Hf; [lia|]. cbn [LimitRater_Wait].
  destruct (Z.ltb_spec 0 bt) as [Hp|Hz]; cycle 1.
  { exists []. split_and!; [done|simpl; lia|constructor]. }
  rewrite Hw by lia.
  destruct (IH (bt - Z.min bt (lr_burst l))) as (ns & -> & Hs & Hn); [lia..|].
  eexists. split; [done|]. split.
  { change (Z.min bt (lr_burst l) + sumZ id ns = bt). lia. }
  constructor; [lia|done].
Qed.

Lemma LimitRater_Wait_splits_witness :
  ∃ ns, LimitRater_Wait (S (Z.to_nat 4000)) (λ n, n <=? 1500) (NewLimitRater 100000) 4000 = Some (ns, true)
        ∧ sumZ id ns = 4000 ∧ Forall (λ n, 0 < n ≤ lr_burst (NewLimitRater 100000)) ns.
Proof.
  apply (LimitRater_Wait_splits 100000 4000 (λ n, n <=? 1500)); [done|].
  intros n Hn. apply Z.leb_le. change (lr_burst (NewLimitRater 100000)) with 1500 in Hn. lia.
Defined.
