(* ===== verification/TcpParser.v ===== *)
(** * Protocol recognition (server/handler/payload_tcp_parser.go, payload_dns_parser.go)

    Parsers run on attacker-controlled bytes, so every index and slice is in
    [res]: an out-of-range access is [Panic], and so is running out of the
    fuel of a loop, which [TcpParserSpec] shows never happens.  [net/http.ReadRequest] is a
    parameter of [httpParser]. *)
From S2P Require Export GoNet.
Local Open Scope Z_scope.

Definition acc_proto_udp : Z := 1.
Definition acc_proto_tcp : Z := 2.
Definition acc_proto_https : Z := 3.
Definition acc_proto_http : Z := 4.
Definition acc_proto_dns : Z := 5.
Definition acc_proto_ssh : Z := 6.
Definition acc_proto_ftp : Z := 7.
Definition acc_proto_smtp : Z := 8.
Definition acc_proto_imap : Z := 9.
Definition acc_proto_pop3 : Z := 10.

(** A parser's answer: protocol and host name. *)
Definition answer := (Z * string)%type.
Definition raw_tcp : answer := (acc_proto_tcp, ""%string).

Definition validDomainChar (addr : list byte) : bool :=
  forallb (λ b, let c := b2z b in
    ((97 <=? c) && (c <=? 122)) || ((65 <=? c) && (c <=? 90))
    || ((45 <=? c) && (c <=? 46)) || ((48 <=? c) && (c <=? 57))) addr.

(** ** TLS ClientHello *)

(** The loop over the names of a server_name extension: [Some a] ends the
    parse with answer [a], [None] leaves the loop at the returned offset. *)
Fixpoint sni_names (fuel : nat) (body : list byte) (off nameEnd : Z) : res (option answer * Z) :=
  match fuel with
  | O => Panic
  | S fuel =>
      if negb (off <? nameEnd) then Ret (None, off)
      else if nameEnd <? off + 3 then Ret (Some raw_tcp, off)
      else
        let! nt := at_z body off in
        let off := off + 1 in
        let! nl := be16 body off in
        let off := off + 2 in
        if nameEnd <? off + nl then Ret (Some raw_tcp, off)
        else if nt =? 0 then
          let! host := slice body off (off + nl) in
          if negb (bool_decide (host = [])) && validDomainChar host
          then Ret (Some (acc_proto_https, str_of host), off)
          else Ret (Some (acc_proto_https, ""%string), off)
        else sni_names fuel body (off + nl) nameEnd
  end.

(** The loop over the extensions. *)
Fixpoint sni_exts (fuel : nat) (body : list byte) (off extEnd : Z) : res answer :=
  match fuel with
  | O => Panic
  | S fuel =>
      if negb (off <? extEnd) then Ret (acc_proto_https, ""%string)
      else if extEnd <? off + 4 then Ret raw_tcp
      else
        let! etype := be16 body off in
        let off := off + 2 in
        let! elen := be16 body off in
        let off := off + 2 in
        if extEnd <? off + elen then Ret raw_tcp
        else if etype =? 0 then
          let listEnd := off + elen in
          if listEnd <? off + 2 then Ret raw_tcp
          else
            let! listLen := be16 body off in
            let off := off + 2 in
            if listEnd <? off + listLen then Ret raw_tcp
            else
              let! r := sni_names (length body) body off (off + listLen) in
              match r with
              | (Some a, _) => Ret a
              | (None, off) => sni_exts fuel body off extEnd
              end
        else sni_exts fuel body (off + elen) extEnd
  end.

(** Skip a block with a one-byte or two-byte length prefix; [None] is the
    early return on a truncated message. *)
Definition skip1 (body : list byte) (off : Z) : res (option Z) :=
  if len body <? off + 1 then Ret None
  else
    let! n := at_z body off in
    let off := off + 1 in
    if len body <? off + n then Ret None else Ret (Some (off + n)).

Definition skip2 (body : list byte) (off : Z) : res (option Z) :=
  if len body <? off + 2 then Ret None
  else
    let! n := be16 body off in
    let off := off + 2 in
    if len body <? off + n then Ret None else Ret (Some (off + n)).

Definition sni_body (body : list byte) : res answer :=
  let! o := skip1 body (2 + 32) in                     (* session id *)
  match o with None => Ret raw_tcp | Some off =>
  let! o := skip2 body off in                          (* cipher suites *)
  match o with None => Ret raw_tcp | Some off =>
  let! o := skip1 body off in                          (* compression methods *)
  match o with None => Ret raw_tcp | Some off =>
  if len body <? off + 2 then Ret raw_tcp
  else
    let! extTotal := be16 body off in
    let off := off + 2 in
    if len body <? off + extTotal then Ret raw_tcp
    else sni_exts (length body) body off (off + extTotal)
  end end end.

Definition sniNewParser (b : list byte) : res answer :=
  if len b <? 5 then Ret raw_tcp
  else
    let! b0 := at_z b 0 in
    if negb (b0 =? 0x16) then Ret raw_tcp
    else
      let! b1 := at_z b 1 in
      if negb (b1 =? 0x03) then Ret raw_tcp
      else
        let! recordLen := be16 b 3 in
        if (recordLen <? 4) || (len b <? 5 + recordLen) || (len b <? 9) then Ret raw_tcp
        else
          let! hsType := at_z b 5 in
          if negb (hsType =? 0x01) then Ret raw_tcp
          else
            let! h := at_z b 6 in
            let! lo := be16 b 7 in
            let hsLen := Z.lor (Z.shiftl h 16) lo in
            if (recordLen - 4 <? hsLen) || (len b - 9 <? hsLen) then Ret raw_tcp
            else
              let! body := slice b 9 (9 + hsLen) in
              sni_body body.

(** ** HTTP *)

(** [http.ReadRequest] on the bytes: the [Host] of a well-formed request. *)
Definition httpParser (ReadRequest : list byte → option string) (data : list byte) : answer :=
  match ReadRequest data with
  | Some host => (acc_proto_http, host)
  | None => raw_tcp
  end.

Definition method_names : list string :=
  ["OPTIONS"; "HEAD"; "GET"; "POST"; "PUT"; "DELETE"; "TRACE"; "CONNECT"]%string.

Definition find_str (packet : list byte) (s : string) : Z :=
  match index_of (bytes_of s) packet with Some i => Z.of_nat i | None => -1 end.

Definition httpNewParser (data : list byte) : res answer :=
  match cut_byte "010"%byte data with
  | None => Ret raw_tcp
  | Some (before, _) =>
      let '(method, uri) := match cut_byte " "%byte before with Some p => p | None => (before, []) end in
      if negb (existsb (λ m, bytes_eqb method (bytes_of m)) method_names) then Ret raw_tcp
      else if (7 <? len uri) && has_prefix (bytes_of "http") uri then
        match split_byte "/"%byte (skipn 7 uri) with
        | h :: _ => Ret (acc_proto_http, str_of h)
        | [] => Panic
        end
      else
        let hostPos := find_str data "Host: " in
        let hostPos := if hostPos =? -1 then find_str data "HOST: " else hostPos in
        if hostPos =? -1 then Ret raw_tcp
        else
          let! tail := slice data hostPos (len data) in
          match index_byte "010"%byte tail with
          | None => Ret raw_tcp
          | Some e =>
              let! hostname := slice data (hostPos + 6) (hostPos + Z.of_nat e - 1) in
              Ret (acc_proto_http, str_of hostname)
          end
  end.

(** ** Line-based protocols *)
Definition firstProtocolLine (data : list byte) : list byte :=
  trim_space (match cut_byte "010"%byte data with Some (before, _) => before | None => data end).

Definition containsAnyFold (value : list byte) (parts : list string) : bool :=
  let value := to_upper value in
  existsb (λ p, contains value (bytes_of p)) parts.

Definition hasAnyPrefix (line : list byte) (ps : list string) : bool :=
  existsb (λ p, has_prefix (bytes_of p) line) ps.

Definition commonProtocolParser (data : list byte) : answer :=
  let line := firstProtocolLine data in
  if hasAnyPrefix line ["SSH-"%string] && (8 <=? len line) then (acc_proto_ssh, ""%string)
  else
    let upper := to_upper line in
    if hasAnyPrefix upper ["EHLO "; "HELO "; "MAIL FROM:"; "RCPT TO:"; "DATA"; "QUIT"]%string
    then (acc_proto_smtp, ""%string)
    else if hasAnyPrefix upper ["USER "; "PASS "; "LIST"; "RETR "; "STOR "; "SYST"]%string
    then (acc_proto_ftp, ""%string)
    else if hasAnyPrefix upper ["A001 "; "A002 "; "A003 "; "LOGIN "; "SELECT "; "FETCH "]%string
    then (acc_proto_imap, ""%string)
    else if hasAnyPrefix upper ["APOP "; "STAT"; "UIDL"]%string then (acc_proto_pop3, ""%string)
    else
      let greeting := hasAnyPrefix line ["220 "; "220-"]%string in
      if greeting && containsAnyFold line ["SMTP"; "ESMTP"; "MAIL"]%string then (acc_proto_smtp, ""%string)
      else if greeting && containsAnyFold line ["FTP"; "FILEZILLA"]%string then (acc_proto_ftp, ""%string)
      else if hasAnyPrefix line ["* OK"%string] && containsAnyFold line ["IMAP"; "IMAP4"]%string
      then (acc_proto_imap, ""%string)
      else if hasAnyPrefix line ["+OK"%string] && containsAnyFold line ["POP3"; "POP"]%string
      then (acc_proto_pop3, ""%string)
      else raw_tcp.

Section entry.
Context (ReadRequest : list byte → option string).

(** The loop over [tcpParsers]. *)
Definition onTCPPayload (data : list byte) : res answer :=
  let! a := sniNewParser data in
  if negb (a.1 =? acc_proto_tcp) then Ret a
  else
    let a := httpParser ReadRequest data in
    if negb (a.1 =? acc_proto_tcp) then Ret a
    else
      let a := commonProtocolParser data in
      if negb (a.1 =? acc_proto_tcp) then Ret a else Ret raw_tcp.

Definition onTCP (tcpPl : list byte) : res answer :=
  if len tcpPl <? 14 then Ret raw_tcp
  else
    let! b12 := at_z tcpPl 12 in
    let dataOff := Z.shiftl (Z.shiftr b12 4) 2 in
    if (dataOff <? 20) || (len tcpPl <? dataOff) then Ret raw_tcp
    else
      let! data := slice tcpPl dataOff (len tcpPl) in
      onTCPPayload data.
End entry.

(** ** DNS queries *)

(** The label loop: [None] is the early return of an empty name; otherwise the
    name read and the offset behind it.  [fuel] bounds the labels. *)
Fixpoint dns_labels (fuel : nat) (pl : list byte) (off : Z) (name : list byte)
    : res (option (list byte * Z)) :=
  match fuel with
  | O => Panic
  | S fuel =>
      if negb (off <? len pl) then Ret (Some (name, off))
      else
        let! length := at_z pl off in
        if length =? 0 then Ret (Some (name, off + 1))
        else if Z.land length 0xC0 =? 0xC0 then Ret (Some (name, off + 2))
        else if negb (Z.land length 0xC0 =? 0) then Ret None
        else
          let off := off + 1 in
          if len pl <? off + length then Ret None
          else
            let! label := slice pl off (off + length) in
            let name := match name with [] => [] | _ => name ++ ["."%byte] end in
            dns_labels fuel pl (off + length) (name ++ label)
  end.

Definition parseDNSQuery (udpPl : list byte) : res string :=
  if len udpPl <? 12 then Ret ""%string
  else
    let! flags := be16 udpPl 2 in
    if negb (Z.land flags 0x8000 =? 0) then Ret ""%string
    else
      let! qdCount := be16 udpPl 4 in
      if qdCount =? 0 then Ret ""%string
      else
        let! o := dns_labels (length udpPl) udpPl 12 [] in
        match o with
        | None => Ret ""%string
        | Some (name, off) =>
            if bool_decide (name = []) then Ret ""%string
            else if len udpPl <? off + 4 then Ret ""%string
            else if negb (validDomainChar name) then Ret ""%string
            else Ret (str_of name)
        end.
