(* ===== verification/TcpParserSpec.v ===== *)
(** * Correctness of the protocol parsers

    No parser of the data path panics on any input, and the name a client puts
    in a ClientHello or a DNS question is the name the audit log records. *)
From S2P Require Export TcpParser.
Local Open Scope Z_scope.

Section totality.
Lemma sni_names_ret fuel body nameEnd : ∀ off,
  0 ≤ off → nameEnd ≤ len body → nameEnd - off < Z.of_nat fuel → (0 < fuel)%nat →
  ∃ o off', sni_names fuel body off nameEnd = Ret (o, off') ∧ off ≤ off'.
Proof.
  induction fuel as [|fuel IH]; intros off Hoff He Hf Hf0; [lia|]. cbn [sni_names].
  destruct (Z.ltb_spec off nameEnd); cbn [negb]; [|eauto with lia].
  destruct (Z.ltb_spec nameEnd (off + 3)); [eauto with lia|].
  destruct (at_z_is_ret body off) as [nt ->]; [lia|]. cbn [res_bind].
  destruct (be16_is_ret body (off + 1)) as [nl Hnl]; [lia..|]. rewrite Hnl. cbn [res_bind].
  apply be16_range in Hnl.
  destruct (Z.ltb_spec nameEnd (off + 1 + 2 + nl)); [eauto with lia|].
  destruct (nt =? 0).
  - destruct (slice_is_ret body (off + 1 + 2) (off + 1 + 2 + nl)) as [h ->]; [lia..|]. cbn [res_bind].
    destruct (_ && _); eauto with lia.
  - destruct (IH (off + 1 + 2 + nl)) as (o & off' & -> & ?); [lia..|]. eauto with lia.
Qed.

Lemma sni_exts_ret fuel body extEnd : ∀ off,
  0 < off → extEnd ≤ len body → extEnd - off < Z.of_nat fuel → (0 < fuel)%nat →
  is_ret (sni_exts fuel body off extEnd).
Proof.
  induction fuel as [|fuel IH]; intros off Hoff He Hf Hf0; [lia|]. cbn [sni_exts].
  destruct (Z.ltb_spec off extEnd); cbn [negb]; [|eauto with remlink].
  destruct (Z.ltb_spec extEnd (off + 4)); [eauto with remlink|].
  destruct (be16_is_ret body off) as [etype ->]; [lia..|]. cbn [res_bind].
  destruct (be16_is_ret body (off + 2)) as [elen Hel]; [lia..|]. rewrite Hel. cbn [res_bind].
  apply be16_range in Hel.
  destruct (Z.ltb_spec extEnd (off + 2 + 2 + elen)); [eauto with remlink|].
  destruct (etype =? 0); [|apply IH; lia].
  destruct (Z.ltb_spec (off + 2 + 2 + elen) (off + 2 + 2 + 2)); [eauto with remlink|].
  destruct (be16_is_ret body (off + 2 + 2)) as [ll Hll]; [lia..|]. rewrite Hll. cbn [res_bind].
  apply be16_range in Hll.
  destruct (Z.ltb_spec (off + 2 + 2 + elen) (off + 2 + 2 + 2 + ll)); [eauto with remlink|].
  destruct (sni_names_ret (length body) body (off + 2 + 2 + 2 + ll) (off + 2 + 2 + 2))
    as (o & off' & -> & ?); [unfold len in *; lia..|]. cbn [res_bind].
  destruct o; [eauto with remlink|]. apply IH; lia.
Qed.

Lemma skip1_ret body off : 0 ≤ off → ∃ o, skip1 body off = Ret o ∧ ∀ x, o = Some x → off < x ≤ len body.
Proof.
  intros. unfold skip1. destruct (Z.ltb_spec (len body) (off + 1)); [by eexists|].
  destruct (at_z_is_ret body off) as [n Hn]; [lia|]. rewrite Hn. cbn [res_bind].
  apply at_z_range in Hn. destruct (Z.ltb_spec (len body) (off + 1 + n)); [by eexists|].
  eexists. split; [done|]. intros x [= <-]. lia.
Qed.

Lemma skip2_ret body off : 0 ≤ off → ∃ o, skip2 body off = Ret o ∧ ∀ x, o = Some x → off < x ≤ len body.
Proof.
  intros. unfold skip2. destruct (Z.ltb_spec (len body) (off + 2)); [by eexists|].
  destruct (be16_is_ret body off) as [n Hn]; [lia..|]. rewrite Hn. cbn [res_bind].
  apply be16_range in Hn. destruct (Z.ltb_spec (len body) (off + 2 + n)); [by eexists|].
  eexists. split; [done|]. intros x [= <-]. lia.
Qed.

Lemma sni_body_ret body : is_ret (sni_body body).
Proof.
  unfold sni_body.
  destruct (skip1_ret body (2 + 32)) as ([o1|] & -> & H1); [lia| |eauto with remlink]. cbn [res_bind].
  specialize (H1 _ eq_refl).
  destruct (skip2_ret body o1) as ([o2|] & -> & H2); [lia| |eauto with remlink]. cbn [res_bind].
  specialize (H2 _ eq_refl).
  destruct (skip1_ret body o2) as ([o3|] & -> & H3); [lia| |eauto with remlink]. cbn [res_bind].
  specialize (H3 _ eq_refl).
  destruct (Z.ltb_spec (len body) (o3 + 2)); [eauto with remlink|].
  destruct (be16_is_ret body o3) as [n Hn]; [lia..|]. rewrite Hn. cbn [res_bind].
  apply be16_range in Hn. destruct (Z.ltb_spec (len body) (o3 + 2 + n)); [eauto with remlink|].
  apply sni_exts_ret; unfold len in *; lia.
Qed.

Lemma sniNewParser_ret b : is_ret (sniNewParser b).
Proof.
  unfold sniNewParser. destruct (Z.ltb_spec (len b) 5); [eauto with remlink|].
  destruct (at_z_is_ret b 0) as [b0 ->]; [lia|]. cbn [res_bind].
  destruct (negb _); [eauto with remlink|].
  destruct (at_z_is_ret b 1) as [b1 ->]; [lia|]. cbn [res_bind].
  destruct (negb _); [eauto with remlink|].
  destruct (be16_is_ret b 3) as [rl ->]; [lia..|]. cbn [res_bind].
  destruct ((rl <? 4) || (len b <? 5 + rl) || (len b <? 9)) eqn:E; [eauto with remlink|].
  bool_to_prop.
  destruct (at_z_is_ret b 5) as [ht ->]; [lia|]. cbn [res_bind].
  destruct (negb _); [eauto with remlink|].
  destruct (at_z_is_ret b 6) as [h Hh]; [lia|]. rewrite Hh. cbn [res_bind].
  destruct (be16_is_ret b 7) as [lo Hlo]; [lia..|]. rewrite Hlo. cbn [res_bind].
  apply at_z_range in Hh. apply be16_range in Hlo.
  destruct ((rl - 4 <? Z.lor (Z.shiftl h 16) lo) || (len b - 9 <? Z.lor (Z.shiftl h 16) lo)) eqn:E2;
    [eauto with remlink|]. bool_to_prop.
  rewrite lor_shiftl_add_n in * by (change (2 ^ 16) with 65536; lia).
  destruct (slice_is_ret b 9 (9 + (h * 2 ^ 16 + lo))) as [body ->]; [lia..|]. cbn [res_bind].
  apply sni_body_ret.
Qed.

Lemma onTCPPayload_ret rr data : is_ret (onTCPPayload rr data).
Proof.
  unfold onTCPPayload. destruct (sniNewParser_ret data) as [a ->]. cbn [res_bind].
  repeat case_match; eauto with remlink.
Qed.

Lemma dns_labels_ret fuel pl : ∀ off name,
  0 ≤ off → len pl - off < Z.of_nat fuel → (0 < fuel)%nat → is_ret (dns_labels fuel pl off name).
Proof.
  induction fuel as [|fuel IH]; intros off name Hoff Hf Hf0; [lia|]. cbn [dns_labels].
  destruct (Z.ltb_spec off (len pl)); cbn [negb]; [|eauto with remlink].
  destruct (at_z_is_ret pl off) as [n Hn]; [lia|]. rewrite Hn. cbn [res_bind].
  apply at_z_range in Hn.
  destruct (n =? 0); [eauto with remlink|]. destruct (_ =? _); [eauto with remlink|].
  destruct (negb _); [eauto with remlink|].
  destruct (Z.ltb_spec (len pl) (off + 1 + n)); [eauto with remlink|].
  destruct (slice_is_ret pl (off + 1) (off + 1 + n)) as [l ->]; [lia..|]. cbn [res_bind].
  apply IH; lia.
Qed.
End totality.

(** C28.  Robustness: on any byte string the TCP and DNS parsers of the data
    path return (no out-of-range access, and every loop ends), whatever
    [http.ReadRequest] answers. *)
Theorem parsers_never_panic ReadRequest (b : list byte) :
  is_ret (onTCP ReadRequest b) ∧ is_ret (onTCPPayload ReadRequest b) ∧ is_ret (parseDNSQuery b).
Proof.
  split_and!.
  - unfold onTCP. destruct (Z.ltb_spec (len b) 14); [eauto with remlink|].
    destruct (at_z_is_ret b 12) as [x Hx]; [lia|]. rewrite Hx. cbn [res_bind].
    destruct ((_ <? 20) || _) eqn:E; [eauto with remlink|]. bool_to_prop.
    destruct (slice_is_ret b (Z.shiftl (Z.shiftr x 4) 2) (len b)) as [d ->]; [lia..|]. cbn [res_bind].
    apply onTCPPayload_ret.
  - apply onTCPPayload_ret.
  - unfold parseDNSQuery. destruct (Z.ltb_spec (len b) 12); [eauto with remlink|].
    destruct (be16_is_ret b 2) as [x ->]; [lia..|]. cbn [res_bind].
    destruct (negb _); [eauto with remlink|].
    destruct (be16_is_ret b 4) as [y ->]; [lia..|]. cbn [res_bind].
    destruct (_ =? _); [eauto with remlink|].
    destruct (dns_labels_ret (length b) b 12 []) as [o ->]; [unfold len in *; lia..|]. cbn [res_bind].
    repeat case_match; eauto with remlink.
Qed.

(** ** DNS round trip *)

(** A question name as it is sent: length-prefixed labels. *)
Definition enc_labels (ls : list (list byte)) : list byte :=
  flat_map (λ l, z2b (len l) :: l) ls.

Definition label_ok (l : list byte) : Prop := 1 ≤ len l ≤ 63 ∧ validDomainChar l = true.

Lemma land_C0_small n : 1 ≤ n ≤ 63 → Z.land n 0xC0 = 0.
Proof.
  intros Hn. apply Z.bits_inj'. intros k Hk. rewrite Z.land_spec, Z.bits_0.
  destruct (decide (k < 6)) as [Hlt|Hge].
  - assert (Z.testbit 0xC0 k = false) as ->; [|apply andb_false_r].
    assert (k = 0 ∨ k = 1 ∨ k = 2 ∨ k = 3 ∨ k = 4 ∨ k = 5) as Hc by lia.
    by destruct Hc as [->|[->|[->|[->|[->| ->]]]]].
  - rewrite <- (Z.mod_small n (2 ^ 6)) by lia. by rewrite Z.mod_pow2_bits_high by lia.
Qed.

Definition dns_name (name : list byte) (ls : list (list byte)) : list byte :=
  foldl (λ n l, match n with [] => [] | _ => n ++ ["."%byte] end ++ l) name ls.

Lemma dns_labels_enc pl post ls : ∀ fuel off name,
  Forall label_ok ls → at_cur pl off (enc_labels ls ++ "000"%byte :: post) → (length ls < fuel)%nat →
  dns_labels fuel pl off name = Ret (Some (dns_name name ls, off + len (enc_labels ls) + 1)).
Proof.
  induction ls as [|l ls IH]; intros fuel off name Hok Hc Hf; (destruct fuel as [|fuel]; [simpl in Hf; lia|]);
    cbn [dns_labels].
  - pose proof (at_cur_len _ _ _ Hc) as Hl. simpl in Hc, Hl. rewrite len_cons in Hl.
    pose proof (len_nonneg post).
    rewrite (proj2 (Z.ltb_lt off (len pl))) by lia. cbn [negb].
    rewrite (at_cur_at _ _ _ _ Hc). cbn [res_bind]. change (b2z "000"%byte =? 0) with true. cbn iota.
    simpl. change (len (@nil byte)) with 0. by rewrite Z.add_0_r.
  - apply Forall_cons in Hok as [[Hl Hv] Hok]. cbn [enc_labels flat_map] in Hc.
    fold (enc_labels ls) in Hc. cbn [app] in Hc. rewrite <- app_assoc in Hc.
    pose proof (at_cur_len _ _ _ Hc) as Hlen. rewrite len_cons, len_app in Hlen.
    pose proof (len_nonneg (enc_labels ls ++ "000"%byte :: post)).
    rewrite (proj2 (Z.ltb_lt off (len pl))) by lia. cbn [negb].
    rewrite (at_cur_at _ _ _ _ Hc). cbn [res_bind]. rewrite b2z_z2b_small by lia.
    rewrite (proj2 (Z.eqb_neq (len l) 0)), land_C0_small by lia.
    change (0 =? 0xC0) with false. change (negb (0 =? 0)) with false. cbn iota.
    rewrite (proj2 (Z.ltb_ge (len pl) (off + 1 + len l))) by lia.
    apply at_cur_cons in Hc. rewrite (at_cur_slice _ _ _ _ Hc). cbn [res_bind].
    apply at_cur_app in Hc. rewrite (IH fuel _ _ Hok Hc) by (simpl in Hf; lia).
    unfold dns_name. cbn [foldl]. do 3 f_equal.
    cbn [enc_labels flat_map]. fold (enc_labels ls). rewrite len_app, len_cons. lia.
Qed.

Lemma validDomainChar_app a b : validDomainChar (a ++ b) = validDomainChar a && validDomainChar b.
Proof. apply forallb_app. Qed.

Lemma dns_name_valid ls : ∀ name, validDomainChar name = true → Forall label_ok ls →
  validDomainChar (dns_name name ls) = true.
Proof.
  induction ls as [|l ls IH]; intros name Hn Hok; [done|].
  apply Forall_cons in Hok as [[_ Hl] Hok]. apply IH; [|done].
  destruct name as [|c name]; [done|].
  by rewrite !validDomainChar_app, Hn, Hl.
Qed.

Lemma dns_name_join ls : ∀ name, name ≠ [] →
  dns_name name ls = join_byte "."%byte (name :: ls).
Proof.
  induction ls as [|l ls IH]; intros name Hn; [done|].
  unfold dns_name in *. cbn [foldl]. destruct name as [|c name]; [done|].
  rewrite IH by (by destruct l). simpl. rewrite <- !app_assoc.
  by destruct ls.
Qed.

(** A query: header with [QR = 0] and a question, name, type and class. *)
Definition dns_query (id flags qd an ns ar : Z) (ls : list (list byte)) (qtype qclass : Z)
    (rest : list byte) : list byte :=
  put16 id ++ put16 flags ++ put16 qd ++ put16 an ++ put16 ns ++ put16 ar
  ++ enc_labels ls ++ "000"%byte :: put16 qtype ++ put16 qclass ++ rest.

(** C30.  DNS round trip: the name recorded for a query is the dotted name of
    its question. *)
Theorem parseDNSQuery_name id flags qd an ns ar l ls qtype qclass rest :
  0 ≤ flags < 0x8000 → 0 < qd < 65536 → Forall label_ok (l :: ls) →
  parseDNSQuery (dns_query id flags qd an ns ar (l :: ls) qtype qclass rest)
  = Ret (str_of (join_byte "."%byte (l :: ls))).
Proof.
  intros Hfl Hqd Hok. set (pl := dns_query _ _ _ _ _ _ _ _ _ _).
  pose proof (at_cur_start pl) as Hc. unfold pl at 2 in Hc. unfold dns_query in Hc.
  apply at_cur_app in Hc. pose proof Hc as Hflags. apply at_cur_app in Hc. pose proof Hc as Hcount.
  do 4 apply at_cur_app in Hc. change (0 + len (put16 id)) with 2 in *.
  change (2 + len (put16 flags)) with 4 in *.
  change (4 + len (put16 qd) + len (put16 an) + len (put16 ns) + len (put16 ar)) with 12 in Hc.
  pose proof (at_cur_len _ _ _ Hc) as Hlen.
  rewrite len_app, len_cons, !len_app in Hlen. change (len (put16 _)) with 2 in Hlen.
  pose proof (len_nonneg (enc_labels (l :: ls))). pose proof (len_nonneg rest).
  unfold parseDNSQuery. rewrite (proj2 (Z.ltb_ge (len pl) 12)) by lia.
  rewrite (at_cur_be16 _ _ flags _ ltac:(lia) Hflags). cbn [res_bind].
  assert (Z.land flags 0x8000 = 0) as ->.
  { apply (land_shiftl_small 1 flags 15) in Hfl; [|done]. by rewrite Z.land_comm. }
  cbn [negb Z.eqb]. rewrite (at_cur_be16 _ _ qd _ ltac:(lia) Hcount). cbn [res_bind].
  rewrite (proj2 (Z.eqb_neq qd 0)) by lia.
  assert (Hn : (length (l :: ls) < length pl)%nat).
  { assert (Z.of_nat (length (l :: ls)) ≤ len (enc_labels (l :: ls))); [|unfold len in *; lia].
    clear. induction (l :: ls) as [|x xs IH]; [done|]. cbn [enc_labels flat_map]. fold (enc_labels xs).
    rewrite len_app, len_cons. pose proof (len_nonneg x). simpl length. lia. }
  rewrite (dns_labels_enc pl _ (l :: ls) (length pl) 12 [] Hok Hc Hn). cbn [res_bind].
  assert (Hl : l ≠ []).
  { intros ->. apply Forall_cons in Hok as [[Hl _] _]. change (len (@nil byte)) with 0 in Hl. lia. }
  assert (Hname : dns_name [] (l :: ls) = join_byte "."%byte (l :: ls)).
  { unfold dns_name. cbn [foldl app]. by apply dns_name_join. }
  rewrite bool_decide_false.
  2: { rewrite Hname. destruct l; [done|]. by destruct ls. }
  rewrite (proj2 (Z.ltb_ge (len pl) _)) by lia.
  rewrite dns_name_valid by done. cbn [negb]. by rewrite Hname.
Qed.

Lemma parseDNSQuery_name_witness :
  parseDNSQuery (dns_query 7 0x0100 1 0 0 0 [bytes_of "www"; bytes_of "example"; bytes_of "com"] 1 1 [])
  = Ret "www.example.com"%string.
Proof.
  apply (parseDNSQuery_name 7 0x0100 1 0 0 0 (bytes_of "www") [bytes_of "example"; bytes_of "com"]);
    [done|done|repeat constructor; vm_compute; done].
Defined.

(** ** TLS round trip *)
Definition enc_ext (e : Z * list byte) : list byte := put16 e.1 ++ put16 (len e.2) ++ e.2.
Definition sni_ext (host : list byte) : list byte :=
  enc_ext (0, put16 (3 + len host) ++ "000"%byte :: put16 (len host) ++ host).
Definition hello_exts (pre : list (Z * list byte)) (host post : list byte) : list byte :=
  flat_map enc_ext pre ++ sni_ext host ++ post.
Definition hello_body (ver rnd sid cs cm exts : list byte) : list byte :=
  (ver ++ rnd) ++ [z2b (len sid)] ++ sid ++ put16 (len cs) ++ cs ++ [z2b (len cm)] ++ cm
  ++ put16 (len exts) ++ exts.
Definition client_hello (body rest : list byte) : list byte :=
  [z2b 0x16; z2b 0x03; z2b 0x01] ++ put16 (4 + len body)
  ++ [z2b 0x01] ++ [z2b 0] ++ put16 (len body) ++ body ++ rest.

Definition ext_ok (e : Z * list byte) : Prop := 0 < e.1 < 65536 ∧ len e.2 < 65536.

Lemma sni_names_host body off host post fuel :
  host ≠ [] → validDomainChar host = true → len host < 65533 →
  at_cur body off ("000"%byte :: put16 (len host) ++ host ++ post) → (0 < fuel)%nat →
  ∃ off', sni_names fuel body off (off + (3 + len host))
          = Ret (Some (acc_proto_https, str_of host), off').
Proof.
  intros Hne Hv Hl Hc Hf. destruct fuel as [|fuel]; [lia|]. cbn [sni_names].
  pose proof (len_nonneg host).
  rewrite (proj2 (Z.ltb_lt off _)), (proj2 (Z.ltb_ge (off + (3 + len host)) (off + 3))) by lia. cbn [negb].
  rewrite (at_cur_at _ _ _ _ Hc). cbn [res_bind]. apply at_cur_cons in Hc.
  rewrite (at_cur_be16 _ _ (len host) _ ltac:(lia) Hc). cbn [res_bind].
  apply at_cur_app in Hc. change (len (put16 _)) with 2 in Hc.
  rewrite (proj2 (Z.ltb_ge (off + (3 + len host)) _)) by lia.
  change (b2z "000"%byte =? 0) with true. cbn iota.
  rewrite (at_cur_slice _ _ _ _ Hc). cbn [res_bind].
  rewrite bool_decide_false, Hv by done. cbn [negb andb]. eauto.
Qed.


(** At the server_name extension the loop reports the host name. *)
Lemma sni_exts_here body host post tail fuel off :
  host ≠ [] → validDomainChar host = true → len host < 65000 →
  at_cur body off (hello_exts [] host post ++ tail) → 0 < len body →
  sni_exts (S fuel) body off (off + len (hello_exts [] host post)) = Ret (acc_proto_https, str_of host).
Proof.
  intros Hne Hv Hh Hc Hb. cbn [sni_exts]. pose proof (len_nonneg host). pose proof (len_nonneg post).
  assert (HE : len (hello_exts [] host post) = 9 + len host + len post).
  { unfold hello_exts, sni_ext, enc_ext. cbn [flat_map app fst snd].
    rewrite !len_app, !len_put16, len_cons, !len_app, !len_put16. lia. }
  rewrite HE in *.
  rewrite (proj2 (Z.ltb_lt off _)), (proj2 (Z.ltb_ge (off + (9 + len host + len post)) (off + 4))) by lia.
  cbn [negb]. unfold hello_exts, sni_ext, enc_ext in Hc. cbn [flat_map app fst snd] in Hc.
  rewrite <- !app_assoc in Hc. set (d := put16 (3 + len host) ++ _) in Hc.
  assert (Hd : len d = 5 + len host).
  { unfold d. rewrite !len_app, len_put16, len_cons, len_app, len_put16. lia. }
  rewrite (at_cur_be16 _ _ 0 _ ltac:(lia) Hc). cbn [res_bind].
  apply at_cur_app in Hc. rewrite len_put16, Hd in Hc.
  rewrite (at_cur_be16 _ _ (5 + len host) _ ltac:(lia) Hc). cbn [res_bind].
  apply at_cur_app in Hc. rewrite len_put16 in Hc.
  rewrite (proj2 (Z.ltb_ge (off + (9 + len host + len post)) _)) by lia. cbn [Z.eqb].
  rewrite (proj2 (Z.ltb_ge (off + 2 + 2 + (5 + len host)) _)) by lia.
  unfold d in Hc. rewrite <- ?app_assoc in Hc.
  rewrite (at_cur_be16 _ _ (3 + len host) _ ltac:(lia) Hc). cbn [res_bind].
  apply at_cur_app in Hc. rewrite len_put16 in Hc.
  rewrite (proj2 (Z.ltb_ge (off + 2 + 2 + (5 + len host)) _)) by lia.
  cbn [app] in Hc. rewrite <- ?app_assoc in Hc.
  destruct (sni_names_host body _ host _ (length body) Hne Hv ltac:(lia) Hc) as [off' ->];
    [unfold len in *; lia|]. done.
Qed.

(** The extension loop steps over other extensions and stops at the name. *)
Lemma sni_exts_host body host post tail pre : ∀ fuel off,
  host ≠ [] → validDomainChar host = true → len host < 65000 → Forall ext_ok pre →
  at_cur body off (hello_exts pre host post ++ tail) → 0 < len body →
  len (hello_exts pre host post) < Z.of_nat fuel →
  sni_exts fuel body off (off + len (hello_exts pre host post)) = Ret (acc_proto_https, str_of host).
Proof.
  induction pre as [|[t d] pre IH]; intros fuel off Hne Hv Hh Hok Hc Hb Hf;
    (destruct fuel as [|fuel]; [pose proof (len_nonneg (hello_exts [] host post)); unfold len in *; lia|]).
  - by eapply sni_exts_here.
  - apply Forall_cons in Hok as [[Ht Hd] Hok]. cbn [fst snd sni_exts] in *.
    pose proof (len_nonneg d). pose proof (len_nonneg (hello_exts pre host post)).
    assert (HE : len (hello_exts ((t, d) :: pre) host post) = 4 + len d + len (hello_exts pre host post)).
    { unfold hello_exts, enc_ext. cbn [flat_map fst snd]. rewrite !len_app, !len_put16. lia. }
    rewrite HE in *.
    rewrite (proj2 (Z.ltb_lt off _)), (proj2 (Z.ltb_ge (off + (4 + _ + _)) (off + 4))) by lia. cbn [negb].
    unfold hello_exts, enc_ext in Hc. cbn [flat_map fst snd] in Hc. fold enc_ext in Hc.
    rewrite <- !app_assoc in Hc.
    rewrite (at_cur_be16 _ _ t _ ltac:(lia) Hc). cbn [res_bind].
    apply at_cur_app in Hc. rewrite len_put16 in Hc.
    rewrite (at_cur_be16 _ _ (len d) _ ltac:(lia) Hc). cbn [res_bind].
    apply at_cur_app in Hc. rewrite len_put16 in Hc. apply at_cur_app in Hc.
    rewrite (proj2 (Z.ltb_ge (off + (4 + _ + _)) _)), (proj2 (Z.eqb_neq t 0)) by lia.
    replace (off + (4 + len d + len (hello_exts pre host post)))
      with (off + 2 + 2 + len d + len (hello_exts pre host post)) by lia.
    apply IH; try done; [|lia]. unfold hello_exts. rewrite <- !app_assoc. exact Hc.
Qed.

Lemma skip1_block body off d rest : len d < 256 →
  at_cur body off ([z2b (len d)] ++ d ++ rest) → skip1 body off = Ret (Some (off + 1 + len d)).
Proof.
  intros Hd Hc. pose proof (at_cur_len _ _ _ Hc) as Hl. rewrite !len_app in Hl. change (len [_]) with 1 in Hl.
  pose proof (len_nonneg d). pose proof (len_nonneg rest). unfold skip1.
  rewrite (proj2 (Z.ltb_ge (len body) (off + 1))) by lia.
  rewrite (at_cur_at _ _ _ _ Hc). cbn [res_bind]. rewrite b2z_z2b_small by lia.
  by rewrite (proj2 (Z.ltb_ge (len body) _)) by lia.
Qed.

Lemma skip2_block body off d rest : len d < 65536 →
  at_cur body off (put16 (len d) ++ d ++ rest) → skip2 body off = Ret (Some (off + 2 + len d)).
Proof.
  intros Hd Hc. pose proof (at_cur_len _ _ _ Hc) as Hl. rewrite !len_app, len_put16 in Hl.
  pose proof (len_nonneg d). pose proof (len_nonneg rest). unfold skip2.
  rewrite (proj2 (Z.ltb_ge (len body) (off + 2))) by lia.
  rewrite (at_cur_be16 _ _ (len d) _ ltac:(lia) Hc). cbn [res_bind].
  by rewrite (proj2 (Z.ltb_ge (len body) _)) by lia.
Qed.

Lemma host_le_exts pre host post : len host ≤ len (hello_exts pre host post).
Proof.
  unfold hello_exts, sni_ext, enc_ext. cbn [fst snd]. repeat rewrite ?len_app, ?len_cons, ?len_put16.
  pose proof (len_nonneg (flat_map (λ e, put16 e.1 ++ put16 (len e.2) ++ e.2) pre)).
  pose proof (len_nonneg post). pose proof (len_nonneg host). lia.
Qed.

Lemma sni_body_host ver rnd sid cs cm pre host post :
  len ver = 2 → len rnd = 32 → len sid < 256 → len cs < 65536 → len cm < 256 →
  Forall ext_ok pre → host ≠ [] → validDomainChar host = true →
  len (hello_exts pre host post) < 65000 →
  sni_body (hello_body ver rnd sid cs cm (hello_exts pre host post)) = Ret (acc_proto_https, str_of host).
Proof.
  intros Hver Hrnd Hsid Hcs Hcm Hok Hne Hv Hx. set (exts := hello_exts pre host post) in *.
  set (body := hello_body _ _ _ _ _ _).
  pose proof (at_cur_start body) as Hc. unfold body at 2 in Hc. unfold hello_body in Hc.
  apply at_cur_app in Hc. rewrite len_app, Hver, Hrnd, Z.add_0_l in Hc. unfold sni_body.
  rewrite (skip1_block _ _ _ _ Hsid Hc). cbn [res_bind]. do 2 apply at_cur_app in Hc.
  change (len [_]) with 1 in Hc.
  rewrite (skip2_block _ _ _ _ Hcs Hc). cbn [res_bind]. do 2 apply at_cur_app in Hc.
  rewrite len_put16 in Hc.
  rewrite (skip1_block _ _ _ _ Hcm Hc). cbn [res_bind]. do 2 apply at_cur_app in Hc.
  change (len [_]) with 1 in Hc. set (off := 2 + 32 + 1 + len sid + 2 + len cs + 1 + len cm) in *.
  pose proof (at_cur_len _ _ _ Hc) as Hlen. rewrite len_app, len_put16 in Hlen.
  pose proof (len_nonneg exts). pose proof (at_cur_nonneg _ _ _ Hc).
  rewrite (proj2 (Z.ltb_ge (len body) (off + 2))) by lia.
  rewrite (at_cur_be16 _ _ (len exts) _ ltac:(lia) Hc). cbn [res_bind].
  rewrite (proj2 (Z.ltb_ge (len body) _)) by lia.
  apply at_cur_app in Hc. rewrite len_put16 in Hc. rewrite <- (app_nil_r exts) in Hc.
  apply (sni_exts_host body host post []); try done; [|lia|].
  - pose proof (host_le_exts pre host post) as Hle. fold exts in Hle. lia.
  - fold exts. unfold len in *. lia.
Qed.

(** C29.  TLS round trip: the host name of a ClientHello, wherever its
    server_name extension stands, is the name the parser reports. *)
Theorem sniNewParser_host ver rnd sid cs cm pre host post rest :
  len ver = 2 → len rnd = 32 → len sid < 256 → len cs < 65536 → len cm < 256 →
  Forall ext_ok pre → host ≠ [] → validDomainChar host = true →
  let body := hello_body ver rnd sid cs cm (hello_exts pre host post) in
  len (hello_exts pre host post) < 65000 → len body < 65532 →
  sniNewParser (client_hello body rest) = Ret (acc_proto_https, str_of host).
Proof.
  intros Hver Hrnd Hsid Hcs Hcm Hok Hne Hv body Hx Hb.
  pose proof (sni_body_host ver rnd sid cs cm pre host post Hver Hrnd Hsid Hcs Hcm Hok Hne Hv Hx) as Hbody.
  fold body in Hbody. clearbody body. set (b := client_hello body rest).
  pose proof (at_cur_start b) as Hc. unfold b at 2 in Hc. unfold client_hello in Hc.
  pose proof (at_cur_len _ _ _ Hc) as Hlen. rewrite !len_app, !len_put16 in Hlen.
  change (len [_]) with 1 in Hlen. change (len [_; _; _]) with 3 in Hlen.
  pose proof (len_nonneg body). pose proof (len_nonneg rest).
  unfold sniNewParser. rewrite (proj2 (Z.ltb_ge (len b) 5)) by lia.
  cbn [app] in Hc. rewrite (at_cur_at _ _ _ _ Hc). cbn [res_bind].
  change (negb (b2z (z2b 0x16) =? 0x16)) with false. cbn iota.
  apply at_cur_cons in Hc. change (0 + 1) with 1 in Hc. rewrite (at_cur_at _ _ _ _ Hc). cbn [res_bind].
  change (negb (b2z (z2b 0x03) =? 0x03)) with false. cbn iota.
  do 2 apply at_cur_cons in Hc. change (1 + 1 + 1) with 3 in Hc.
  rewrite (at_cur_be16 _ _ (4 + len body) _ ltac:(lia) Hc). cbn [res_bind].
  rewrite (proj2 (Z.ltb_ge (4 + len body) 4)), (proj2 (Z.ltb_ge (len b) (5 + _))),
    (proj2 (Z.ltb_ge (len b) 9)) by lia. cbn [orb].
  apply at_cur_app in Hc. rewrite len_put16 in Hc. change (3 + 2) with 5 in Hc.
  rewrite (at_cur_at _ _ _ _ Hc). cbn [res_bind].
  change (negb (b2z (z2b 0x01) =? 0x01)) with false. cbn iota.
  apply at_cur_cons in Hc. change (5 + 1) with 6 in Hc.
  rewrite (at_cur_at _ _ _ _ Hc). cbn [res_bind]. change (b2z (z2b 0)) with 0.
  apply at_cur_cons in Hc. change (6 + 1) with 7 in Hc.
  rewrite (at_cur_be16 _ _ (len body) _ ltac:(lia) Hc). cbn [res_bind].
  change (Z.shiftl 0 16) with 0. rewrite Z.lor_0_l.
  rewrite (proj2 (Z.ltb_ge (4 + len body - 4) _)), (proj2 (Z.ltb_ge (len b - 9) _)) by lia. cbn [orb].
  apply at_cur_app in Hc. rewrite len_put16 in Hc. change (7 + 2) with 9 in Hc.
  rewrite (at_cur_slice _ _ _ _ Hc). exact Hbody.
Qed.

Lemma sniNewParser_host_witness :
  sniNewParser (client_hello (hello_body (put16 0x0303) (replicate 32 "007"%byte) [] (put16 0x1301) [z2b 0]
    (hello_exts [(43, put16 0x0304)] (bytes_of "vpn.example.com") [])) [])
  = Ret (acc_proto_https, "vpn.example.com"%string).
Proof.
  apply (sniNewParser_host (put16 0x0303) (replicate 32 "007"%byte) [] (put16 0x1301) [z2b 0]
    [(43, put16 0x0304)] (bytes_of "vpn.example.com") []).
  all: try (vm_compute; done).
  repeat constructor; vm_compute; done.
Defined.

(** ** The unused HTTP parser *)

(**  [httpNewParser] (kept beside the parser in use) panics on a request
    whose [Host] line is empty: it slices from behind the end of the line. *)
Theorem httpNewParser_empty_host_panics :
  httpNewParser (bytes_of "GET / HTTP/1.1" ++ ["013"; "010"]%byte ++ bytes_of "Host: " ++ ["010"%byte]) = Panic.
Proof. vm_compute. reflexivity. Qed.
