(* ===== verification/TcpStream.v ===== *)
(** * Reassembly of audited TCP streams (server/handler/payload_tcp_stream.go)

    A [*tcpStream] is reached only through the cache's map, so the model keeps
    the stream in the map and writes it back.  A Go map's iteration order is
    unspecified; the model visits [map_to_list]. *)
From S2P Require Export TcpParser.
Local Open Scope Z_scope.

Definition tcpStreamMaxBytes : Z := 4 * 1024.
Definition tcpStreamMaxTotal : Z := 1 * 1024 * 1024.
Definition tcpStreamMaxCount : Z := 4096.
Definition tcpStreamIdleExpiry : Duration := 10 * Second.

Record tcpStreamKey := {
  k_Username : string; k_GroupName : string; k_Protocol : Z;
  k_Src : string; k_Dst : string; k_SrcPort : Z; k_DstPort : Z
}.
#[export] Instance tcpStreamKey_eq_dec : EqDecision tcpStreamKey.
Proof. solve_decision. Defined.
#[export] Instance tcpStreamKey_countable : Countable tcpStreamKey.
Proof.
  apply (inj_countable'
    (λ k, (k_Username k, k_GroupName k, k_Protocol k, k_Src k, k_Dst k, k_SrcPort k, k_DstPort k))
    (λ '(u, g, p, s, d, sp, dp), Build_tcpStreamKey u g p s d sp dp)).
  by intros [].
Defined.

Record tcpStream := {
  segments : gmap Z (list byte); baseSeq : Z; st_bytes : Z; lastSeen : Time
}.
Record tcpStreamCache := { streams : gmap tcpStreamKey tcpStream; cache_total : Z }.

Definition newTCPStreamCache : tcpStreamCache := {| streams := ∅; cache_total := 0 |}.

(** [uint32] difference *)
Definition relativeSeq (seq base : Z) : Z := u32 (seq - base).

(** ** Assembly *)

(** [sort.Slice] by relative sequence number; the keys of a map are distinct,
    so the sorted order is unique. *)
Fixpoint insert_seg (base : Z) (x : Z * list byte) (l : list (Z * list byte)) : list (Z * list byte) :=
  match l with
  | [] => [x]
  | y :: r => if relativeSeq x.1 base <=? relativeSeq y.1 base then x :: l else y :: insert_seg base x r
  end.
Definition sort_segs (base : Z) (l : list (Z * list byte)) : list (Z * list byte) :=
  foldr (insert_seg base) [] l.

(** The loop over [ordered[1:]]; [overlap] is [int(end - segmentSeq)]. *)
Fixpoint join_segs (base : Z) (result : list byte) (end_ : Z) (rest : list (Z * list byte)) : res (list byte) :=
  match rest with
  | [] => Ret result
  | (seq, data) :: rest =>
      let segmentSeq := relativeSeq seq base in
      if end_ <? segmentSeq then Ret result
      else
        let overlap := u32 (end_ - segmentSeq) in
        if overlap <? len data then
          let! tail := slice data overlap (len data) in
          join_segs base (result ++ tail) (u32 (end_ + u32 (len data - overlap))) rest
        else join_segs base result end_ rest
  end.

Definition assembleTCPStream (segs : gmap Z (list byte)) (base : Z) : res (list byte) :=
  match sort_segs base (map_to_list segs) with
  | [] => Ret []
  | (seq, data) :: rest =>
      join_segs base data (u32 (relativeSeq seq base + u32 (len data))) rest
  end.

(** ** The cache *)
Definition removeLocked (c : tcpStreamCache) (key : tcpStreamKey) : tcpStreamCache :=
  match streams c !! key with
  | Some s => {| streams := delete key (streams c); cache_total := cache_total c - st_bytes s |}
  | None => c
  end.

Definition expireLocked (c : tcpStreamCache) (now : Time) : tcpStreamCache :=
  fold_left (λ c '(key, s), if tcpStreamIdleExpiry <=? time_Sub now (lastSeen s)
                            then removeLocked c key else c)
    (map_to_list (streams c)) c.

Definition cleanup (c : tcpStreamCache) (now : Time) : tcpStreamCache := expireLocked c now.

(** The search for the oldest candidate: the first one whose time is earliest. *)
Definition oldest_stream (l : list (tcpStreamKey * tcpStream)) : option tcpStreamKey :=
  match fold_left (λ acc '(k, s), match acc with
                                  | Some (_, t) => if time_Before (lastSeen s) t then Some (k, lastSeen s) else acc
                                  | None => Some (k, lastSeen s)
                                  end) l None with
  | Some (k, _) => Some k
  | None => None
  end.

Definition evictOldestLocked (c : tcpStreamCache) : tcpStreamCache :=
  match oldest_stream (map_to_list (streams c)) with
  | Some k => removeLocked c k
  | None => c
  end.

Definition oldest_seg (base : Z) (segs : gmap Z (list byte)) : option Z :=
  fold_left (λ acc '(seq, _), match acc with
                              | Some o => if relativeSeq seq base <? relativeSeq o base then Some seq else acc
                              | None => Some seq
                              end) (map_to_list segs) None.

(** First loop of [trimLocked]; the stream and the bytes taken off the total. *)
Fixpoint trim_stream (fuel : nat) (s : tcpStream) : tcpStream :=
  match fuel with
  | O => s
  | S fuel =>
      if st_bytes s <=? tcpStreamMaxBytes then s
      else
        match oldest_seg (baseSeq s) (segments s) with
        | None => s
        | Some o =>
            let n := len (default [] (segments s !! o)) in
            trim_stream fuel {| segments := delete o (segments s); baseSeq := baseSeq s;
                                st_bytes := st_bytes s - n; lastSeen := lastSeen s |}
        end
  end.

(** Second loop of [trimLocked]. *)
Fixpoint trim_total (fuel : nat) (c : tcpStreamCache) (key : tcpStreamKey) : tcpStreamCache :=
  match fuel with
  | O => c
  | S fuel =>
      if cache_total c <=? tcpStreamMaxTotal then c
      else
        let skip k := bool_decide (k = key) && (1 <? Z.of_nat (size (streams c))) in
        match oldest_stream (List.filter (λ kv, negb (skip kv.1)) (map_to_list (streams c))) with
        | None => c
        | Some k => trim_total fuel (removeLocked c k) key
        end
  end.

Definition trimLocked (c : tcpStreamCache) (key : tcpStreamKey) (s : tcpStream) : tcpStreamCache * tcpStream :=
  let s' := trim_stream (S (size (segments s))) s in
  let c := {| streams := <[key := s']> (streams c); cache_total := cache_total c - (st_bytes s - st_bytes s') |} in
  (trim_total (S (size (streams c))) c key, s').

Definition reverseTCPStreamKey (k : tcpStreamKey) : tcpStreamKey :=
  {| k_Username := k_Username k; k_GroupName := k_GroupName k; k_Protocol := k_Protocol k;
     k_Src := k_Dst k; k_Dst := k_Src k; k_SrcPort := k_DstPort k; k_DstPort := k_SrcPort k |}.

Definition cache_close (c : tcpStreamCache) (key : tcpStreamKey) : tcpStreamCache :=
  removeLocked (removeLocked c key) (reverseTCPStreamKey key).

(** Storing a segment: a retransmission replaces a shorter copy only. *)
Definition store_segment (s : tcpStream) (seq : Z) (data : list byte) : tcpStream * Z :=
  match segments s !! seq with
  | Some old =>
      if len data <=? len old then (s, 0)
      else ({| segments := <[seq := data]> (segments s); baseSeq := baseSeq s;
               st_bytes := st_bytes s + (len data - len old); lastSeen := lastSeen s |},
            len data - len old)
  | None => ({| segments := <[seq := data]> (segments s); baseSeq := baseSeq s;
                st_bytes := st_bytes s + len data; lastSeen := lastSeen s |}, len data)
  end.

(** The stream of a segment: the one in the map, or a new one, for which the
    oldest is evicted when the map is full. *)
Definition find_stream (c : tcpStreamCache) (key : tcpStreamKey) (seq : Z) (now : Time)
    : tcpStreamCache * tcpStream :=
  match streams c !! key with
  | Some s => (c, s)
  | None =>
      let c := if tcpStreamMaxCount <=? Z.of_nat (size (streams c)) then evictOldestLocked c else c in
      let s := {| segments := ∅; baseSeq := seq; st_bytes := 0; lastSeen := now |} in
      ({| streams := <[key := s]> (streams c); cache_total := cache_total c |}, s)
  end.

Section add.
Context (ReadRequest : list byte → option string).

Definition add_payload (c : tcpStreamCache) (key : tcpStreamKey) (payload : list byte) (seq : Z)
    (now : Time) : res (tcpStreamCache * (answer * bool)) :=
  let c := expireLocked c now in
  let '(c, s) := find_stream c key seq now in
  let base := if 2 ^ 31 <? relativeSeq seq (baseSeq s) then seq else baseSeq s in
  let s := {| segments := segments s; baseSeq := base; st_bytes := st_bytes s; lastSeen := now |} in
  let '(s, added) := store_segment s seq payload in
  let c := {| streams := <[key := s]> (streams c); cache_total := cache_total c + added |} in
  let '(c, s) := trimLocked c key s in
  let! assembled := assembleTCPStream (segments s) (baseSeq s) in
  if len assembled =? 0 then Ret (c, (raw_tcp, false))
  else
    let! a := onTCPPayload ReadRequest assembled in
    if negb (a.1 =? acc_proto_tcp) then Ret (removeLocked c key, (a, true))
    else Ret (c, (raw_tcp, false)).

Definition cache_add (c : tcpStreamCache) (key : tcpStreamKey) (tcpSeg : list byte) (now : Time)
    : res (tcpStreamCache * (answer * bool)) :=
  if len tcpSeg <? 20 then Ret (c, (raw_tcp, false))
  else
    let! b12 := at_z tcpSeg 12 in
    let headerLen := Z.shiftl (Z.shiftr b12 4) 2 in
    if (headerLen <? 20) || (len tcpSeg <? headerLen) then Ret (c, (raw_tcp, false))
    else
      let! payload := slice tcpSeg headerLen (len tcpSeg) in
      if len payload =? 0 then Ret (c, (raw_tcp, false))
      else
        let! payload := if tcpStreamMaxBytes <? len payload then slice payload 0 tcpStreamMaxBytes
                        else Ret payload in
        let! seq := be32 tcpSeg 4 in
        add_payload c key payload seq now.
End add.
