(* ===== verification/TcpStreamSpec.v ===== *)
(** * Correctness of TCP reassembly

    The cache's byte accounting is exact and its three bounds hold after every
    operation; assembling consistent segments yields the stream's own bytes. *)
From Stdlib Require Import Sorting.Sorted.
From S2P Require Export TcpStream TcpParserSpec.
Local Open Scope Z_scope.

(** ** Accounting invariant *)
Definition stream_wf (s : tcpStream) : Prop := st_bytes s = map_sumZ len (segments s).

Definition acct (c : tcpStreamCache) : Prop :=
  (∀ k s, streams c !! k = Some s → stream_wf s ∧ st_bytes s ≤ tcpStreamMaxBytes)
  ∧ cache_total c = map_sumZ st_bytes (streams c).

(** The bounds of [payload_tcp_stream.go]'s constants. *)
Definition cache_wf (c : tcpStreamCache) : Prop :=
  acct c ∧ cache_total c ≤ tcpStreamMaxTotal ∧ Z.of_nat (size (streams c)) ≤ tcpStreamMaxCount.

Lemma map_len_nonneg (m : gmap Z (list byte)) : 0 ≤ map_sumZ len m.
Proof. apply map_sumZ_nonneg. intros. apply len_nonneg. Qed.

Lemma remove_acct c k : acct c → acct (removeLocked c k).
Proof.
  intros [Hs Ht]. unfold removeLocked. destruct (streams c !! k) as [s|] eqn:E; [|done].
  split; simpl.
  - intros k' s' [_ ?]%lookup_delete_Some. eauto.
  - rewrite (map_sumZ_delete _ _ _ _ E). lia.
Qed.

Lemma remove_size c k : (size (streams (removeLocked c k)) ≤ size (streams c))%nat.
Proof.
  unfold removeLocked. destruct (streams c !! k) eqn:E; [|done]. simpl.
  rewrite map_size_delete, E. simpl. lia.
Qed.

Lemma remove_size_lt c k : is_Some (streams c !! k) →
  (size (streams (removeLocked c k)) < size (streams c))%nat.
Proof.
  intros [s E]. unfold removeLocked. rewrite E. simpl. rewrite map_size_delete, E. simpl.
  assert (size (streams c) ≠ 0)%nat; [|lia]. intros H0. apply map_size_empty_inv in H0.
  by rewrite H0, lookup_empty in E.
Qed.

Lemma expire_spec c now : acct c →
  acct (expireLocked c now) ∧ (size (streams (expireLocked c now)) ≤ size (streams c))%nat.
Proof.
  unfold expireLocked. generalize (map_to_list (streams c)). intros l. revert c.
  induction l as [|[k s] l IH]; intros c Hc; [done|]. cbn [fold_left].
  case_match; [|by apply IH].
  destruct (IH (removeLocked c k) (remove_acct _ _ Hc)) as [? ?]. split; [done|].
  pose proof (remove_size c k). lia.
Qed.

(** The two searches return a member of the list they search. *)
Lemma oldest_stream_Some l : l ≠ [] → ∃ k s, oldest_stream l = Some k ∧ (k, s) ∈ l.
Proof.
  unfold oldest_stream. set (f := λ (acc : option (tcpStreamKey * Time)) '(k, s), _).
  assert (Hgen : ∀ l acc, (fold_left f l acc = acc ∧ (acc = None → l = []))
                          ∨ ∃ k s t, fold_left f l acc = Some (k, t) ∧ (k, s) ∈ l).
  { clear l. induction l as [|[k s] l IH]; intros acc; [by left|]. cbn [fold_left].
    assert (Hf : f acc (k, s) = Some (k, lastSeen s) ∨ (f acc (k, s) = acc ∧ acc ≠ None)).
    { unfold f. destruct acc as [[k0 t0]|]; [|by left]. case_match; auto. }
    destruct (IH (f acc (k, s))) as [[-> Hn]|(k' & s' & t' & -> & Hin)].
    - destruct Hf as [->|[-> ?]]; [right|by left].
      exists k, s, (lastSeen s). split; [done|left].
    - right. exists k', s', t'. split; [done|by right]. }
  intros Hne. destruct (Hgen l None) as [[_ Hn]|(k & s & t & -> & Hin)]; [|eauto].
  by specialize (Hn eq_refl).
Qed.

Lemma oldest_seg_Some base segs : segs ≠ ∅ → ∃ o, oldest_seg base segs = Some o ∧ is_Some (segs !! o).
Proof.
  intros Hne. unfold oldest_seg. set (f := λ (acc : option Z) '(seq, _), _).
  assert (Hgen : ∀ l acc, (fold_left f l acc = acc ∧ (acc = None → l = []))
                          ∨ ∃ o d, fold_left f l acc = Some o ∧ (o, d) ∈ l).
  { induction l as [|[q d] l IH]; intros acc; [by left|]. cbn [fold_left].
    assert (Hf : f acc (q, d) = Some q ∨ (f acc (q, d) = acc ∧ acc ≠ None)).
    { unfold f. destruct acc as [o|]; [|by left]. case_match; auto. }
    destruct (IH (f acc (q, d))) as [[-> Hn]|(o & d' & -> & Hin)].
    - destruct Hf as [->|[-> ?]]; [right|by left]. exists q, d. split; [done|left].
    - right. exists o, d'. split; [done|by right]. }
  destruct (Hgen (map_to_list segs) None) as [[_ Hn]|(o & d & -> & Hin)].
  - specialize (Hn eq_refl). by apply map_to_list_empty_iff in Hn.
  - exists o. split; [done|]. apply elem_of_map_to_list in Hin. eauto.
Qed.

Lemma evict_spec c : acct c →
  acct (evictOldestLocked c)
  ∧ (size (streams c) ≠ 0 → size (streams (evictOldestLocked c)) < size (streams c))%nat.
Proof.
  intros Hc. unfold evictOldestLocked.
  destruct (decide (map_to_list (streams c) = [])) as [E|E].
  - rewrite E. simpl. split; [done|]. apply map_to_list_empty_iff in E. rewrite E.
    by rewrite map_size_empty.
  - destruct (oldest_stream_Some _ E) as (k & s & -> & Hin). split; [by apply remove_acct|].
    intros _. apply remove_size_lt. apply elem_of_map_to_list in Hin. eauto.
Qed.

Lemma store_segment_spec s seq data : stream_wf s →
  stream_wf (store_segment s seq data).1
  ∧ st_bytes (store_segment s seq data).1 = st_bytes s + (store_segment s seq data).2.
Proof.
  unfold stream_wf. intros Hs. unfold store_segment.
  destruct (segments s !! seq) as [old|] eqn:E.
  - case_match; simpl; [lia|]. rewrite (map_sumZ_insert_Some _ _ _ _ _ E). lia.
  - simpl. rewrite (map_sumZ_insert_None _ _ _ _ E). lia.
Qed.

Lemma trim_stream_spec fuel : ∀ s, stream_wf s → (size (segments s) < fuel)%nat →
  stream_wf (trim_stream fuel s) ∧ st_bytes (trim_stream fuel s) ≤ tcpStreamMaxBytes.
Proof.
  induction fuel as [|fuel IH]; intros s Hs Hf; [lia|]. cbn [trim_stream].
  destruct (Z.leb_spec (st_bytes s) tcpStreamMaxBytes); [done|].
  assert (Hne : segments s ≠ ∅).
  { intros E. unfold stream_wf in Hs. rewrite E, map_sumZ_empty in Hs. unfold tcpStreamMaxBytes in *. lia. }
  destruct (oldest_seg_Some (baseSeq s) _ Hne) as (o & -> & [d Hd]). rewrite Hd. simpl.
  apply IH; simpl.
  - unfold stream_wf in *. simpl. rewrite (map_sumZ_delete _ _ _ _ Hd). lia.
  - rewrite map_size_delete, Hd. simpl.
    assert (size (segments s) ≠ 0)%nat by (intros H0; by apply map_size_empty_inv in H0). lia.
Qed.

Lemma trim_total_spec fuel key : ∀ c, acct c → (size (streams c) < fuel)%nat →
  acct (trim_total fuel c key) ∧ cache_total (trim_total fuel c key) ≤ tcpStreamMaxTotal
  ∧ (size (streams (trim_total fuel c key)) ≤ size (streams c))%nat.
Proof.
  induction fuel as [|fuel IH]; intros c Hc Hf; [lia|]. cbn [trim_total].
  destruct (Z.leb_spec (cache_total c) tcpStreamMaxTotal); [done|].
  set (cand := List.filter _ _).
  assert (Hne : cand ≠ []).
  { (* some stream other than [key], or [key] when it is the only one *)
    destruct (map_to_list (streams c)) as [|[k1 s1] l] eqn:El.
    { apply map_to_list_empty_iff in El. destruct Hc as [_ Ht]. rewrite El, map_sumZ_empty in Ht.
      unfold tcpStreamMaxTotal in *. lia. }
    assert (Hlen : size (streams c) = S (length l)).
    { rewrite <- length_map_to_list, El. done. }
    unfold cand. rewrite Hlen. intros E.
    assert (Hall : ∀ kv, kv ∈ (k1, s1) :: l →
              bool_decide (kv.1 = key) && (1 <? Z.of_nat (S (length l))) = true).
    { intros kv Hin. apply not_false_iff_true. intros Hf'.
      assert (kv ∈ @nil (tcpStreamKey * tcpStream)) as Hn; [|by apply not_elem_of_nil in Hn].
      rewrite <- E. apply list_elem_of_In, filter_In. split; [by apply list_elem_of_In|by rewrite Hf']. }
    destruct l as [|[k2 s2] l].
    { specialize (Hall (k1, s1) ltac:(left)). rewrite andb_false_r in Hall. done. }
    pose proof (Hall (k1, s1) ltac:(left)) as H1. pose proof (Hall (k2, s2) ltac:(right; left)) as H2.
    bool_to_prop. simpl in *. pose proof (NoDup_fst_map_to_list (streams c)) as Hnd. rewrite El in Hnd.
    simpl in Hnd. apply NoDup_cons in Hnd as [Hni _]. apply Hni. subst. left. }
  destruct (oldest_stream_Some _ Hne) as (k & s & -> & Hin).
  apply list_elem_of_In, filter_In in Hin as [Hin _].
  apply list_elem_of_In, elem_of_map_to_list in Hin.
  pose proof (remove_size_lt c k ltac:(eauto)).
  destruct (IH (removeLocked c k) (remove_acct _ _ Hc)) as (? & ? & ?); [lia|]. split_and!; [done..|lia].
Qed.

(** ** Assembly *)
Section assembly.
Context (base : Z).
Implicit Types (l : list (Z * list byte)).

Definition rel (x : Z * list byte) : Z := relativeSeq x.1 base.

Lemma rel_range x : 0 ≤ rel x < 2 ^ 32.
Proof. apply wrap_range. lia. Qed.

Lemma insert_seg_perm x l : insert_seg base x l ≡ₚ x :: l.
Proof.
  induction l as [|y l IH]; [done|]. cbn [insert_seg]. case_match; [done|].
  rewrite IH. apply Permutation_swap.
Qed.

Lemma sort_segs_perm l : sort_segs base l ≡ₚ l.
Proof. induction l as [|x l IH]; [done|]. simpl. by rewrite insert_seg_perm, IH. Qed.

Definition sorted_rel := StronglySorted (λ x y, rel x ≤ rel y).

Lemma insert_seg_sorted x l : sorted_rel l → sorted_rel (insert_seg base x l).
Proof.
  unfold sorted_rel. induction 1 as [|y l Hs IH Hy]; cbn [insert_seg].
  { repeat constructor. }
  destruct (Z.leb_spec (relativeSeq x.1 base) (relativeSeq y.1 base)) as [Hle|Hlt].
  - constructor; [by constructor|]. constructor; [done|].
    eapply Forall_impl; [exact Hy|]. intros z Hz. simpl in Hz. unfold rel in *. lia.
  - constructor; [done|]. rewrite insert_seg_perm. constructor; [unfold rel; lia|done].
Qed.

Lemma sort_segs_sorted l : sorted_rel (sort_segs base l).
Proof. induction l as [|x l IH]; simpl; [constructor|by apply insert_seg_sorted]. Qed.

Lemma join_segs_ret rest : ∀ result e, is_ret (join_segs base result e rest).
Proof.
  induction rest as [|[seq data] rest IH]; intros result e; cbn [join_segs]; [eauto with remlink|].
  case_match; [eauto with remlink|]. destruct (Z.ltb_spec (u32 (e - relativeSeq seq base)) (len data)); [|apply IH].
  destruct (slice_is_ret data (u32 (e - relativeSeq seq base)) (len data)) as [t ->]; [|lia|apply IH].
  split; [|lia]. apply wrap_range. lia.
Qed.

Lemma assemble_ret segs : is_ret (assembleTCPStream segs base).
Proof. unfold assembleTCPStream. case_match; [eauto with remlink|]. case_match. apply join_segs_ret. Qed.

(** [x] is a piece of the text [T]. *)
Definition piece (T : list byte) (x : Z * list byte) : Prop :=
  rel x + len x.2 ≤ len T ∧ x.2 = firstn (length x.2) (skipn (Z.to_nat (rel x)) T).

(** The bytes [o..e) of [T]. *)
Definition part (T : list byte) (o e : Z) : list byte :=
  firstn (Z.to_nat (e - o)) (skipn (Z.to_nat o) T).

Lemma part_app T o e f : 0 ≤ o ≤ e → e ≤ f → part T o e ++ part T e f = part T o f.
Proof.
  intros Ho He. unfold part. replace (skipn (Z.to_nat e) T)
    with (skipn (Z.to_nat (e - o)) (skipn (Z.to_nat o) T)).
  - replace (Z.to_nat (f - o)) with (Z.to_nat (e - o) + Z.to_nat (f - e))%nat by lia.
    apply take_take_drop.
  - rewrite drop_drop. f_equal. lia.
Qed.


(** What is left of a piece behind [e]. *)
Lemma piece_tail T x e : piece T x → rel x ≤ e ≤ rel x + len x.2 →
  skipn (Z.to_nat (e - rel x)) x.2 = part T e (rel x + len x.2).
Proof.
  intros [Hb Hx] He. rewrite Hx at 1. unfold part, len in *.
  rewrite skipn_firstn_comm, drop_drop. pose proof (rel_range x). f_equal; [lia|]. f_equal. lia.
Qed.

(** The loop collects everything up to the first gap. *)
Lemma join_segs_spec T o rest : ∀ e,
  len T < 2 ^ 31 → 0 ≤ o ≤ e → e ≤ len T → sorted_rel rest → Forall (piece T) rest →
  ∃ e', join_segs base (part T o e) e rest = Ret (part T o e') ∧ e ≤ e' ≤ len T
        ∧ Forall (λ x, rel x ≤ e' → rel x + len x.2 ≤ e') rest.
Proof.
  induction rest as [|[seq data] rest IH]; intros e HT Ho He Hs Hp; cbn [join_segs].
  { exists e. split_and!; [done..|constructor]. }
  apply StronglySorted_inv in Hs as [Hs Hle]. apply Forall_cons in Hp as [Hx Hp].
  change (relativeSeq seq base) with (rel (seq, data)). set (x := (seq, data)) in *.
  pose proof (rel_range x) as Hr. pose proof Hx as [Hb _]. change (x.2) with data in Hb.
  destruct (Z.ltb_spec e (rel x)) as [Hgap|Hcon].
  { exists e. split; [done|]. split; [lia|]. constructor; [change (x.2) with data; lia|].
    eapply Forall_impl; [exact Hle|]. intros y Hy ?. simpl in Hy. lia. }
  rewrite (wrap_small 32 (e - rel x)) by lia.
  destruct (Z.ltb_spec (e - rel x) (len data)) as [Hext|Hcov].
  - rewrite (wrap_small 32 (len data - (e - rel x))) by lia.
    rewrite (wrap_small 32 (e + (len data - (e - rel x)))) by lia.
    unfold slice. rewrite (proj2 (Z.leb_le 0 _)), (proj2 (Z.leb_le (e - rel x) _)), Z.leb_refl by lia.
    cbn [andb res_bind]. rewrite firstn_all2 by (rewrite length_skipn; unfold len in *; lia).
    change data with (x.2) at 1. rewrite (piece_tail T x e) by (done || (change (x.2) with data; lia)).
    change (x.2) with data. rewrite part_app by lia.
    replace (e + (len data - (e - rel x))) with (rel x + len data) by lia.
    destruct (IH (rel x + len data)) as (e' & -> & Hr' & Hall); try done; try lia.
    exists e'. split; [done|]. split; [lia|]. constructor; [change (x.2) with data; lia|done].
  - destruct (IH e) as (e' & -> & Hr' & Hall); try done.
    exists e'. split; [done|]. split; [lia|]. constructor; [change (x.2) with data; lia|done].
Qed.
End assembly.



(** ** The cache operations *)
Lemma acct_replace c key s0 s' :
  acct c → streams c !! key = Some s0 → stream_wf s' → st_bytes s' ≤ tcpStreamMaxBytes →
  acct {| streams := <[key := s']> (streams c); cache_total := cache_total c - st_bytes s0 + st_bytes s' |}.
Proof.
  intros [Hs Ht] H0 Hwf Hb. split; simpl.
  - intros k s. rewrite lookup_insert_Some. intros [[_ <-]|[_ ?]]; eauto.
  - rewrite (map_sumZ_insert_Some _ _ _ _ _ H0). lia.
Qed.

(** The stream of a segment: an existing one, or a new one within the bound on
    their number. *)
Lemma find_stream_spec c key seq now :
  acct c → Z.of_nat (size (streams c)) ≤ tcpStreamMaxCount →
  ∃ c' s, find_stream c key seq now = (c', s) ∧ acct c' ∧ streams c' !! key = Some s
    ∧ Z.of_nat (size (streams c')) ≤ tcpStreamMaxCount.
Proof.
  intros Hc Hsz. unfold find_stream. destruct (streams c !! key) as [s|] eqn:E; [by eauto 10|].
  eexists _, _. split; [done|]. cbn [streams].
  set (c1 := if _ <=? _ then _ else _).
  assert (H1 : acct c1 ∧ streams c1 !! key = None ∧ Z.of_nat (size (streams c1)) < tcpStreamMaxCount).
  { unfold c1. destruct (Z.leb_spec tcpStreamMaxCount (Z.of_nat (size (streams c)))); [|done].
    destruct (evict_spec c Hc) as [Ha Hlt]. unfold tcpStreamMaxCount in *. split_and!; [done| |lia].
    unfold evictOldestLocked, removeLocked. repeat case_match; try done. simpl.
    rewrite lookup_delete_None. by right. }
  destruct H1 as ([Hs Ht] & Hn & Hlt). split_and!.
  - split; cbn [streams cache_total].
    + intros k s. rewrite lookup_insert_Some. intros [[_ <-]|[_ ?]]; [|eauto].
      unfold stream_wf. cbn [st_bytes segments]. rewrite map_sumZ_empty. done.
    + rewrite (map_sumZ_insert_None _ _ _ _ Hn). cbn [st_bytes]. lia.
  - apply lookup_insert_eq.
  - rewrite map_size_insert_None by done. lia.
Qed.

Lemma wf_remove c k : cache_wf c → cache_wf (removeLocked c k).
Proof.
  intros (Ha & Ht & Hn). split_and!; [by apply remove_acct| |pose proof (remove_size c k); lia].
  unfold removeLocked. destruct (streams c !! k) as [s|] eqn:E; [|done]. simpl.
  destruct (proj1 Ha _ _ E) as [Hw _]. unfold stream_wf in Hw. pose proof (map_len_nonneg (segments s)). lia.
Qed.

Lemma cleanup_wf c now : cache_wf c → cache_wf (cleanup c now).
Proof.
  unfold cleanup, expireLocked. generalize (map_to_list (streams c)). intros l. revert c.
  induction l as [|[k s] l IH]; intros c Hc; [done|]. cbn [fold_left].
  case_match; [|by apply IH]. apply IH. by apply wf_remove.
Qed.

Lemma add_payload_spec rr c key payload seq now :
  cache_wf c → ∃ c' a, add_payload rr c key payload seq now = Ret (c', a) ∧ cache_wf c'.
Proof.
  intros (Hc & Ht & Hn). unfold add_payload.
  destruct (expire_spec c now Hc) as [He Hes].
  destruct (find_stream_spec (expireLocked c now) key seq now He ltac:(lia)) as (c1 & s & -> & Hc1 & Hk & Hn1).
  set (s1 := {| segments := segments s; baseSeq := _; st_bytes := st_bytes s; lastSeen := now |}).
  assert (Hs1 : stream_wf s1) by (by apply (proj1 Hc1 key s Hk)).
  destruct (store_segment s1 seq payload) as [s2 added] eqn:E2.
  pose proof (store_segment_spec s1 seq payload Hs1) as [Hs2 Hb2]. rewrite E2 in Hs2, Hb2.
  cbn [fst snd] in *. change (st_bytes s1) with (st_bytes s) in Hb2.
  unfold trimLocked. cbn [streams cache_total].
  destruct (trim_stream_spec (S (size (segments s2))) s2 Hs2) as [Hs3 Hb3]; [lia|].
  set (s3 := trim_stream _ s2) in *. rewrite insert_insert_eq.
  pose proof (acct_replace c1 key s s3 Hc1 Hk Hs3 Hb3) as Ha.
  replace (cache_total c1 + added - (st_bytes s2 - st_bytes s3))
    with (cache_total c1 - st_bytes s + st_bytes s3) by lia.
  set (c3 := {| streams := <[key := s3]> (streams c1); cache_total := _ |}) in *.
  assert (Hsz3 : size (streams c3) = size (streams c1)).
  { unfold c3. cbn [streams]. apply map_size_insert_Some. eauto. }
  change (<[key := s3]> (streams c1)) with (streams c3).
  destruct (trim_total_spec (S (size (streams c3))) key c3 Ha) as (H4 & H5 & H6); [lia|].
  set (c4 := trim_total _ c3 key) in *.
  assert (Hwf4 : cache_wf c4) by (split_and!; [done|done|lia]).
  destruct (assemble_ret (baseSeq s3) (segments s3)) as [asm ->]. cbn [res_bind].
  case_match; [by eauto|].
  destruct (onTCPPayload_ret rr asm) as [a ->]. cbn [res_bind].
  case_match; [|by eauto]. eexists _, _. split; [done|]. by apply wf_remove.
Qed.

Lemma cache_add_spec rr c key seg now :
  cache_wf c → ∃ c' a, cache_add rr c key seg now = Ret (c', a) ∧ cache_wf c'.
Proof.
  intros Hc. unfold cache_add. destruct (Z.ltb_spec (len seg) 20); [by eauto|].
  destruct (at_z_is_ret seg 12) as [x ->]; [lia|]. cbn [res_bind].
  destruct ((_ <? 20) || _) eqn:E; [by eauto|]. bool_to_prop.
  destruct (slice_is_ret seg (Z.shiftl (Z.shiftr x 4) 2) (len seg)) as [pl ->]; [lia..|]. cbn [res_bind].
  case_match; [by eauto|].
  assert (is_ret (if tcpStreamMaxBytes <? len pl then slice pl 0 tcpStreamMaxBytes else Ret pl)) as [pl' ->].
  { destruct (Z.ltb_spec tcpStreamMaxBytes (len pl)); [|eauto with remlink].
    apply slice_is_ret; unfold tcpStreamMaxBytes in *; lia. }
  cbn [res_bind]. destruct (be32_is_ret seg 4) as [q ->]; [lia..|]. cbn [res_bind].
  by apply add_payload_spec.
Qed.

Inductive stream_op := OpAdd (key : tcpStreamKey) (seg : list byte) (now : Time)
  | OpCleanup (now : Time) | OpClose (key : tcpStreamKey).

Definition stream_step rr (c : tcpStreamCache) (o : stream_op) : res tcpStreamCache :=
  match o with
  | OpAdd key seg now => let! r := cache_add rr c key seg now in Ret r.1
  | OpCleanup now => Ret (cleanup c now)
  | OpClose key => Ret (cache_close c key)
  end.

Fixpoint stream_run rr (c : tcpStreamCache) (ops : list stream_op) : res tcpStreamCache :=
  match ops with
  | [] => Ret c
  | o :: ops => let! c := stream_step rr c o in stream_run rr c ops
  end.

(** C23.  Reassembly cache: no sequence of segments, sweeps and closes panics,
    and after it the byte counts are exact (each stream's count is the sum of
    its segments, the total the sum over the streams) and within the bounds of
    4 KiB per stream, 1 MiB in all and 4096 streams. *)
Theorem stream_cache_bounded rr ops :
  ∃ c, stream_run rr newTCPStreamCache ops = Ret c ∧ cache_wf c.
Proof.
  assert (H0 : cache_wf newTCPStreamCache).
  { split_and!; [|done|done]. split; [done|]. simpl. by rewrite map_sumZ_empty. }
  revert H0. generalize newTCPStreamCache. induction ops as [|o ops IH]; intros c Hc; cbn [stream_run]; [eauto|].
  destruct o as [key seg now|now|key]; cbn [stream_step].
  - destruct (cache_add_spec rr c key seg now Hc) as (c' & a & -> & Hc'). cbn [res_bind fst]. by apply IH.
  - cbn [res_bind]. by apply IH, cleanup_wf.
  - cbn [res_bind]. apply IH. by do 2 apply wf_remove.
Qed.
