(* ===== verification/ClientCert.v ===== *)
(** * Client certificates (server/dbdata/cert_client.go)

    The table of issued certificates with its device bindings.  [io] holds the
    outcomes of the coming database calls ([true]: the call succeeds, also when
    the list is exhausted), so that every interleaving of I/O failures with the
    code's calls is an input.  The X.509 library (parsing, chain verification,
    signing) and the user table are parameters. *)
From S2P Require Export DbTypes.
Local Open Scope Z_scope.

(** What the code reads of an [x509.Certificate]; [ExtClientAuth] is
    [slices.Contains(cert.ExtKeyUsage, ExtKeyUsageClientAuth)]. *)
Record X509 := {
  CommonName : string; OrganizationalUnit : list string; x_NotAfter : Time;
  ExtClientAuth : bool; Raw : string
}.

Record ClientCertData := {
  cc_Id : Z; cc_Username : string; Groupname : string; cc_Status : Z; IsCSRBased : bool;
  Certificate : string; PrivateKey : string; DeviceId : list string; DeviceBindingEnabled : bool;
  MaxDevices : Z; cc_SerialNumber : string; NotAfter : Time; cc_CreatedAt : Time
}.

Definition CertStatusActive : Z := 0.
Definition CertStatusDisabled : Z := 1.
Definition CertStatusExpired : Z := 2.

Record CertDb := {
  rows : list ClientCertData; next_id : Z; io : list bool; serialCounter : Z
}.

Definition with_rows (r : list ClientCertData) (d : CertDb) : CertDb :=
  {| rows := r; next_id := next_id d; io := io d; serialCounter := serialCounter d |}.

(** One database call: its outcome and the rest of the schedule. *)
Definition call (d : CertDb) : CertDb * bool :=
  match io d with
  | [] => (d, true)
  | b :: rest => ({| rows := rows d; next_id := next_id d; io := rest; serialCounter := serialCounter d |}, b)
  end.

(** ** The rows *)
Definition set_status (s : Z) (c : ClientCertData) : ClientCertData := {|
  cc_Id := cc_Id c; cc_Username := cc_Username c; Groupname := Groupname c; cc_Status := s;
  IsCSRBased := IsCSRBased c; Certificate := Certificate c; PrivateKey := PrivateKey c;
  DeviceId := DeviceId c; DeviceBindingEnabled := DeviceBindingEnabled c; MaxDevices := MaxDevices c;
  cc_SerialNumber := cc_SerialNumber c; NotAfter := NotAfter c; cc_CreatedAt := cc_CreatedAt c |}.
Definition set_devices (l : list string) (c : ClientCertData) : ClientCertData := {|
  cc_Id := cc_Id c; cc_Username := cc_Username c; Groupname := Groupname c; cc_Status := cc_Status c;
  IsCSRBased := IsCSRBased c; Certificate := Certificate c; PrivateKey := PrivateKey c;
  DeviceId := l; DeviceBindingEnabled := DeviceBindingEnabled c; MaxDevices := MaxDevices c;
  cc_SerialNumber := cc_SerialNumber c; NotAfter := NotAfter c; cc_CreatedAt := cc_CreatedAt c |}.
Definition set_NotAfter (t : Time) (c : ClientCertData) : ClientCertData := {|
  cc_Id := cc_Id c; cc_Username := cc_Username c; Groupname := Groupname c; cc_Status := cc_Status c;
  IsCSRBased := IsCSRBased c; Certificate := Certificate c; PrivateKey := PrivateKey c;
  DeviceId := DeviceId c; DeviceBindingEnabled := DeviceBindingEnabled c; MaxDevices := MaxDevices c;
  cc_SerialNumber := cc_SerialNumber c; NotAfter := t; cc_CreatedAt := cc_CreatedAt c |}.
Definition set_MaxDevices (n : Z) (c : ClientCertData) : ClientCertData := {|
  cc_Id := cc_Id c; cc_Username := cc_Username c; Groupname := Groupname c; cc_Status := cc_Status c;
  IsCSRBased := IsCSRBased c; Certificate := Certificate c; PrivateKey := PrivateKey c;
  DeviceId := DeviceId c; DeviceBindingEnabled := DeviceBindingEnabled c; MaxDevices := n;
  cc_SerialNumber := cc_SerialNumber c; NotAfter := NotAfter c; cc_CreatedAt := cc_CreatedAt c |}.
Definition set_Id (i : Z) (c : ClientCertData) : ClientCertData := {|
  cc_Id := i; cc_Username := cc_Username c; Groupname := Groupname c; cc_Status := cc_Status c;
  IsCSRBased := IsCSRBased c; Certificate := Certificate c; PrivateKey := PrivateKey c;
  DeviceId := DeviceId c; DeviceBindingEnabled := DeviceBindingEnabled c; MaxDevices := MaxDevices c;
  cc_SerialNumber := cc_SerialNumber c; NotAfter := NotAfter c; cc_CreatedAt := cc_CreatedAt c |}.

Definition by_id (i : Z) (d : CertDb) : option ClientCertData :=
  List.find (λ c, cc_Id c =? i) (rows d).

Definition update_row (i : Z) (f : ClientCertData → ClientCertData) (d : CertDb) : CertDb :=
  with_rows (map (λ c, if cc_Id c =? i then f c else c) (rows d)) d.

(** [GetClientCert] *)
Definition is_cert_of (u g : string) (c : ClientCertData) : bool :=
  String.eqb (cc_Username c) u && String.eqb (Groupname c) g.
Definition GetClientCert (d : CertDb) (username groupname : string) : CertDb * lookup_res ClientCertData :=
  let '(d, ok) := call d in
  (d, if ok then match List.find (is_cert_of username groupname) (rows d) with
                 | Some c => Found c
                 | None => NotFound
                 end
      else LookupErr).

Definition GetStatus (c : ClientCertData) : Z := cc_Status c.
Definition GetStatusText (c : ClientCertData) : string :=
  if GetStatus c =? CertStatusActive then "有效"
  else if GetStatus c =? CertStatusDisabled then "禁用"
  else if GetStatus c =? CertStatusExpired then "过期" else "未知".

(** ** Writes.  [true] is success.  The Go method also updates the struct it is
    called on; the updated struct is returned next to the result. *)
Definition Cert_Save (d : CertDb) (c : ClientCertData) : CertDb * ClientCertData * bool :=
  let '(d, ok) := call d in
  if negb ok then (d, c, false)
  else if 0 <? cc_Id c then (update_row (cc_Id c) (λ _, c) d, c, true)
  else
    let c := set_Id (next_id d) c in
    ({| rows := rows d ++ [c]; next_id := next_id d + 1; io := io d; serialCounter := serialCounter d |}, c, true).

Definition Cert_Delete (d : CertDb) (c : ClientCertData) : CertDb * bool :=
  let '(d, ok) := call d in
  if ok then (with_rows (List.filter (λ r, negb (cc_Id r =? cc_Id c)) (rows d)) d, true) else (d, false).

Definition UpdateStatus (d : CertDb) (c : ClientCertData) (status : Z) : CertDb * ClientCertData * bool :=
  let c := set_status status c in
  let '(d, ok) := call d in
  if ok then (update_row (cc_Id c) (set_status status) d, c, true) else (d, c, false).

Definition Disable d c := UpdateStatus d c CertStatusDisabled.
Definition Enable d c := UpdateStatus d c CertStatusActive.

Definition ChangeStatus (d : CertDb) (c : ClientCertData) : CertDb * ClientCertData * bool :=
  if cc_Status c =? CertStatusActive then Disable d c
  else if cc_Status c =? CertStatusDisabled then Enable d c
  else (d, c, false).

Definition CheckAndUpdateStatus (d : CertDb) (c : ClientCertData) (now : Time) : CertDb * ClientCertData * bool :=
  if negb (cc_Status c =? CertStatusExpired) && time_After now (NotAfter c)
  then UpdateStatus d c CertStatusExpired
  else (d, c, true).

(** ** Devices *)
Definition CheckDevice (c : ClientCertData) (deviceId : string) : bool :=
  if negb (DeviceBindingEnabled c) then true
  else if String.eqb deviceId "" then false
  else bool_decide (deviceId ∈ DeviceId c).

Definition BindDevice (d : CertDb) (c : ClientCertData) (deviceId : string) : CertDb * bool :=
  if negb (DeviceBindingEnabled c) then (d, true)
  else if String.eqb deviceId "" then (d, false)
  else
    let '(d, ok) := call d in
    match (if ok then by_id (cc_Id c) d else None) with
    | None => (d, false)
    | Some cert =>
        if bool_decide (deviceId ∈ DeviceId cert) then (d, true)
        else if MaxDevices cert <=? len (DeviceId cert) then (d, false)
        else
          let '(d, ok) := call d in
          if ok then (update_row (cc_Id c) (set_devices (DeviceId cert ++ [deviceId])) d, true)
          else (d, false)
    end.

Fixpoint remove_first (x : string) (l : list string) : option (list string) :=
  match l with
  | [] => None
  | y :: l => if String.eqb y x then Some l
              else match remove_first x l with Some r => Some (y :: r) | None => None end
  end.

Definition UnbindDevice (d : CertDb) (c : ClientCertData) (deviceId : string) : CertDb * bool :=
  let '(d, ok) := call d in
  if negb ok then (d, false)
  else
    match by_id (cc_Id c) d with
    | None => (d, true)
    | Some cert =>
        match remove_first deviceId (DeviceId cert) with
        | None => (d, false)
        | Some l =>
            let '(d, ok) := call d in
            if ok then (update_row (cc_Id c) (set_devices l) d, true) else (d, false)
        end
    end.

(** [UpdateClientCertMaxDevices] of server/admin/api_cert.go, after the checks
    on the form's fields. *)
Definition UpdateClientCertMaxDevices (d : CertDb) (username groupname : string) (maxDevices : Z)
    : CertDb * bool :=
  if maxDevices <? 1 then (d, false)
  else
    let '(d, r) := GetClientCert d username groupname in
    match r with
    | Found c =>
        if maxDevices <? len (DeviceId c) then (d, false)
        else let '(d, _, ok) := Cert_Save d (set_MaxDevices maxDevices c) in (d, ok)
    | _ => (d, false)
    end.

(** ** Serial numbers: [time.Now().UnixNano() + serialCounter] *)
Definition nextSerialNumber (d : CertDb) (now : Time) : CertDb * Z :=
  let k := s64 (serialCounter d + 1) in
  ({| rows := rows d; next_id := next_id d; io := io d; serialCounter := k |}, s64 (now + k)).

(** The striped locks: [getCertLock] and the FNV-1 hash of [getCertLockByName]. *)
Definition getCertLock (certId : Z) : Z :=
  let index := Z.rem certId 2048 in if index <? 0 then - index else index.
Definition getCertLockByName (name : string) : Z :=
  fold_left (λ h b, Z.lxor (u32 (h * 16777619)) (b2z b)) (bytes_of name) 2166136261 mod 2048.

(** ** Issuing, renewing and validating *)
Section issuing.
Context (user_by_name : string → lookup_res User)
        (parse_pem : string → option X509)
        (chain_ok : X509 → Time → bool)
        (ca_loaded : bool)
        (key_ready : string → bool)
        (issue : string → string → string → Z → Time → option (string * string)).

(** [key_ready csr]: the key pair was generated, or the non-empty [csr] parses and
    its signature verifies.  [issue username group csr serial notAfter] signs
    the certificate: its PEM and the PEM of the key (empty for a [csr]).
    [AddDate(0, 0, 365)] is 365 days of 24 hours (UTC). *)
Definition year : Duration := 365 * (24 * Hour).

Definition GenerateClientCert (d : CertDb) (username groupname : string) (deviceBindingEnabled : bool)
    (maxDevices : Z) (csr : string) (now : Time) : CertDb * option ClientCertData :=
  match user_by_name username with
  | Found user =>
      if negb (bool_decide (groupname ∈ Groups user)) then (d, None)
      else
        let '(d, existing) := GetClientCert d username groupname in
        match existing with
        | NotFound =>
            if negb ca_loaded then (d, None)
            else if negb (key_ready csr) then (d, None)
            else
              let '(d, serial) := nextSerialNumber d now in
              match issue username groupname csr serial (time_Add now year) with
              | None => (d, None)
              | Some (certPEM, keyPEM) =>
                  let c := {| cc_Id := 0; cc_Username := username; Groupname := groupname;
                              cc_Status := CertStatusActive; IsCSRBased := negb (String.eqb csr "");
                              Certificate := certPEM; PrivateKey := keyPEM; DeviceId := [];
                              DeviceBindingEnabled := deviceBindingEnabled; MaxDevices := maxDevices;
                              cc_SerialNumber := pretty serial; NotAfter := time_Add now year;
                              cc_CreatedAt := now |} in
                  let '(d, c, ok) := Cert_Save d c in
                  (d, if ok then Some c else None)
              end
        | _ => (d, None)
        end
  | _ => (d, None)
  end.

(** [BatchGenerateClientCert]: the number issued and the names that failed (the
    source pairs each with its error text). *)
Fixpoint BatchGenerateClientCert (d : CertDb) (usernames : list string) (groupname : string)
    (binding : bool) (maxDevices : Z) (now : Time) : CertDb * Z * list string :=
  match usernames with
  | [] => (d, 0, [])
  | u :: rest =>
      let u := str_trim u in
      if String.eqb u "" then BatchGenerateClientCert d rest groupname binding maxDevices now
      else
        let '(d, r) := GenerateClientCert d u groupname binding maxDevices "" now in
        let '(d, n, failed) := BatchGenerateClientCert d rest groupname binding maxDevices now in
        match r with Some _ => (d, n + 1, failed) | None => (d, n, u :: failed) end
  end.

(** [csr] is [None] when the variadic argument is absent. *)
Definition RenewClientCert (d : CertDb) (username groupname : string) (csr : option string) (now : Time)
    : CertDb * option ClientCertData :=
  let '(d, r) := GetClientCert d username groupname in
  match r with
  | Found old =>
      if IsCSRBased old && negb (bool_decide (is_Some csr)) then (d, None)
      else
        let '(d, ok) := Cert_Delete d old in
        if negb ok then (d, None)
        else
          let '(d, r) := GenerateClientCert d username groupname (DeviceBindingEnabled old)
                           (MaxDevices old) (default ""%string csr) now in
          match r with
          | None => (d, None)
          | Some newCert =>
              let t := time_Add (NotAfter old) year in
              let t := if time_Before t now then time_Add now year else t in
              let '(d, c, ok) := Cert_Save d (set_NotAfter t newCert) in
              (d, if ok then Some c else None)
          end
  | _ => (d, None)
  end.

Definition ValidateClientCert (d : CertDb) (cert : X509) (deviceid : string) (now : Time) : CertDb * bool :=
  match user_by_name (CommonName cert) with
  | Found user =>
      if negb (usr_Status user =? 1) then (d, false)
      else
        match OrganizationalUnit cert with
        | [] => (d, false)
        | ou :: _ =>
            let '(d, r) := GetClientCert d (usr_Username user) ou in
            match r with
            | Found c =>
                if negb (String.eqb (Groupname c) ou) then (d, false)
                else if time_After now (x_NotAfter cert) then (d, false)
                else if negb (chain_ok cert now) then (d, false)
                else if negb (ExtClientAuth cert) then (d, false)
                else
                  match parse_pem (Certificate c) with
                  | None => (d, false)
                  | Some stored =>
                      if negb (String.eqb (Raw cert) (Raw stored)) then (d, false)
                      else if negb (GetStatus c =? CertStatusActive) then (d, false)
                      else if CheckDevice c deviceid then (d, true)
                      else BindDevice d c deviceid
                  end
            | _ => (d, false)
            end
        end
  | _ => (d, false)
  end.
End issuing.
