(* ===== verification/ClientCertSpec.v ===== *)
(** * Client certificates: validation, device limit and renewal *)
From S2P Require Import ClientCert.
Local Open Scope Z_scope.

(** ** The table's invariant *)
Definition devices_ok (c : ClientCertData) : Prop :=
  NoDup (DeviceId c) ∧ (DeviceId c = [] ∨ len (DeviceId c) ≤ MaxDevices c).

Definition row_key (c : ClientCertData) : string * string := (cc_Username c, Groupname c).

Record cert_inv (d : CertDb) : Prop := {
  inv_ids : NoDup (cc_Id <$> rows d);
  inv_range : ∀ c, c ∈ rows d → 0 < cc_Id c < next_id d;
  inv_keys : NoDup (row_key <$> rows d);
  inv_devices : ∀ c, c ∈ rows d → devices_ok c;
  inv_next : 0 < next_id d
}.

(** A database whose schedule of call outcomes or serial counter alone differs. *)
Lemma cert_inv_ext d d' :
  rows d' = rows d → next_id d' = next_id d → cert_inv d → cert_inv d'.
Proof. intros Hr Hn []. by split; rewrite ?Hr, ?Hn. Qed.

Lemma call_frame d : rows (call d).1 = rows d ∧ next_id (call d).1 = next_id d.
Proof. unfold call. by destruct (io d). Qed.

Lemma call_inv d d' b : call d = (d', b) → rows d' = rows d ∧ next_id d' = next_id d.
Proof. intros H. by rewrite <- (f_equal fst H : (call d).1 = d'), !(proj1 (call_frame d)), (proj2 (call_frame d)). Qed.

Lemma GetClientCert_inv d u g d' r :
  GetClientCert d u g = (d', r) →
  rows d' = rows d ∧ next_id d' = next_id d ∧
  match r with
  | Found c => c ∈ rows d ∧ cc_Username c = u ∧ Groupname c = g
  | NotFound => ∀ c, c ∈ rows d → row_key c ≠ (u, g)
  | LookupErr => True
  end.
Proof.
  unfold GetClientCert. destruct (call d) as [d1 ok] eqn:Hc. apply call_inv in Hc as [Hr Hn].
  intros H. simplify_eq. split_and!; [done..|]. destruct ok; [|done]. rewrite Hr.
  destruct (List.find _ _) as [c|] eqn:E.
  - apply List.find_some in E as [Hin Hk]. unfold is_cert_of in Hk. bool_to_prop.
    by rewrite list_elem_of_In.
  - intros c Hin%list_elem_of_In Hk. unfold row_key in Hk. simplify_eq.
    pose proof (List.find_none _ _ E _ Hin) as Hn'. unfold is_cert_of in Hn'.
    by rewrite !String.eqb_refl in Hn'.
Qed.

Lemma by_id_Some i d c : by_id i d = Some c → c ∈ rows d ∧ cc_Id c = i.
Proof. unfold by_id. intros [? ?]%List.find_some. bool_to_prop. by rewrite list_elem_of_In. Qed.

(** Updating one row keeps the keys when the update does. *)
Lemma update_row_inv i f d :
  cert_inv d →
  (∀ c, c ∈ rows d → cc_Id c = i →
     cc_Id (f c) = i ∧ row_key (f c) = row_key c ∧ devices_ok (f c)) →
  cert_inv (update_row i f d).
Proof.
  intros [] Hf.
  assert (∀ c, c ∈ rows d → let c' := if cc_Id c =? i then f c else c in
    cc_Id c' = cc_Id c ∧ row_key c' = row_key c ∧ devices_ok c') as Hall.
  { intros c Hc. simpl. destruct (Z.eqb_spec (cc_Id c) i) as [E|]; [|by auto].
    destruct (Hf c Hc E) as (-> & -> & ?). by rewrite E. }
  assert (∀ {B} (g : ClientCertData → B), (∀ c, c ∈ rows d → g (if cc_Id c =? i then f c else c) = g c) →
    g <$> (rows (update_row i f d)) = g <$> rows d) as Hmap.
  { intros B g Hg. cbn [rows update_row with_rows]. rewrite <- list_fmap_compose.
    apply list_fmap_ext. intros k c Hk. apply Hg. by eapply list_elem_of_lookup_2. }
  split.
  - rewrite Hmap; [done|]. intros c Hc. apply (Hall c Hc).
  - intros c (c0 & -> & Hc0)%list_elem_of_fmap. destruct (Hall c0 Hc0) as (-> & _ & _). by apply inv_range0.
  - rewrite Hmap; [done|]. intros c Hc. apply (Hall c Hc).
  - intros c (c0 & -> & Hc0)%list_elem_of_fmap. apply (Hall c0 Hc0).
  - done.
Qed.

Lemma add_row_inv d c :
  cert_inv d → row_key c ∉ row_key <$> rows d → devices_ok c →
  cert_inv {| rows := rows d ++ [set_Id (next_id d) c]; next_id := next_id d + 1;
              io := io d; serialCounter := serialCounter d |}.
Proof.
  intros [] Hk Hd. split; cbn [rows next_id].
  - rewrite fmap_app. apply NoDup_app. split_and!; [done| |apply NoDup_singleton].
    intros i (c0 & -> & Hc0)%list_elem_of_fmap Hin%list_elem_of_singleton.
    apply inv_range0 in Hc0. simpl in Hin. lia.
  - intros c' [Hc'|Hc'%list_elem_of_singleton]%elem_of_app; [apply inv_range0 in Hc'; lia|].
    subst. simpl. lia.
  - rewrite fmap_app. apply NoDup_app. split_and!; [done| |apply NoDup_singleton].
    intros k Hin Hk'%list_elem_of_singleton. subst. by apply Hk.
  - intros c' [Hc'|Hc'%list_elem_of_singleton]%elem_of_app; [by apply inv_devices0|by subst].
  - lia.
Qed.

Lemma delete_row_inv d P :
  cert_inv d → cert_inv (with_rows (List.filter P (rows d)) d).
Proof.
  intros []. assert (List.filter P (rows d) `sublist_of` rows d) as Hs.
  { generalize (rows d). intros l. induction l as [|x l IH]; simpl; [constructor|].
    destruct (P x); by constructor. }
  assert (∀ c, c ∈ List.filter P (rows d) → c ∈ rows d) as Hin.
  { intros c Hc. by eapply elem_of_sublist. }
  split; cbn [rows with_rows next_id]; eauto.
  - by eapply sublist_NoDup; [exact inv_ids0|apply (fmap_sublist _ _ _ Hs)].
  - by eapply sublist_NoDup; [exact inv_keys0|apply (fmap_sublist _ _ _ Hs)].
Qed.

Lemma set_devices_ok d i l :
  cert_inv d → (∀ c, c ∈ rows d → cc_Id c = i → devices_ok (set_devices l c)) →
  cert_inv (update_row i (set_devices l) d).
Proof. intros Hi Hl. apply update_row_inv; [done|]. intros c Hc Hid. split_and!; [done..|]. by apply Hl. Qed.

(** Two rows with one id are the same row. *)
Lemma same_id d c c' : cert_inv d → c ∈ rows d → c' ∈ rows d → cc_Id c = cc_Id c' → c = c'.
Proof.
  intros [Hn _ _ _ _]. generalize dependent (rows d). intros l Hn Hc Hc' He.
  apply list_elem_of_lookup in Hc as [i Hi]. apply list_elem_of_lookup in Hc' as [j Hj].
  assert (i = j); [|congruence].
  eapply NoDup_lookup; [exact Hn|rewrite list_lookup_fmap, Hi; done|].
  by rewrite list_lookup_fmap, Hj, He.
Qed.

(** ** Every operation keeps it *)
Lemma BindDevice_inv d c dev : cert_inv d → cert_inv (BindDevice d c dev).1.
Proof.
  intros Hi. unfold BindDevice. destruct (DeviceBindingEnabled c); [|done]. cbn [negb].
  destruct (String.eqb dev ""); [done|].
  destruct (call d) as [d1 ok] eqn:Hc. apply call_inv in Hc as [Hr Hn].
  apply (cert_inv_ext _ d1) in Hi; [|done..].
  destruct ok; [|done]. destruct (by_id (cc_Id c) d1) as [cert|] eqn:Hb; [|done].
  apply by_id_Some in Hb as [Hin Hid].
  destruct (bool_decide _) eqn:Hbd; [done|]. destruct (Z.leb_spec (MaxDevices cert) (len (DeviceId cert))); [done|].
  destruct (call d1) as [d2 ok] eqn:Hc. apply call_inv in Hc as [Hr2 Hn2].
  apply (cert_inv_ext _ d2) in Hi; [|done..]. destruct ok; [|done]. simpl.
  apply set_devices_ok; [done|]. intros c' Hc' Hid'. rewrite <- Hr2 in Hin.
  assert (c' = cert) as -> by (eapply same_id; [exact Hi|done..|congruence]).
  destruct (inv_devices _ Hi _ Hin) as [Hnd _]. bool_to_prop. split; simpl.
  - apply NoDup_app. split_and!; [done| |apply NoDup_singleton].
    intros x Hx Hx'%list_elem_of_singleton. by subst.
  - right. rewrite len_app. change (len [dev]) with 1. lia.
Qed.

Lemma remove_first_sublist x l r : remove_first x l = Some r → r `sublist_of` l.
Proof.
  revert r. induction l as [|y l IH]; intros r H; simpl in H; [done|].
  destruct (String.eqb y x); [simplify_eq; by constructor|].
  destruct (remove_first x l) as [r'|]; [|done]. simplify_eq. constructor. by apply IH.
Qed.

Lemma UnbindDevice_inv d c dev : cert_inv d → cert_inv (UnbindDevice d c dev).1.
Proof.
  intros Hi. unfold UnbindDevice.
  destruct (call d) as [d1 ok] eqn:Hc. apply call_inv in Hc as [Hr Hn].
  apply (cert_inv_ext _ d1) in Hi; [|done..]. destruct ok; [|done]. cbn [negb].
  destruct (by_id (cc_Id c) d1) as [cert|] eqn:Hb; [|done]. apply by_id_Some in Hb as [Hin Hid].
  destruct (remove_first dev (DeviceId cert)) as [l|] eqn:Hrm; [|done].
  destruct (call d1) as [d2 ok] eqn:Hc. apply call_inv in Hc as [Hr2 Hn2].
  apply (cert_inv_ext _ d2) in Hi; [|done..]. destruct ok; [|done]. simpl.
  apply set_devices_ok; [done|]. intros c' Hc' Hid'. rewrite <- Hr2 in Hin.
  assert (c' = cert) as -> by (eapply same_id; [exact Hi|done..|congruence]).
  destruct (inv_devices _ Hi _ Hin) as [Hnd Hlen]. apply remove_first_sublist in Hrm.
  pose proof (sublist_length _ _ Hrm) as Hl. split; simpl; [by eapply sublist_NoDup|].
  destruct Hlen as [E|Hlen]; [left; rewrite E in Hrm; by apply sublist_nil_r|right; unfold len in *; lia].
Qed.

Lemma UpdateStatus_inv d c s : cert_inv d → cert_inv (UpdateStatus d c s).1.1.
Proof.
  intros Hi. unfold UpdateStatus. destruct (call d) as [d1 ok] eqn:Hc. apply call_inv in Hc as [Hr Hn].
  apply (cert_inv_ext _ d1) in Hi; [|done..]. destruct ok; [|done]. simpl.
  apply update_row_inv; [done|]. intros c' Hc' Hid. split_and!; [done..|exact (inv_devices _ Hi c' Hc')].
Qed.

Lemma ChangeStatus_inv d c : cert_inv d → cert_inv (ChangeStatus d c).1.1.
Proof.
  intros Hi. unfold ChangeStatus, Disable, Enable.
  repeat case_match; by try apply UpdateStatus_inv.
Qed.

Lemma CheckAndUpdateStatus_inv d c now : cert_inv d → cert_inv (CheckAndUpdateStatus d c now).1.1.
Proof. intros Hi. unfold CheckAndUpdateStatus. case_match; [by apply UpdateStatus_inv|done]. Qed.

(** Saving over an existing row of the same id and key, or a new one with a
    fresh key. *)
Lemma Save_inv d c d' c' ok :
  Cert_Save d c = (d', c', ok) → cert_inv d → devices_ok c →
  (0 < cc_Id c → ∀ r, r ∈ rows d → cc_Id r = cc_Id c → row_key r = row_key c) →
  (cc_Id c ≤ 0 → row_key c ∉ row_key <$> rows d) →
  cert_inv d'.
Proof.
  unfold Cert_Save. destruct (call d) as [d1 b] eqn:Hc. apply call_inv in Hc as [Hr Hn].
  intros H Hi Hd Hk Hf. apply (cert_inv_ext _ d1) in Hi; [|done..].
  destruct b; [|by simplify_eq/=]. cbn [negb] in H.
  destruct (Z.ltb_spec 0 (cc_Id c)); simplify_eq.
  - apply update_row_inv; [done|]. intros r Hin Hid. rewrite Hr in Hin.
    split_and!; [done|symmetry; by apply Hk|done].
  - apply (add_row_inv d1); [done| |done]. rewrite Hr. by apply Hf.
Qed.

Lemma UpdateClientCertMaxDevices_inv d u g n :
  cert_inv d → cert_inv (UpdateClientCertMaxDevices d u g n).1.
Proof.
  intros Hi. unfold UpdateClientCertMaxDevices. destruct (n <? 1); [done|].
  destruct (GetClientCert d u g) as [d1 r] eqn:Hg.
  apply GetClientCert_inv in Hg as (Hr & Hn & Hc). apply (cert_inv_ext _ d1) in Hi; [|done..].
  destruct r as [c| |]; [|done..]. destruct Hc as (Hin & Hu & Hgr). rewrite <- Hr in Hin.
  destruct (Z.ltb_spec n (len (DeviceId c))); [done|].
  destruct (Cert_Save d1 (set_MaxDevices n c)) as [[d2 c2] ok] eqn:Hs. simpl.
  eapply Save_inv; [exact Hs|done| | |].
  - destruct (inv_devices _ Hi _ Hin). split; [done|]. by right.
  - intros _ r Hr' Hid. simpl in Hid. by rewrite (same_id d1 r c Hi Hr' Hin Hid).
  - intros Hle. simpl in Hle. pose proof (inv_range _ Hi _ Hin). lia.
Qed.

(** ** Issuing and renewing *)
Section issuing.
Context (user_by_name : string → lookup_res User) (ca_loaded : bool) (key_ready : string → bool)
        (issue : string → string → string → Z → Time → option (string * string)).
Abbreviation generate := (GenerateClientCert user_by_name ca_loaded key_ready issue).
Abbreviation renew := (RenewClientCert user_by_name ca_loaded key_ready issue).

(** A successful issue adds one fresh active row, bound to no device, whose
    certificate carries the row's own expiry. *)
Lemma GenerateClientCert_spec d u g b n csr now d' r :
  generate d u g b n csr now = (d', r) → cert_inv d →
  cert_inv d' ∧
  match r with
  | Some c => rows d' = rows d ++ [c] ∧ row_key c = (u, g) ∧ cc_Status c = CertStatusActive
      ∧ DeviceId c = [] ∧ DeviceBindingEnabled c = b ∧ MaxDevices c = n ∧ NotAfter c = now + year
      ∧ ∃ serial, issue u g csr serial (now + year) = Some (Certificate c, PrivateKey c)
  | None => rows d' = rows d
  end.
Proof.
  unfold GenerateClientCert. intros H Hi.
  destruct (user_by_name u) as [usr| |]; [|by simplify_eq/=..].
  destruct (bool_decide _); [|by simplify_eq/=]. cbn [negb] in H.
  destruct (GetClientCert d u g) as [d1 ex] eqn:Hg.
  apply GetClientCert_inv in Hg as (Hr & Hn & Hex). apply (cert_inv_ext _ d1) in Hi; [|done..].
  destruct ex; [by simplify_eq/=| |by simplify_eq/=].
  destruct ca_loaded; [|by simplify_eq/=]. cbn [negb] in H.
  destruct (key_ready csr); [|by simplify_eq/=]. cbn [negb] in H.
  unfold nextSerialNumber in H. cbn [fst snd] in H.
  set (d2 := {| rows := rows d1; next_id := next_id d1; io := io d1; serialCounter := _ |}) in *.
  assert (cert_inv d2) as Hi2 by (by eapply cert_inv_ext; [..|exact Hi]).
  destruct (issue _ _ _ _ _) as [[certPEM keyPEM]|] eqn:Hiss; [|by simplify_eq/=].
  unfold Cert_Save in H. destruct (call d2) as [d3 ok] eqn:Hc. apply call_inv in Hc as [Hr3 Hn3].
  assert (cert_inv d3) as Hi3 by (by eapply cert_inv_ext; [..|exact Hi2]).
  destruct ok; cbn [negb cc_Id] in H; [change (0 <? 0) with false in H|]; cbv beta iota zeta in H;
    simplify_eq; [|split; [done|by rewrite Hr3]].
  split.
  - apply (add_row_inv d3); [done| |].
    + rewrite Hr3. change (rows d2) with (rows d1). rewrite Hr. intros (c0 & E & Hc0)%list_elem_of_fmap.
      by apply (Hex c0 Hc0).
    + split; [constructor|by left].
  - cbn [rows]. rewrite Hr3. change (rows d2) with (rows d1). rewrite Hr. split_and!; [done..|]. eauto.
Qed.

Lemma RenewClientCert_spec d u g csr now d' r :
  renew d u g csr now = (d', r) → cert_inv d →
  cert_inv d' ∧
  match r with
  | Some c => ∃ old, old ∈ rows d ∧ row_key old = (u, g) ∧ c ∈ rows d' ∧ row_key c = (u, g)
      ∧ DeviceId c = [] ∧ DeviceBindingEnabled c = DeviceBindingEnabled old ∧ MaxDevices c = MaxDevices old
      ∧ NotAfter c = (if NotAfter old + year <? now then now + year else NotAfter old + year)
      ∧ ∃ serial, issue u g (default ""%string csr) serial (now + year) = Some (Certificate c, PrivateKey c)
  | None => True
  end.
Proof.
  unfold RenewClientCert. intros H Hi. destruct (GetClientCert d u g) as [d1 ex] eqn:Hg.
  apply GetClientCert_inv in Hg as (Hr & Hn & Hex). apply (cert_inv_ext _ d1) in Hi; [|done..].
  destruct ex as [old| |]; [|by simplify_eq/=..]. destruct Hex as (Hold & Hu & Hgr).
  destruct (_ && _); [by simplify_eq/=|].
  unfold Cert_Delete in H. destruct (call d1) as [d2 ok] eqn:Hc. apply call_inv in Hc as [Hr2 Hn2].
  apply (cert_inv_ext _ d2) in Hi; [|done..]. destruct ok; cbn [negb] in H; [|by simplify_eq/=].
  match type of H with context [generate ?D _ _ _ _ _ _] => destruct (generate D u g (DeviceBindingEnabled old)
    (MaxDevices old) (default ""%string csr) now) as [d3 [c|]] eqn:Hgen end;
    apply GenerateClientCert_spec in Hgen as [Hi3 Hgen]; [| |by simplify_eq/=|];
    [|by apply delete_row_inv|by apply delete_row_inv].
  destruct Hgen as (Hrows & Hkey & Hst & Hdev & Hb & Hm & Hna & Hser).
  assert (c ∈ rows d3) as Hin by (rewrite Hrows; set_solver).
  match type of H with context [Cert_Save ?D ?C] => destruct (Cert_Save D C) as [[d4 c4] ok4] eqn:Hs end.
  assert (cert_inv d4) as Hi4.
  { eapply Save_inv; [exact Hs|done| | |].
    - split; simpl; rewrite Hdev; [constructor|by left].
    - intros _ r' Hr' Hid. simpl in Hid. by rewrite (same_id d3 r' c Hi3 Hr' Hin Hid).
    - intros Hle. simpl in Hle. pose proof (inv_range _ Hi3 _ Hin). lia. }
  simplify_eq. split; [done|]. destruct ok4; [|done].
  unfold Cert_Save in Hs. destruct (call d3) as [d5 ok5] eqn:Hc. apply call_inv in Hc as [Hr5 Hn5].
  destruct ok5; [|done]. cbn [negb cc_Id set_NotAfter] in Hs.
  pose proof (inv_range _ Hi3 _ Hin) as [Hpos _].
  rewrite (proj2 (Z.ltb_lt 0 (cc_Id c)) Hpos) in Hs. simplify_eq.
  exists old. unfold row_key in *. simplify_eq/=. split_and!; try done.
  - apply list_elem_of_fmap. exists c. rewrite Z.eqb_refl. by rewrite Hr5.
  - by f_equal.
Qed.

End issuing.

Lemma BindDevice_bound d c dev d' :
  BindDevice d c dev = (d', true) → DeviceBindingEnabled c = true → cert_inv d → c ∈ rows d →
  dev ≠ ""%string ∧ ∃ c', c' ∈ rows d' ∧ cc_Id c' = cc_Id c ∧ row_key c' = row_key c
    ∧ dev ∈ DeviceId c' ∧ Certificate c' = Certificate c ∧ cc_Status c' = cc_Status c.
Proof.
  unfold BindDevice. intros H Hb Hi Hin. rewrite Hb in H. cbn [negb] in H.
  destruct (String.eqb_spec dev "") as [|Hne]; [done|]. split; [done|].
  destruct (call d) as [d1 ok] eqn:Hc. apply call_inv in Hc as [Hr Hn].
  apply (cert_inv_ext _ d1) in Hi; [|done..]. rewrite <- Hr in Hin.
  destruct ok; [|done]. destruct (by_id (cc_Id c) d1) as [cert|] eqn:Hbi; [|done].
  apply by_id_Some in Hbi as [Hin' Hid].
  assert (cert = c) as -> by (by eapply same_id).
  destruct (bool_decide _) eqn:Hbd; [simplify_eq; bool_to_prop; by exists c|].
  destruct (_ <=? _); [done|]. destruct (call d1) as [d2 ok] eqn:Hc. apply call_inv in Hc as [Hr2 Hn2].
  destruct ok; [|done]. simplify_eq. exists (set_devices (DeviceId c ++ [dev]) c).
  split_and!; try done; [|simpl; set_solver].
  apply list_elem_of_fmap. exists c. by rewrite Z.eqb_refl, Hr2.
Qed.

(** ** Validation *)
Section validation.
Context (user_by_name : string → lookup_res User) (parse_pem : string → option X509)
        (chain_ok : X509 → Time → bool).
Abbreviation validate := (ValidateClientCert user_by_name parse_pem chain_ok).

(** What [ValidateClientCert] establishes of the table it leaves. *)
Definition authorised (d : CertDb) (cert : X509) (dev : string) (now : Time) : Prop :=
  ∃ user ou ous c, user_by_name (CommonName cert) = Found user ∧ usr_Status user = 1
    ∧ OrganizationalUnit cert = ou :: ous ∧ c ∈ rows d ∧ row_key c = (usr_Username user, ou)
    ∧ (∃ stored, parse_pem (Certificate c) = Some stored ∧ Raw stored = Raw cert)
    ∧ cc_Status c = CertStatusActive ∧ now ≤ x_NotAfter cert ∧ chain_ok cert now = true
    ∧ ExtClientAuth cert = true
    ∧ (DeviceBindingEnabled c = true → dev ≠ ""%string ∧ dev ∈ DeviceId c).

Lemma ValidateClientCert_inv d cert dev now : cert_inv d → cert_inv (validate d cert dev now).1.
Proof.
  intros Hi. unfold ValidateClientCert. destruct (user_by_name _) as [user| |]; [|done..].
  destruct (negb _); [done|]. destruct (OrganizationalUnit cert) as [|ou ous]; [done|].
  destruct (GetClientCert d _ ou) as [d1 r] eqn:Hg. apply GetClientCert_inv in Hg as (Hr & Hn & _).
  apply (cert_inv_ext _ d1) in Hi; [|done..].
  repeat case_match; try done. by apply BindDevice_inv.
Qed.

Lemma validate_authorised d cert dev now d' :
  validate d cert dev now = (d', true) → cert_inv d → authorised d' cert dev now.
Proof.
  unfold ValidateClientCert. intros H Hi. destruct (user_by_name _) as [user| |] eqn:Hu; [|done..].
  destruct (Z.eqb_spec (usr_Status user) 1) as [Hst|]; [|done]. cbn [negb] in H.
  destruct (OrganizationalUnit cert) as [|ou ous] eqn:Hou; [done|].
  destruct (GetClientCert d _ ou) as [d1 r] eqn:Hg. apply GetClientCert_inv in Hg as (Hr & Hn & Hc).
  apply (cert_inv_ext _ d1) in Hi; [|done..].
  destruct r as [c| |]; [|done..]. destruct Hc as (Hin & Hcu & Hcg). rewrite <- Hr in Hin.
  rewrite Hcg, String.eqb_refl in H. cbn [negb] in H.
  destruct (Z.ltb_spec (x_NotAfter cert) now) as [|Hna]; [by unfold time_After in H; rewrite (proj2 (Z.ltb_lt _ _)) in H|].
  unfold time_After in H. rewrite (proj2 (Z.ltb_ge _ _) Hna) in H.
  destruct (chain_ok cert now) eqn:Hch; [|done]. destruct (ExtClientAuth cert) eqn:Hext; [|done]. cbn [negb] in H.
  destruct (parse_pem (Certificate c)) as [stored|] eqn:Hp; [|done].
  destruct (String.eqb_spec (Raw cert) (Raw stored)) as [Hraw|]; [|done]. cbn [negb] in H.
  destruct (Z.eqb_spec (GetStatus c) CertStatusActive) as [Hact|]; [|done]. cbn [negb] in H.
  destruct (CheckDevice c dev) eqn:Hcd.
  - injection H as <-. exists user, ou, ous, c. unfold row_key. rewrite Hcu, Hcg.
    split_and!; try done; [by exists stored|].
    unfold CheckDevice in Hcd. intros Hb. rewrite Hb in Hcd. cbn [negb] in Hcd.
    destruct (String.eqb_spec dev ""); [done|]. by bool_to_prop.
  - unfold CheckDevice in Hcd. destruct (DeviceBindingEnabled c) eqn:Hb; [|done].
    destruct (BindDevice_bound _ _ _ _ H Hb Hi Hin) as (Hne & c' & Hin' & Hid & Hk & Hdev & Hce & Hs).
    exists user, ou, ous, c'. rewrite Hk, Hce, Hs. unfold row_key. rewrite Hcu, Hcg.
    split_and!; try done. by exists stored.
Qed.
End validation.

(** ** Executions

    One step is one operation of the package with any arguments, any state of
    the user table and any behaviour of the certificate library; [cs_io] is a
    change of the database's coming call outcomes. *)
Inductive cert_step (d : CertDb) : CertDb → Prop :=
  | cs_io l : cert_step d {| rows := rows d; next_id := next_id d; io := l; serialCounter := serialCounter d |}
  | cs_generate users ca ready issue u g b n csr now :
      cert_step d (GenerateClientCert users ca ready issue d u g b n csr now).1
  | cs_renew users ca ready issue u g csr now :
      cert_step d (RenewClientCert users ca ready issue d u g csr now).1
  | cs_validate users parse chain cert dev now :
      cert_step d (ValidateClientCert users parse chain d cert dev now).1
  | cs_bind c dev : cert_step d (BindDevice d c dev).1
  | cs_unbind c dev : cert_step d (UnbindDevice d c dev).1
  | cs_max u g n : cert_step d (UpdateClientCertMaxDevices d u g n).1
  | cs_change c : cert_step d (ChangeStatus d c).1.1
  | cs_check c now : cert_step d (CheckAndUpdateStatus d c now).1.1
  | cs_delete c : cert_step d (Cert_Delete d c).1.

Definition empty_CertDb : CertDb := {| rows := []; next_id := 1; io := []; serialCounter := 0 |}.

Lemma cert_inv_empty : cert_inv empty_CertDb.
Proof. split; simpl; try constructor; set_solver. Qed.

Lemma cert_step_inv d d' : cert_step d d' → cert_inv d → cert_inv d'.
Proof.
  intros [] Hi.
  - by eapply cert_inv_ext; [..|exact Hi].
  - destruct (GenerateClientCert _ _ _ _ _ _ _ _ _ _ _) eqn:E. by apply GenerateClientCert_spec in E as [? _].
  - destruct (RenewClientCert _ _ _ _ _ _ _ _ _) eqn:E. by apply RenewClientCert_spec in E as [? _].
  - by apply ValidateClientCert_inv.
  - by apply BindDevice_inv.
  - by apply UnbindDevice_inv.
  - by apply UpdateClientCertMaxDevices_inv.
  - by apply ChangeStatus_inv.
  - by apply CheckAndUpdateStatus_inv.
  - unfold Cert_Delete. destruct (call d) as [d1 ok] eqn:Hc. apply call_inv in Hc as [Hr Hn].
    apply (cert_inv_ext _ d1) in Hi; [|done..]. destruct ok; [by apply delete_row_inv|done].
Qed.

Lemma cert_reachable_inv d : rtc cert_step empty_CertDb d → cert_inv d.
Proof.
  intros Hr. assert (∀ d0, cert_inv d0 → rtc cert_step d0 d → cert_inv d) as H; [|exact (H _ cert_inv_empty Hr)].
  intros d0 Hi Hr'. induction Hr'; [done|]. eauto using cert_step_inv.
Qed.

(** Serial numbers increase while the clock does not go back. *)
Lemma nextSerialNumber_increases d now d1 s now' d2 s' :
  nextSerialNumber d now = (d1, s) → nextSerialNumber d1 now' = (d2, s') →
  0 ≤ now ≤ now' → now' + serialCounter d + 2 ≤ max_int64 → 0 ≤ serialCounter d → s < s'.
Proof.
  unfold nextSerialNumber, max_int64. intros H1 H2 ? ? ?. simplify_eq. cbn [serialCounter].
  rewrite !(sint64_small (serialCounter d + 1)) by (unfold min_int64, max_int64; lia).
  rewrite (sint64_small (serialCounter d + 1 + 1)) by (unfold min_int64, max_int64; lia).
  rewrite !sint64_small by (unfold min_int64, max_int64; lia). lia.
Qed.

(** ** Example environment *)
Definition ex_user : User := {|
  usr_Id := 1; usr_Type := "local"; usr_Username := "alice"; usr_Nickname := ""; Email := ""; Phone := "";
  PinCode := "secret1"; LimitTime := None; OtpSecret := ""; DisableOtp := false; Groups := ["ops"];
  usr_Mtu := 0; usr_PolicyId := 0; TrafficUsed := 0; TrafficResetAt := None; usr_Status := 1;
  ForcePwd := false; SendEmail := false; usr_CreatedAt := zero_time; usr_UpdatedAt := zero_time |}%string.
Definition ex_users (u : string) : lookup_res User :=
  if String.eqb u "alice" then Found ex_user else NotFound.
(** A toy PEM: the expiry in decimal. *)
Definition ex_parse (pem : string) : option X509 :=
  match parse_uint 64 (bytes_of pem) with
  | Some t => Some {| CommonName := "alice"; OrganizationalUnit := ["ops"]; x_NotAfter := t;
                      ExtClientAuth := true; Raw := pem |}%string
  | None => None
  end.
Definition ex_issue (u g csr : string) (serial : Z) (na : Time) : option (string * string) :=
  match ex_parse (pretty na) with
  | Some x => if x_NotAfter x =? na then Some (pretty na, "key"%string) else None
  | None => None
  end.
Definition ex_chain (c : X509) (now : Time) : bool := true.
Definition ex_ready (csr : string) : bool := true.
Definition ex_db : CertDb :=
  (GenerateClientCert ex_users true ex_ready ex_issue empty_CertDb "alice" "ops" true 1 "" Second).1.
Definition ex_cert : X509 := {| CommonName := "alice"; OrganizationalUnit := ["ops"];
  x_NotAfter := Second + year; ExtClientAuth := true; Raw := pretty (Second + year) |}%string.

(** C20.  Whoever validates a client certificate successfully presented, before
    its expiry and with a valid chain and the client-auth usage, exactly the
    certificate stored in an active row of an enabled user for the group in
    its OU; where device binding is on, the device is one of the row's. *)
Theorem validated_certificate_is_authorised users parse chain d cert dev now d' :
  rtc cert_step empty_CertDb d →
  ValidateClientCert users parse chain d cert dev now = (d', true) →
  authorised users parse chain d' cert dev now.
Proof. intros Hr H. eapply validate_authorised; [exact H|]. by apply cert_reachable_inv. Qed.

Lemma validated_certificate_is_authorised_witness :
  authorised ex_users ex_parse ex_chain (ValidateClientCert ex_users ex_parse ex_chain ex_db ex_cert "dev1" (2 * Second)).1
    ex_cert "dev1" (2 * Second).
Proof.
  apply (validated_certificate_is_authorised ex_users ex_parse ex_chain ex_db).
  - apply rtc_once. apply cs_generate.
  - vm_compute. reflexivity.
Defined.


Definition ex_bound : CertDb := (ValidateClientCert ex_users ex_parse ex_chain ex_db ex_cert "dev1" (2 * Second)).1.

(**  A renewed certificate's row overstates its validity: when the
    certificate is renewed before it expires, the row's expiry is the old one
    plus a year, but the certificate itself is signed for a year from now, so
    validation refuses it before the row's expiry. *)
Theorem renewal_overstates_validity users ca ready issue parse chain d u g csr now d' c :
  (∀ u g csr serial na cert key, issue u g csr serial na = Some (cert, key) →
     ∃ x, parse cert = Some x ∧ x_NotAfter x = na) →
  rtc cert_step empty_CertDb d →
  RenewClientCert users ca ready issue d u g csr now = (d', Some c) →
  (∀ old, old ∈ rows d → row_key old = (u, g) → now < NotAfter old) →
  ∃ x, parse (Certificate c) = Some x ∧ x_NotAfter x = now + year ∧ x_NotAfter x < NotAfter c
    ∧ ∀ d'' dev t, x_NotAfter x < t ≤ NotAfter c → (ValidateClientCert users parse chain d'' x dev t).2 = false.
Proof.
  intros Hiss Hr H Hold. apply RenewClientCert_spec in H as [_ (old & Hin & Hk & _ & _ & _ & _ & _ & Hna & serial & His)];
    [|by apply cert_reachable_inv].
  destruct (Hiss _ _ _ _ _ _ _ His) as (x & Hp & Hx). specialize (Hold old Hin Hk).
  assert (0 < year) by (unfold year, Hour, Minute, Second; lia).
  rewrite (proj2 (Z.ltb_ge _ _)) in Hna by lia. exists x. rewrite Hx, Hna. split_and!; [done..|lia|].
  intros d'' dev t [Ht _]. unfold ValidateClientCert, time_After. rewrite Hx.
  destruct (users _); [|done..]. destruct (negb _); [done|]. destruct (OrganizationalUnit x); [done|].
  destruct (GetClientCert d'' _ _) as [d1 []]; [|done..]. destruct (negb _); [done|].
  by rewrite (proj2 (Z.ltb_lt _ _) Ht).
Qed.

Lemma renewal_overstates_validity_witness :
  ∃ d' c x, RenewClientCert ex_users true ex_ready ex_issue ex_db "alice" "ops" None (100 * Second) = (d', Some c)
    ∧ ex_parse (Certificate c) = Some x ∧ x_NotAfter x = 100 * Second + year ∧ x_NotAfter x < NotAfter c
    ∧ ∀ d'' dev t, x_NotAfter x < t ≤ NotAfter c → (ValidateClientCert ex_users ex_parse ex_chain d'' x dev t).2 = false.
Proof.
  destruct (RenewClientCert ex_users true ex_ready ex_issue ex_db "alice" "ops" None (100 * Second))
    as [d' [c|]] eqn:E; [|vm_compute in E; discriminate].
  destruct (renewal_overstates_validity ex_users true ex_ready ex_issue ex_parse ex_chain
    ex_db "alice" "ops" None (100 * Second) d' c) as (x & Hx).
  - intros u g csr serial na cert key H. unfold ex_issue in H.
    destruct (ex_parse (pretty na)) as [x|] eqn:Ep; [|discriminate].
    destruct (Z.eqb_spec (x_NotAfter x) na); [|discriminate]. injection H as <- _. eauto.
  - apply rtc_once. apply cs_generate.
  - exact E.
  - intros old Hold%list_elem_of_In _. apply Z.ltb_lt.
    apply (proj1 (List.forallb_forall (λ old, 100 * Second <? NotAfter old) (rows ex_db))); [|exact Hold].
    vm_compute. reflexivity.
  - exists d', c, x. split; [reflexivity|exact Hx].
Defined.
