(* ===== verification/Auth.v ===== *)
(** * Authentication pipeline (server/auth/auth.go, pipeline.go, registry.go, config.go)

    An authenticator is a record of operations over an abstract state [W] (the
    limiters and code caches of package authsrv) and the flow's [Context]; a
    Go [error] is its text, [None] when nil. *)
From S2P Require Export ClientCert.
Local Open Scope Z_scope.

(** [StepResult]; the constants 0, 1, 2 of the source. *)
Inductive StepResult := StepPass | StepPending | StepFail.
#[export] Instance StepResult_eq_dec : EqDecision StepResult.
Proof. solve_decision. Defined.

(** [PeerCertificates] is empty when [TLS] is nil. *)
Record ConnInfo := {
  ci_Username : string; ci_Nickname : string; Password : string; GroupName_c : string;
  ci_RemoteAddr : string; UserAgent : string; ci_MacAddr : string; DeviceID : string;
  DeviceType : string; PlatformVer : string; PeerCertificates : list X509
}.

Record UserInfo := {
  ui_Username : string; ui_Nickname : string; ui_Type : string; ui_Groups : list string;
  ui_OtpSecret : string; ui_DisableOtp : bool; ui_LimitTime : option Time; ui_Phone : string;
  ui_Email : string; ui_ForcePwd : bool
}.

Record OTPState := { otp_Code : string; otp_Sent : bool }.
Record SMSState := { sms_Phone : string; sms_Code : string; sms_Sent : bool }.
Record RADIUSState := { rad_State : option (list byte); ChallengeCode : string; ChallengeMsg : string }.
Record SSOState := {
  sso_Type : string; sso_From : string; ClientIP : string; Authenticated : bool; UserID : string;
  sso_Code : string; WebAuthCompleted : bool; WebAuthUsername : string; WebAuthNickname : string;
  WebAuthGroup : string; Redirect : string
}.

Definition ChallengeOTP : string := "otp".
Definition ChallengeSSO : string := "sso".
Definition ChallengeRADIUS : string := "radius".
Definition ChallengeSMS : string := "sms".
Definition ChallengeForcePwd : string := "force_pwd".

Record ChallengeInfo := { ch_Type : string; ch_Template : string; ch_Data : list (string * string) }.

Record AuthContext := {
  Conn : ConnInfo; ctx_UserInfo : option UserInfo; Identity : string;
  OTP : option OTPState; SMS : option SMSState; RADIUS : option RADIUSState; SSO : option SSOState;
  PortalLogin : bool; WebAuth : bool; ctx_info : string; passedSteps : list string; stepIdx : Z
}.

(** ** Field updates *)
Definition with_Conn (c : ConnInfo) (x : AuthContext) : AuthContext :=
  {| Conn := c; ctx_UserInfo := ctx_UserInfo x; Identity := Identity x; OTP := OTP x; SMS := SMS x;
     RADIUS := RADIUS x; SSO := SSO x; PortalLogin := PortalLogin x; WebAuth := WebAuth x;
     ctx_info := ctx_info x; passedSteps := passedSteps x; stepIdx := stepIdx x |}.
Definition SetUserInfo (u : UserInfo) (x : AuthContext) : AuthContext :=
  {| Conn := Conn x; ctx_UserInfo := Some u; Identity := Identity x; OTP := OTP x; SMS := SMS x;
     RADIUS := RADIUS x; SSO := SSO x; PortalLogin := PortalLogin x; WebAuth := WebAuth x;
     ctx_info := ctx_info x; passedSteps := passedSteps x; stepIdx := stepIdx x |}.
Definition with_Identity (s : string) (x : AuthContext) : AuthContext :=
  {| Conn := Conn x; ctx_UserInfo := ctx_UserInfo x; Identity := s; OTP := OTP x; SMS := SMS x;
     RADIUS := RADIUS x; SSO := SSO x; PortalLogin := PortalLogin x; WebAuth := WebAuth x;
     ctx_info := ctx_info x; passedSteps := passedSteps x; stepIdx := stepIdx x |}.
Definition with_OTP (o : OTPState) (x : AuthContext) : AuthContext :=
  {| Conn := Conn x; ctx_UserInfo := ctx_UserInfo x; Identity := Identity x; OTP := Some o; SMS := SMS x;
     RADIUS := RADIUS x; SSO := SSO x; PortalLogin := PortalLogin x; WebAuth := WebAuth x;
     ctx_info := ctx_info x; passedSteps := passedSteps x; stepIdx := stepIdx x |}.
Definition with_SMS (o : SMSState) (x : AuthContext) : AuthContext :=
  {| Conn := Conn x; ctx_UserInfo := ctx_UserInfo x; Identity := Identity x; OTP := OTP x; SMS := Some o;
     RADIUS := RADIUS x; SSO := SSO x; PortalLogin := PortalLogin x; WebAuth := WebAuth x;
     ctx_info := ctx_info x; passedSteps := passedSteps x; stepIdx := stepIdx x |}.
Definition with_RADIUS (o : RADIUSState) (x : AuthContext) : AuthContext :=
  {| Conn := Conn x; ctx_UserInfo := ctx_UserInfo x; Identity := Identity x; OTP := OTP x; SMS := SMS x;
     RADIUS := Some o; SSO := SSO x; PortalLogin := PortalLogin x; WebAuth := WebAuth x;
     ctx_info := ctx_info x; passedSteps := passedSteps x; stepIdx := stepIdx x |}.
Definition SetInfo (s : string) (x : AuthContext) : AuthContext :=
  {| Conn := Conn x; ctx_UserInfo := ctx_UserInfo x; Identity := Identity x; OTP := OTP x; SMS := SMS x;
     RADIUS := RADIUS x; SSO := SSO x; PortalLogin := PortalLogin x; WebAuth := WebAuth x;
     ctx_info := s; passedSteps := passedSteps x; stepIdx := stepIdx x |}.
Definition SetPassedSteps (l : list string) (x : AuthContext) : AuthContext :=
  {| Conn := Conn x; ctx_UserInfo := ctx_UserInfo x; Identity := Identity x; OTP := OTP x; SMS := SMS x;
     RADIUS := RADIUS x; SSO := SSO x; PortalLogin := PortalLogin x; WebAuth := WebAuth x;
     ctx_info := ctx_info x; passedSteps := l; stepIdx := stepIdx x |}.
Definition SetStepIdx (i : Z) (x : AuthContext) : AuthContext :=
  {| Conn := Conn x; ctx_UserInfo := ctx_UserInfo x; Identity := Identity x; OTP := OTP x; SMS := SMS x;
     RADIUS := RADIUS x; SSO := SSO x; PortalLogin := PortalLogin x; WebAuth := WebAuth x;
     ctx_info := ctx_info x; passedSteps := passedSteps x; stepIdx := i |}.
Definition AddPassedStep (name : string) (x : AuthContext) : AuthContext :=
  SetPassedSteps (passedSteps x ++ [name]) x.

Definition GetOTP (x : AuthContext) : OTPState :=
  default {| otp_Code := ""; otp_Sent := false |} (OTP x).
Definition GetSMS (x : AuthContext) : SMSState :=
  default {| sms_Phone := ""; sms_Code := ""; sms_Sent := false |} (SMS x).
Definition GetRADIUS (x : AuthContext) : RADIUSState :=
  default {| rad_State := None; ChallengeCode := ""; ChallengeMsg := "" |} (RADIUS x).

(** ** Log text of the passed steps *)
Definition stepNameMap : gmap string string :=
  list_to_map [("local", "本地密码"); ("ldap", "LDAP"); ("radius", "RADIUS"); ("cert", "证书");
    ("otp", "OTP"); ("sms", "短信验证"); ("wxwork", "企微"); ("feishu", "飞书");
    ("dingtalk", "钉钉"); ("admin", "管理员认证")]%string.

Definition buildInfoFromSteps (steps : list string) : string :=
  match steps with
  | [] => "认证成功"
  | _ => String.concat "+" (map (λ s, default s (stepNameMap !! s)) steps) +:+ "认证通过"
  end.

Definition LogInfo (x : AuthContext) : string :=
  if 1 <? len (passedSteps x) then buildInfoFromSteps (passedSteps x)
  else if negb (String.eqb (ctx_info x) "") then ctx_info x
  else buildInfoFromSteps (passedSteps x).

(** ** Authenticators and the pipeline *)
Section pipeline.
Context {W : Type}.

(** [Authenticator] with its optional [Challenger].  An instance may keep the
    context it last authenticated ([ForcePwd] does) and read it in
    [Challenge]; the argument of [Challenge] is that context, [None] for an
    instance that has not run.  A step returns one of the three declared
    results, so the [default] branch of [runFrom] is not reachable. *)
Record Authenticator := {
  Name : string;
  Authenticate : W → AuthContext → Time → W * AuthContext * (StepResult * option string);
  Challenge : option (option AuthContext → option ChallengeInfo)
}.

Record Pipeline := { Steps : list Authenticator; pendingStep : Z }.

Definition identity_error (x : AuthContext) : option string :=
  if negb (String.eqb (Identity x) "") && negb (String.eqb (ci_Username (Conn x)) (Identity x))
  then Some ("证书身份(" +:+ Identity x +:+ ")与认证身份(" +:+ ci_Username (Conn x) +:+ ")不一致")%string
  else None.

(** The loop of [runFrom]: state, context, [pendingStep] and the outcome. *)
Fixpoint run_steps (i : Z) (steps : list Authenticator) (w : W) (x : AuthContext) (now : Time)
    : W * AuthContext * Z * (StepResult * option string) :=
  match steps with
  | [] => match identity_error x with
          | Some e => (w, x, -1, (StepFail, Some e))
          | None => (w, x, -1, (StepPass, None))
          end
  | step :: rest =>
      let '(w, x, (result, err)) := Authenticate step w x now in
      match err with
      | Some e => (w, x, -1, (StepFail, Some (Name step +:+ ": " +:+ e)%string))
      | None =>
          match result with
          | StepFail => (w, x, -1, (StepFail, None))
          | StepPending => (w, x, i, (StepPending, None))
          | StepPass =>
              let x := if negb (String.eqb (Name step) "forcepwd") then AddPassedStep (Name step) x else x in
              run_steps (i + 1) rest w x now
          end
      end
  end.

Definition runFrom (p : Pipeline) (w : W) (x : AuthContext) (start : Z) (now : Time)
    : W * AuthContext * Pipeline * (StepResult * option string) :=
  let '(w, x, pend, r) := run_steps start (skipn (Z.to_nat start) (Steps p)) w x now in
  (w, x, {| Steps := Steps p; pendingStep := pend |}, r).

Definition Pipeline_Run (p : Pipeline) (w : W) (x : AuthContext) (now : Time) := runFrom p w x 0 now.

Definition Pipeline_Resume (p : Pipeline) (w : W) (x : AuthContext) (fromStep : Z) (now : Time)
    : W * AuthContext * Pipeline * (StepResult * option string) :=
  if (fromStep <? 0) || (len (Steps p) <=? fromStep)
  then (w, x, p, (StepFail, Some ("无效的恢复步骤: " +:+ pretty fromStep)%string))
  else runFrom p w x fromStep now.

Definition GetChallenger (p : Pipeline) : option (option AuthContext → option ChallengeInfo) :=
  if (0 <=? pendingStep p) && (pendingStep p <? len (Steps p)) then
    match Steps p !! Z.to_nat (pendingStep p) with Some s => Challenge s | None => None end
  else None.

(** ** Registry and construction *)
Definition ProviderRegistry := gmap string Authenticator.

(** [Register] panics on a duplicate. *)
Definition Register (reg : ProviderRegistry) (name : string) (a : Authenticator) : res ProviderRegistry :=
  match reg !! name with Some _ => Panic | None => Ret (<[name := a]> reg) end.

Definition GetFactory (reg : ProviderRegistry) (name : string) : option Authenticator := reg !! name.
Definition IsRegistered (reg : ProviderRegistry) (name : string) : bool := bool_decide (is_Some (reg !! name)).
Definition RegisteredNames (reg : ProviderRegistry) : list string := (map_to_list reg).*1.

Definition IsSSOType (reg : ProviderRegistry) (name : string) : bool :=
  match GetFactory reg name with
  | Some a => match Challenge a with
              | Some f => match f None with
                          | Some info => String.eqb (ch_Type info) ChallengeSSO
                          | None => false
                          end
              | None => false
              end
  | None => false
  end.

Record AuthMethodConfig := { amc_Type : string; Provider : string }.
Record GroupAuthProfile := { Step : list AuthMethodConfig }.

Definition HasStep (p : GroupAuthProfile) (typ : string) : bool :=
  existsb (λ s, String.eqb (amc_Type s) typ) (Step p).

Definition hasRadiusAndOTP (steps : list AuthMethodConfig) : bool :=
  existsb (λ s, String.eqb (amc_Type s) "radius") steps
  && existsb (λ s, String.eqb (amc_Type s) "otp") steps.

Definition is_credential (typ : string) : bool :=
  String.eqb typ "local" || String.eqb typ "ldap" || String.eqb typ "radius".

Definition hasSSOAndCredential (reg : ProviderRegistry) (steps : list AuthMethodConfig) : bool :=
  existsb (λ s, IsSSOType reg (amc_Type s)) steps
  && existsb (λ s, is_credential (amc_Type s)) steps.

(** [ParseAuthProfile]; [decode] is [json.Unmarshal], [None] when it fails. *)
Inductive ProfileError :=
  | EmptyProfile | BadProfile | NoSteps | FirstStepOtp | RadiusAndOtp | SsoAndCredential.

Definition ParseAuthProfile (decode : string → option GroupAuthProfile) (reg : ProviderRegistry)
    (raw : string) : ProfileError + GroupAuthProfile :=
  if String.eqb raw "" then inl EmptyProfile
  else
    match decode raw with
    | None => inl BadProfile
    | Some profile =>
        match Step profile with
        | [] => inl NoSteps
        | s0 :: _ =>
            if String.eqb (amc_Type s0) "otp" then inl FirstStepOtp
            else if hasRadiusAndOTP (Step profile) then inl RadiusAndOtp
            else if hasSSOAndCredential reg (Step profile) then inl SsoAndCredential
            else inr profile
        end
    end.

(** [GetPipeline]; [configure provider typ a] is the resolver followed by the
    decoding of its map into the instance, an error text when either fails. *)
Inductive PipelineError :=
  | NoProfileSteps | UnknownType (typ : string) (i : Z) | ProviderFailed (provider : string) (i : Z) (e : string).

Fixpoint get_steps (reg : ProviderRegistry) (configure : string → string → Authenticator → string + Authenticator)
    (i : Z) (cfgs : list AuthMethodConfig) : PipelineError + list Authenticator :=
  match cfgs with
  | [] => inr []
  | c :: cfgs =>
      match GetFactory reg (amc_Type c) with
      | None => inl (UnknownType (amc_Type c) i)
      | Some a =>
          match (if String.eqb (Provider c) "" then inr a else configure (Provider c) (amc_Type c) a) with
          | inl e => inl (ProviderFailed (Provider c) i e)
          | inr a => match get_steps reg configure (i + 1) cfgs with
                     | inr r => inr (a :: r)
                     | inl e => inl e
                     end
          end
      end
  end.

Definition GetPipeline (reg : ProviderRegistry) configure (profile : GroupAuthProfile)
    : PipelineError + Pipeline :=
  match Step profile with
  | [] => inl NoProfileSteps
  | cfgs => match get_steps reg configure 0 cfgs with
            | inr steps => inr {| Steps := steps; pendingStep := 0 |}
            | inl e => inl e
            end
  end.

(** ** Results *)
Record PipelineState := { StepIdx : Z; PassedSteps : list string }.

(** A Go [error] of the flow; a step's own error carries its text. *)
Inductive AuthError :=
  | ErrGroupNotFound | ErrGroupQuery | ErrGroupDisabled (name : string)
  | ErrProfile (e : ProfileError) | ErrPipeline (e : PipelineError) | ErrStep (text : string).

Record PipelineResult := {
  pr_Result : StepResult; Err : option AuthError; pr_Username : string; pr_GroupName : string;
  Info : string; pr_LimitTime : option Time; pr_Challenge : option ChallengeInfo;
  State : PipelineState; PrevStepIdx : Z
}.

Definition IsChallengeRetry (r : PipelineResult) : bool :=
  if PrevStepIdx r <? 0 then false
  else bool_decide (pr_Result r = StepPending) && (StepIdx (State r) =? PrevStepIdx r).

(** [PipelineResult{Result: StepFail, Err: err}], other fields zero. *)
Definition fail_result (e : AuthError) : PipelineResult :=
  {| pr_Result := StepFail; Err := Some e; pr_Username := ""; pr_GroupName := ""; Info := "";
     pr_LimitTime := None; pr_Challenge := None; State := {| StepIdx := 0; PassedSteps := [] |};
     PrevStepIdx := 0 |}.

(** [getPipelineResult] of package authsrv. *)
Definition getPipelineResult (x : AuthContext) (r : StepResult * option string) (p : Pipeline)
    (prev : Z) : PipelineResult :=
  let pending := bool_decide (r.1 = StepPending) in
  {| pr_Result := r.1; Err := ErrStep <$> r.2; pr_Username := ci_Username (Conn x);
     pr_GroupName := GroupName_c (Conn x); Info := LogInfo x;
     pr_LimitTime := match ctx_UserInfo x with Some u => ui_LimitTime u | None => None end;
     pr_Challenge := if pending then match GetChallenger p with Some f => f (Some x) | None => None end else None;
     State := if pending then {| StepIdx := pendingStep p; PassedSteps := passedSteps x |}
              else {| StepIdx := 0; PassedSteps := [] |};
     PrevStepIdx := prev |}.

(** [insertForcePwd]: behind the first [local] step. *)
Fixpoint insert_force_pwd (f : Authenticator) (steps : list Authenticator) : list Authenticator :=
  match steps with
  | [] => []
  | s :: r => if String.eqb (Name s) "local" then s :: f :: r else s :: insert_force_pwd f r
  end.

Definition insertForcePwd (reg : ProviderRegistry) (p : Pipeline) : Pipeline :=
  match GetFactory reg "forcepwd" with
  | Some f => {| Steps := insert_force_pwd f (Steps p); pendingStep := pendingStep p |}
  | None => p
  end.

(** ** Entry points of package authsrv

    The database is read through [group_by_name] ([One("Name", ..)]) and
    [user_by_name] ([One("Username", ..)]), which see the current state. *)
Context (group_by_name : W → string → lookup_res Group)
        (user_by_name : W → string → lookup_res User)
        (decode : string → option GroupAuthProfile)
        (configure : W → string → string → Authenticator → string + Authenticator).

Definition loadGroup (w : W) (name : string) : AuthError + Group :=
  match group_by_name w name with
  | Found g => if grp_Status g =? 1 then inr g else inl (ErrGroupDisabled name)
  | NotFound => inl ErrGroupNotFound
  | LookupErr => inl ErrGroupQuery
  end.

Definition loadAndParseProfile (reg : ProviderRegistry) (w : W) (name : string)
    : AuthError + GroupAuthProfile :=
  match loadGroup w name with
  | inl e => inl e
  | inr g => match ParseAuthProfile decode reg (AuthProfile g) with
             | inl e => inl (ErrProfile e)
             | inr p => inr p
             end
  end.

(** [User.ToAuthInfo] *)
Definition ToAuthInfo (u : User) : UserInfo := {|
  ui_Username := usr_Username u; ui_Nickname := usr_Nickname u; ui_Type := usr_Type u;
  ui_Groups := Groups u; ui_OtpSecret := OtpSecret u; ui_DisableOtp := DisableOtp u;
  ui_LimitTime := LimitTime u; ui_Phone := Phone u; ui_Email := Email u; ui_ForcePwd := ForcePwd u |}.

Definition loadUser (w : W) (username : string) : option UserInfo :=
  match user_by_name w username with Found u => Some (ToAuthInfo u) | _ => None end.

Definition ReloadUserInfo (w : W) (x : AuthContext) : AuthContext :=
  if String.eqb (ci_Username (Conn x)) "" then x
  else match loadUser w (ci_Username (Conn x)) with Some u => SetUserInfo u x | None => x end.

Definition LoadUserInfo (w : W) (x : AuthContext) : AuthContext :=
  if String.eqb (ci_Username (Conn x)) "" || bool_decide (is_Some (ctx_UserInfo x)) then x
  else match loadUser w (ci_Username (Conn x)) with Some u => SetUserInfo u x | None => x end.

Definition ReloadAndCheckUser (w : W) (x : AuthContext) (now : Time) : AuthContext * option string :=
  if String.eqb (ci_Username (Conn x)) "" then (x, None)
  else
    match user_by_name w (ci_Username (Conn x)) with
    | NotFound => (x, None)
    | LookupErr => (x, Some "查询用户失败"%string)
    | Found u =>
        if negb (usr_Status u =? 1) then (x, Some "用户已被禁用"%string)
        else if IsExpired (LimitTime u) now then (x, Some "用户已过期"%string)
        else (SetUserInfo (ToAuthInfo u) x, None)
    end.

(** The pipeline both entry points build. *)
Definition build_pipeline (reg : ProviderRegistry) (w : W) (group : string)
    : AuthError + GroupAuthProfile * Pipeline :=
  match loadAndParseProfile reg w group with
  | inl e => inl e
  | inr profile =>
      match GetPipeline reg (configure w) profile with
      | inl e => inl (ErrPipeline e)
      | inr p => inr (profile, insertForcePwd reg p)
      end
  end.

Definition Authsrv_Authenticate (reg : ProviderRegistry) (w : W) (x : AuthContext) (now : Time)
    : W * AuthContext * PipelineResult :=
  match build_pipeline reg w (GroupName_c (Conn x)) with
  | inl e => (w, x, fail_result e)
  | inr (profile, p) =>
      let first_local := match Step profile with s :: _ => String.eqb (amc_Type s) "local" | [] => false end in
      let x := if HasStep profile "otp" && negb first_local then LoadUserInfo w x else x in
      let '(w, x, p, r) := Pipeline_Run p w x now in
      (w, x, getPipelineResult x r p (-1))
  end.

Definition Authsrv_Resume (reg : ProviderRegistry) (w : W) (x : AuthContext) (state : PipelineState)
    (now : Time) : W * AuthContext * PipelineResult :=
  match build_pipeline reg w (GroupName_c (Conn x)) with
  | inl e => (w, x, fail_result e)
  | inr (_, p) =>
      let x := SetPassedSteps (PassedSteps state) x in
      let '(w, x, p, r) := Pipeline_Resume p w x (StepIdx state) now in
      (w, x, getPipelineResult x r p (StepIdx state))
  end.

(** [GetSSOType] and [CertAutoAuth] *)
Definition GetSSOType (reg : ProviderRegistry) (w : W) (group : string) : string :=
  match loadAndParseProfile reg w group with
  | inl _ => ""
  | inr profile =>
      match List.find (λ s, IsSSOType reg (amc_Type s)) (Step profile) with
      | Some s => amc_Type s
      | None => ""
      end
  end.

Definition CertAutoAuth (reg : ProviderRegistry) (w : W) (group : string) : bool :=
  match loadAndParseProfile reg w group with
  | inl _ => false
  | inr profile =>
      match Step profile with
      | [] => false
      | s0 :: _ => String.eqb (amc_Type s0) "cert"
                   && negb (existsb (λ s, is_credential (amc_Type s)) (Step profile))
      end
  end.
End pipeline.
Arguments Authenticator W : clear implicits.
Arguments Pipeline W : clear implicits.
Arguments ProviderRegistry W : clear implicits.
