(* ===== verification/AuthSteps.v ===== *)
(** * The authenticators (server/auth/authsrv: local, cert, otp, sms, radius, forcepwd)

    [E] is the world outside the package: the user and group tables, the SMS
    gateway, the RADIUS server and the random source, reached through the
    operations of [AuthEnv].  [AuthWorld] adds the package's own state: the
    used-code table, the two send limiters, the SMS code cache and the
    certificate table. *)
From S2P Require Export Auth.
Local Open Scope Z_scope.

(** ** The outside world *)
Record RADIUSConfig := { rad_Addr : string; rad_Secret : string; NasIP : string }.
Record RadiusRequest := {
  rq_UserName : string; rq_UserPassword : string; rq_State : option (list byte);
  rq_NASIP : string; rq_CallingStationID : string
}.
Inductive RadiusResponse :=
  | RadiusError (e : string)
  | AccessAccept
  | AccessChallenge (state : option (list byte)) (msg : string)
  | OtherCode.

Class AuthEnv (E : Type) := {
  env_user : E → string → lookup_res User;
  env_group : E → string → lookup_res Group;
  env_bcrypt : string → string → bool;
  env_totp : string → string → Z → bool;
  env_parse_pem : string → option X509;
  env_chain : E → X509 → Time → bool;
  env_digit : E → E * Z;
  env_send_sms : E → string → string → E * option string;
  env_attr_error : RadiusRequest → option string;
  env_radius : E → RADIUSConfig → RadiusRequest → E * RadiusResponse
}.

(** ** Passwords (server/pkg/utils/password_hash.go, dbdata.VerifyPassword) *)
Definition IsBcryptHash (hash : string) : bool :=
  if negb (str_len hash =? 60) then false
  else str_has_prefix hash "$2a$" || str_has_prefix hash "$2b$" || str_has_prefix hash "$2y$".

Definition is_letter (b : byte) : bool :=
  let c := b2z b in (97 <=? c) && (c <=? 122) || (65 <=? c) && (c <=? 90).
Definition is_digit (b : byte) : bool := let c := b2z b in (48 <=? c) && (c <=? 57).

(** The source ranges over runes; an ASCII letter or digit is a rune of its own
    byte, and no byte of a longer rune is ASCII. *)
Definition CheckPasswordPolicy (password : string) : option string :=
  if str_len password <? 8 then Some "密码长度不能少于 8 位"%string
  else if negb (existsb is_letter (bytes_of password)) || negb (existsb is_digit (bytes_of password))
  then Some "密码需同时包含字母和数字"%string
  else None.

(** ** State *)
Record SendWindow := { win_count : Z; win_reset : Time }.
Record SendLimiter := { lim_next : gmap string Time; lim_ipWin : gmap string SendWindow }.
Record smsCode := { sc_code : string; sc_expires : Time; sc_retries : Z; sc_user : string }.

Record AuthWorld (E : Type) := {
  env : E; userOtp : gmap string Time; otpLimiter : SendLimiter;
  smsCodes : gmap string smsCode; smsLimiter : SendLimiter; certs : CertDb
}.
Arguments env {E} _.
Arguments userOtp {E} _.
Arguments otpLimiter {E} _.
Arguments smsCodes {E} _.
Arguments smsLimiter {E} _.
Arguments certs {E} _.

Definition otpResendLimit : Duration := 60 * Second.
Definition otpIPWindow : Duration := 1 * Minute.
Definition otpIPMaxPerWindow : Z := 5.
Definition smsCodeLength : nat := 6.
Definition smsCodeTTL : Duration := 5 * Minute.
Definition smsIPWindow : Duration := 1 * Minute.
Definition smsIPMaxPerWindow : Z := 5.
Definition smsResendLimit : Duration := 60 * Second.
Definition smsMaxRetries : Z := 5.

(** The host of [host:port], or the whole text when it does not split. *)
Definition addr_host (addr : string) : string :=
  match SplitHostPort addr with Some (h, _) => h | None => addr end.

Definition with_next (k : string) (t : Time) (l : SendLimiter) : SendLimiter :=
  {| lim_next := <[k := t]> (lim_next l); lim_ipWin := lim_ipWin l |}.
Definition with_win (ip : string) (w : SendWindow) (l : SendLimiter) : SendLimiter :=
  {| lim_next := lim_next l; lim_ipWin := <[ip := w]> (lim_ipWin l) |}.

(** One send counted against an address: [None] when the window is full. *)
Definition count_ip (l : SendLimiter) (ip : string) (window : Duration) (maxPer : Z) (now : Time)
    : option SendLimiter :=
  match lim_ipWin l !! ip with
  | None => Some (with_win ip {| win_count := 1; win_reset := time_Add now window |} l)
  | Some w =>
      if time_After now (win_reset w)
      then Some (with_win ip {| win_count := 1; win_reset := time_Add now window |} l)
      else if maxPer <=? win_count w then None
      else Some (with_win ip {| win_count := win_count w + 1; win_reset := win_reset w |} l)
  end.

Section steps.
Context {E : Type} `{!AuthEnv E}.
Implicit Type w : AuthWorld E.

Definition with_env (e : E) w : AuthWorld E :=
  {| env := e; userOtp := userOtp w; otpLimiter := otpLimiter w; smsCodes := smsCodes w;
     smsLimiter := smsLimiter w; certs := certs w |}.
Definition with_userOtp (m : gmap string Time) w : AuthWorld E :=
  {| env := env w; userOtp := m; otpLimiter := otpLimiter w; smsCodes := smsCodes w;
     smsLimiter := smsLimiter w; certs := certs w |}.
Definition with_otpLimiter (l : SendLimiter) w : AuthWorld E :=
  {| env := env w; userOtp := userOtp w; otpLimiter := l; smsCodes := smsCodes w;
     smsLimiter := smsLimiter w; certs := certs w |}.
Definition with_smsCodes (m : gmap string smsCode) w : AuthWorld E :=
  {| env := env w; userOtp := userOtp w; otpLimiter := otpLimiter w; smsCodes := m;
     smsLimiter := smsLimiter w; certs := certs w |}.
Definition with_smsLimiter (l : SendLimiter) w : AuthWorld E :=
  {| env := env w; userOtp := userOtp w; otpLimiter := otpLimiter w; smsCodes := smsCodes w;
     smsLimiter := l; certs := certs w |}.
Definition with_certs (c : CertDb) w : AuthWorld E :=
  {| env := env w; userOtp := userOtp w; otpLimiter := otpLimiter w; smsCodes := smsCodes w;
     smsLimiter := smsLimiter w; certs := c |}.

Definition world_user w (name : string) : lookup_res User := env_user (env w) name.
Definition world_group w (name : string) : lookup_res Group := env_group (env w) name.

Definition PasswordVerify (password hash : string) : bool :=
  if IsBcryptHash hash then env_bcrypt hash password else String.eqb hash password.

Definition VerifyPassword (password pinCode : string) : bool :=
  if IsBcryptHash pinCode then PasswordVerify password pinCode else String.eqb pinCode password.

(** ** One-time codes *)
Definition otpSendAllowed w (username remoteAddr : string) (now : Time) : AuthWorld E * (bool * Z) :=
  let l := otpLimiter w in
  let blocked := match lim_next l !! username with Some t => time_Before now t | None => false end in
  if blocked then
    (w, (false, Z.quot (default now (lim_next l !! username) - now) Second))
  else
    match (if String.eqb remoteAddr "" then Some l
           else count_ip l (addr_host remoteAddr) otpIPWindow otpIPMaxPerWindow now) with
    | None => (w, (false, 0))
    | Some l => (with_otpLimiter (with_next username (time_Add now otpResendLimit) l) w, (true, 0))
    end.

Definition otp_key (name otp : string) : string := (name +:+ ":" +:+ otp)%string.

Definition CheckOtp w (name otp secret : string) (now : Time) : AuthWorld E * bool :=
  let key := otp_key name otp in
  match userOtp w !! key with
  | Some _ => (w, false)
  | None =>
      let t := time_Unix now in
      let verify := env_totp secret otp t
        || env_totp secret otp (t - 30) || env_totp secret otp (t + 30)
        || env_totp secret otp (t - 60) || env_totp secret otp (t + 60) in
      if verify then (with_userOtp (<[key := now]> (userOtp w)) w, true) else (w, false)
  end.

(** The sweep of the background goroutine, every 10 seconds. *)
Definition otp_sweep w (now : Time) : AuthWorld E :=
  with_userOtp (filter (λ kv : string * Time, ¬ (kv.2 < now - 120 * Second)) (userOtp w)) w.

(** ** SMS codes *)
Fixpoint random_digits (n : nat) (e : E) : E * list byte :=
  match n with
  | O => (e, [])
  | S n => let '(e, d) := env_digit e in
           let '(e, ds) := random_digits n e in (e, z2b (48 + d) :: ds)
  end.

Definition generateSmsCode (e : E) : E * string :=
  let '(e, ds) := random_digits smsCodeLength e in (e, str_of ds).

(** [fromIP] is the optional variadic argument. *)
Definition SendSmsCode w (phone : string) (fromIP : option string) (now : Time)
    : AuthWorld E * (string + string) :=
  let l := smsLimiter w in
  let blocked := match lim_next l !! phone with Some t => time_Before now t | None => false end in
  if blocked then
    (w, inl ("发送过于频繁，请 " +:+ pretty (Z.quot (default now (lim_next l !! phone) - now) Second)
             +:+ " 秒后重试")%string)
  else
    let l := with_next phone (time_Add now smsResendLimit) l in
    match (match fromIP with
           | None => Some l
           | Some ip => let ip := addr_host ip in
                        if String.eqb ip "" then Some l
                        else count_ip l ip smsIPWindow smsIPMaxPerWindow now
           end) with
    | None => (with_smsLimiter l w, inl "发送过于频繁，请稍后重试"%string)
    | Some l =>
        let w := with_smsLimiter l w in
        let '(e, code) := generateSmsCode (env w) in
        let '(e, err) := env_send_sms e phone code in
        let w := with_env e w in
        match err with
        | Some e => (w, inl ("短信发送失败: " +:+ e)%string)
        | None =>
            (with_smsCodes (<[phone := {| sc_code := code; sc_expires := time_Add now smsCodeTTL;
                                          sc_retries := 0; sc_user := "" |}]> (smsCodes w)) w, inr code)
        end
    end.

(** The user recorded with the code, or an error text. *)
Definition VerifySmsCode w (phone code : string) (now : Time) : AuthWorld E * (string + string) :=
  match smsCodes w !! phone with
  | None => (w, inl "验证码不存在或已过期，请重新获取"%string)
  | Some cached =>
      if time_After now (sc_expires cached) then
        (with_smsCodes (delete phone (smsCodes w)) w, inl "验证码已过期，请重新获取"%string)
      else
        let cached := {| sc_code := sc_code cached; sc_expires := sc_expires cached;
                         sc_retries := sc_retries cached + 1; sc_user := sc_user cached |} in
        if smsMaxRetries <? sc_retries cached then
          (with_smsCodes (delete phone (smsCodes w)) w, inl "验证码错误次数过多，请重新获取"%string)
        else if negb (String.eqb (sc_code cached) code) then
          (with_smsCodes (<[phone := cached]> (smsCodes w)) w, inl "验证码错误"%string)
        else (with_smsCodes (delete phone (smsCodes w)) w, inr (sc_user cached))
  end.

Definition sms_sweep w (now : Time) : AuthWorld E :=
  with_smsCodes (filter (λ kv : string * smsCode, ¬ (sc_expires kv.2 < now)) (smsCodes w)) w.

(** ** The steps *)
Definition set_Nickname (n : string) (c : ConnInfo) : ConnInfo :=
  {| ci_Username := ci_Username c; ci_Nickname := n; Password := Password c; GroupName_c := GroupName_c c;
     ci_RemoteAddr := ci_RemoteAddr c; UserAgent := UserAgent c; ci_MacAddr := ci_MacAddr c;
     DeviceID := DeviceID c; DeviceType := DeviceType c; PlatformVer := PlatformVer c;
     PeerCertificates := PeerCertificates c |}.
Definition set_Username (n : string) (c : ConnInfo) : ConnInfo :=
  {| ci_Username := n; ci_Nickname := ci_Nickname c; Password := Password c; GroupName_c := GroupName_c c;
     ci_RemoteAddr := ci_RemoteAddr c; UserAgent := UserAgent c; ci_MacAddr := ci_MacAddr c;
     DeviceID := DeviceID c; DeviceType := DeviceType c; PlatformVer := PlatformVer c;
     PeerCertificates := PeerCertificates c |}.

Definition step_out : Type := AuthWorld E * AuthContext * (StepResult * option string).
Definition fail w (x : AuthContext) (e : string) : step_out := (w, x, (StepFail, Some e)).
Definition pass w (x : AuthContext) : step_out := (w, x, (StepPass, None)).
Definition pending w (x : AuthContext) : step_out := (w, x, (StepPending, None)).

Definition LocalAuth_Authenticate w (x : AuthContext) (now : Time) : step_out :=
  if String.eqb (ci_Username (Conn x)) "" || (str_len (Password (Conn x)) <? 6)
  then fail w x "用户名或密码格式错误"
  else
    match world_user w (ci_Username (Conn x)) with
    | Found v =>
        if negb (usr_Status v =? 1) then fail w x "用户名或密码错误"
        else
          let x := with_Conn (set_Nickname (usr_Nickname v) (Conn x)) (SetUserInfo (ToAuthInfo v) x) in
          if negb (VerifyPassword (Password (Conn x)) (PinCode v)) then fail w x "用户名或密码错误"
          else if IsExpired (LimitTime v) now then fail w x "用户已过期"
          else if String.eqb (usr_Type v) "ldap" then fail w x "LDAP 用户不能使用本地认证"
          else if negb (bool_decide (GroupName_c (Conn x) ∈ Groups v)) then fail w x "用户组错误"
          else pass w x
    | _ => fail w x "用户名或密码错误"
    end.

Definition OTPAuth_Authenticate (cfg : ServerConfig) w (x : AuthContext) (now : Time) : step_out :=
  let x := match ctx_UserInfo x with None => LoadUserInfo world_user w x | Some _ => x end in
  match ctx_UserInfo x with
  | None => fail w x ("用户 " +:+ ci_Username (Conn x) +:+
              " 未在本地数据库中找到，无法进行 OTP 验证，请先将该用户同步到本地并开启 OTP 动态验证")
  | Some ub =>
      if ui_DisableOtp ub then pass w x
      else if String.eqb (ui_OtpSecret ub) "" then
        fail w x ("用户 " +:+ ci_Username (Conn x) +:+ " 未启用 OTP 动态验证，请联系管理员")
      else
        let code := match OTP x with Some o => otp_Code o | None => "" end in
        let sent := match OTP x with Some o => otp_Sent o | None => false end in
        if String.eqb code "" then
          if SendOtp cfg && negb sent then
            let '(w, (ok, _)) := otpSendAllowed w (ci_Username (Conn x)) (ci_RemoteAddr (Conn x)) now in
            if ok then pending w (with_OTP {| otp_Code := otp_Code (GetOTP x); otp_Sent := true |} x)
            else pending w x
          else pending w x
        else
          let '(w, ok) := CheckOtp w (ui_Username ub) code (ui_OtpSecret ub) now in
          if ok then pass w x
          else pending w (with_OTP {| otp_Code := ""; otp_Sent := otp_Sent (GetOTP x) |} x)
  end.

(** The phone the SMS step settles on, with the context it leaves. *)
Definition sms_phone w (x : AuthContext) : AuthContext :=
  let set p y := if String.eqb p "" then y
                 else with_SMS {| sms_Phone := p; sms_Code := sms_Code (GetSMS y); sms_Sent := sms_Sent (GetSMS y) |} y in
  match ctx_UserInfo x with
  | Some ub =>
      if negb (String.eqb (ui_Phone ub) "") then set (ui_Phone ub) x
      else if negb (String.eqb (ci_Username (Conn x)) "") then
        let x := LoadUserInfo world_user w x in
        match ctx_UserInfo x with Some ub => set (ui_Phone ub) x | None => x end
      else x
  | None =>
      if negb (String.eqb (ci_Username (Conn x)) "") then
        let x := LoadUserInfo world_user w x in
        match ctx_UserInfo x with Some ub => set (ui_Phone ub) x | None => x end
      else x
  end.

Definition set_sms_user (phone user : string) (m : gmap string smsCode) : gmap string smsCode :=
  match m !! phone with
  | Some c => <[phone := {| sc_code := sc_code c; sc_expires := sc_expires c;
                            sc_retries := sc_retries c; sc_user := user |}]> m
  | None => m
  end.

Definition SmsAuth_Authenticate w (x : AuthContext) (now : Time) : step_out :=
  let x := with_SMS (GetSMS x) x in
  let x1 := if String.eqb (sms_Phone (GetSMS x)) "" then sms_phone w x else x in
  if String.eqb (sms_Phone (GetSMS x1)) "" then fail w x1 "未找到用户手机号，无法发送短信验证码"
  else
    let x := if String.eqb (sms_Phone (GetSMS x)) "" then
               with_SMS {| sms_Phone := sms_Phone (GetSMS x1); sms_Code := sms_Code (GetSMS x1);
                           sms_Sent := false |} x1
             else x1 in
    let sms := GetSMS x in
    if String.eqb (sms_Code sms) "" then
      if negb (sms_Sent sms) then
        let '(w, r) := SendSmsCode w (sms_Phone sms) None now in
        match r with
        | inl e => fail w x ("短信验证码发送失败: " +:+ e)
        | inr _ =>
            pending (with_smsCodes (set_sms_user (sms_Phone sms) (ci_Username (Conn x)) (smsCodes w)) w)
                    (with_SMS {| sms_Phone := sms_Phone sms; sms_Code := sms_Code sms; sms_Sent := true |} x)
        end
      else pending w x
    else
      let '(w, r) := VerifySmsCode w (sms_Phone sms) (sms_Code sms) now in
      match r with
      | inl _ => pending w (with_SMS {| sms_Phone := sms_Phone sms; sms_Code := ""; sms_Sent := sms_Sent sms |} x)
      | inr _ => pass w x
      end.

Definition CertAuth_Authenticate w (x : AuthContext) (now : Time) : step_out :=
  match PeerCertificates (Conn x) with
  | [] => fail w x "客户端未提供证书"
  | cert :: _ =>
      match OrganizationalUnit cert with
      | [] => fail w x "客户端证书缺少 OU 信息"
      | groupname :: _ =>
          let username := CommonName cert in
          if String.eqb username "" || String.eqb groupname "" then fail w x "客户端证书缺少用户或组信息"
          else if negb (String.eqb groupname (GroupName_c (Conn x))) then
            fail w x ("证书绑定组(" +:+ groupname +:+ ")与认证组(" +:+ GroupName_c (Conn x) +:+ ")不一致")
          else
            let '(cs, ok) := ValidateClientCert (world_user w) env_parse_pem (env_chain (env w)) (certs w)
                               cert (DeviceID (Conn x)) now in
            let w := with_certs cs w in
            if negb ok then fail w x "客户端证书验证失败"
            else
              let x := if String.eqb (ci_Username (Conn x)) "" then with_Conn (set_Username username (Conn x)) x
                       else x in
              let x := with_Identity username x in
              match world_user w username with
              | Found u =>
                  if negb (usr_Status u =? 1) then fail w x "用户已被禁用"
                  else if IsExpired (LimitTime u) now then fail w x "用户已过期"
                  else pass w (with_Conn (set_Nickname (usr_Nickname u) (Conn x)) (SetUserInfo (ToAuthInfo u) x))
              | _ => pass w x
              end
      end
  end.

(** [env_attr_error rq] is the error text of the first attribute of the packet
    the RADIUS library refuses (too long, or not an IPv4 address). *)
Definition RADIUSAuth_Authenticate (a : RADIUSConfig) w (x : AuthContext) (now : Time) : step_out :=
  if String.eqb (ci_Username (Conn x)) "" then pending w x
  else
    let prevState := match RADIUS x with Some r => rad_State r | None => None end in
    let isResume := bool_decide (is_Some prevState) in
    let code := match RADIUS x with Some r => ChallengeCode r | None => "" end in
    let password := if isResume then code else Password (Conn x) in
    if String.eqb password "" then pending w x
    else
      let rq := {| rq_UserName := ci_Username (Conn x); rq_UserPassword := password;
                   rq_State := match prevState with Some (b :: s) => Some (b :: s) | _ => None end;
                   rq_NASIP := NasIP a; rq_CallingStationID := ci_MacAddr (Conn x) |} in
      match env_attr_error rq with
      | Some e => fail w x e
      | None =>
          let '(e, resp) := env_radius (env w) a rq in
          let w := with_env e w in
          match resp with
          | RadiusError e => fail w x ("RADIUS 服务器连接异常: " +:+ e)
          | AccessAccept => pass w (SetInfo "RADIUS 认证通过" x)
          | AccessChallenge state msg =>
              pending w (SetInfo "RADIUS 需要二次验证"
                (with_RADIUS {| rad_State := state; ChallengeCode := ChallengeCode (GetRADIUS x);
                                ChallengeMsg := msg |} x))
          | OtherCode => fail w x "RADIUS 用户名或密码错误"
          end
      end.

Definition ForcePwd_Authenticate w (x : AuthContext) (now : Time) : step_out :=
  let x := match ctx_UserInfo x with None => LoadUserInfo world_user w x | Some _ => x end in
  match ctx_UserInfo x with
  | None => fail w x "查询用户失败"
  | Some u =>
      if negb (String.eqb (ui_Type u) "") && negb (String.eqb (ui_Type u) "local") then pass w x
      else if negb (ui_ForcePwd u) then pass w x
      else pending w x
  end.

(** ** Their instances in the registry *)
Definition LocalAuth : Authenticator (AuthWorld E) :=
  {| Name := "local"; Authenticate := LocalAuth_Authenticate; Challenge := Some (λ _, None) |}.
Definition CertAuth : Authenticator (AuthWorld E) :=
  {| Name := "cert"; Authenticate := CertAuth_Authenticate; Challenge := Some (λ _, None) |}.
Definition OTPAuth (cfg : ServerConfig) : Authenticator (AuthWorld E) :=
  {| Name := "otp"; Authenticate := OTPAuth_Authenticate cfg;
     Challenge := Some (λ _, Some {| ch_Type := ChallengeOTP; ch_Template := "otp"; ch_Data := [] |}) |}.
Definition SmsAuth : Authenticator (AuthWorld E) :=
  {| Name := "sms"; Authenticate := SmsAuth_Authenticate;
     Challenge := Some (λ _, Some {| ch_Type := ChallengeSMS; ch_Template := "sms"; ch_Data := [] |}) |}.
Definition RADIUSAuth (a : RADIUSConfig) : Authenticator (AuthWorld E) :=
  {| Name := "radius"; Authenticate := RADIUSAuth_Authenticate a;
     Challenge := Some (λ _, Some {| ch_Type := ChallengeRADIUS; ch_Template := "radius_challenge"; ch_Data := [] |}) |}.
Definition ForcePwdAuth : Authenticator (AuthWorld E) :=
  {| Name := "forcepwd"; Authenticate := ForcePwd_Authenticate;
     Challenge := Some (λ o, match o with
       | None => None
       | Some x => Some {| ch_Type := ChallengeForcePwd; ch_Template := "";
                           ch_Data := [("username"%string, ci_Username (Conn x))] |}
       end) |}.

(** The registry after the package's [init] functions, less the authenticators
    of outside identity providers. *)
Definition authsrv_registry (cfg : ServerConfig) : ProviderRegistry (AuthWorld E) :=
  list_to_map [("local", LocalAuth); ("cert", CertAuth); ("otp", OTPAuth cfg); ("sms", SmsAuth);
               ("radius", RADIUSAuth {| rad_Addr := ""; rad_Secret := ""; NasIP := "" |});
               ("forcepwd", ForcePwdAuth)]%string.
End steps.
