(* ===== verification/AuthSpec.v ===== *)
(** * Authentication: what a granted login, a used code and a limiter guarantee *)
From S2P Require Import AuthSteps.
Local Open Scope Z_scope.

(** ** The pipeline *)

(** The names the pipeline records for the steps it has passed. *)
Definition recorded {W} (l : list (Authenticator W)) : list string :=
  filter (λ n, n ≠ "forcepwd"%string) (Name <$> l).

(** What every authenticator leaves alone: the record of passed steps, the
    group, and a user name already known. *)
Definition well_behaved {W} (a : Authenticator W) : Prop :=
  ∀ w x now, let x' := (Authenticate a w x now).1.2 in
    passedSteps x' = passedSteps x ∧ GroupName_c (Conn x') = GroupName_c (Conn x)
    ∧ (ci_Username (Conn x) ≠ ""%string → ci_Username (Conn x') = ci_Username (Conn x)).

(** The context as [runFrom] leaves it behind a passed step. *)
Definition after_pass {W} (a : Authenticator W) (x : AuthContext) : AuthContext :=
  if negb (String.eqb (Name a) "forcepwd") then AddPassedStep (Name a) x else x.

Lemma after_pass_frame {W} (a : Authenticator W) x :
  Conn (after_pass a x) = Conn x ∧ Identity (after_pass a x) = Identity x.
Proof. unfold after_pass. by destruct (negb _). Qed.

Lemma after_pass_recorded {W} (a : Authenticator W) x l :
  passedSteps (after_pass a x) ++ recorded l = passedSteps x ++ recorded (a :: l).
Proof.
  unfold after_pass, recorded. cbn [fmap list_fmap]. rewrite filter_cons.
  destruct (String.eqb_spec (Name a) "forcepwd"); cbn [negb].
  - by rewrite decide_False by tauto.
  - rewrite decide_True by done. simpl. by rewrite <- app_assoc.
Qed.

Section run.
Context {W : Type}.
Implicit Types (w : W) (x : AuthContext).

(** Hoare rule for the loop: [P k] holds once the first [k] of the steps have
    passed.  A run that passes ends in [P] of all of them; one that waits stops
    at a step in [P] of those before it. *)
Lemma run_steps_rule (P : nat → W → AuthContext → Prop) steps now :
  (∀ k a w x w' x', steps !! k = Some a → P k w x →
     Authenticate a w x now = (w', x', (StepPass, None)) → P (S k) w' (after_pass a x')) →
  (∀ k a w x w' x', steps !! k = Some a → P k w x →
     Authenticate a w x now = (w', x', (StepPending, None)) → P k w' x') →
  ∀ n rest i w x w' x' pend r, rest = drop n steps → i = Z.of_nat n → P n w x →
  run_steps i rest w x now = (w', x', pend, r) →
  match r with
  | (StepPass, None) => (n ≤ length steps)%nat → P (length steps) w' x' ∧ identity_error x' = None
  | (StepPending, None) => ∃ k, (k < length steps)%nat ∧ pend = Z.of_nat k ∧ P k w' x'
  | (StepFail, _) => pend = -1
  | _ => False
  end.
Proof.
  intros Hpass Hpend n rest. revert n.
  induction rest as [|a rest IH]; intros n i w x w' x' pend r Hrest Hi HP H; simpl in H.
  - destruct (identity_error x) eqn:Eid; simplify_eq; [done|]. intros Hle. split; [|done].
    symmetry in Hrest. apply (f_equal length) in Hrest. rewrite length_drop in Hrest. simpl in Hrest.
    by replace (length steps) with n by lia.
  - assert (steps !! n = Some a) as Ha.
    { rewrite <- (Nat.add_0_r n), <- lookup_drop, <- Hrest. done. }
    destruct (Authenticate a w x now) as [[w1 x1] [res err]] eqn:E.
    destruct err; [by simplify_eq|]. destruct res.
    + apply (IH (S n)) in H; [| |lia|by eapply Hpass].
      * destruct r as [[] []]; try done. intros _. apply H. by apply lookup_lt_Some in Ha.
      * rewrite (drop_S _ _ _ Ha) in Hrest. by simplify_eq.
    + simplify_eq. exists n. split_and!; [by apply lookup_lt_Some in Ha|done|by eapply Hpend].
    + by simplify_eq.
Qed.
End run.

(** ** Logins of several rounds

    [login p h w x r]: a login on pipeline [p] has reached the world [w], the
    context [x] and the result [r]; [h] lists the rounds, latest first, by the
    world and context each started from and its time.  Between two rounds the
    world changes arbitrarily and the client changes its context, except the
    user and group the saved session holds; the next round resumes from the
    state the last result carried. *)
Section login.
Context {W : Type}
        (group_by_name : W → string → lookup_res Group) (user_by_name : W → string → lookup_res User)
        (decode : string → option GroupAuthProfile)
        (configure : W → string → string → Authenticator W → string + Authenticator W)
        (reg : ProviderRegistry W).
Implicit Types (w : W) (x : AuthContext).
Abbreviation build := (build_pipeline group_by_name decode configure reg).
Abbreviation round := (W * AuthContext * Time)%type.

Inductive login (p : Pipeline W) : list round → W → AuthContext → PipelineResult → Prop :=
  | login_start w x now w' x' r profile :
      passedSteps x = [] → build w (GroupName_c (Conn x)) = inr (profile, p) →
      Authsrv_Authenticate group_by_name user_by_name decode configure reg w x now = (w', x', r) →
      login p [(w, x, now)] w' x' r
  | login_resume h w x r w1 x1 now w2 x2 r2 profile :
      login p h w x r → pr_Result r = StepPending →
      ci_Username (Conn x1) = ci_Username (Conn x) → GroupName_c (Conn x1) = GroupName_c (Conn x) →
      build w1 (GroupName_c (Conn x1)) = inr (profile, p) →
      Authsrv_Resume group_by_name decode configure reg w1 x1 (State r) now = (w2, x2, r2) →
      login p ((w1, x1, now) :: h) w2 x2 r2.

(** Hoare rule for logins. *)
Lemma login_rule (P : list round → nat → W → AuthContext → Prop) p :
  (∀ w x x0 now, passedSteps x = [] → Conn x0 = Conn x → passedSteps x0 = [] → P [(w, x, now)] O w x0) →
  (∀ h k a w x r0 now w' x', Steps p !! k = Some a → P ((r0, now) :: h) k w x →
     Authenticate a w x now = (w', x', (StepPass, None)) → P ((r0, now) :: h) (S k) w' (after_pass a x')) →
  (∀ h k a w x r0 now w' x', Steps p !! k = Some a → P ((r0, now) :: h) k w x →
     Authenticate a w x now = (w', x', (StepPending, None)) → P ((r0, now) :: h) k w' x') →
  (∀ h k w x w1 x1 now, P h k w x → ci_Username (Conn x1) = ci_Username (Conn x) →
     GroupName_c (Conn x1) = GroupName_c (Conn x) →
     P ((w1, x1, now) :: h) k w1 (SetPassedSteps (passedSteps x) x1)) →
  ∀ h w x r, login p h w x r →
  match pr_Result r with
  | StepPass => P h (length (Steps p)) w x ∧ identity_error x = None ∧ Err r = None
  | StepPending => ∃ k, (k < length (Steps p))%nat
      ∧ State r = {| StepIdx := Z.of_nat k; PassedSteps := passedSteps x |} ∧ P h k w x
  | StepFail => True
  end.
Proof.
  intros H0 Hpass Hpend Hmove h w x r Hl.
  assert (∀ h r0 i n w x now w' x' p' r prev, i = Z.of_nat n → (n ≤ length (Steps p))%nat →
    P ((r0, now) :: h) n w x → runFrom p w x i now = (w', x', p', r) →
    match pr_Result (getPipelineResult x' r p' prev) with
    | StepPass => P ((r0, now) :: h) (length (Steps p)) w' x' ∧ identity_error x' = None
                  ∧ Err (getPipelineResult x' r p' prev) = None
    | StepPending => ∃ k, (k < length (Steps p))%nat ∧ State (getPipelineResult x' r p' prev)
         = {| StepIdx := Z.of_nat k; PassedSteps := passedSteps x' |} ∧ P ((r0, now) :: h) k w' x'
    | StepFail => True
    end) as Hrun.
  { intros h0 r0 i n w0 x0 now w' x' p' [res err] prev -> Hn HP H. unfold runFrom in H. rewrite Nat2Z.id in H.
    destruct (run_steps _ _ _ _ _) as [[[w1 x1] pend] [res1 err1]] eqn:E. simplify_eq.
    apply (run_steps_rule (P ((r0, now) :: h0)) (Steps p) now) with (n := n) in E; [|by eauto..].
    destruct res, err; simpl; try done.
    - by destruct (E Hn).
    - destruct E as (k & Hk & -> & HPk). by exists k. }
  induction Hl as [w x now w' x' r profile Hp Hb H|h w x r w1 x1 now w2 x2 r2 profile _ IH Hr Hu Hg Hb H].
  - unfold Authsrv_Authenticate in H. rewrite Hb in H.
    match type of H with context [Pipeline_Run p w ?X now] => set (x0 := X) in H end.
    destruct (Pipeline_Run p w x0 now) as [[[wr xr] pr] rr] eqn:E. simplify_eq.
    eapply (Hrun [] (w, x) 0 O); [done|lia| |exact E]. apply H0; [done|..];
      unfold x0, LoadUserInfo; repeat case_match; done.
  - rewrite Hr in IH. destruct IH as (k & Hk & Hst & HP). unfold Authsrv_Resume in H. rewrite Hb in H.
    rewrite Hst in H. cbn [StepIdx PassedSteps] in H. unfold Pipeline_Resume in H.
    rewrite (proj2 (Z.ltb_ge (Z.of_nat k) 0)), (proj2 (Z.leb_gt (len (Steps p)) (Z.of_nat k))) in H
      by (unfold len; lia). cbn [orb] in H.
    destruct (runFrom p w1 _ _ now) as [[[wr xr] pr] rr] eqn:E. simplify_eq.
    eapply (Hrun h (w1, x1) _ k); [done|lia| |exact E]. by eapply Hmove.
Qed.

(** The record of passed steps of any login. *)
Lemma login_recorded p h w x r :
  Forall well_behaved (Steps p) → login p h w x r →
  match pr_Result r with
  | StepPass => passedSteps x = recorded (Steps p)
  | StepPending => ∃ k, (k < length (Steps p))%nat ∧ StepIdx (State r) = Z.of_nat k
                    ∧ PassedSteps (State r) = recorded (take k (Steps p))
  | StepFail => True
  end.
Proof.
  intros Hwb Hl. rewrite Forall_lookup in Hwb.
  apply (login_rule (λ _ k _ x, passedSteps x = recorded (take k (Steps p)))) in Hl.
  - destruct (pr_Result r); [|destruct Hl as (k & Hk & -> & Hp); by exists k|done].
    destruct Hl as [-> _]. by rewrite firstn_all.
  - done.
  - intros _ k a w0 x0 _ now w' x' Ha Hp HA. destruct (Hwb k a Ha w0 x0 now) as (He & _). rewrite HA in He.
    simpl in He. pose proof (after_pass_recorded a x' []) as Hr. unfold recorded at 1 in Hr. simpl in Hr.
    rewrite app_nil_r in Hr. rewrite Hr, He, Hp. erewrite take_S_r by done.
    unfold recorded. by rewrite fmap_app, filter_app.
  - intros _ k a w0 x0 _ now w' x' Ha Hp HA. destruct (Hwb k a Ha w0 x0 now) as (He & _). rewrite HA in He.
    simpl in He. by rewrite He.
  - done.
Qed.
End login.

(** ** The authenticators keep the frame *)
Lemma LoadUserInfo_frame {W} users (w : W) x :
  Conn (LoadUserInfo users w x) = Conn x ∧ passedSteps (LoadUserInfo users w x) = passedSteps x
  ∧ Identity (LoadUserInfo users w x) = Identity x.
Proof. unfold LoadUserInfo. destruct (_ || _); [done|]. by destruct (loadUser _ _ _). Qed.

Section frames.
Context {E : Type} `{!AuthEnv E}.
Implicit Type w : AuthWorld E.

(** Splits every conditional of the step; the updates of other fields reduce. *)
Ltac step_frame :=
  intros w x now; simpl; unfold pass, pending, fail in *;
  repeat case_match; simplify_eq/=; split_and!; done.

Lemma local_well_behaved : well_behaved (W := AuthWorld E) LocalAuth.
Proof. unfold well_behaved, LocalAuth, LocalAuth_Authenticate. cbn [Authenticate]. step_frame. Qed.

Lemma radius_well_behaved a : well_behaved (W := AuthWorld E) (RADIUSAuth a).
Proof. unfold well_behaved, RADIUSAuth, RADIUSAuth_Authenticate. cbn [Authenticate]. step_frame. Qed.

Lemma cert_well_behaved : well_behaved (W := AuthWorld E) CertAuth.
Proof.
  unfold well_behaved, CertAuth, CertAuth_Authenticate. cbn [Authenticate].
  intros w x now; simpl; unfold pass, pending, fail in *; repeat case_match; simplify_eq/=;
    bool_to_prop; split_and!; done.
Qed.

(** The context with the user row loaded, as [otp] and [forcepwd] first do. *)
Definition loaded w x : AuthContext :=
  match ctx_UserInfo x with None => LoadUserInfo world_user w x | Some _ => x end.

Lemma loaded_frame w x : Conn (loaded w x) = Conn x ∧ passedSteps (loaded w x) = passedSteps x.
Proof.
  unfold loaded. destruct (ctx_UserInfo x); [done|].
  by destruct (LoadUserInfo_frame world_user w x) as (-> & -> & _).
Qed.

Lemma otp_well_behaved cfg : well_behaved (W := AuthWorld E) (OTPAuth cfg).
Proof.
  unfold well_behaved, OTPAuth, OTPAuth_Authenticate. cbn [Authenticate]. intros w x now.
  fold (loaded w x). destruct (loaded_frame w x) as [Hc Hp]. generalize dependent (loaded w x).
  intros y Hc Hp. unfold pass, pending, fail. rewrite <- Hc, <- Hp.
  repeat case_match; simplify_eq/=; done.
Qed.

Lemma forcepwd_well_behaved : well_behaved (W := AuthWorld E) ForcePwdAuth.
Proof.
  unfold well_behaved, ForcePwdAuth, ForcePwd_Authenticate. cbn [Authenticate]. intros w x now.
  fold (loaded w x). destruct (loaded_frame w x) as [Hc Hp]. generalize dependent (loaded w x).
  intros y Hc Hp. unfold pass, pending, fail. rewrite <- Hc, <- Hp.
  repeat case_match; simplify_eq/=; done.
Qed.

Lemma sms_phone_frame w x : Conn (sms_phone w x) = Conn x ∧ passedSteps (sms_phone w x) = passedSteps x.
Proof.
  destruct (LoadUserInfo_frame world_user w x) as (Hc & Hp & _).
  unfold sms_phone. repeat case_match; simplify_eq/=; done.
Qed.

Lemma sms_well_behaved : well_behaved (W := AuthWorld E) SmsAuth.
Proof.
  unfold well_behaved, SmsAuth, SmsAuth_Authenticate. cbn [Authenticate]. intros w x now.
  set (x0 := with_SMS (GetSMS x) x). destruct (sms_phone_frame w x0) as [Hc Hp].
  change (Conn x) with (Conn x0). change (passedSteps x) with (passedSteps x0).
  rewrite <- Hc, <- Hp. generalize dependent (sms_phone w x0). intros y Hc Hp.
  unfold pass, pending, fail. repeat case_match; simplify_eq/=; by rewrite ?Hc, ?Hp.
Qed.

(** *** Effects on the outside world

    A step changes the outside world only by drawing random digits, sending
    messages and asking the RADIUS server, and it never changes the password
    the client offered. *)
Inductive env_call : E → E → Prop :=
  | ec_digit e : env_call e (env_digit e).1
  | ec_sms e phone code : env_call e (env_send_sms e phone code).1
  | ec_radius e a rq : env_call e (env_radius e a rq).1.

Definition honest (a : Authenticator (AuthWorld E)) : Prop :=
  ∀ w x now, rtc env_call (env w) (env (Authenticate a w x now).1.1)
    ∧ Password (Conn (Authenticate a w x now).1.2) = Password (Conn x).

Lemma local_honest : honest LocalAuth.
Proof.
  unfold honest, LocalAuth, LocalAuth_Authenticate. cbn [Authenticate]. intros w x now.
  unfold pass, pending, fail in *. repeat case_match; simplify_eq/=; done.
Qed.

Lemma cert_honest : honest CertAuth.
Proof.
  unfold honest, CertAuth, CertAuth_Authenticate. cbn [Authenticate]. intros w x now.
  unfold pass, pending, fail in *. repeat case_match; simplify_eq/=; done.
Qed.

Lemma forcepwd_honest : honest ForcePwdAuth.
Proof.
  unfold honest, ForcePwdAuth, ForcePwd_Authenticate. cbn [Authenticate]. intros w x now.
  fold (loaded w x). rewrite <- (proj1 (loaded_frame w x)).
  unfold pass, pending, fail. repeat case_match; simplify_eq/=; done.
Qed.

Lemma otpSendAllowed_env w u a now : env (otpSendAllowed w u a now).1 = env w.
Proof. unfold otpSendAllowed. repeat case_match; simplify_eq/=; done. Qed.

Lemma CheckOtp_env w n o sec now : env (CheckOtp w n o sec now).1 = env w.
Proof. unfold CheckOtp. repeat case_match; simplify_eq/=; done. Qed.

Lemma otp_honest cfg : honest (OTPAuth cfg).
Proof.
  unfold honest, OTPAuth, OTPAuth_Authenticate. cbn [Authenticate]. intros w x now.
  fold (loaded w x). rewrite <- (proj1 (loaded_frame w x)). generalize (loaded w x). intros y.
  unfold pass, pending, fail.
  pose proof (λ u a, otpSendAllowed_env w u a now) as He1.
  pose proof (λ n o sec, CheckOtp_env w n o sec now) as He2.
  repeat case_match; simplify_eq/=; try done; split; try done.
  all: match goal with
       | H : otpSendAllowed _ ?u ?a _ = _ |- _ => pose proof (He1 u a) as He; rewrite H in He
       | H : CheckOtp _ ?n ?o ?sec _ = _ |- _ => pose proof (He2 n o sec) as He; rewrite H in He
       end; simpl in He; by rewrite He.
Qed.

Lemma random_digits_env n e : rtc env_call e (random_digits n e).1.
Proof.
  revert e. induction n as [|n IH]; intros e; simpl; [done|].
  destruct (env_digit e) as [e1 d] eqn:E1. specialize (IH e1). destruct (random_digits n e1). simpl in *.
  eapply rtc_l; [|exact IH]. replace e1 with (env_digit e).1 by (by rewrite E1). constructor.
Qed.

Lemma SendSmsCode_env w phone ip now : rtc env_call (env w) (env (SendSmsCode w phone ip now).1).
Proof.
  unfold SendSmsCode, generateSmsCode. destruct (match lim_next _ !! _ with Some _ => _ | None => _ end); [done|].
  destruct (match ip with Some _ => _ | None => _ end) as [l|]; [|done]. cbn [env with_smsLimiter].
  pose proof (random_digits_env smsCodeLength (env w)) as Hr.
  destruct (random_digits _ _) as [e1 ds]. simpl in Hr.
  destruct (env_send_sms e1 phone (str_of ds)) as [e2 err] eqn:Es.
  assert (rtc env_call (env w) e2) as Hr2.
  { eapply rtc_r; [exact Hr|]. replace e2 with (env_send_sms e1 phone (str_of ds)).1 by (by rewrite Es). constructor. }
  by destruct err.
Qed.

Lemma VerifySmsCode_env w phone code now : env (VerifySmsCode w phone code now).1 = env w.
Proof. unfold VerifySmsCode. repeat case_match; simplify_eq/=; done. Qed.

Lemma sms_honest : honest SmsAuth.
Proof.
  unfold honest, SmsAuth, SmsAuth_Authenticate. cbn [Authenticate]. intros w x now.
  set (x0 := with_SMS (GetSMS x) x). destruct (sms_phone_frame w x0) as [Hc _].
  change (Conn x) with (Conn x0). rewrite <- Hc. generalize dependent (sms_phone w x0). intros y Hc.
  unfold pass, pending, fail.
  pose proof (λ p, SendSmsCode_env w p None now) as He1.
  pose proof (λ p c, VerifySmsCode_env w p c now) as He2.
  repeat case_match; simplify_eq/=; rewrite ?Hc; try done; split; try done.
  all: match goal with
       | H : SendSmsCode _ ?p _ _ = _ |- _ => pose proof (He1 p) as He; rewrite H in He
       | H : VerifySmsCode _ ?p ?c _ = _ |- _ => pose proof (He2 p c) as He; rewrite H in He
       end; simpl in He; by rewrite ?He.
Qed.

Lemma radius_honest a : honest (RADIUSAuth a).
Proof.
  unfold honest, RADIUSAuth, RADIUSAuth_Authenticate. cbn [Authenticate]. intros w x now.
  unfold pass, pending, fail. repeat case_match; simplify_eq/=; try done; split; try done.
  all: match goal with H : env_radius ?e ?a ?rq = (?e', _) |- _ =>
         apply rtc_once; replace e' with (env_radius e a rq).1 by (by rewrite H); constructor end.
Qed.

(** The registry: each authenticator is filed under its name and keeps the frame. *)
Lemma authsrv_registry_ok cfg n a :
  authsrv_registry (E := E) cfg !! n = Some a → (well_behaved a ∧ honest a) ∧ Name a = n.
Proof.
  unfold authsrv_registry, ProviderRegistry. intros H. apply elem_of_list_to_map_2 in H.
  repeat (apply elem_of_cons in H as [H|H]); [..|by apply not_elem_of_nil in H]; injection H as -> ->;
  eauto using local_well_behaved, cert_well_behaved, otp_well_behaved, sms_well_behaved,
    radius_well_behaved, forcepwd_well_behaved, local_honest, cert_honest, otp_honest, sms_honest,
    radius_honest, forcepwd_honest.
Qed.
End frames.

(** ** From the stored profile to the steps *)
Section construction.
Context {W : Type}.

Lemma insert_force_pwd_recorded (f : Authenticator W) steps :
  Name f = "forcepwd"%string → recorded (insert_force_pwd f steps) = recorded steps.
Proof.
  intros Hf. induction steps as [|s r IH]; simpl; [done|]. unfold recorded in *.
  destruct (String.eqb (Name s) "local"); cbn [fmap list_fmap]; rewrite !filter_cons; [|by rewrite IH].
  by rewrite (decide_False (P := Name f ≠ _)) by tauto.
Qed.

Lemma insert_force_pwd_Forall (P : Authenticator W → Prop) f steps :
  P f → Forall P steps → Forall P (insert_force_pwd f steps).
Proof. intros Hf. induction 1; simpl; [constructor|]. destruct (String.eqb _ _); by repeat constructor. Qed.

(** Every element of a registry, and everything [configure] makes of one, has
    property [P] and keeps its name. *)
Definition closed_registry (P : Authenticator W → Prop) (reg : ProviderRegistry W)
    (configure : string → string → Authenticator W → string + Authenticator W) : Prop :=
  (∀ n a, reg !! n = Some a → P a ∧ Name a = n) ∧
  (∀ prov typ a b, P a → configure prov typ a = inr b → P b ∧ Name b = Name a).

Lemma get_steps_spec P reg configure i cfgs steps :
  closed_registry P reg configure → get_steps reg configure i cfgs = inr steps →
  Forall P steps ∧ Name <$> steps = amc_Type <$> cfgs.
Proof.
  intros [Hreg Hconf]. revert i steps. induction cfgs as [|c cfgs IH]; intros i steps H; simpl in H; [by simplify_eq|].
  unfold GetFactory in H. destruct (reg !! amc_Type c) as [a|] eqn:Ha; [|done].
  destruct (Hreg _ _ Ha) as [HPa Hna].
  destruct (if String.eqb (Provider c) "" then inr a else configure (Provider c) (amc_Type c) a) as [|b] eqn:Hb; [done|].
  assert (P b ∧ Name b = amc_Type c) as [HPb Hnb].
  { destruct (String.eqb (Provider c) ""); [by simplify_eq|]. rewrite <- Hna. eauto. }
  destruct (get_steps _ _ _ _) as [|r] eqn:Hr; [done|]. simplify_eq. destruct (IH _ _ Hr) as [HF Hn].
  split; [by constructor|]. cbn [fmap list_fmap]. by rewrite Hnb, Hn.
Qed.

Lemma build_pipeline_spec P group_by_name decode configure reg (w : W) g profile p :
  closed_registry P reg (configure w) →
  build_pipeline group_by_name decode configure reg w g = inr (profile, p) →
  Forall P (Steps p) ∧ recorded (Steps p) = filter (λ n, n ≠ "forcepwd"%string) (amc_Type <$> Step profile)
  ∧ loadAndParseProfile group_by_name decode reg w g = inr profile.
Proof.
  intros Hc H. unfold build_pipeline in H. destruct (loadAndParseProfile _ _ _ _ _) as [|pr] eqn:Hl; [done|].
  destruct (GetPipeline _ _ _) as [|p0] eqn:Hp; [done|]. simplify_eq.
  assert (Forall P (Steps p0) ∧ Name <$> Steps p0 = amc_Type <$> Step profile) as [HF Hn].
  { unfold GetPipeline in Hp. destruct (Step profile) as [|c cfgs]; [done|].
    destruct (get_steps _ _ _ _) as [|steps] eqn:Hs; [done|]. simplify_eq. by eapply get_steps_spec. }
  unfold insertForcePwd, GetFactory. destruct (reg !! "forcepwd"%string) as [f|] eqn:Hf; cbn [Steps].
  - destruct (proj1 Hc _ _ Hf) as [HPf Hnf]. split_and!; [by apply insert_force_pwd_Forall| |done].
    rewrite insert_force_pwd_recorded by done. unfold recorded. by rewrite Hn.
  - split_and!; [done| |done]. unfold recorded. by rewrite Hn.
Qed.

(** The forced password change comes directly behind the password. *)
Lemma insert_force_pwd_after_local (f : Authenticator W) steps k a :
  steps !! k = Some a → Name a = "local"%string →
  (∀ j b, (j < k)%nat → steps !! j = Some b → Name b ≠ "local"%string) →
  insert_force_pwd f steps = take (S k) steps ++ f :: drop (S k) steps.
Proof.
  revert steps. induction k as [|k IH]; intros [|s r] Ha Hn Hf; simplify_eq/=.
  - by rewrite Hn.
  - destruct (String.eqb_spec (Name s) "local") as [E|]; [by destruct (Hf O s ltac:(lia) eq_refl)|].
    f_equal. apply IH; [done..|]. intros j b Hj. apply (Hf (S j)). lia.
Qed.
End construction.

(** ** An environment to evaluate *)
Definition ex_bob : User := {|
  usr_Id := 2; usr_Type := "local"; usr_Username := "bob"; usr_Nickname := "Bob"; Email := ""; Phone := "13800001111";
  PinCode := "secret1"; LimitTime := None; OtpSecret := "S"; DisableOtp := false; Groups := ["ops"];
  usr_Mtu := 0; usr_PolicyId := 0; TrafficUsed := 0; TrafficResetAt := None; usr_Status := 1;
  ForcePwd := false; SendEmail := false; usr_CreatedAt := zero_time; usr_UpdatedAt := zero_time |}%string.
Definition ex_ops : Group := {|
  grp_Id := 1; grp_Name := "ops"; grp_Note := ""; SplitDns := []; grp_PolicyId := 0; AuthProfile := "local+otp";
  grp_Status := 1; Hidden := 0; ClientCidr := ""; ClientStart := ""; ClientEnd := ""; ClientGateway := "";
  ClientCidr6 := ""; OutDev := ""; grp_CreatedAt := zero_time; grp_UpdatedAt := zero_time |}%string.

(** A toy TOTP: the code of a 30-second step is the step's number. *)
Definition ex_totp (secret otp : string) (t : Z) : bool := String.eqb otp (pretty (t / 30)).
Definition ex_decode (raw : string) : option GroupAuthProfile :=
  if String.eqb raw "local+otp" then
    Some {| Step := [ {| amc_Type := "local"; Provider := "" |}; {| amc_Type := "otp"; Provider := "" |} ] |}%string
  else None.

#[export] Instance ex_env : AuthEnv unit := {|
  env_user := λ _ u, if String.eqb u "bob" then Found ex_bob else NotFound;
  env_group := λ _ g, if String.eqb g "ops" then Found ex_ops else NotFound;
  env_bcrypt := λ _ _, false;
  env_totp := ex_totp;
  env_parse_pem := λ _, None;
  env_chain := λ _ _ _, false;
  env_digit := λ e, (e, 7);
  env_send_sms := λ e _ _, (e, None);
  env_attr_error := λ _, None;
  env_radius := λ e _ _, (e, AccessAccept)
|}.

Definition ex_world : AuthWorld unit := {|
  env := tt; userOtp := ∅; otpLimiter := {| lim_next := ∅; lim_ipWin := ∅ |}; smsCodes := ∅;
  smsLimiter := {| lim_next := ∅; lim_ipWin := ∅ |};
  certs := {| rows := []; next_id := 1; io := []; serialCounter := 0 |} |}.
Definition ex_conn : ConnInfo := {|
  ci_Username := "bob"; ci_Nickname := ""; Password := "secret1"; GroupName_c := "ops"; ci_RemoteAddr := "1.2.3.4:5";
  UserAgent := ""; ci_MacAddr := ""; DeviceID := ""; DeviceType := ""; PlatformVer := ""; PeerCertificates := [] |}%string.
Definition ex_ctx : AuthContext := {|
  Conn := ex_conn; ctx_UserInfo := None; Identity := ""; OTP := None; SMS := None; RADIUS := None; SSO := None;
  PortalLogin := false; WebAuth := false; ctx_info := ""; passedSteps := []; stepIdx := 0 |}.
Definition ex_reg : ProviderRegistry (AuthWorld unit) := authsrv_registry example_cfg.
Definition ex_configure (w : AuthWorld unit) (prov typ : string) (a : Authenticator (AuthWorld unit))
    : string + Authenticator (AuthWorld unit) := inr a.
Definition ex_now : Time := 3000 * Second.
Definition ex_profile : GroupAuthProfile := default {| Step := [] |} (ex_decode "local+otp").
Definition ex_pipeline : Pipeline (AuthWorld unit) :=
  {| Steps := [LocalAuth; ForcePwdAuth; OTPAuth example_cfg]; pendingStep := 0 |}.
(** The first round, then the context with the code the user types. *)
Definition ex_round1 := Authsrv_Authenticate world_group world_user ex_decode ex_configure ex_reg ex_world ex_ctx ex_now.
Definition ex_typed : AuthContext := with_OTP {| otp_Code := "100"; otp_Sent := false |} ex_round1.1.2.
Definition ex_round2 := Authsrv_Resume world_group ex_decode ex_configure ex_reg ex_round1.1.1 ex_typed
  (State ex_round1.2) (ex_now + 5 * Second).

Lemma ex_build w : env w = tt → build_pipeline world_group ex_decode ex_configure ex_reg w "ops" = inr (ex_profile, ex_pipeline).
Proof. destruct w as [[] ? ? ? ? ?]. intros _. reflexivity. Qed.

Lemma ex_closed w : closed_registry well_behaved ex_reg (ex_configure w).
Proof. split; [intros n a [[? _] ?]%authsrv_registry_ok; done|]. intros prov typ a b Ha H. unfold ex_configure in H. by simplify_eq. Qed.

Lemma ex_login : login world_group world_user ex_decode ex_configure ex_reg ex_pipeline
  [(ex_round1.1.1, ex_typed, ex_now + 5 * Second); (ex_world, ex_ctx, ex_now)]
  ex_round2.1.1 ex_round2.1.2 ex_round2.2.
Proof.
  eapply (login_resume _ _ _ _ _ _ _ ex_round1.1.1 ex_round1.1.2 ex_round1.2 ex_round1.1.1 ex_typed (ex_now + 5 * Second)).
  - eapply (login_start _ _ _ _ _ _ ex_world ex_ctx ex_now); [reflexivity|by apply ex_build|].
    by destruct ex_round1 as [[? ?] ?] eqn:E.
  - vm_compute. reflexivity.
  - vm_compute. reflexivity.
  - vm_compute. reflexivity.
  - by apply ex_build.
  - by destruct ex_round2 as [[? ?] ?] eqn:E.
Qed.



(** *** The password of a local step *)
Section local_password.
Context {E : Type} `{!AuthEnv E}.

(** In round [rd] the user's row admitted the password offered: at a moment of
    the round the row was enabled, not expired, not an LDAP account and in the
    group, and its stored secret matched the round's password. *)
Definition password_accepted (rd : AuthWorld E * AuthContext * Time) (user group : string) : Prop :=
  let '(w0, x0, now) := rd in
  ∃ e v, rtc env_call (env w0) e ∧ env_user e user = Found v ∧ usr_Status v = 1
    ∧ VerifyPassword (Password (Conn x0)) (PinCode v) = true ∧ IsExpired (LimitTime v) now = false
    ∧ usr_Type v ≠ "ldap"%string ∧ group ∈ Groups v.

Lemma LocalAuth_pass (w : AuthWorld E) x now w' x' :
  LocalAuth_Authenticate w x now = (w', x', (StepPass, None)) →
  ci_Username (Conn x) ≠ ""%string ∧ ∃ v, env_user (env w) (ci_Username (Conn x)) = Found v
    ∧ usr_Status v = 1 ∧ VerifyPassword (Password (Conn x)) (PinCode v) = true
    ∧ IsExpired (LimitTime v) now = false ∧ usr_Type v ≠ "ldap"%string ∧ GroupName_c (Conn x) ∈ Groups v.
Proof.
  unfold LocalAuth_Authenticate, pass, fail. intros H.
  destruct (String.eqb_spec (ci_Username (Conn x)) ""); [done|]. cbn [orb] in H.
  destruct (str_len _ <? 6); [done|]. unfold world_user in H.
  destruct (env_user (env w) _) as [v| |] eqn:Hv; [|done..].
  destruct (Z.eqb_spec (usr_Status v) 1); [|done]. cbn [negb] in H.
  destruct (VerifyPassword _ _) eqn:Hpw; [|done]. cbn [negb] in H.
  destruct (IsExpired _ _) eqn:Hex; [done|]. destruct (String.eqb_spec (usr_Type v) "ldap"); [done|].
  destruct (bool_decide _) eqn:Hg; [|done]. cbn [negb] in H. simplify_eq. bool_to_prop.
  split; [done|]. by exists v.
Qed.

(** The invariant of a login with a local step at position [k]. *)
Definition local_inv (k : nat) (h : list (AuthWorld E * AuthContext * Time)) (i : nat) (w : AuthWorld E)
    (x : AuthContext) : Prop :=
  (match h with
   | (w0, x0, _) :: _ => rtc env_call (env w0) (env w) ∧ Password (Conn x) = Password (Conn x0)
   | [] => False
   end) ∧
  ((k < i)%nat → ci_Username (Conn x) ≠ ""%string ∧
     ∃ rd, rd ∈ h ∧ password_accepted rd (ci_Username (Conn x)) (GroupName_c (Conn x))).

Lemma local_inv_frame k h i w x now a :
  well_behaved a → honest a → local_inv k h i w x →
  local_inv k h i (Authenticate a w x now).1.1 (Authenticate a w x now).1.2.
Proof.
  intros Hwb Hho [Hh HP]. destruct (Hwb w x now) as (_ & Hg & Hu). destruct (Hho w x now) as [He Hpw].
  split.
  - destruct h as [|[[w0 x0] t] h]; [done|]. destruct Hh as [H1 H2]. split; [by etrans|congruence].
  - intros Hi. destruct (HP Hi) as [Hne Hex]. by rewrite Hu, Hg.
Qed.

Lemma local_inv_pass k p h i a w x r0 now w' x' :
  Steps p !! k = Some LocalAuth → Steps p !! i = Some a → well_behaved a → honest a →
  local_inv k ((r0, now) :: h) i w x → Authenticate a w x now = (w', x', (StepPass, None)) →
  local_inv k ((r0, now) :: h) (S i) w' (after_pass a x').
Proof.
  intros Hk Ha Hwb Hho HP HA. pose proof (local_inv_frame _ _ _ _ _ now _ Hwb Hho HP) as HP'.
  rewrite HA in HP'. cbn [fst snd] in HP'. destruct HP' as [Hh HP'].
  unfold local_inv. rewrite (proj1 (after_pass_frame a x')). split; [exact Hh|]. intros Hi.
  destruct (decide (i = k)) as [->|]; [|apply HP'; lia].
  simplify_eq. destruct (Hwb w x now) as (_ & Hg & Hu). rewrite HA in Hg, Hu. cbn [fst snd] in Hg, Hu.
  cbn [Authenticate LocalAuth] in HA. destruct (LocalAuth_pass _ _ _ _ _ HA) as (Hne & v & Hv).
  rewrite Hg, Hu by done.
  split; [done|]. destruct HP as [HP _]. destruct r0 as [w0 x0]. destruct HP as [He Hpw].
  eexists. split; [left|]. exists (env w), v. by rewrite <- Hpw.
Qed.
End local_password.


