(* ===== verification/AuthCodesSpec.v ===== *)
(** * One-time codes: single use, guess bounds and send limits

    Executions are lists of operations of package authsrv, in the order the
    package's locks serialise them, each with the time it reads. *)
From S2P Require Import AuthSteps AuthSpec.
Local Open Scope Z_scope.

Section codes.
Context {E : Type} `{!AuthEnv E}.
Implicit Type w : AuthWorld E.

Inductive code_op :=
  | OpCheckOtp (name otp secret : string) (t : Time)
  | OpOtpSweep (t : Time)
  | OpSend (phone : string) (ip : option string) (t : Time)
  | OpVerify (phone code : string) (t : Time)
  | OpSmsSweep (t : Time).

Definition code_step w (o : code_op) : AuthWorld E :=
  match o with
  | OpCheckOtp n c s t => (CheckOtp w n c s t).1
  | OpOtpSweep t => otp_sweep w t
  | OpSend p ip t => (SendSmsCode w p ip t).1
  | OpVerify p c t => (VerifySmsCode w p c t).1
  | OpSmsSweep t => sms_sweep w t
  end.
Definition code_run w (os : list code_op) : AuthWorld E := fold_left code_step os w.

(** ** Frames: which table each operation touches *)
Lemma CheckOtp_frame w n c s t :
  smsCodes (CheckOtp w n c s t).1 = smsCodes w ∧ smsLimiter (CheckOtp w n c s t).1 = smsLimiter w.
Proof. unfold CheckOtp. repeat case_match; simplify_eq/=; done. Qed.

Lemma VerifySmsCode_frame w p c t :
  userOtp (VerifySmsCode w p c t).1 = userOtp w ∧ smsLimiter (VerifySmsCode w p c t).1 = smsLimiter w.
Proof. unfold VerifySmsCode. repeat case_match; simplify_eq/=; done. Qed.

(** What a request to send does to the limiter and the code cache. *)
Lemma SendSmsCode_cases w p ip t :
  userOtp (SendSmsCode w p ip t).1 = userOtp w ∧
  ((∃ (T : Time) e, lim_next (smsLimiter w) !! p = Some T ∧ t < T ∧ SendSmsCode w p ip t = (w, inl e)) ∨
   ((∀ T : Time, lim_next (smsLimiter w) !! p = Some T → T ≤ t) ∧
    lim_next (smsLimiter (SendSmsCode w p ip t).1) = <[p := t + smsResendLimit]> (lim_next (smsLimiter w)) ∧
    (∀ q, q ≠ p → smsCodes (SendSmsCode w p ip t).1 !! q = smsCodes w !! q))).
Proof.
  unfold SendSmsCode. cbv zeta.
  destruct (match lim_next (smsLimiter w) !! p with Some T => time_Before t T | None => false end) eqn:Hb.
  - split; [done|]. left. destruct (lim_next (smsLimiter w) !! p) as [T|] eqn:HT; [|done].
    unfold time_Before in Hb. bool_to_prop. by eauto.
  - assert (∀ T : Time, lim_next (smsLimiter w) !! p = Some T → T ≤ t) as Hle.
    { intros T HT. rewrite HT in Hb. unfold time_Before in Hb. by bool_to_prop. }
    set (l0 := with_next p (time_Add t smsResendLimit) (smsLimiter w)).
    set (choice := match ip with Some _ => _ | None => _ end).
    assert (∀ l, choice = Some l → lim_next l = lim_next l0) as Hc.
    { intros l. unfold choice, count_ip. intros Hl. repeat case_match; simplify_eq/=; done. }
    destruct choice as [l|]; [specialize (Hc l eq_refl)|by split; [|right]].
    cbn [env with_smsLimiter]. destruct (generateSmsCode (env w)) as [e code].
    destruct (env_send_sms e p code) as [e' [err|]]; simpl; rewrite Hc; (split; [done|right; split_and!; try done]).
    intros q Hq. by rewrite lookup_insert_ne.
Qed.

(** ** TOTP codes are accepted once *)
Lemma CheckOtp_true w n c s t w' :
  CheckOtp w n c s t = (w', true) → userOtp w' !! otp_key n c = Some t.
Proof. unfold CheckOtp. intros H. repeat case_match; simplify_eq/=. apply lookup_insert_eq. Qed.

(** A used code stays recorded until a sweep later than two minutes. *)
Lemma used_code_kept w o k (t0 : Time) :
  userOtp w !! k = Some t0 → (∀ t, o = OpOtpSweep t → t ≤ t0 + 120 * Second) →
  userOtp (code_step w o) !! k = Some t0.
Proof.
  intros Hk Ho. destruct o as [n c s t|t|p ip t|p c t|t]; simpl.
  - unfold CheckOtp. destruct (userOtp w !! otp_key n c) eqn:Hn; [done|].
    destruct (_ || _); [|done]. simpl. rewrite lookup_insert_ne; [done|]. intros <-. by rewrite Hk in Hn.
  - apply map_lookup_filter_Some_2; [done|]. specialize (Ho t eq_refl). simpl. lia.
  - by rewrite (proj1 (SendSmsCode_cases w p ip t)).
  - by rewrite (proj1 (VerifySmsCode_frame w p c t)).
  - done.
Qed.
End codes.

(**  A TOTP code is accepted at most once: after [CheckOtp] accepted it for
    a user, every further check of that code by that user is refused, whatever
    the package does in between, until a sweep more than two minutes later. *)
Theorem otp_single_use {E} `{!AuthEnv E} (w : AuthWorld E) name code secret t0 w1 ops secret' t :
  CheckOtp w name code secret t0 = (w1, true) →
  (∀ s, OpOtpSweep s ∈ ops → s ≤ t0 + 120 * Second) →
  (CheckOtp (code_run w1 ops) name code secret' t).2 = false.
Proof.
  intros Hc%CheckOtp_true Hops. revert w1 Hc. induction ops as [|o ops IH]; intros w1 Hk; simpl.
  - unfold CheckOtp. by rewrite Hk.
  - apply IH; [intros s Hs; apply Hops; by right|].
    apply used_code_kept; [done|]. intros s ->. apply Hops. left.
Qed.

Lemma otp_single_use_witness :
  (CheckOtp (code_run (CheckOtp ex_world "bob" "100" "S" ex_now).1 [OpOtpSweep (ex_now + 100 * Second)])
     "bob" "100" "S" (ex_now + 10 * Second)).2 = false.
Proof.
  apply (otp_single_use ex_world "bob" "100" "S" ex_now).
  - vm_compute. reflexivity.
  - intros s Hs. apply list_elem_of_singleton in Hs. injection Hs as ->. unfold ex_now, Second. lia.
Defined.

(**  The single-use record is dropped too early: the code of a time step is
    accepted from 60 s before the step begins to 60 s after it ends, 150 s in
    all, but a sweep 121 s after its use forgets it, so a code used at the
    start of that span is accepted again at its end. *)
Theorem otp_code_replayed {E} `{!AuthEnv E} (w : AuthWorld E) name code secret step :
  (∀ t, env_totp secret code t = (t / 30 =? step)) →
  userOtp w !! otp_key name code = None →
  let t0 := (30 * step - 60) * Second in
  let w1 := (CheckOtp w name code secret t0).1 in
  (CheckOtp w name code secret t0).2 = true
  ∧ (CheckOtp (otp_sweep w1 (t0 + 121 * Second)) name code secret (t0 + 149 * Second)).2 = true.
Proof.
  intros Ht Hk t0 w1.
  assert (time_Unix t0 = 30 * step - 60) as H0 by (unfold time_Unix, t0; apply Z.div_mul; done).
  assert (time_Unix (t0 + 149 * Second) = 30 * step + 89) as H1.
  { unfold time_Unix, t0. rewrite <- Z.mul_add_distr_r, Z.div_mul by done. lia. }
  assert ((30 * step - 60 + 60) / 30 = step) as D0 by (symmetry; apply Z.div_unique_pos with 0; lia).
  assert ((30 * step + 89 - 60) / 30 = step) as D1 by (symmetry; apply Z.div_unique_pos with 29; lia).
  assert (CheckOtp w name code secret t0 = (with_userOtp (<[otp_key name code := t0]> (userOtp w)) w, true)) as Hc.
  { unfold CheckOtp. rewrite Hk, H0, !Ht, D0, Z.eqb_refl, !orb_true_r. done. }
  split; [by rewrite Hc|]. unfold w1. rewrite Hc. cbn [fst].
  unfold CheckOtp, otp_sweep. cbn [userOtp with_userOtp].
  rewrite map_lookup_filter_None_2.
  - rewrite H1, !Ht, D1, Z.eqb_refl, !orb_true_r. done.
  - right. intros t Hl. rewrite lookup_insert_eq in Hl. simplify_eq/=. unfold Second. lia.
Qed.

Lemma otp_code_replayed_witness :
  (CheckOtp (otp_sweep (CheckOtp ex_world "bob" "100" "S" (2940 * Second)).1 (3061 * Second))
    "bob" "100" "S" (3089 * Second)).2 = true.
Proof.
  refine (proj2 (otp_code_replayed ex_world "bob" "100" "S" 100 _ _)).
  - intros t. cbn [env_totp ex_env]. unfold ex_totp. change "100"%string with (pretty 100).
    destruct (Z.eqb_spec (t / 30) 100) as [->|Hne]; [apply String.eqb_refl|].
    apply String.eqb_neq. intros H. apply Hne. symmetry. by apply pretty_Z_inj.
  - reflexivity.
Defined.

(** ** SMS codes: guesses *)
Section sms.
Context {E : Type} `{!AuthEnv E}.
Implicit Type w : AuthWorld E.

(** How many more times the cached code of a phone will be compared. *)
Definition guesses_left w (phone : string) : Z :=
  match smsCodes w !! phone with Some c => Z.max 0 (smsMaxRetries - sc_retries c) | None => 0 end.

Definition verifies (phone : string) (os : list code_op) : Z :=
  sumZ (λ o, match o with OpVerify p _ _ => if String.eqb p phone then 1 else 0 | _ => 0 end) os.

Definition accepts w (phone code : string) (t : Time) : Prop :=
  ∃ user, (VerifySmsCode w phone code t).2 = inr user.

(** A comparison costs one guess; an accepted code is gone. *)
Lemma VerifySmsCode_guess w phone code t :
  guesses_left (VerifySmsCode w phone code t).1 phone ≤ Z.max 0 (guesses_left w phone - 1)
  ∧ (accepts w phone code t → 0 < guesses_left w phone
       ∧ guesses_left (VerifySmsCode w phone code t).1 phone = 0).
Proof.
  unfold accepts, guesses_left, VerifySmsCode.
  destruct (smsCodes w !! phone) as [c|] eqn:Hc; cbn [fst snd]; [|rewrite Hc; split; [lia|by intros [? ?]]].
  destruct (time_After t (sc_expires c)); cbn [fst snd smsCodes with_smsCodes].
  { rewrite lookup_delete_eq. split; [lia|by intros [? ?]]. }
  cbn [sc_retries sc_code]. destruct (Z.ltb_spec smsMaxRetries (sc_retries c + 1)); cbn [fst snd smsCodes with_smsCodes].
  { rewrite lookup_delete_eq. split; [lia|by intros [? ?]]. }
  destruct (String.eqb _ code); cbn [negb fst snd smsCodes with_smsCodes].
  - rewrite lookup_delete_eq. split; [lia|]. intros _. lia.
  - rewrite lookup_insert_eq. cbn [sc_retries]. split; [lia|by intros [? ?]].
Qed.

Lemma guesses_nonneg w phone : 0 ≤ guesses_left w phone.
Proof. unfold guesses_left. case_match; lia. Qed.

Lemma no_guess_no_accept w phone code t : guesses_left w phone = 0 → ¬ accepts w phone code t.
Proof. intros H Ha. destruct (VerifySmsCode_guess w phone code t) as [_ Hg]. specialize (Hg Ha). lia. Qed.

(** Without a new send to the phone, no operation gives guesses back. *)
Lemma code_step_guesses w o phone :
  (∀ ip t, o ≠ OpSend phone ip t) →
  guesses_left (code_step w o) phone ≤ Z.max 0 (guesses_left w phone - verifies phone [o]).
Proof.
  intros Ho. pose proof (guesses_nonneg w phone) as Hnn. unfold verifies. simpl.
  destruct o as [n c s t|t|p ip t|p c t|t]; simpl.
  - unfold guesses_left in *. rewrite (proj1 (CheckOtp_frame w n c s t)). lia.
  - unfold guesses_left in *. simpl. lia.
  - assert (p ≠ phone) as Hp by (intros ->; by apply (Ho ip t)).
    destruct (SendSmsCode_cases w p ip t) as [_ [(T & e & _ & _ & ->)|(_ & _ & Hs)]]; simpl; [lia|].
    unfold guesses_left in *. rewrite Hs by done. lia.
  - destruct (String.eqb_spec p phone) as [->|Hp].
    + destruct (VerifySmsCode_guess w phone c t) as [H _]. lia.
    + assert (smsCodes (VerifySmsCode w p c t).1 !! phone = smsCodes w !! phone) as Hs.
      { unfold VerifySmsCode. repeat case_match; simplify_eq/=;
          rewrite ?lookup_delete_ne, ?lookup_insert_ne by done; done. }
      unfold guesses_left in *. rewrite Hs. lia.
  - unfold guesses_left in *. cbn [smsCodes sms_sweep with_smsCodes].
    destruct (filter _ (smsCodes w) !! phone) as [c|] eqn:Hf; [|lia].
    apply map_lookup_filter_Some_1_1 in Hf. rewrite Hf. lia.
Qed.

Lemma code_run_guesses ops : ∀ w phone,
  (∀ ip t, OpSend phone ip t ∉ ops) →
  guesses_left (code_run w ops) phone ≤ Z.max 0 (guesses_left w phone - verifies phone ops).
Proof.
  induction ops as [|o ops IH]; intros w phone Ho; simpl.
  - pose proof (guesses_nonneg w phone). unfold verifies. simpl. lia.
  - specialize (IH (code_step w o) phone ltac:(intros ip t Hin; apply (Ho ip t); by right)).
    pose proof (code_step_guesses w o phone ltac:(intros ip t ->; apply (Ho ip t); left)) as H1.
    unfold verifies in *. simpl in *. pose proof (guesses_nonneg w phone).
    assert (0 ≤ sumZ (λ o, match o with OpVerify p _ _ => if String.eqb p phone then 1 else 0 | _ => 0 end) ops).
    { apply sumZ_nonneg. intros []; repeat case_match; lia. }
    assert (0 ≤ match o with OpVerify p _ _ => if String.eqb p phone then 1 else 0 | _ => 0 end) by (repeat case_match; lia).
    lia.
Qed.

(** *** The resend limit *)
Lemma lim_next_grows w o phone (T : Time) :
  lim_next (smsLimiter w) !! phone = Some T →
  ∃ T' : Time, lim_next (smsLimiter (code_step w o)) !! phone = Some T' ∧ T ≤ T'.
Proof.
  intros HT. destruct o as [n c s t|t|p ip t|p c t|t]; simpl.
  - rewrite (proj2 (CheckOtp_frame w n c s t)). by exists T.
  - by exists T.
  - destruct (SendSmsCode_cases w p ip t) as [_ [(T' & e & _ & _ & ->)|(Hle & -> & _)]]; [by exists T|].
    destruct (decide (p = phone)) as [->|]; [|rewrite lookup_insert_ne by done; by exists T].
    rewrite lookup_insert_eq. eexists. split; [done|]. apply Hle in HT. unfold smsResendLimit, Second. lia.
  - rewrite (proj2 (VerifySmsCode_frame w p c t)). by exists T.
  - by exists T.
Qed.

Lemma lim_next_run ops : ∀ w phone (T : Time),
  lim_next (smsLimiter w) !! phone = Some T →
  ∃ T' : Time, lim_next (smsLimiter (code_run w ops)) !! phone = Some T' ∧ T ≤ T'.
Proof.
  induction ops as [|o ops IH]; intros w phone T HT; simpl; [by exists T|].
  destruct (lim_next_grows w o phone T HT) as (T1 & H1 & ?). destruct (IH _ _ _ H1) as (T2 & H2 & ?).
  exists T2. split; [done|lia].
Qed.

Lemma SendSmsCode_sent w phone ip t code :
  (SendSmsCode w phone ip t).2 = inr code →
  (∀ T : Time, lim_next (smsLimiter w) !! phone = Some T → T ≤ t) ∧
  lim_next (smsLimiter (SendSmsCode w phone ip t).1) !! phone = Some (t + smsResendLimit).
Proof.
  intros H. destruct (SendSmsCode_cases w phone ip t) as [_ [(T & e & _ & _ & E1)|(Hle & Hn & _)]].
  - by rewrite E1 in H.
  - split; [done|]. by rewrite Hn, lookup_insert_eq.
Qed.
End sms.


(**  An SMS code can be tried at most [smsMaxRetries] times and used once:
    until a new code is sent to the phone, no code is accepted for it once as
    many attempts as were left have been made, nor after one was accepted,
    whatever else the package does. *)
Theorem sms_code_bounded_guesses {E} `{!AuthEnv E} (w : AuthWorld E) phone ops code t :
  (∀ ip t, OpSend phone ip t ∉ ops) →
  guesses_left w phone ≤ verifies phone ops
  ∨ (∃ ops1 ops2 c1 t1, ops = ops1 ++ OpVerify phone c1 t1 :: ops2 ∧ accepts (code_run w ops1) phone c1 t1) →
  ¬ accepts (code_run w ops) phone code t.
Proof.
  intros Hs [Hn|(ops1 & ops2 & c1 & t1 & -> & Ha)]; apply no_guess_no_accept.
  - pose proof (code_run_guesses ops w phone Hs). pose proof (guesses_nonneg (code_run w ops) phone). lia.
  - unfold code_run. rewrite fold_left_app. cbn [fold_left code_step]. fold (code_run w ops1).
    destruct (VerifySmsCode_guess (code_run w ops1) phone c1 t1) as [_ Hg]. destruct (Hg Ha) as [_ H0].
    pose proof (code_run_guesses ops2 (code_step (code_run w ops1) (OpVerify phone c1 t1)) phone
      ltac:(intros ip t' Hin; apply (Hs ip t'); set_solver)) as Hr.
    match goal with |- guesses_left ?W _ = 0 => pose proof (guesses_nonneg W phone) end.
    assert (0 ≤ verifies phone ops2) by (apply sumZ_nonneg; intros []; repeat case_match; lia).
    cbn [code_step] in Hr. rewrite H0 in Hr. unfold code_run in Hr at 1. lia.
Qed.

Definition ex_sms : AuthWorld unit := (SendSmsCode ex_world "138" None ex_now).1.
Lemma sms_code_bounded_guesses_witness :
  accepts ex_sms "138" "777777" (ex_now + Second) ∧
  ¬ accepts (code_run ex_sms (repeat (OpVerify "138" "000000" (ex_now + Second)) 5)) "138" "777777" (ex_now + Second).
Proof.
  split; [exists ""%string; vm_compute; reflexivity|].
  apply (sms_code_bounded_guesses ex_sms "138").
  - intros ip t Hin. apply list_elem_of_In, List.repeat_spec in Hin. discriminate.
  - left. vm_compute. discriminate.
Defined.

(**  Resend limit: two codes are never sent to one phone less than
    [smsResendLimit] (60 s) apart, whatever happens in between and from
    whichever addresses the requests come. *)
Theorem sms_sends_spaced {E} `{!AuthEnv E} (w : AuthWorld E) phone ip t code ops ip' t' code' :
  (SendSmsCode w phone ip t).2 = inr code →
  (SendSmsCode (code_run (SendSmsCode w phone ip t).1 ops) phone ip' t').2 = inr code' →
  t + smsResendLimit ≤ t'.
Proof.
  intros [_ H1]%SendSmsCode_sent [H2 _]%SendSmsCode_sent.
  destruct (lim_next_run ops _ _ _ H1) as (T & HT & Hle). specialize (H2 _ HT). lia.
Qed.

Lemma sms_sends_spaced_witness : ex_now + smsResendLimit ≤ ex_now + 60 * Second.
Proof.
  apply (sms_sends_spaced ex_world "138" None ex_now "777777" [] None (ex_now + 60 * Second) "777777");
    vm_compute; reflexivity.
Defined.
