(* ===== verification/AuthFlow.v ===== *)
(** * The native client's login (server/handler: link_auth.go, link_auth_otp.go,
    link_auth_pipeline.go, link_auth_session.go, authflow.go, auth_challenge.go)

    The handlers as state transformers over [Handler]: the lock manager, the
    store of pending logins, the authenticators' world and the events (log
    rows, created sessions, logouts) they emit.  A pending login's Go struct is
    shared by pointer between the store and the handler that resumes it; the
    model writes it back at each point where the handler leaves it changed. *)
From S2P Require Export AuthSteps LockManager.
Local Open Scope Z_scope.

(** ** Requests *)
Record deviceId := { dev_DeviceType : string; PlatformVersion : string; UniqueIdGlobal : string; dev_Value : string }.

Definition deviceId_OS (d : deviceId) : string :=
  str_trim (if String.eqb (dev_Value d) "" then dev_DeviceType d else dev_Value d).
Definition deviceId_Type (d : deviceId) : string :=
  if negb (String.eqb (dev_DeviceType d) "") then dev_DeviceType d else str_trim (dev_Value d).

(** [ClientRequest], the fields the handlers read. *)
Record ClientRequest := {
  cr_Type : string; GroupSelect : string; cr_UserAgent : string; SessionToken : string;
  cr_Username : string; cr_Password : string; SecondaryPassword : string; SsoToken : string;
  cr_DeviceId : deviceId; cr_MacAddress : string
}.

(** The HTTP request: [r_Body] is the parsed XML, [None] when reading or parsing
    fails; [r_Cookie] the [auth-session-id] cookie. *)
Record HttpRequest := {
  r_UserAgent : string; AggregateAuth : string; TranscendVersion : string;
  r_Body : option ClientRequest; r_RemoteAddr : string; r_Certs : list X509; r_Cookie : option string
}.

Definition UserAuthFail : Z := 0.
Definition UserAuthSuccess : Z := 1.

Record UserActLog := {
  ual_Username : string; ual_GroupName : string; ual_RemoteAddr : string; ual_Os : Z;
  ual_DeviceType : string; ual_PlatformVersion : string; ual_Status : Z; ual_Info : string;
  IsLockedFail : bool
}.

(** [UserActLogProcess.OSIdx] *)
Definition OSIdx (raw : string) : Z :=
  let raw := str_lower (str_trim raw) in
  if str_contains raw "windows" || String.eqb raw "win" || str_has_prefix raw "win-" || str_has_prefix raw "win_"
  then 1
  else if str_contains raw "iphone" || str_contains raw "ipad" || str_contains raw "applesslvpn"
          || str_contains raw "ios" then 5
  else if str_contains raw "mac" || str_contains raw "darwin" || str_contains raw "osx" then 2
  else if str_contains raw "android" then 4
  else if str_contains raw "linux" then 3
  else 0.

(** ** Pending logins *)
Definition AuthKindPipeline : string := "pipeline".
Definition AuthKindSSOPending : string := "sso-pending".
Definition AuthKindSSODone : string := "sso-done".
Definition AuthKindWebAuth : string := "webauth-done".

Record AuthSession := {
  as_SessionID : string; as_Ctx : AuthContext; as_UserActLog : UserActLog; as_ForcePwd : bool;
  as_CreatedAt : Time; as_Kind : string
}.

Record authSessionManager := {
  am_sessions : gmap string AuthSession; am_ttl : Duration; am_started : bool
}.
Definition NewAuthSessionManager : authSessionManager :=
  {| am_sessions := ∅; am_ttl := 5 * Minute; am_started := false |}.
Definition am_with (l : gmap string AuthSession) (m : authSessionManager) : authSessionManager :=
  {| am_sessions := l; am_ttl := am_ttl m; am_started := am_started m |}.

(** [Start] and [Stop]: [true] when a cleanup goroutine is started or ended. *)
Definition asm_Start (m : authSessionManager) : authSessionManager * bool :=
  if am_started m then (m, false)
  else ({| am_sessions := am_sessions m; am_ttl := am_ttl m; am_started := true |}, true).
Definition asm_Stop (m : authSessionManager) : authSessionManager * bool :=
  if negb (am_started m) then (m, false)
  else ({| am_sessions := am_sessions m; am_ttl := am_ttl m; am_started := false |}, true).

Definition with_id (id : string) (t : Time) (s : AuthSession) : AuthSession :=
  {| as_SessionID := id; as_Ctx := as_Ctx s; as_UserActLog := as_UserActLog s; as_ForcePwd := as_ForcePwd s;
     as_CreatedAt := t; as_Kind := as_Kind s |}.
Definition asm_Save (m : authSessionManager) (id : string) (s : AuthSession) (now : Time) : authSessionManager :=
  am_with (<[id := with_id id now s]> (am_sessions m)) m.
Definition asm_Delete (m : authSessionManager) (id : string) : authSessionManager :=
  am_with (delete id (am_sessions m)) m.
Definition asm_Get (m : authSessionManager) (id : string) (now : Time)
    : authSessionManager * option AuthSession :=
  match am_sessions m !! id with
  | None => (m, None)
  | Some s => if am_ttl m <? time_Sub now (as_CreatedAt s) then (asm_Delete m id, None)
              else (m, Some (with_id id (as_CreatedAt s) s))
  end.
Definition asm_cleanExpired (m : authSessionManager) (now : Time) : authSessionManager :=
  am_with (filter (λ kv : string * AuthSession, ¬ (am_ttl m < time_Sub now (as_CreatedAt kv.2))) (am_sessions m)) m.

(** Assignments to a session. *)
Definition set_Ctx (x : AuthContext) (s : AuthSession) : AuthSession :=
  {| as_SessionID := as_SessionID s; as_Ctx := x; as_UserActLog := as_UserActLog s; as_ForcePwd := as_ForcePwd s;
     as_CreatedAt := as_CreatedAt s; as_Kind := as_Kind s |}.
Definition set_Log (l : UserActLog) (s : AuthSession) : AuthSession :=
  {| as_SessionID := as_SessionID s; as_Ctx := as_Ctx s; as_UserActLog := l; as_ForcePwd := as_ForcePwd s;
     as_CreatedAt := as_CreatedAt s; as_Kind := as_Kind s |}.
Definition set_SessionID (id : string) (s : AuthSession) : AuthSession := with_id id (as_CreatedAt s) s.
Definition set_Kind (k : string) (s : AuthSession) : AuthSession :=
  {| as_SessionID := as_SessionID s; as_Ctx := as_Ctx s; as_UserActLog := as_UserActLog s; as_ForcePwd := as_ForcePwd s;
     as_CreatedAt := as_CreatedAt s; as_Kind := k |}.
Definition set_ForcePwd (b : bool) (s : AuthSession) : AuthSession :=
  {| as_SessionID := as_SessionID s; as_Ctx := as_Ctx s; as_UserActLog := as_UserActLog s; as_ForcePwd := b;
     as_CreatedAt := as_CreatedAt s; as_Kind := as_Kind s |}.

Definition set_conn_request (pw : option string) (addr : string) (certs : list X509) (c : ConnInfo) : ConnInfo :=
  {| ci_Username := ci_Username c; ci_Nickname := ci_Nickname c; Password := default (Password c) pw;
     GroupName_c := GroupName_c c; ci_RemoteAddr := addr; UserAgent := UserAgent c; ci_MacAddr := ci_MacAddr c;
     DeviceID := DeviceID c; DeviceType := DeviceType c; PlatformVer := PlatformVer c; PeerCertificates := certs |}.
Definition set_conn_identity (user group : string) (c : ConnInfo) : ConnInfo :=
  {| ci_Username := user; ci_Nickname := ci_Nickname c; Password := Password c; GroupName_c := group;
     ci_RemoteAddr := ci_RemoteAddr c; UserAgent := UserAgent c; ci_MacAddr := ci_MacAddr c;
     DeviceID := DeviceID c; DeviceType := DeviceType c; PlatformVer := PlatformVer c;
     PeerCertificates := PeerCertificates c |}.
Definition with_SSO (o : option SSOState) (x : AuthContext) : AuthContext :=
  {| Conn := Conn x; ctx_UserInfo := ctx_UserInfo x; Identity := Identity x; OTP := OTP x; SMS := SMS x;
     RADIUS := RADIUS x; SSO := o; PortalLogin := PortalLogin x; WebAuth := WebAuth x;
     ctx_info := ctx_info x; passedSteps := passedSteps x; stepIdx := stepIdx x |}.

(** [ctx.GetOTP().Code = sp; ctx.GetRADIUS().ChallengeCode = sp] when [sp] is not empty. *)
Definition inject_code (sp : string) (x : AuthContext) : AuthContext :=
  if String.eqb sp "" then x
  else with_RADIUS {| rad_State := rad_State (GetRADIUS x); ChallengeCode := sp; ChallengeMsg := ChallengeMsg (GetRADIUS x) |}
         (with_OTP {| otp_Code := sp; otp_Sent := otp_Sent (GetOTP x) |} x).

(** ** Challenge views *)
Definition challengeStatus (t forcePwdCode : string) : string :=
  if String.eqb t ChallengeOTP then "otp"
  else if String.eqb t ChallengeSMS then "sms"
  else if String.eqb t ChallengeRADIUS then "radius"
  else if String.eqb t ChallengeForcePwd then forcePwdCode
  else if String.eqb t ChallengeSSO then "sso"
  else "credentials".

Record ChallengeView := { cv_Type : string; cv_Message : string; PhoneMasked : string; cv_Group : string; cv_SsoType : string }.

Definition maskPhone (phone : string) : string :=
  let b := bytes_of phone in
  if 4 <? len b then str_of (firstn 3 b ++ bytes_of "****" ++ skipn (length b - 4) b) else phone.

Definition ssoTypeOf (ch : ChallengeInfo) : string :=
  match List.find (λ kv, String.eqb kv.1 "sso_type") (ch_Data ch) with Some kv => kv.2 | None => "" end.

Definition BuildChallengeView (result : PipelineResult) (ctx : AuthContext) (retry : bool) : ChallengeView :=
  match pr_Challenge result with
  | None => {| cv_Type := ""; cv_Message := "请输入登录凭据"; PhoneMasked := ""; cv_Group := pr_GroupName result;
               cv_SsoType := "" |}
  | Some ch =>
      let mk msg phone := {| cv_Type := ch_Type ch; cv_Message := msg; PhoneMasked := phone;
                             cv_Group := pr_GroupName result; cv_SsoType := ssoTypeOf ch |} in
      if String.eqb (ch_Type ch) ChallengeOTP then mk (if retry then "OTP 动态码错误，请重新输入" else "") ""
      else if String.eqb (ch_Type ch) ChallengeRADIUS then
        let msg := match RADIUS ctx with Some r => ChallengeMsg r | None => "" end in
        mk (if retry then (if String.eqb msg "" then "验证失败，请重新输入二次验证码" else "")
            else if String.eqb msg "" then "请输入二次验证码" else msg) ""
      else if String.eqb (ch_Type ch) ChallengeSMS then
        mk "请输入短信验证码" (match SMS ctx with
                         | Some s => if String.eqb (sms_Phone s) "" then "" else maskPhone (sms_Phone s)
                         | None => "" end)
      else if String.eqb (ch_Type ch) ChallengeForcePwd then mk "请设置新密码以继续登录" ""
      else mk "" ""
  end%string.

(** ** Messages *)
Definition stepNamePrefixes : list string :=
  ["cert:"; "local:"; "ldap:"; "radius:"; "otp:"; "wxwork:"; "feishu:"; "saml:"; "admin:"]%string.
Definition stripStepPrefix (msg : string) : string :=
  match List.find (str_has_prefix msg) stepNamePrefixes with
  | Some p => str_of (skipn (length (bytes_of p)) (bytes_of msg))
  | None => msg
  end.
Definition authFailMessage (err : option string) : string :=
  match err with
  | None => "认证失败"
  | Some msg =>
      if str_has_prefix msg "cert:" then "客户端证书认证失败，请检查客户端证书"
      else if str_has_prefix msg "wxwork:" || str_has_prefix msg "feishu:" then "单点登录认证失败"
      else if str_has_prefix msg "otp:" then "动态码验证失败"
      else if str_contains msg "锁定" then "账号已被锁定，请稍后重试"
      else "用户名或密码错误"
  end.

(** ** Sessions handed to package sessdata *)
Record CreatedSession := {
  cs_Username : string; cs_Group : string; cs_LimitTime : option Time; cs_UniqueIdGlobal : string;
  cs_UserAgent : string; cs_DeviceType : string; cs_PlatformVersion : string; cs_Os : Z;
  cs_RemoteAddr : string; cs_UniqueMac : bool; cs_MacHw : list byte; cs_MacAddr : string
}.

(** [CreateSession] up to the profile hash; [token] is the new session's. *)
Definition create_session (md5 : string → list byte) (token : string) (s : AuthSession) : CreatedSession :=
  let c := Conn (as_Ctx s) in
  let ua := as_UserActLog s in
  let '(hw, unique) :=
    match ParseMAC (ci_MacAddr c) with
    | Some hw => (hw, true)
    | None => if negb (String.eqb (DeviceID c) "")
              then ("002"%byte :: firstn 5 (md5 (DeviceID c)), true)
              else ("002"%byte :: firstn 5 (md5 token), false)
    end in
  {| cs_Username := ci_Username c; cs_Group := GroupName_c c;
     cs_LimitTime := match ctx_UserInfo (as_Ctx s) with Some u => ui_LimitTime u | None => None end;
     cs_UniqueIdGlobal := DeviceID c; cs_UserAgent := UserAgent c; cs_DeviceType := ual_DeviceType ua;
     cs_PlatformVersion := ual_PlatformVersion ua; cs_Os := ual_Os ua; cs_RemoteAddr := ci_RemoteAddr c;
     cs_UniqueMac := unique; cs_MacHw := hw; cs_MacAddr := hw_String hw |}.

(** ** Responses and state *)
Inductive Response :=
  | RStatus (code : Z)
  | RComplete
  | RForm (group error : string)
  | ROtp (error : string)
  | RAcceptChallenge (error phone : string)
  | RSaml (group ssoType browserMode : string)
  | RForcePwd (group state : string)
  | RWebAuth (state group : string).

Inductive Event := EvLogout (token : string) | EvLog (l : UserActLog) | EvCreated (s : CreatedSession).

Record Handler (E : Type) := {
  h_locks : LockManager; h_sessions : authSessionManager; h_world : AuthWorld E; h_events : list Event;
  h_random : list string
}.
Arguments h_locks {E} _.
Arguments h_sessions {E} _.
Arguments h_world {E} _.
Arguments h_events {E} _.
Arguments h_random {E} _.

(** ** Handlers *)
Section handlers.
Context {E : Type} `{!AuthEnv E} (cfg : ServerConfig) (reg : ProviderRegistry (AuthWorld E))
        (decode : string → option GroupAuthProfile)
        (configure : AuthWorld E → string → string → Authenticator (AuthWorld E) → string + Authenticator (AuthWorld E))
        (md5 : string → list byte) (default_browser : string → string → option bool)
        (profile_hash_ok : E → bool) (quote : string → string) (db_error : string).
Implicit Types (h : Handler E) (rq : HttpRequest) (s : AuthSession).

Definition with_locks (m : LockManager) h : Handler E :=
  {| h_locks := m; h_sessions := h_sessions h; h_world := h_world h; h_events := h_events h; h_random := h_random h |}.
Definition with_sessions (m : authSessionManager) h : Handler E :=
  {| h_locks := h_locks h; h_sessions := m; h_world := h_world h; h_events := h_events h; h_random := h_random h |}.
Definition with_world (w : AuthWorld E) h : Handler E :=
  {| h_locks := h_locks h; h_sessions := h_sessions h; h_world := w; h_events := h_events h; h_random := h_random h |}.
Definition emit (e : Event) h : Handler E :=
  {| h_locks := h_locks h; h_sessions := h_sessions h; h_world := h_world h; h_events := e :: h_events h;
     h_random := h_random h |}.

(** [utils.RandomRunes] and the tokens of a new session. *)
Definition next_random h : Handler E * string :=
  match h_random h with
  | [] => (h, ""%string)
  | r :: rs => ({| h_locks := h_locks h; h_sessions := h_sessions h; h_world := h_world h;
                   h_events := h_events h; h_random := rs |}, r)
  end.

Definition delete_session (id : string) h : Handler E := with_sessions (asm_Delete (h_sessions h) id) h.
Definition save_session (id : string) s (now : Time) h : Handler E :=
  with_sessions (asm_Save (h_sessions h) id s now) h.

(** The text of an error. *)
Definition error_text (e : AuthError) : string :=
  match e with
  | ErrGroupNotFound => "ErrNotFound"
  | ErrGroupQuery => db_error
  | ErrGroupDisabled n => "用户组(" +:+ n +:+ ")已禁用"
  | ErrProfile EmptyProfile => "认证配置为空"
  | ErrProfile BadProfile => "解析认证配置失败: " +:+ db_error
  | ErrProfile NoSteps => "认证步骤为空"
  | ErrProfile FirstStepOtp => "第一步不能是 OTP 认证，OTP 依赖前置步骤提供用户名"
  | ErrProfile RadiusAndOtp => "radius 和 otp 不能同时配置: Radius 服务端自带 TOTP 时会与 remlink 本地 OTP 冲突"
  | ErrProfile SsoAndCredential => "SSO 认证(企业微信/飞书)不能与本地密码、LDAP、RADIUS 等凭据认证同时使用：SSO 由第三方身份提供，不产生登录密码，无法与需要密码的步骤组合"
  | ErrPipeline NoProfileSteps => "认证配置未包含任何步骤"
  | ErrPipeline (UnknownType t i) => "未知认证类型 " +:+ quote t +:+ "（步骤 " +:+ pretty i +:+ "，可用: ["
      +:+ String.concat " " (RegisteredNames reg) +:+ "]）"
  | ErrPipeline (ProviderFailed p i t) => t
  | ErrStep t => t
  end%string.

(** [isMobileDevice], [GetSSOBrowserMode] and [samlBrowserMode]. *)
Definition isMobileDevice rq : bool :=
  existsb (str_contains (r_UserAgent rq)) ["Mobile"; "Android"; "iPhone"; "iPad"; "iPod"]%string.
Definition GetSSOBrowserMode (ssoType group : string) : string :=
  match default_browser ssoType group with Some true => "external" | _ => "" end.
Definition samlBrowserMode rq (ssoType group : string) : string :=
  if isMobileDevice rq then "internal" else GetSSOBrowserMode ssoType group.

(** *** Flow: lock counting *)
Definition pendingLockDecision (result : PipelineResult) : bool :=
  if IsChallengeRetry result then false else bool_decide (is_Some (pr_Challenge result)).

Definition handlePendingLock (result : PipelineResult) (user addr : string) (now : Time) h : Handler E :=
  with_locks (if pendingLockDecision result then LockManager_StageSuccess cfg (h_locks h) user addr now
              else ChallengeFail cfg (h_locks h) user addr now) h.

Definition dispatch_locks (result : PipelineResult) (user addr : string) (now : Time) h : Handler E :=
  match pr_Result result with
  | StepPass => with_locks (LockManager_Success cfg (h_locks h) user addr now) h
  | StepFail => with_locks (LockManager_Fail cfg (h_locks h) user addr now) h
  | StepPending => handlePendingLock result user addr now h
  end.

Definition savePendingState (result : PipelineResult) s : AuthSession :=
  if negb (bool_decide (pr_Result result = StepPending)) || (StepIdx (State result) <? 0) then s
  else set_Ctx (SetPassedSteps (PassedSteps (State result)) (SetStepIdx (StepIdx (State result)) (as_Ctx s))) s.

Definition recordFailAudit (conn : ConnInfo) (username remoteAddr info : string) h : Handler E :=
  emit (EvLog {| ual_Username := username; ual_GroupName := ""; ual_RemoteAddr := remoteAddr; ual_Os := 0;
                 ual_DeviceType := DeviceType conn; ual_PlatformVersion := PlatformVer conn;
                 ual_Status := UserAuthFail; ual_Info := info; IsLockedFail := str_contains info "锁定" |}) h.

(** *** Outcomes of the pipeline *)
Definition CreateSession s h : Handler E * Response :=
  let '(h, token) := next_random h in
  let h := emit (EvCreated (create_session md5 token s)) h in
  (h, if profile_hash_ok (env (h_world h)) then RComplete else RStatus 500).

(** The status 403 of a phone's SSO challenge comes after [WriteHeader(200)],
    which net/http has already sent. *)
Definition handleChallengeResult rq (result : PipelineResult) s (now : Time) h : Handler E * Response :=
  match pr_Challenge result with
  | None => (if String.eqb (as_SessionID s) "" then h
             else with_sessions (am_with (<[as_SessionID s := s]> (am_sessions (h_sessions h))) (h_sessions h)) h,
             RStatus 500)
  | Some _ =>
      let s := set_Kind AuthKindPipeline (savePendingState result s) in
      let '(h, s) := if String.eqb (as_SessionID s) ""
                     then let '(h, sid) := next_random h in (h, set_SessionID sid s)
                     else (h, s) in
      let view := BuildChallengeView result (as_Ctx s) (IsChallengeRetry result) in
      let s := set_ForcePwd (String.eqb (cv_Type view) ChallengeForcePwd) s in
      let h := save_session (as_SessionID s) s now h in
      (h,
       if String.eqb (cv_Type view) ChallengeSSO then
         if isMobileDevice rq && negb (AllowMobileSSO cfg) then RStatus 200
         else RSaml (cv_Group view) (cv_SsoType view) (samlBrowserMode rq (cv_SsoType view) (pr_GroupName result))
       else if String.eqb (cv_Type view) ChallengeForcePwd then RForcePwd (cv_Group view) (as_SessionID s)
       else if String.eqb (cv_Type view) ChallengeOTP then ROtp (cv_Message view)
       else if String.eqb (cv_Type view) ChallengeRADIUS then RAcceptChallenge (cv_Message view) ""
       else if String.eqb (cv_Type view) ChallengeSMS then RAcceptChallenge (cv_Message view) (PhoneMasked view)
       else RForm (cv_Group view) "")
  end.

Definition log_of_pass (result : PipelineResult) (l : UserActLog) : UserActLog :=
  {| ual_Username := pr_Username result; ual_GroupName := pr_GroupName result; ual_RemoteAddr := ual_RemoteAddr l;
     ual_Os := ual_Os l; ual_DeviceType := ual_DeviceType l; ual_PlatformVersion := ual_PlatformVersion l;
     ual_Status := UserAuthSuccess;
     ual_Info := if String.eqb (Info result) "" then "认证成功" else Info result;
     IsLockedFail := IsLockedFail l |}.

Definition drop_pending s h : Handler E :=
  if String.eqb (as_SessionID s) "" then h else delete_session (as_SessionID s) h.

Definition handlePipelineResult rq (result : PipelineResult) s (now : Time) h : Handler E * Response :=
  let ctx := as_Ctx s in
  let username := if negb (String.eqb (pr_Username result) "") then pr_Username result else ci_Username (Conn ctx) in
  let h := dispatch_locks result username (r_RemoteAddr rq) now h in
  match pr_Result result with
  | StepPass =>
      let s := set_Log (log_of_pass result (as_UserActLog s)) s in
      let h := emit (EvLog (as_UserActLog s)) (drop_pending s h) in
      CreateSession (set_Ctx (with_Conn (set_conn_identity (pr_Username result) (pr_GroupName result) (Conn ctx)) ctx) s) h
  | StepFail =>
      let err := error_text <$> Err result in
      let h := recordFailAudit (Conn ctx) username (r_RemoteAddr rq) (authFailMessage err) (drop_pending s h) in
      (h, RForm (GroupName_c (Conn ctx))
            (match err with
             | Some e => if DisplayError cfg then stripStepPrefix e else authFailMessage err
             | None => authFailMessage err
             end))
  | StepPending => handleChallengeResult rq result s now h
  end.

Definition authenticate_session rq s (now : Time) h : Handler E * Response :=
  let '(w, x, result) := Authsrv_Authenticate world_group world_user decode configure reg (h_world h) (as_Ctx s) now in
  handlePipelineResult rq result (set_Ctx x s) now (with_world w h).

Definition resumeAuthSession rq s (now : Time) h : Handler E * Response :=
  let ctx := with_Conn (set_conn_request None (r_RemoteAddr rq) (r_Certs rq) (Conn (as_Ctx s))) (as_Ctx s) in
  let '(ctx, err) := ReloadAndCheckUser world_user (h_world h) ctx now in
  match err with
  | Some e =>
      handlePipelineResult rq
        {| pr_Result := StepFail; Err := Some (ErrStep e); pr_Username := ci_Username (Conn ctx);
           pr_GroupName := GroupName_c (Conn ctx); Info := ""; pr_LimitTime := None; pr_Challenge := None;
           State := {| StepIdx := 0; PassedSteps := [] |}; PrevStepIdx := 0 |}
        (set_Ctx ctx s) now h
  | None =>
      let state := {| StepIdx := stepIdx ctx; PassedSteps := passedSteps ctx |} in
      let '(w, x, result) := Authsrv_Resume world_group decode configure reg (h_world h) ctx state now in
      handlePipelineResult rq result (set_Ctx x s) now (with_world w h)
  end.

(** *** Entry points *)
Definition newAuthContext (cr : ClientRequest) rq : AuthContext := {|
  Conn := {| ci_Username := cr_Username cr; ci_Nickname := ""; Password := cr_Password cr; GroupName_c := GroupSelect cr;
             ci_RemoteAddr := r_RemoteAddr rq; UserAgent := cr_UserAgent cr; ci_MacAddr := cr_MacAddress cr;
             DeviceID := UniqueIdGlobal (cr_DeviceId cr); DeviceType := deviceId_Type (cr_DeviceId cr);
             PlatformVer := PlatformVersion (cr_DeviceId cr); PeerCertificates := r_Certs rq |};
  ctx_UserInfo := None; Identity := ""; OTP := None; SMS := None; RADIUS := None; SSO := None;
  PortalLogin := false; WebAuth := false; ctx_info := ""; passedSteps := []; stepIdx := 0 |}.

Definition new_log (cr : ClientRequest) rq : UserActLog := {|
  ual_Username := cr_Username cr; ual_GroupName := GroupSelect cr; ual_RemoteAddr := r_RemoteAddr rq;
  ual_Os := OSIdx (deviceId_OS (cr_DeviceId cr)); ual_DeviceType := deviceId_Type (cr_DeviceId cr);
  ual_PlatformVersion := PlatformVersion (cr_DeviceId cr); ual_Status := UserAuthSuccess; ual_Info := "";
  IsLockedFail := false |}.

Definition fail_log (info : string) (locked : bool) (l : UserActLog) : UserActLog := {|
  ual_Username := ual_Username l; ual_GroupName := ual_GroupName l; ual_RemoteAddr := ual_RemoteAddr l;
  ual_Os := ual_Os l; ual_DeviceType := ual_DeviceType l; ual_PlatformVersion := ual_PlatformVersion l;
  ual_Status := UserAuthFail; ual_Info := info; IsLockedFail := locked |}.
Definition identify_log (user group : string) (l : UserActLog) : UserActLog := {|
  ual_Username := user; ual_GroupName := group; ual_RemoteAddr := ual_RemoteAddr l; ual_Os := ual_Os l;
  ual_DeviceType := ual_DeviceType l; ual_PlatformVersion := ual_PlatformVersion l; ual_Status := ual_Status l;
  ual_Info := ual_Info l; IsLockedFail := IsLockedFail l |}.

Definition identify (user group : string) s : AuthSession :=
  set_Log (identify_log user group (as_UserActLog s))
    (set_Ctx (with_Conn (set_conn_identity user group (Conn (as_Ctx s))) (as_Ctx s)) s).

Definition handleInit rq (cr : ClientRequest) (errMsg : string) h : Handler E * Response :=
  if negb (String.eqb (GroupSelect cr) "") && str_contains (cr_UserAgent cr) "openconnect"
  then (h, RForm (GroupSelect cr) errMsg)
  else
    let ssoType := GetSSOType world_group decode reg (h_world h) (GroupSelect cr) in
    if negb (String.eqb ssoType "")
    then (h, RSaml (GroupSelect cr) ssoType (samlBrowserMode rq ssoType (GroupSelect cr)))
    else (h, RForm (GroupSelect cr) errMsg).

(** [None] is the result [false]: not a certificate login. *)
Definition handleCertAutoAuth rq (cr : ClientRequest) s (now : Time) h : option (Handler E * Response) :=
  match r_Certs rq with
  | [] => None
  | cert :: _ =>
      match OrganizationalUnit cert with
      | [] => None
      | groupname :: _ =>
          let username := CommonName cert in
          if String.eqb username "" || String.eqb groupname "" then None
          else if negb (CertAutoAuth world_group decode reg (h_world h) groupname) then None
          else
            let s := identify username groupname s in
            let '(w, x, result) := Authsrv_Authenticate world_group world_user decode configure reg (h_world h) (as_Ctx s) now in
            let h := with_world w h in
            Some (if bool_decide (pr_Result result = StepFail) then
                    let err := error_text <$> Err result in
                    handleInit rq cr (match err with
                                      | Some e => if DisplayError cfg then stripStepPrefix e else authFailMessage err
                                      | None => authFailMessage err
                                      end) h
                  else handlePipelineResult rq result (set_Ctx x s) now h)
      end
  end.

Definition handlerWebAuth rq (cr : ClientRequest) (ua : UserActLog) (now : Time) h : Handler E * Response :=
  if negb (String.eqb (GroupSelect cr) "")
     && negb (String.eqb (GetSSOType world_group decode reg (h_world h) (GroupSelect cr)) "")
     && isMobileDevice rq then (h, RStatus 403)
  else
    let '(h, state) := next_random h in
    let x := newAuthContext cr rq in
    let c := Conn x in
    let pending := {| as_SessionID := ""; as_UserActLog := ua; as_ForcePwd := false; as_CreatedAt := zero_time;
      as_Kind := AuthKindPipeline;
      as_Ctx := {| Conn := {| ci_Username := ""; ci_Nickname := ""; Password := ""; GroupName_c := GroupName_c c;
                     ci_RemoteAddr := ci_RemoteAddr c; UserAgent := UserAgent c; ci_MacAddr := ci_MacAddr c;
                     DeviceID := DeviceID c; DeviceType := DeviceType c; PlatformVer := PlatformVer c;
                     PeerCertificates := PeerCertificates c |};
                   ctx_UserInfo := None; Identity := ""; OTP := None; SMS := None; RADIUS := None; SSO := None;
                   PortalLogin := false; WebAuth := true; ctx_info := ""; passedSteps := []; stepIdx := 0 |} |} in
    (save_session state pending now h, RWebAuth state (GroupSelect cr)).

(** The pending login a single sign-on token names: under the token itself, or
    under its base64 decoding. *)
Definition sso_session (token : string) (now : Time) h : Handler E * option (string * AuthSession) :=
  let '(m, r) := asm_Get (h_sessions h) token now in
  let h := with_sessions m h in
  match r with
  | Some s => (h, Some (token, s))
  | None =>
      let pad := Z.to_nat (str_len token mod 4) in
      let token := if Nat.eqb pad 0 then token else (token +:+ str_of (repeat "="%byte (4 - pad)))%string in
      match base64_DecodeString token with
      | None => (h, None)
      | Some key =>
          let '(m, r) := asm_Get (h_sessions h) key now in
          (with_sessions m h, match r with Some s => Some (key, s) | None => None end)
      end
  end.

Definition handleSsoToken rq (cr : ClientRequest) s (now : Time) h : Handler E * Response :=
  let '(h, found) := sso_session (SsoToken cr) now h in
  match found with
  | None => (h, RStatus 401)
  | Some (key, saml) =>
      let k := as_Kind saml in
      if negb (String.eqb k AuthKindSSODone || String.eqb k AuthKindSSOPending || String.eqb k AuthKindWebAuth)
      then (h, RStatus 401)
      else if as_ForcePwd saml then resumeAuthSession rq saml now h
      else if String.eqb k AuthKindWebAuth
              && match SSO (as_Ctx saml) with Some o => WebAuthCompleted o | None => false end then
        let o := SSO (as_Ctx saml) in
        let username := match o with Some o => WebAuthUsername o | None => "" end in
        let group := match o with Some o => WebAuthGroup o | None => "" end in
        if String.eqb username "" || String.eqb group "" then (h, RStatus 401)
        else
          let s := match ctx_UserInfo (as_Ctx saml) with
                   | Some u => set_Ctx (SetUserInfo u (as_Ctx s)) s
                   | None => s
                   end in
          let s := identify username group s in
          let l := as_UserActLog s in
          let s := set_Log {| ual_Username := username; ual_GroupName := group; ual_RemoteAddr := ual_RemoteAddr l;
                              ual_Os := ual_Os l; ual_DeviceType := ual_DeviceType l;
                              ual_PlatformVersion := ual_PlatformVersion l; ual_Status := UserAuthSuccess;
                              ual_Info := "WebAuth 认证成功"; IsLockedFail := IsLockedFail l |} s in
          let h := emit (EvLog (as_UserActLog s)) h in
          let h := with_locks (LockManager_Success cfg (h_locks h) username (r_RemoteAddr rq) now) h in
          let '(h, resp) := CreateSession s h in
          (delete_session key h, resp)
      else
        let o := SSO (as_Ctx saml) in
        let userID := match o with Some o => if Authenticated o then UserID o else "" | None => "" end in
        let group := GroupName_c (Conn (as_Ctx saml)) in
        let s := identify userID group s in
        let restart h :=
          let s := match o with Some _ => set_Ctx (with_SSO o (as_Ctx s)) s | None => s end in
          let s := set_Ctx (LoadUserInfo world_user (h_world h) (as_Ctx s)) s in
          let '(h, resp) := authenticate_session rq s now h in
          (delete_session key h, resp) in
        match r_Cookie rq with
        | Some id =>
            if String.eqb id "" then restart h
            else
              let '(m, r) := asm_Get (h_sessions h) id now in
              let h := with_sessions m h in
              match r with
              | None => restart h
              | Some sess =>
                  let x := as_Ctx sess in
                  let x := with_Conn (set_conn_request None (r_RemoteAddr rq) (r_Certs rq)
                                        (set_conn_identity userID group (Conn x))) x in
                  let x := match o with Some _ => with_SSO o x | None => x end in
                  let sess := set_SessionID "" (set_Log (as_UserActLog s) (set_Ctx x sess)) in
                  let '(h, resp) := resumeAuthSession rq sess now (delete_session id h) in
                  (delete_session key h, resp)
              end
        | None => restart h
        end
  end.

Definition HasAuthType (authProfile authType : string) : bool :=
  match ParseAuthProfile decode reg authProfile with
  | inr p => existsb (λ st, String.eqb (amc_Type st) authType) (Step p)
  | inl _ => false
  end.

(** The [auth-reply] branch, once the request has passed the lock check. *)
Definition auth_reply rq (cr : ClientRequest) s (now : Time) h : Handler E * Response :=
  if negb (String.eqb (GroupSelect cr) "")
     && negb (String.eqb (GetSSOType world_group decode reg (h_world h) (GroupSelect cr)) "")
     && isMobileDevice rq && negb (AllowMobileSSO cfg) then (h, RStatus 403)
  else if negb (String.eqb (GroupSelect cr) "")
     && match world_group (h_world h) (GroupSelect cr) with
        | Found g => HasAuthType (AuthProfile g) "sms"
        | _ => false
        end then
    (emit (EvLog (fail_log "原生客户端不支持 SMS 认证" false (as_UserActLog s))) h, RStatus 403)
  else
    match r_Cookie rq with
    | Some id =>
        if String.eqb id "" then authenticate_session rq s now h
        else
          let '(m, r) := asm_Get (h_sessions h) id now in
          let h := with_sessions m h in
          match r with
          | None => authenticate_session rq s now h
          | Some sess =>
              let x := as_Ctx sess in
              let x := with_Conn (set_conn_request (Some (cr_Password cr)) (r_RemoteAddr rq) (r_Certs rq) (Conn x))
                         (inject_code (SecondaryPassword cr) x) in
              resumeAuthSession rq (set_Log (as_UserActLog s) (set_Ctx x sess)) now h
          end
    | None => authenticate_session rq s now h
    end.

(** [LinkAuth]; [cr_UserAgent] is the lower-cased header unless the XML sets it. *)
Definition LinkAuth rq (now : Time) h : Handler E * Response :=
  let userAgent := str_lower (r_UserAgent rq) in
  if negb ((str_contains userAgent "anyconnect" || str_contains userAgent "openconnect"
            || str_contains userAgent "anylink")
           && String.eqb (AggregateAuth rq) "1" && String.eqb (TranscendVersion rq) "1") then (h, RStatus 403)
  else
    match r_Body rq with
    | None => (h, RStatus 400)
    | Some cr =>
        if String.eqb (cr_Type cr) "logout" then
          (if negb (String.eqb (SessionToken cr) "") then emit (EvLogout (SessionToken cr)) h else h, RStatus 200)
        else
          let ua := new_log cr rq in
          let s := {| as_SessionID := ""; as_Ctx := newAuthContext cr rq; as_UserActLog := ua; as_ForcePwd := false;
                      as_CreatedAt := zero_time; as_Kind := "" |} in
          if String.eqb (GroupSelect cr) ""
             && negb (negb (String.eqb (SsoToken cr) "") || String.eqb (cr_Type cr) "init")
             && negb (str_contains userAgent "openconnect") then (h, RStatus 400)
          else
            let '(m, ok) := LockManager_Check cfg (h_locks h) (cr_Username cr) (r_RemoteAddr rq) now in
            let h := with_locks m h in
            if negb ok then
              let info := if String.eqb (cr_Username cr) "" then
                            if InBlackList m (r_RemoteAddr rq) then "IP在黑名单中，拒绝访问"
                            else "IP已被锁定，请稍后重试"
                          else "账号已被锁定，请稍后重试" in
              (emit (EvLog (fail_log info true ua)) h, RStatus 400)
            else if negb (String.eqb (SsoToken cr) "") then handleSsoToken rq cr s now h
            else if String.eqb (cr_Type cr) "init" then
              if EnableWebAuth cfg && str_contains userAgent "anyconnect"
                 && negb (str_contains userAgent "openconnect") && negb (str_contains userAgent "open anyconnect")
              then handlerWebAuth rq cr ua now h
              else match handleCertAutoAuth rq cr s now h with
                   | Some r => r
                   | None => handleInit rq cr "" h
                   end
            else if negb (String.eqb (cr_Type cr) "auth-reply") then (h, RStatus 400)
            else auth_reply rq cr s now h
    end.

(** [LinkAuthOtp] *)
Definition LinkAuthOtp rq (now : Time) h : Handler E * Response :=
  match r_Cookie rq with
  | None => (h, RStatus 401)
  | Some id =>
      let '(m, r) := asm_Get (h_sessions h) id now in
      let h := with_sessions m h in
      match r with
      | None => (h, RStatus 401)
      | Some sess =>
          match r_Body rq with
          | None => (delete_session id h, RStatus 400)
          | Some cr =>
              let '(m, ok) := LockManager_Check cfg (h_locks h) (ci_Username (Conn (as_Ctx sess))) (r_RemoteAddr rq) now in
              let h := with_locks m h in
              if negb ok then (delete_session id h, RStatus 429)
              else
                let x := inject_code (SecondaryPassword cr) (as_Ctx sess) in
                let x := with_Conn (set_conn_request None (r_RemoteAddr rq) (r_Certs rq) (Conn x)) x in
                resumeAuthSession rq (set_Ctx x sess) now h
          end
      end
  end.
End handlers.
