(* ===== verification/AuthFlowSpec.v ===== *)
(** * The native login: second-factor guessing and the lock, the session's MAC *)
From S2P Require Import AuthFlow AuthSpec.
Local Open Scope Z_scope.

(** ** What each lock operation does to the challenge counters *)
Section challenge.
Context (cfg : ServerConfig).
Implicit Types (m : LockManager) (now : Time).

Lemma update_true_frame m u a now :
  challengeLocks (LockManager_update cfg m u a true now) = challengeLocks m
  ∧ ipLists (LockManager_update cfg m u a true now) = ipLists m.
Proof. unfold LockManager_update, clearUserIP. by repeat case_match. Qed.

Lemma nested_entry_delete l ip u ip' u' :
  nested_entry (delete_nested ip u l) ip' u'
  = if decide (ip = ip' ∧ u = u') then None else nested_entry l ip' u'.
Proof.
  unfold delete_nested, nested_entry. destruct (l !! ip) as [um|] eqn:El.
  - destruct (decide (ip = ip')) as [->|].
    + rewrite El. case_bool_decide as Hd.
      * rewrite lookup_delete_eq. simpl. destruct (decide (u = u')) as [->|].
        -- by rewrite decide_True.
        -- rewrite decide_False by tauto. simpl. symmetry.
           by rewrite <- (lookup_delete_ne um u u'), Hd, lookup_empty.
      * rewrite lookup_insert_eq. simpl. destruct (decide (u = u')) as [->|].
        -- rewrite decide_True by done. by rewrite lookup_delete_eq.
        -- rewrite decide_False by tauto. by rewrite lookup_delete_ne.
    + rewrite (decide_False (P := _ ∧ _)) by tauto.
      case_bool_decide; [by rewrite lookup_delete_ne|by rewrite lookup_insert_ne].
  - destruct (decide (ip = ip' ∧ u = u')) as [[-> ->]|]; [by rewrite El|done].
Qed.

Lemma Success_challenge m u a now ip port ip' u' :
  SplitHostPort a = Some (ip, port) →
  nested_entry (challengeLocks (LockManager_Success cfg m u a now)) ip' u'
  = if decide (ip = ip' ∧ u = u') then None else nested_entry (challengeLocks m) ip' u'.
Proof.
  intros Hs. unfold LockManager_Success, clearChallenge. rewrite Hs. cbn [challengeLocks with_challengeLocks].
  by rewrite nested_entry_delete, (proj1 (update_true_frame m u a now)).
Qed.

Lemma Success_lists m u a now : ipLists (LockManager_Success cfg m u a now) = ipLists m.
Proof.
  unfold LockManager_Success, clearChallenge. rewrite <- (proj2 (update_true_frame m u a now)).
  by repeat case_match.
Qed.

Lemma ChallengeFail_entry m u a now ip port ip' u' :
  SplitHostPort a = Some (ip, port) → u ≠ ""%string → 0 < MaxBanCount cfg →
  nested_entry (challengeLocks (ChallengeFail cfg m u a now)) ip' u'
  = if decide (ip = ip' ∧ u = u') then Some (bump_user cfg (nested_entry (challengeLocks m) ip u) now)
    else nested_entry (challengeLocks m) ip' u'.
Proof.
  intros Hs Hu Hb. unfold ChallengeFail. rewrite Hs, bool_decide_eq_false_2 by done.
  rewrite (proj2 (Z.leb_gt _ _)) by lia. cbn [challengeLocks with_challengeLocks].
  rewrite nested_entry_insert. unfold bump_user, nested_entry.
  by destruct (challengeLocks m !! ip).
Qed.

Lemma ChallengeFail_other m u a now ip' u' :
  (∀ ip port, SplitHostPort a = Some (ip, port) → ¬ (ip = ip' ∧ u = u')) →
  nested_entry (challengeLocks (ChallengeFail cfg m u a now)) ip' u' = nested_entry (challengeLocks m) ip' u'
  ∧ ipLists (ChallengeFail cfg m u a now) = ipLists m.
Proof.
  intros Hne. unfold ChallengeFail. destruct (SplitHostPort a) as [[ip port]|] eqn:Hs.
  - case_bool_decide; [done|]. case_match; [done|]. split; [|done]. cbn [challengeLocks with_challengeLocks].
    rewrite nested_entry_insert, decide_False; [done|]. by eapply Hne.
  - unfold warnRateLimited. by repeat case_match.
Qed.

Lemma ChallengeFail_lists m u a now : ipLists (ChallengeFail cfg m u a now) = ipLists m.
Proof. unfold ChallengeFail, warnRateLimited. by repeat case_match. Qed.
End challenge.

(** ** Sequences of dispatched results *)
Record Dispatched := { d_result : PipelineResult; d_user : string; d_addr : string; d_time : Time }.

Section dispatches.
Context {E : Type} (cfg : ServerConfig).
Implicit Type h : Handler E.

Definition dispatch_run h (ds : list Dispatched) : Handler E :=
  fold_left (λ h d, dispatch_locks cfg (d_result d) (d_user d) (d_addr d) (d_time d) h) ds h.

(** The dispatch concerns user [u] at address [ip]. *)
Definition concerns (u ip : string) (d : Dispatched) : bool :=
  String.eqb (d_user d) u
  && match SplitHostPort (d_addr d) with Some (i, _) => String.eqb i ip | None => false end.

(** A wrong second factor: the pipeline waits at the step it was resumed at, or
    waits without a challenge. *)
Definition wrong_code (d : Dispatched) : bool :=
  bool_decide (pr_Result (d_result d) = StepPending) && negb (pendingLockDecision (d_result d)).

(** The times of the wrong codes of [u] at [ip]. *)
Definition wrong_times (u ip : string) (ds : list Dispatched) : list Time :=
  d_time <$> List.filter (λ d, concerns u ip d && wrong_code d) ds.

Definition never_passed (u ip : string) (ds : list Dispatched) : Prop :=
  ∀ d, d ∈ ds → concerns u ip d = true → pr_Result (d_result d) ≠ StepPass.

Lemma dispatch_entry h d u ip :
  u ≠ ""%string → 0 < MaxBanCount cfg →
  (concerns u ip d = true → pr_Result (d_result d) ≠ StepPass) →
  nested_entry (challengeLocks (h_locks (dispatch_locks cfg (d_result d) (d_user d) (d_addr d) (d_time d) h))) ip u
  = (if concerns u ip d && wrong_code d
     then Some (bump_user cfg (nested_entry (challengeLocks (h_locks h)) ip u) (d_time d))
     else nested_entry (challengeLocks (h_locks h)) ip u)
  ∧ ipLists (h_locks (dispatch_locks cfg (d_result d) (d_user d) (d_addr d) (d_time d) h)) = ipLists (h_locks h).
Proof.
  intros Hu Hb Hnp. unfold dispatch_locks, wrong_code, handlePendingLock.
  destruct (pr_Result (d_result d)) eqn:Hr; cbn [h_locks with_locks].
  - rewrite andb_false_r. split; [|apply Success_lists].
    destruct (SplitHostPort (d_addr d)) as [[i p]|] eqn:Hs.
    + rewrite (Success_challenge _ _ _ _ _ _ _ _ _ Hs), decide_False; [done|]. intros [Ei Ed].
      unfold concerns in Hnp. rewrite Hs, Ei, Ed, !String.eqb_refl in Hnp. by apply Hnp.
    + unfold LockManager_Success, clearChallenge. rewrite Hs.
      by rewrite (proj1 (update_true_frame cfg (h_locks h) (d_user d) (d_addr d) (d_time d))).
  - rewrite bool_decide_eq_true_2 by done. cbn [andb]. destruct (pendingLockDecision _); cbn [negb].
    + rewrite andb_false_r. unfold LockManager_StageSuccess.
      by destruct (update_true_frame cfg (h_locks h) (d_user d) (d_addr d) (d_time d)) as [-> ->].
    + split; [|apply ChallengeFail_lists]. rewrite andb_true_r. unfold concerns.
      destruct (SplitHostPort (d_addr d)) as [[i p]|] eqn:Hs.
      * destruct (String.eqb_spec (d_user d) u) as [Ed|]; destruct (String.eqb_spec i ip) as [Ei|]; cbn [andb].
        -- subst. rewrite (ChallengeFail_entry _ _ _ _ _ _ _ _ _ Hs) by done. by rewrite decide_True.
        -- apply ChallengeFail_other. intros i' p' Hs'. rewrite Hs in Hs'. simplify_eq. tauto.
        -- apply ChallengeFail_other. intros i' p' Hs'. tauto.
        -- apply ChallengeFail_other. intros i' p' Hs'. tauto.
      * rewrite andb_false_r. apply ChallengeFail_other. by rewrite Hs.
  - rewrite andb_false_r. destruct (Fail_other cfg (h_locks h) (d_user d) (d_addr d) (d_time d)) as [-> ->]. done.
Qed.

Lemma dispatch_run_entry ds u ip : ∀ h,
  u ≠ ""%string → 0 < MaxBanCount cfg → never_passed u ip ds →
  nested_entry (challengeLocks (h_locks (dispatch_run h ds))) ip u
  = bump_run cfg (nested_entry (challengeLocks (h_locks h)) ip u) (wrong_times u ip ds)
  ∧ ipLists (h_locks (dispatch_run h ds)) = ipLists (h_locks h).
Proof.
  induction ds as [|d ds IH]; intros h Hu Hb Hnp; [done|].
  destruct (dispatch_entry h d u ip Hu Hb) as [He Hl]; [by apply Hnp; left|].
  destruct (IH (dispatch_locks cfg (d_result d) (d_user d) (d_addr d) (d_time d) h) Hu Hb)
    as [IHe IHl]; [intros d' Hd'; apply Hnp; by right|].
  change (dispatch_run h (d :: ds)) with
    (dispatch_run (dispatch_locks cfg (d_result d) (d_user d) (d_addr d) (d_time d) h) ds).
  rewrite IHe, IHl, He, Hl. split; [|done]. unfold wrong_times. simpl.
  by destruct (concerns u ip d && wrong_code d).
Qed.

(** The counter refuses the user at the address. *)
Lemma wrong_codes_locked ds u ip h t0 ts t1 addr port now :
  0 < MaxBanCount cfg ≤ max_int64 → 0 ≤ BanResetTime cfg ≤ 9000000000 → AntiBruteForce cfg = true →
  u ≠ ""%string → InList (h_locks h) ip IPWhiteList = false →
  nested_entry (challengeLocks (h_locks h)) ip u = None → never_passed u ip ds →
  wrong_times u ip ds = t0 :: ts ++ [t1] → len ts + 2 = MaxBanCount cfg → zero_time < t0 →
  gaps_within (BanResetTime cfg * Second) t0 (ts ++ [t1]) → now ≤ t1 + seconds (LockTime_cfg cfg) →
  SplitHostPort addr = Some (ip, port) →
  (LockManager_Check cfg (h_locks (dispatch_run h ds)) u addr now).2 = false.
Proof.
  intros Hmax Hreset Hab Hu Hw He Hnp Ht Hn Hz Hg Hnow Hs.
  destruct (dispatch_run_entry ds u ip h Hu (proj1 Hmax) Hnp) as [Hen Hl].
  rewrite (Check_answer _ _ _ _ _ _ _ Hs), Hab, (InList_ext (h_locks h) _ ip IPWhiteList), Hw by done.
  cbn [orb negb]. apply andb_false_iff. right. unfold check_answer. rewrite Hen, He, Ht.
  destruct (bump_run_locked cfg Hmax Hreset t0 ts t1) as (ls & Hbr & HL & Hla & Hlt); [lia|exact Hg|exact Hn|].
  match goal with |- context [bump_run cfg None ?l] =>
    replace (bump_run cfg None l) with (Some ls) by (symmetry; exact Hbr) end.
  cbn [entry_locked]. rewrite checkState_locked; [|rewrite Hla|done|lia].
  - rewrite bool_decide_eq_false_2 by done.
    rewrite (proj2 (Z.ltb_lt 0 (MaxBanCount cfg))) by lia. simpl. by rewrite !orb_true_r.
  - assert (t0 ≤ t1); [|lia].
    clear -Hg. revert t0 Hg. induction ts as [|t ts IH]; simpl; intros t0 [? Hg]; [lia|].
    specialize (IH t Hg). lia.
Qed.
End dispatches.

(** ** An example: bob, known password, unknown second factor *)
Definition ex_md5 (s : string) : list byte := repeat "000"%byte 16.
Definition ex_browser (t g : string) : option bool := None.
Definition ex_hash (e : unit) : bool := true.
Definition ex_quote (s : string) : string := s.
Definition ex_device : deviceId := {| dev_DeviceType := ""; PlatformVersion := ""; UniqueIdGlobal := "dev"; dev_Value := "win" |}%string.
Definition ex_reply (user pw code group : string) : ClientRequest := {|
  cr_Type := "auth-reply"; GroupSelect := group; cr_UserAgent := "openconnect v9"; SessionToken := "";
  cr_Username := user; cr_Password := pw; SecondaryPassword := code; SsoToken := "";
  cr_DeviceId := ex_device; cr_MacAddress := "" |}%string.
Definition ex_request (user pw code group : string) (cookie : option string) : HttpRequest := {|
  r_UserAgent := "OpenConnect v9"; AggregateAuth := "1"; TranscendVersion := "1";
  r_Body := Some (ex_reply user pw code group);
  r_RemoteAddr := "10.1.2.3:5000"; r_Certs := []; r_Cookie := cookie |}%string.
Definition ex_handler : Handler unit := {|
  h_locks := new_LockManager; h_sessions := NewAuthSessionManager; h_world := ex_world; h_events := [];
  h_random := ["sid"; "token"]%string |}.
Abbreviation ex_LinkAuth := (LinkAuth example_cfg ex_reg ex_decode ex_configure ex_md5 ex_browser ex_hash ex_quote "").
Abbreviation ex_LinkAuthOtp := (LinkAuthOtp example_cfg ex_reg ex_decode ex_configure ex_md5 ex_browser ex_hash ex_quote "").

(** The password is right: the OTP window opens. *)
Definition ex_h1 := ex_LinkAuth (ex_request "bob" "secret1" "" "ops" None) ex_now ex_handler.
(** Five wrong codes in the OTP window. *)
Definition ex_h2 : Handler unit :=
  fold_left (λ h k, (ex_LinkAuthOtp (ex_request "" "" "1" "" (Some "sid"%string)) (ex_now + k * Second) h).1)
    [1; 2; 3; 4; 5] ex_h1.1.

Example ex_h1_opens_window : ex_h1.2 = ROtp "".
Proof. vm_compute. reflexivity. Qed.


(** A retry result, as the OTP window's pipeline returns it. *)
Definition ex_retry : PipelineResult := {|
  pr_Result := StepPending; Err := None; pr_Username := "bob"; pr_GroupName := "ops"; Info := ""; pr_LimitTime := None;
  pr_Challenge := Some {| ch_Type := ChallengeOTP; ch_Template := "otp"; ch_Data := [] |};
  State := {| StepIdx := 2; PassedSteps := ["local"] |}; PrevStepIdx := 2 |}%string.
Definition ex_dispatched (k : Z) : Dispatched :=
  {| d_result := ex_retry; d_user := "bob"; d_addr := "10.1.2.3:5000"; d_time := ex_now + k * Second |}.
Definition ex_first_factor : Dispatched :=
  {| d_result := getPipelineResult ex_ctx (StepFail, None) ex_pipeline (-1); d_user := "bob"; d_addr := "10.1.2.3:5000";
     d_time := ex_now + 3 * Second |}.
Definition ex_attempts : list Dispatched :=
  [ex_dispatched 1; ex_dispatched 2; ex_first_factor; ex_dispatched 3; ex_dispatched 4; ex_dispatched 5].
Definition ex_locked : Handler unit := with_locks (h_locks (dispatch_run example_cfg ex_h1.1 ex_attempts)) ex_h1.1.
Definition ex_session : AuthSession :=
  match (asm_Get (h_sessions ex_h1.1) "sid" ex_now).2 with
  | Some s => s
  | None => {| as_SessionID := ""; as_Ctx := ex_ctx; as_UserActLog := new_log (ex_reply "" "" "" "")
      (ex_request "" "" "" "" None); as_ForcePwd := false; as_CreatedAt := zero_time; as_Kind := "" |}
  end.


(** C18.  The lock of a pending login is evaded through [LinkAuth]: an
    [auth-reply] is checked against the lock under the user name it carries
    itself, not the pending login's.  While the OTP window refuses a locked
    login's code with 429, the same cookie and code sent as an [auth-reply]
    under another name (none, with no group) resume the login. *)
Theorem auth_reply_evades_session_lock {E} `{!AuthEnv E} cfg reg decode configure md5 browser hash quote dbe
    (h : Handler E) rq cr id sm sess m now :
  str_contains (str_lower (r_UserAgent rq)) "openconnect" = true →
  AggregateAuth rq = "1"%string → TranscendVersion rq = "1"%string →
  r_Body rq = Some cr → cr_Type cr = "auth-reply"%string → SsoToken cr = ""%string → GroupSelect cr = ""%string →
  r_Cookie rq = Some id → id ≠ ""%string → asm_Get (h_sessions h) id now = (sm, Some sess) →
  (LockManager_Check cfg (h_locks h) (ci_Username (Conn (as_Ctx sess))) (r_RemoteAddr rq) now).2 = false →
  LockManager_Check cfg (h_locks h) (cr_Username cr) (r_RemoteAddr rq) now = (m, true) →
  (LinkAuthOtp cfg reg decode configure md5 browser hash quote dbe rq now h).2 = RStatus 429
  ∧ ∃ sess', ci_Username (Conn (as_Ctx sess')) = ci_Username (Conn (as_Ctx sess))
      ∧ stepIdx (as_Ctx sess') = stepIdx (as_Ctx sess)
      ∧ LinkAuth cfg reg decode configure md5 browser hash quote dbe rq now h
        = resumeAuthSession cfg reg decode configure md5 browser hash quote dbe rq sess' now
            (with_sessions sm (with_locks m h)).
Proof.
  intros Hua Ha Ht Hb Hty Hsso Hgrp Hck Hid Hget Hlock Hfree. split.
  - unfold LinkAuthOtp. rewrite Hck, Hget, Hb. cbn [h_locks with_sessions].
    destruct (LockManager_Check cfg (h_locks h) (ci_Username (Conn (as_Ctx sess))) (r_RemoteAddr rq) now) as [m' ok].
    cbn [snd] in Hlock. by rewrite Hlock.
  - unfold LinkAuth. rewrite Hua, Ha, Ht, Hb, Hty, Hsso, Hgrp, Hfree, !orb_true_r.
    cbn [String.eqb Ascii.eqb Bool.eqb andb negb orb]. unfold auth_reply. rewrite Hgrp, Hck.
    cbn [String.eqb negb andb]. rewrite (proj2 (String.eqb_neq _ _) Hid).
    cbn [h_sessions with_locks]. rewrite Hget. eexists. split; [|split; [|reflexivity]].
    + simpl. unfold inject_code. by destruct (String.eqb (SecondaryPassword cr) "").
    + simpl. unfold inject_code. by destruct (String.eqb (SecondaryPassword cr) "").
Qed.

Definition ex_bypass : HttpRequest := ex_request "" "" "100" "" (Some "sid"%string).
Definition ex_session2 : AuthSession := default ex_session (asm_Get (h_sessions ex_h2) "sid" (ex_now + 10 * Second)).2.
Lemma auth_reply_evades_session_lock_witness :
  (ex_LinkAuthOtp ex_bypass (ex_now + 10 * Second) ex_h2).2 = RStatus 429
  ∧ (ex_LinkAuth ex_bypass (ex_now + 10 * Second) ex_h2).2 = RComplete.
Proof.
  split; [|vm_compute; reflexivity].
  refine (proj1 (auth_reply_evades_session_lock example_cfg ex_reg ex_decode ex_configure ex_md5 ex_browser ex_hash
    ex_quote "" ex_h2 ex_bypass (ex_reply "" "" "100" "") "sid" (h_sessions ex_h2) ex_session2
    (LockManager_Check example_cfg (h_locks ex_h2) "" "10.1.2.3:5000" (ex_now + 10 * Second)).1
    (ex_now + 10 * Second) _ _ _ _ _ _ _ _ _ _ _ _)).
  - vm_compute. reflexivity.
  - reflexivity.
  - reflexivity.
  - reflexivity.
  - reflexivity.
  - reflexivity.
  - reflexivity.
  - reflexivity.
  - discriminate.
  - vm_compute. reflexivity.
  - vm_compute. reflexivity.
  - vm_compute. reflexivity.
Defined.
