(* ===== verification/FakeDns.v ===== *)
(** * FakeDNS: fake addresses, their real addresses and the NAT rules
    (server/sessdata/fakedns.go)

    The manager as a record; every method is a state transformer that takes the
    time it reads.  The firewall backend is the source's interface [Firewall],
    the DNS library and the random choice among its answers the class
    [Resolver].  A resolution started in the background is an entry of [tasks],
    run by a step of its own, so that a mapping can be made while any other
    operations happen in between. *)
From S2P Require Export IpPool.
Local Open Scope Z_scope.

(** ** Interfaces *)

(** [Firewall] (server/sessdata/firewall.go): the operations FakeDNS uses; the
    option is the error text. *)
Class Firewall (F : Type) := {
  CreateChains : F → string → string → F * option string;
  AddNatRule : F → string → string → F * option string;
  DelNatRule : F → string → string → F * option string;
  CleanupFakeIP : F → F
}.

(** What FakeDNS relies on: the rules are a set, a failed call changes nothing. *)
Class FirewallLaws (F : Type) `{Firewall F} := {
  rules : F → gset (string * string);
  AddNatRule_ok f k r f' : AddNatRule f k r = (f', None) → rules f' = {[(k, r)]} ∪ rules f;
  AddNatRule_err f k r f' e : AddNatRule f k r = (f', Some e) → rules f' = rules f;
  DelNatRule_ok f k r f' : DelNatRule f k r = (f', None) → rules f' = rules f ∖ {[(k, r)]};
  DelNatRule_err f k r f' e : DelNatRule f k r = (f', Some e) → rules f' = rules f
}.

Inductive QType := TypeA | TypeAAAA.
#[export] Instance QType_eq_dec : EqDecision QType.
Proof. solve_decision. Defined.

(** An answer record: an address of either family in text, or another record. *)
Inductive DnsRR := RR_A (ip : string) (ttl : Z) | RR_AAAA (ip : string) (ttl : Z) | RR_other.
Inductive DnsReply := ExchangeError (e : string) | Reply (rcode : Z) (answer : list DnsRR).

(** [exchange d domain qtype server] asks [server] for [dns.Fqdn(domain)];
    [rand_Intn d n] is below [n]. *)
Class Resolver (D : Type) := {
  exchange : D → string → QType → string → D * DnsReply;
  rand_Intn : D → nat → D * nat
}.

(** ** State *)
Record fakeIPEntry := { Domain : string; FakeIP : string; LastAccess : Time; RefreshAt : Time }.
Definition SetLastAccess (t : Time) (e : fakeIPEntry) : fakeIPEntry :=
  {| Domain := Domain e; FakeIP := FakeIP e; LastAccess := t; RefreshAt := RefreshAt e |}.
Definition SetRefreshAt (t : Time) (e : fakeIPEntry) : fakeIPEntry :=
  {| Domain := Domain e; FakeIP := FakeIP e; LastAccess := LastAccess e; RefreshAt := t |}.
(** Stored as [UnixNano], 0 when unset; [GetRefreshAt] is zero then. *)
Definition GetRefreshAt (e : fakeIPEntry) : Time := if RefreshAt e =? 0 then zero_time else RefreshAt e.

Record fakeIPPool := { fp_IPNet : IPNet; IpLongMin_f : Z; IpLongMax_f : Z; counter : Z }.
Record fakeIPPoolV6 := { fp6_IPNet : IPNet; networkInt : Z; fp6_min : Z; fp6_max : Z; cursor : Z }.
Record dnsCache := { dc_RealIP : string; dc_TTL : Z; ExpireAt : Time }.

(** A background resolution: first mapping or renewal. *)
Record mappingTask := { mt_fakeIP : string; mt_domain : string; mt_upstream : string; mt_renew : bool }.

Record FakeDNSManager (F D : Type) := {
  pool : fakeIPPool; poolV6 : option fakeIPPoolV6;
  active : gmap string fakeIPEntry; activeV6 : gmap string fakeIPEntry;
  domainToIP : gmap string string; domainToIPV6 : gmap string string;
  ipToRealIP : gmap string string; dns_cache : gmap string dnsCache;
  tasks : gmap string mappingTask; fw : F; resolver : D; stopped : bool
}.
Arguments pool {F D} _.
Arguments poolV6 {F D} _.
Arguments active {F D} _.
Arguments activeV6 {F D} _.
Arguments domainToIP {F D} _.
Arguments domainToIPV6 {F D} _.
Arguments ipToRealIP {F D} _.
Arguments dns_cache {F D} _.
Arguments tasks {F D} _.
Arguments fw {F D} _.
Arguments resolver {F D} _.
Arguments stopped {F D} _.

Definition DefaultFakeIPRange : string := "100.64.0.0/10".
Definition DefaultFakeIPv6Range : string := "2001:db8::/32".
Definition minRefreshInterval : Duration := 60 * Second.
Definition negCacheAuthTTL : Duration := 60 * Second.
Definition negCacheNetErrTTL : Duration := 10 * Second.

Definition is_v6_text (s : string) : bool := str_contains s ":".

(** [fakeIPPoolV6.next]: the advanced pool and the address. *)
Definition v6_next (p : fakeIPPoolV6) : fakeIPPoolV6 * Z :=
  let candidate := fp6_min p + cursor p in
  if fp6_max p <? candidate
  then ({| fp6_IPNet := fp6_IPNet p; networkInt := networkInt p; fp6_min := fp6_min p; fp6_max := fp6_max p;
           cursor := 0 |}, fp6_min p)
  else ({| fp6_IPNet := fp6_IPNet p; networkInt := networkInt p; fp6_min := fp6_min p; fp6_max := fp6_max p;
           cursor := cursor p + 1 |}, candidate).

(** [dnsCacheKey] *)
Definition dnsCacheKey (domain upstream : string) (v6 : bool) : string :=
  ((if v6 then "AAAA|" else "") +:+ domain +:+ "|" +:+ upstream)%string.

(** [FormatUpstream] *)
Definition FormatUpstream (addr : string) : string :=
  if String.eqb addr "" then addr
  else match SplitHostPort addr with
       | Some _ => addr
       | None =>
           let ip := ParseIP addr in
           if negb (ip_nil ip) && bool_decide (ip_to4 ip = None) then ("[" +:+ addr +:+ "]:53")%string
           else (addr +:+ ":53")%string
       end.

Inductive DnsError := Authoritative (e : string) | Transient (e : string).

Section manager.
Context {F D : Type} `{Firewall F, Resolver D}.
Abbreviation M := (FakeDNSManager F D).
Implicit Type m : M.

Definition with_active (a : gmap string fakeIPEntry) (d : gmap string string) m : M :=
  {| pool := pool m; poolV6 := poolV6 m; active := a; activeV6 := activeV6 m; domainToIP := d;
     domainToIPV6 := domainToIPV6 m; ipToRealIP := ipToRealIP m; dns_cache := dns_cache m; tasks := tasks m;
     fw := fw m; resolver := resolver m; stopped := stopped m |}.
Definition with_activeV6 (a : gmap string fakeIPEntry) (d : gmap string string) m : M :=
  {| pool := pool m; poolV6 := poolV6 m; active := active m; activeV6 := a; domainToIP := domainToIP m;
     domainToIPV6 := d; ipToRealIP := ipToRealIP m; dns_cache := dns_cache m; tasks := tasks m;
     fw := fw m; resolver := resolver m; stopped := stopped m |}.
Definition with_pools (p : fakeIPPool) (p6 : option fakeIPPoolV6) m : M :=
  {| pool := p; poolV6 := p6; active := active m; activeV6 := activeV6 m; domainToIP := domainToIP m;
     domainToIPV6 := domainToIPV6 m; ipToRealIP := ipToRealIP m; dns_cache := dns_cache m; tasks := tasks m;
     fw := fw m; resolver := resolver m; stopped := stopped m |}.
Definition with_real (r : gmap string string) (f : F) m : M :=
  {| pool := pool m; poolV6 := poolV6 m; active := active m; activeV6 := activeV6 m; domainToIP := domainToIP m;
     domainToIPV6 := domainToIPV6 m; ipToRealIP := r; dns_cache := dns_cache m; tasks := tasks m;
     fw := f; resolver := resolver m; stopped := stopped m |}.
Definition with_cache (c : gmap string dnsCache) (d : D) m : M :=
  {| pool := pool m; poolV6 := poolV6 m; active := active m; activeV6 := activeV6 m; domainToIP := domainToIP m;
     domainToIPV6 := domainToIPV6 m; ipToRealIP := ipToRealIP m; dns_cache := c; tasks := tasks m;
     fw := fw m; resolver := d; stopped := stopped m |}.
Definition with_tasks (t : gmap string mappingTask) (s : bool) m : M :=
  {| pool := pool m; poolV6 := poolV6 m; active := active m; activeV6 := activeV6 m; domainToIP := domainToIP m;
     domainToIPV6 := domainToIPV6 m; ipToRealIP := ipToRealIP m; dns_cache := dns_cache m; tasks := t;
     fw := fw m; resolver := resolver m; stopped := s |}.

(** ** Set-up *)
Definition newFakeDNSManager (cfg : ServerConfig) (f : F) (d : D) (ipRange : string) : option M :=
  match ParseCIDR ipRange with
  | None => None
  | Some (_, ipNet) =>
      let lo := Ip2long (net_IP ipNet) in
      let mask := Ip2long (net_Mask ipNet) in
      let hi := Z.lor (Z.land lo mask) (u32 (Z.lnot mask)) in
      let '(f, err) := CreateChains f (Ipv4CIDR cfg) (net_String ipNet) in
      match err with
      | Some _ => None
      | None => Some {| pool := {| fp_IPNet := ipNet; IpLongMin_f := u32 (lo + 1); IpLongMax_f := u32 (hi - 1); counter := 0 |};
                        poolV6 := None; active := ∅; activeV6 := ∅; domainToIP := ∅; domainToIPV6 := ∅;
                        ipToRealIP := ∅; dns_cache := ∅; tasks := ∅; fw := f; resolver := d; stopped := false |}
      end
  end.

Definition initV6Pool (cfg : ServerConfig) m (rangeStr : string) : M * option string :=
  match ParseCIDR rangeStr with
  | None => (m, Some "invalid v6 FakeIP range"%string)
  | Some (_, ipNet) =>
      if bool_decide (is_Some (ip_to4 (net_IP ipNet))) then
        (m, Some ("v6 FakeIP range must be an IPv6 CIDR, got " +:+ rangeStr)%string)
      else
        let n := ipToBig (net_IP ipNet) in
        let '(ones, bits) := mask_Size (net_Mask ipNet) in
        let p := {| fp6_IPNet := ipNet; networkInt := n; fp6_min := n + 2; fp6_max := n + 2 ^ (bits - ones) - 1;
                    cursor := 0 |} in
        let m := with_pools (pool m) (Some p) m in
        if String.eqb (Ipv6CIDR cfg) "" then (m, None)
        else let '(f, err) := CreateChains (fw m) (Ipv6CIDR cfg) rangeStr in
             (with_real (ipToRealIP m) f m, err)
  end.

(** [GetFakeDNSManager], on its first call. *)
Definition GetFakeDNSManager (cfg : ServerConfig) (f : F) (d : D) : option M :=
  match newFakeDNSManager cfg f d DefaultFakeIPRange with
  | None => None
  | Some m => Some (if String.eqb (Ipv6CIDR cfg) "" then m else (initV6Pool cfg m DefaultFakeIPv6Range).1)
  end.

Definition Manager_Stop m : M :=
  let m := with_tasks (tasks m) true m in with_real (ipToRealIP m) (CleanupFakeIP (fw m)) m.

(** ** Fake addresses *)
Definition AcquireFakeIP m (domain : string) (now : Time) : M * IP :=
  match (match domainToIP m !! domain with
         | Some fakeIP => match active m !! fakeIP with Some e => Some (fakeIP, e) | None => None end
         | None => None
         end) with
  | Some (fakeIP, e) =>
      (with_active (<[fakeIP := SetLastAccess now e]> (active m)) (domainToIP m) m, ParseIP fakeIP)
  | None =>
      let p := pool m in
      let c := u32 (counter p + 1) in
      let ipLong := u32 (IpLongMin_f p + c mod u32 (IpLongMax_f p - IpLongMin_f p + 1)) in
      let fakeIP := Long2ip ipLong in
      let key := ip_String fakeIP in
      let e := {| Domain := domain; FakeIP := key; LastAccess := now; RefreshAt := 0 |} in
      let m := with_pools {| fp_IPNet := fp_IPNet p; IpLongMin_f := IpLongMin_f p; IpLongMax_f := IpLongMax_f p;
                             counter := c |} (poolV6 m) m in
      (with_active (<[key := e]> (active m)) (<[domain := key]> (domainToIP m)) m, fakeIP)
  end.

(** [nil_ip] stands for [nil]; the copy of a number of more than 16 bytes panics. *)
Definition AcquireFakeIPv6 m (domain : string) (now : Time) : res (M * IP) :=
  match poolV6 m with
  | None => Ret (m, nil_ip)
  | Some p6 =>
      match (match domainToIPV6 m !! domain with
             | Some fakeIP => match activeV6 m !! fakeIP with Some e => Some (fakeIP, e) | None => None end
             | None => None
             end) with
      | Some (fakeIP, e) =>
          Ret (with_activeV6 (<[fakeIP := SetLastAccess now e]> (activeV6 m)) (domainToIPV6 m) m, ParseIP fakeIP)
      | None =>
          let '(p6, n) := v6_next p6 in
          let! ip := bigToIP n in
          let key := ip_String ip in
          let e := {| Domain := domain; FakeIP := key; LastAccess := now; RefreshAt := 0 |} in
          let m := with_pools (pool m) (Some p6) m in
          Ret (with_activeV6 (<[key := e]> (activeV6 m)) (<[domain := key]> (domainToIPV6 m)) m, ip)
      end
  end.

(** [entryFor] and its update *)
Definition entryFor m (fakeIP : string) : option fakeIPEntry :=
  if is_v6_text fakeIP then activeV6 m !! fakeIP else active m !! fakeIP.
Definition update_entry m (fakeIP : string) (f : fakeIPEntry → fakeIPEntry) : M :=
  if is_v6_text fakeIP then with_activeV6 (alter f fakeIP (activeV6 m)) (domainToIPV6 m) m
  else with_active (alter f fakeIP (active m)) (domainToIP m) m.

Definition LookupAndTouch m (fakeIP : string) (now : Time) : M * (string * string * bool) :=
  match entryFor m fakeIP with
  | None => (m, ("", "", false))
  | Some e =>
      let m := update_entry m fakeIP (SetLastAccess now) in
      match ipToRealIP m !! fakeIP with
      | None => (m, ("", Domain e, false))
      | Some realIP =>
          if String.eqb realIP "" then (m, ("", Domain e, false))
          else if negb (time_IsZero (GetRefreshAt e)) && time_After now (GetRefreshAt e) then
            (update_entry m fakeIP (SetRefreshAt (time_Add now minRefreshInterval)), (realIP, Domain e, true))
          else (m, (realIP, Domain e, false))
      end
  end%string.

Definition GetRealIP m (fakeIP : string) : string := default ""%string (ipToRealIP m !! fakeIP).
Definition GetDomain m (fakeIP : string) : string :=
  match active m !! fakeIP with
  | Some e => Domain e
  | None => match activeV6 m !! fakeIP with Some e => Domain e | None => ""%string end
  end.
Definition IsFakeIP m (ip : IP) : bool :=
  net_Contains (fp_IPNet (pool m)) ip
  || match poolV6 m with Some p => net_Contains (fp6_IPNet p) ip | None => false end.
Definition IsV6Enabled m : bool := bool_decide (is_Some (poolV6 m)).
Definition UpdateAccess m (fakeIP : string) (now : Time) : M :=
  with_active (alter (SetLastAccess now) fakeIP (active m)) (domainToIP m) m.

Definition setRefreshAt m (fakeIP : string) (ttl : Z) (now : Time) : M :=
  update_entry m fakeIP (SetRefreshAt (time_Add now (Z.max (seconds ttl) minRefreshInterval))).

(** ** DNS *)
Definition cached m (key : string) (now : Time) : option dnsCache :=
  match dns_cache m !! key with
  | Some e => if time_Before now (ExpireAt e) then Some e else None
  | None => None
  end.
Definition IsAAAANegative m (domain upstream : string) (now : Time) : bool :=
  match cached m (dnsCacheKey domain upstream true) now with Some e => String.eqb (dc_RealIP e) "" | None => false end.
Definition IsAAAAPositive m (domain upstream : string) (now : Time) : bool :=
  match cached m (dnsCacheKey domain upstream true) now with
  | Some e => negb (String.eqb (dc_RealIP e) "") | None => false end.

(** The addresses of the asked family and the first non-zero TTL. *)
Fixpoint collect (q : QType) (answer : list DnsRR) (ttl : Z) : list string * Z :=
  match answer with
  | [] => ([], ttl)
  | RR_A ip t :: r =>
      if bool_decide (q = TypeA)
      then let '(ips, ttl) := collect q r (if ttl =? 0 then t else ttl) in (ip :: ips, ttl)
      else collect q r ttl
  | RR_AAAA ip t :: r =>
      if bool_decide (q = TypeAAAA)
      then let '(ips, ttl) := collect q r (if ttl =? 0 then t else ttl) in (ip :: ips, ttl)
      else collect q r ttl
  | RR_other :: r => collect q r ttl
  end.

Definition queryDNS (d : D) (domain : string) (q : QType) (server : string) : D * (DnsError + string * Z) :=
  let '(d, r) := exchange d domain q server in
  match r with
  | ExchangeError e => (d, inl (Transient e))
  | Reply rcode answer =>
      if negb (rcode =? 0) then (d, inl (Authoritative ("rcode=" +:+ pretty rcode)%string))
      else
        let '(ips, ttl) := collect q answer 0 in
        match ips with
        | [] => (d, inl (Authoritative "no IPv4/IPv6 address in response"%string))
        | _ => let '(d, i) := rand_Intn d (length ips) in
               (d, inr (default ""%string (ips !! i), ttl))
        end
  end.

(** The retry loop of [ResolveDomain] and [ResolveDomainAAAA], [n] attempts left. *)
Fixpoint resolve_retry (n : nat) (d : D) (domain : string) (q : QType) (server : string) (last : string)
    : D * (DnsError + string * Z) :=
  match n with
  | O => (d, inl (Transient ("DNS " +:+ (if bool_decide (q = TypeAAAA) then "AAAA " else "") +:+ "query failed for "
                               +:+ domain +:+ " after 2 attempts: " +:+ last)%string))
  | S n =>
      let '(d, r) := queryDNS d domain q server in
      match r with
      | inr ok => (d, inr ok)
      | inl (Authoritative e) => (d, inl (Authoritative e))
      | inl (Transient e) => resolve_retry n d domain q server e
      end
  end.
Definition resolve (v6 : bool) (d : D) (domain upstream : string) : D * (DnsError + string * Z) :=
  let upstream := if String.eqb upstream "" then upstream else FormatUpstream upstream in
  resolve_retry 2 d domain (if v6 then TypeAAAA else TypeA) upstream "".
Definition ResolveDomain := resolve false.
Definition ResolveDomainAAAA := resolve true.

Definition updateDNSCache m (key realIP : string) (ttl : Z) (now : Time) : M :=
  with_cache (<[key := {| dc_RealIP := realIP; dc_TTL := ttl;
                          ExpireAt := time_Add now (Z.max (seconds ttl) minRefreshInterval) |}]> (dns_cache m))
    (resolver m) m.

Definition resolveWithCache m (domain upstream : string) (v6 : bool) (now : Time) : M * (DnsError + string * Z) :=
  let key := dnsCacheKey domain upstream v6 in
  match cached m key now with
  | Some e => if String.eqb (dc_RealIP e) "" then (m, inl (Authoritative "negative cache"%string))
              else (m, inr (dc_RealIP e, dc_TTL e))
  | None =>
      let '(d, r) := resolve v6 (resolver m) domain upstream in
      let m := with_cache (dns_cache m) d m in
      match r with
      | inl e =>
          let ttl := match e with Authoritative _ => negCacheAuthTTL | Transient _ => negCacheNetErrTTL end in
          (with_cache (<[key := {| dc_RealIP := ""; dc_TTL := 0; ExpireAt := time_Add now ttl |}]> (dns_cache m)) d m, r)
      | inr (ip, ttl) => (updateDNSCache m key ip ttl now, r)
      end
  end.

(** ** Mappings *)
Definition AddMapping m (fakeIP realIP : string) : M * option string :=
  match entryFor m fakeIP with
  | None => (m, Some ("fakeIP " +:+ fakeIP +:+ " already cleaned up")%string)
  | Some _ =>
      let old := ipToRealIP m !! fakeIP in
      if bool_decide (old = Some realIP) then (m, None)
      else
        let oldRealIP := default ""%string old in
        let m := with_real (<[fakeIP := realIP]> (ipToRealIP m)) (fw m) m in
        let '(m, err) :=
          if String.eqb oldRealIP "" then (m, None)
          else let '(f, err) := DelNatRule (fw m) fakeIP oldRealIP in
               match err with
               | Some e => (with_real (<[fakeIP := oldRealIP]> (ipToRealIP m)) f m, Some e)
               | None => (with_real (ipToRealIP m) f m, None)
               end in
        match err with
        | Some e => (m, Some e)
        | None =>
            let '(f, err) := AddNatRule (fw m) fakeIP realIP in
            match err with
            | Some e =>
                (with_real (if String.eqb oldRealIP "" then delete fakeIP (ipToRealIP m)
                            else <[fakeIP := oldRealIP]> (ipToRealIP m)) f m, Some e)
            | None => (with_real (ipToRealIP m) f m, None)
            end
        end
  end.

Definition RemoveMapping m (fakeIP : string) : M * option string :=
  match ipToRealIP m !! fakeIP with
  | None => (m, None)
  | Some realIP =>
      let '(f, err) := DelNatRule (fw m) fakeIP realIP in
      (with_real (delete fakeIP (ipToRealIP m)) f m, err)
  end.

Definition ResolveAndMappingSync m (fakeIP domain upstream : string) (now : Time) : M * option string :=
  if negb (String.eqb (GetRealIP m fakeIP) "") then (m, None)
  else
    let '(m, r) := resolveWithCache m domain upstream (is_v6_text fakeIP) now in
    match r with
    | inl (Authoritative e) | inl (Transient e) => (m, Some e)
    | inr (realIP, ttl) =>
        let '(m, err) := AddMapping m fakeIP realIP in
        match err with Some e => (m, Some e) | None => (setRefreshAt m fakeIP ttl now, None) end
    end.

Definition task_key (fakeIP domain : string) : string :=
  if is_v6_text fakeIP then (domain +:+ "|AAAA")%string else domain.

Definition start_task m (fakeIP domain upstream : string) (renew : bool) : M :=
  let key := task_key fakeIP domain in
  match tasks m !! key with
  | Some _ => m
  | None => if stopped m then m
            else with_tasks (<[key := {| mt_fakeIP := fakeIP; mt_domain := domain; mt_upstream := upstream;
                                         mt_renew := renew |}]> (tasks m)) (stopped m) m
  end.

Definition ResolveAndMapping m (fakeIP domain upstream : string) : M :=
  if negb (String.eqb (GetRealIP m fakeIP) "") then m else start_task m fakeIP domain upstream false.
Definition RenewMapping m (fakeIP domain upstream : string) : M := start_task m fakeIP domain upstream true.

(** The body of a background task. *)
Definition run_task m (key : string) (now : Time) : M :=
  match tasks m !! key with
  | None => m
  | Some t =>
      let m := with_tasks (delete key (tasks m)) (stopped m) m in
      let fakeIP := mt_fakeIP t in
      let v6 := is_v6_text fakeIP in
      if mt_renew t then
        let '(d, r) := resolve v6 (resolver m) (mt_domain t) (mt_upstream t) in
        let m := with_cache (dns_cache m) d m in
        match r with
        | inl _ => setRefreshAt m fakeIP 0 now
        | inr (realIP, ttl) =>
            let m := updateDNSCache m (dnsCacheKey (mt_domain t) (mt_upstream t) v6) realIP ttl now in
            let '(m, err) := AddMapping m fakeIP realIP in
            match err with Some _ => m | None => setRefreshAt m fakeIP ttl now end
        end
      else
        let '(m, r) := resolveWithCache m (mt_domain t) (mt_upstream t) v6 now in
        match r with
        | inl _ => m
        | inr (realIP, ttl) =>
            let '(m, err) := AddMapping m fakeIP realIP in
            match err with Some _ => m | None => setRefreshAt m fakeIP ttl now end
        end
  end.

(** ** Cleaning *)
Definition expired_keys (l : gmap string fakeIPEntry) (now : Time) : list string :=
  (List.filter (λ kv, 2 * Hour <? time_Sub now (LastAccess kv.2)) (map_to_list l)).*1.

Definition cleanup_one m (fakeIP : string) (now : Time) : M :=
  match entryFor m fakeIP with
  | None => m
  | Some e =>
      if time_Sub now (LastAccess e) <=? 2 * Hour then m
      else
        let m := if is_v6_text fakeIP
                 then with_activeV6 (delete fakeIP (activeV6 m)) (delete (Domain e) (domainToIPV6 m)) m
                 else with_active (delete fakeIP (active m)) (delete (Domain e) (domainToIP m)) m in
        (RemoveMapping m fakeIP).1
  end.

Definition cleanupExpiredFakeIPs m (now : Time) : M :=
  fold_left (λ m k, cleanup_one m k now) (expired_keys (active m) now ++ expired_keys (activeV6 m) now) m.

Definition cleanupExpiredDNSCache m (now : Time) : M :=
  with_cache (filter (λ kv : string * dnsCache, ¬ (ExpireAt kv.2 < now)) (dns_cache m)) (resolver m) m.
End manager.
