(* ===== verification/FakeDnsSpec.v ===== *)
(** * FakeDNS: one name per fake address, and NAT rules that match the mappings *)
From S2P Require Import FakeDns IpPoolSpec.
Local Open Scope Z_scope.

(** What FakeDNS relies on of its resolver: addresses are not empty texts, the
    random index is in range. *)
Definition rr_ok (r : DnsRR) : Prop := match r with RR_A ip _ | RR_AAAA ip _ => ip ≠ ""%string | RR_other => True end.
Class ResolverLaws (D : Type) `{Resolver D} := {
  exchange_ok d dom q srv d' rc ans : exchange d dom q srv = (d', Reply rc ans) → Forall rr_ok ans;
  rand_Intn_ok d n d' i : rand_Intn d n = (d', i) → (0 < n)%nat → (i < n)%nat
}.

(** After the end of the IPv6 range the first address is handed out twice in a row. *)
Lemma v6_next_repeats_first p :
  fp6_max p < fp6_min p + cursor p → fp6_min p ≤ fp6_max p →
  let '(p1, a1) := v6_next p in let '(_, a2) := v6_next p1 in a1 = fp6_min p ∧ a2 = fp6_min p.
Proof.
  intros Hc Hm. unfold v6_next. rewrite (proj2 (Z.ltb_lt _ _) Hc). cbn [fp6_max fp6_min cursor].
  rewrite (proj2 (Z.ltb_ge (fp6_max p) (fp6_min p + 0))) by lia. split; lia.
Qed.

Section fakedns.
Context {F D : Type} `{FirewallLaws F, ResolverLaws D}.
Abbreviation M := (FakeDNSManager F D).
Implicit Type m : M.

(** ** The pool *)
Definition pool_size (p : fakeIPPool) : Z := IpLongMax_f p - IpLongMin_f p + 1.
Definition pool_ok (p : fakeIPPool) : Prop :=
  0 ≤ IpLongMin_f p ≤ IpLongMax_f p ∧ IpLongMax_f p < 2 ^ 32 ∧ pool_size p < 2 ^ 32 - 1.

(** The text of the address the [k]-th allocation takes. *)
Definition fake_key (p : fakeIPPool) (k : Z) : string := addr_key (IpLongMin_f p + k mod pool_size p).

Lemma fake_key_inj p j k :
  pool_ok p → 1 ≤ j ≤ pool_size p → 1 ≤ k ≤ pool_size p → fake_key p j = fake_key p k → j = k.
Proof.
  unfold pool_ok, pool_size. intros (P1 & P2 & P3) Hj Hk E. unfold fake_key, pool_size in E.
  set (n := IpLongMax_f p - IpLongMin_f p + 1) in *.
  pose proof (Z.mod_pos_bound j n ltac:(lia)). pose proof (Z.mod_pos_bound k n ltac:(lia)).
  apply addr_key_inj in E; [|lia..].
  assert (j mod n = k mod n) as Em by lia.
  destruct (decide (j = n)) as [Ej|]; destruct (decide (k = n)) as [Ek|]; [lia| | |].
  - rewrite Ej, Z.mod_same, Z.mod_small in Em by lia. lia.
  - rewrite Ek, Z.mod_same, Z.mod_small in Em by lia. lia.
  - rewrite !Z.mod_small in Em by lia. done.
Qed.

Lemma contains_byte c s : contains s [c] = true → c ∈ s.
Proof.
  unfold contains. intros [i Hi]%bool_decide_eq_true. revert i Hi.
  induction s as [|x s IH]; intros i Hi; [done|]. cbn [index_of has_prefix] in Hi.
  destruct (beqb c x) eqn:E; [apply beqb_true in E; subst; left|].
  cbn [andb] in Hi. destruct (index_of [c] s) as [j|]; [|done]. right. by eapply IH.
Qed.

Lemma fake_key_parse p k : ip_String (ParseIP (fake_key p k)) = fake_key p k.
Proof. unfold fake_key. by rewrite ParseIP_key, ip_String_mapped by apply Long2ip_length. Qed.

Lemma addr_key_v4 k : is_v6_text (addr_key k) = false.
Proof.
  apply not_true_is_false. intros Hc%contains_byte. revert Hc. apply ip_String_v4_no_colon, Long2ip_length.
Qed.

(** ** Names and fake addresses, one to one *)
Record names_ok m : Prop := {
  no_pool : pool_ok (pool m);
  no_counter : 0 ≤ counter (pool m) ≤ pool_size (pool m);
  no_domain : ∀ d ip, domainToIP m !! d = Some ip → ∃ e, active m !! ip = Some e ∧ Domain e = d;
  no_active : ∀ ip e, active m !! ip = Some e → domainToIP m !! Domain e = Some ip ∧
    ∃ k, 1 ≤ k ≤ counter (pool m) ∧ ip = fake_key (pool m) k
}.

(** Operations that touch neither the tables of names nor the pool; the times
    of an entry may change. *)
Definition same_names m m' : Prop :=
  pool m' = pool m ∧ domainToIP m' = domainToIP m ∧ Domain <$> active m' = Domain <$> active m.

Lemma same_names_refl m : same_names m m.
Proof. done. Qed.
Lemma same_names_trans m1 m2 m3 : same_names m1 m2 → same_names m2 m3 → same_names m1 m3.
Proof. intros (E1 & E2 & E3) (E4 & E5 & E6). split_and!; congruence. Qed.

Lemma same_names_ok m m' : same_names m m' → names_ok m → names_ok m'.
Proof.
  intros (Hp & Hd & Ha) []. split; rewrite ?Hp, ?Hd; try done.
  - intros d ip (e & He & Hde)%no_domain0.
    assert ((Domain <$> active m') !! ip = Some d) as Hl by (by rewrite Ha, lookup_fmap, He, <- Hde).
    rewrite lookup_fmap in Hl. destruct (active m' !! ip) as [e'|]; [|done]. simplify_eq/=. by exists e'.
  - intros ip e He.
    assert ((Domain <$> active m) !! ip = Some (Domain e)) as Hl by (by rewrite <- Ha, lookup_fmap, He).
    rewrite lookup_fmap in Hl. destruct (active m !! ip) as [e'|] eqn:E'; [|done]. simplify_eq/=.
    rewrite <- Hl. by apply no_active0.
Qed.

Lemma update_entry_names m k f : (∀ e, Domain (f e) = Domain e) → same_names m (update_entry m k f).
Proof.
  intros Hf. unfold update_entry. destruct (is_v6_text k); [done|]. split_and!; [done..|].
  cbn [active with_active]. apply map_eq. intros i. rewrite !lookup_fmap.
  destruct (decide (i = k)) as [->|]; [rewrite lookup_alter_eq|by rewrite lookup_alter_ne].
  destruct (active m !! k); simpl; by rewrite ?Hf.
Qed.

Lemma AddMapping_names m k r : same_names m (AddMapping m k r).1.
Proof. unfold AddMapping. by repeat (case_match; simplify_eq/=). Qed.
Lemma RemoveMapping_names m k : same_names m (RemoveMapping m k).1.
Proof. unfold RemoveMapping. by repeat (case_match; simplify_eq/=). Qed.
Lemma resolveWithCache_names m d u v t : same_names m (resolveWithCache m d u v t).1.
Proof. unfold resolveWithCache. by repeat (case_match; simplify_eq/=). Qed.
Lemma setRefreshAt_names m k ttl t : same_names m (setRefreshAt m k ttl t).
Proof. by apply update_entry_names. Qed.
Lemma start_task_names m k d u b : same_names m (start_task m k d u b).
Proof. unfold start_task. by repeat case_match. Qed.

(** Adding a mapping and scheduling its refresh, as every resolution ends. *)
Lemma add_and_refresh_names m k r ttl t :
  same_names m (let '(m', err) := AddMapping m k r in match err with Some _ => m' | None => setRefreshAt m' k ttl t end).
Proof.
  pose proof (AddMapping_names m k r) as Hn. destruct (AddMapping m k r) as [m' [e|]]; [done|].
  eapply same_names_trans; [exact Hn|apply setRefreshAt_names].
Qed.

Lemma LookupAndTouch_names m k t : same_names m (LookupAndTouch m k t).1.
Proof.
  unfold LookupAndTouch. destruct (entryFor m k) as [e|]; [|done].
  assert (same_names m (update_entry m k (SetLastAccess t))) as S1 by (by apply update_entry_names).
  destruct (ipToRealIP _ !! k) as [r|]; [|done]. destruct (String.eqb r ""); [done|].
  destruct (_ && _); [|done]. eapply same_names_trans; [exact S1|by apply update_entry_names].
Qed.

Lemma ResolveAndMappingSync_names m k d u t : same_names m (ResolveAndMappingSync m k d u t).1.
Proof.
  unfold ResolveAndMappingSync. destruct (negb _); [done|].
  pose proof (resolveWithCache_names m d u (is_v6_text k) t) as S1.
  destruct (resolveWithCache _ _ _ _ _) as [m1 [[e|e]|[ip ttl]]]; [done..|].
  pose proof (add_and_refresh_names m1 k ip ttl t) as S2.
  destruct (AddMapping m1 k ip) as [m2 [e|]]; by eapply same_names_trans.
Qed.

Lemma run_task_names m key t : same_names m (run_task m key t).
Proof.
  unfold run_task. destruct (tasks m !! key) as [tk|]; [|done].
  destruct (mt_renew tk).
  - destruct (resolve _ _ _ _) as [d [e|[ip ttl]]].
    + eapply same_names_trans; [|apply setRefreshAt_names]. done.
    + match goal with |- same_names _ (let '(_, _) := AddMapping ?M _ _ in _) =>
        eapply (same_names_trans _ M); [done|apply add_and_refresh_names] end.
  - match goal with |- context [resolveWithCache ?M ?a ?b ?c ?e] =>
      pose proof (resolveWithCache_names M a b c e) as S1; destruct (resolveWithCache M a b c e) as [m1 [e1|[ip ttl]]] end.
    + eapply same_names_trans; [|exact S1]. done.
    + eapply same_names_trans; [|apply add_and_refresh_names]. eapply same_names_trans; [|exact S1]. done.
Qed.


(** ** Allocation *)
Definition low_alloc (p : fakeIPPool) : fakeIPPool :=
  {| fp_IPNet := fp_IPNet p; IpLongMin_f := IpLongMin_f p; IpLongMax_f := IpLongMax_f p; counter := counter p + 1 |}.

Lemma AcquireFakeIP_hit m d now ip e :
  domainToIP m !! d = Some ip → active m !! ip = Some e →
  AcquireFakeIP m d now = (with_active (<[ip := SetLastAccess now e]> (active m)) (domainToIP m) m, ParseIP ip).
Proof. intros Hd He. unfold AcquireFakeIP. by rewrite Hd, He. Qed.

Lemma AcquireFakeIP_new m d now :
  pool_ok (pool m) → 0 ≤ counter (pool m) < pool_size (pool m) → domainToIP m !! d = None →
  let p := pool m in let k := fake_key p (counter p + 1) in
  AcquireFakeIP m d now =
    (with_active (<[k := {| Domain := d; FakeIP := k; LastAccess := now; RefreshAt := 0 |}]> (active m))
       (<[d := k]> (domainToIP m)) (with_pools (low_alloc p) (poolV6 m) m),
     Long2ip (IpLongMin_f p + (counter p + 1) mod pool_size p)).
Proof.
  intros (P1 & P2 & P3) Hc Hd. unfold AcquireFakeIP. rewrite Hd. unfold fake_key, addr_key, low_alloc.
  unfold pool_size in *. rewrite !((wrap_small 32) (counter (pool m) + 1)), !((wrap_small 32) (_ - _ + 1)) by lia.
  pose proof (Z.mod_pos_bound (counter (pool m) + 1) (IpLongMax_f (pool m) - IpLongMin_f (pool m) + 1) ltac:(lia)).
  rewrite !(wrap_small 32) by lia. done.
Qed.

Lemma names_ok_fresh m d k :
  names_ok m → counter (pool m) < k ≤ pool_size (pool m) → ∀ e, active m !! fake_key (pool m) k = Some e → Domain e = d → False.
Proof.
  intros [] Hk e He _. destruct (no_active0 _ _ He) as (_ & j & Hj & E).
  apply fake_key_inj in E; [lia|done|lia..].
Qed.

Lemma AcquireFakeIP_ok m d now :
  names_ok m → counter (pool m) < pool_size (pool m) →
  let m' := (AcquireFakeIP m d now).1 in let a := ip_String (AcquireFakeIP m d now).2 in
  names_ok m' ∧ domainToIP m' !! d = Some a ∧
  (∀ d' ip, domainToIP m !! d' = Some ip → domainToIP m' !! d' = Some ip) ∧
  counter (pool m') ≤ counter (pool m) + 1 ∧ pool_size (pool m') = pool_size (pool m).
Proof.
  intros Hok Hc. pose proof Hok as []. destruct (domainToIP m !! d) as [ip|] eqn:Hd.
  - destruct (no_domain0 _ _ Hd) as (e & He & De). rewrite (AcquireFakeIP_hit _ _ _ _ _ Hd He). cbn [fst snd].
    destruct (no_active0 _ _ He) as (_ & k & Hk & ->). rewrite fake_key_parse.
    split; [|split_and!; [done|done|cbn; lia|done]].
    apply (same_names_ok m); [|done]. split_and!; [done..|]. cbn [active with_active].
    rewrite fmap_insert. apply insert_id. by rewrite lookup_fmap, He.
  - rewrite (AcquireFakeIP_new _ _ _ no_pool0 ltac:(lia) Hd). cbn [fst snd].
    set (k := fake_key (pool m) (counter (pool m) + 1)).
    assert (Hf : active m !! k = None).
    { destruct (active m !! k) as [e|] eqn:E; [|done].
      exfalso. by eapply (names_ok_fresh m _ _ Hok); [|exact E|]; [lia|]. }
    split; [|split_and!; [apply lookup_insert_eq| |cbn; lia|done]].
    + split; cbn [pool with_active with_pools domainToIP active].
      * exact no_pool0.
      * cbn. unfold pool_size in *. cbn. lia.
      * intros d' ip [[<- <-]|[Hn Hl]]%lookup_insert_Some; [eexists; by rewrite lookup_insert_eq|].
        destruct (no_domain0 _ _ Hl) as (e & He & De). exists e. split; [|done].
        apply lookup_insert_Some. right. split; [congruence|done].
      * intros ip e [[<- <-]|[Hn Hl]]%lookup_insert_Some.
        -- cbn. rewrite lookup_insert_eq. split; [done|]. exists (counter (pool m) + 1). split; [lia|done].
        -- destruct (no_active0 _ _ Hl) as (Hl' & j & Hj & ->). split.
           ++ rewrite lookup_insert_ne by congruence. done.
           ++ exists j. split; [cbn; lia|done].
    + intros d' ip Hl. cbn. rewrite lookup_insert_ne by congruence. done.
Qed.

(** ** Runs

    Every operation of a running manager, in any order and at any times. *)
Inductive step : M → M → Prop :=
| step_acquire m d now : step m (AcquireFakeIP m d now).1
| step_acquire6 m d now m' ip : AcquireFakeIPv6 m d now = Ret (m', ip) → step m m'
| step_touch m k now : step m (LookupAndTouch m k now).1
| step_access m k now : step m (UpdateAccess m k now)
| step_sync m k d u now : step m (ResolveAndMappingSync m k d u now).1
| step_async m k d u : step m (ResolveAndMapping m k d u)
| step_renew m k d u : step m (RenewMapping m k d u)
| step_task m key now : step m (run_task m key now)
| step_remove m k : step m (RemoveMapping m k).1
| step_cleanup m now : step m (cleanupExpiredFakeIPs m now)
| step_cleanup_cache m now : step m (cleanupExpiredDNSCache m now).

(** Runs that allocate at most as many addresses as the pool has. *)
Definition step_in_pool m m' : Prop := step m m' ∧ counter (pool m') ≤ pool_size (pool m').

Lemma UpdateAccess_names m k now : same_names m (UpdateAccess m k now).
Proof.
  unfold UpdateAccess. split_and!; [done..|]. cbn [active with_active]. apply map_eq. intros i. rewrite !lookup_fmap.
  destruct (decide (i = k)) as [->|]; [rewrite lookup_alter_eq|by rewrite lookup_alter_ne].
  by destruct (active m !! k).
Qed.
Lemma AcquireFakeIPv6_names m d now m' ip : AcquireFakeIPv6 m d now = Ret (m', ip) → same_names m m'.
Proof.
  unfold AcquireFakeIPv6. intros E. destruct (poolV6 m) as [p|]; [|by simplify_eq].
  case_match; [by repeat (case_match; simplify_eq/=)|].
  destruct (v6_next p) as [p' n]. destruct (bigToIP n); by simplify_eq/=.
Qed.

Lemma cleanup_one_ok m k now : names_ok m → names_ok (cleanup_one m k now).
Proof.
  intros Hok. unfold cleanup_one, entryFor. destruct (is_v6_text k).
  - destruct (activeV6 m !! k) as [e|]; [|done]. destruct (_ <=? _); [done|].
    eapply same_names_ok; [apply RemoveMapping_names|]. by eapply same_names_ok; [|exact Hok].
  - destruct (active m !! k) as [e|] eqn:He; [|done]. destruct (_ <=? _); [done|].
    eapply same_names_ok; [apply RemoveMapping_names|]. pose proof Hok as [].
    destruct (no_active0 _ _ He) as (Hd & _). split; cbn [pool with_active domainToIP active]; [done..| |].
    + intros d ip [Hn Hl]%lookup_delete_Some. destruct (no_domain0 _ _ Hl) as (e' & He' & De').
      exists e'. split; [|done]. apply lookup_delete_Some. split; [|done]. intros <-. congruence.
    + intros ip e' [Hn Hl]%lookup_delete_Some. destruct (no_active0 _ _ Hl) as (Hd' & Hk). split; [|done].
      apply lookup_delete_Some. split; [|done]. intros E. rewrite <- E in Hd'. congruence.
Qed.

Lemma cleanup_ok now l : ∀ m, names_ok m → names_ok (fold_left (λ m k, cleanup_one m k now) l m).
Proof. induction l as [|k l IH]; intros m Hok; [done|]. cbn. by apply IH, cleanup_one_ok. Qed.

Lemma step_ok m m' : names_ok m → step_in_pool m m' → names_ok m'.
Proof.
  intros Hok [Hs Hc]. destruct Hs.
  - pose proof (no_pool m Hok) as Hp. pose proof (no_counter m Hok) as Hn.
    destruct (decide (counter (pool m) < pool_size (pool m))) as [Hlt|Hge].
    { by apply AcquireFakeIP_ok. }
    destruct (domainToIP m !! d) as [ip|] eqn:Hd.
    + destruct (no_domain m Hok _ _ Hd) as (e & He & De). rewrite (AcquireFakeIP_hit _ _ _ _ _ Hd He).
      apply (same_names_ok m); [|done]. split_and!; [done..|]. cbn.
      rewrite fmap_insert. apply insert_id. by rewrite lookup_fmap, He.
    + exfalso. unfold AcquireFakeIP in Hc. rewrite Hd in Hc. unfold pool_ok, pool_size in *. cbn in Hc.
      rewrite wrap_small in Hc by lia. lia.
  - by eapply same_names_ok; [eapply AcquireFakeIPv6_names|].
  - by eapply same_names_ok; [apply LookupAndTouch_names|].
  - by eapply same_names_ok; [apply UpdateAccess_names|].
  - by eapply same_names_ok; [apply ResolveAndMappingSync_names|].
  - eapply same_names_ok; [|done]. unfold ResolveAndMapping. destruct (negb _); [done|apply start_task_names].
  - by eapply same_names_ok; [apply start_task_names|].
  - by eapply same_names_ok; [apply run_task_names|].
  - by eapply same_names_ok; [apply RemoveMapping_names|].
  - by apply cleanup_ok.
  - by eapply same_names_ok; [|done].
Qed.

Lemma steps_ok m m' : names_ok m → rtc step_in_pool m m' → names_ok m'.
Proof. intros Hok Hr. induction Hr; [done|]. eauto using step_ok. Qed.

Lemma initV6Pool_names cfg m r : same_names m (initV6Pool cfg m r).1.
Proof.
  unfold initV6Pool. destruct (ParseCIDR r) as [[a n]|]; [|done]. case_bool_decide; [done|].
  destruct (mask_Size (net_Mask n)) as [ones bits]. destruct (String.eqb _ _); [done|].
  destruct (CreateChains _ _ _) as [f err]. done.
Qed.

Lemma GetFakeDNSManager_ok cfg f d m : GetFakeDNSManager cfg f d = Some m → names_ok m.
Proof.
  unfold GetFakeDNSManager. destruct (newFakeDNSManager cfg f d DefaultFakeIPRange) as [m0|] eqn:E; [|done].
  intros [= <-].
  assert (names_ok m0) as Hok.
  { unfold newFakeDNSManager in E.
    destruct (ParseCIDR DefaultFakeIPRange) as [[a n]|] eqn:Ep; [|done].
    vm_compute in Ep. injection Ep as _ <-. destruct (CreateChains _ _ _) as [f' [err|]]; [done|].
    injection E as <-. split; cbn [pool domainToIP active counter].
    - vm_compute. intuition discriminate.
    - vm_compute. intuition discriminate.
    - intros d' ip Hl. by rewrite lookup_empty in Hl.
    - intros ip e Hl. by rewrite lookup_empty in Hl. }
  destruct (String.eqb _ _); [done|]. eapply same_names_ok; [apply initV6Pool_names|done].
Qed.

(** The text of the address the next allocation takes. *)
Definition next_fake (p : fakeIPPool) : string :=
  addr_key (u32 (IpLongMin_f p + u32 (counter p + 1) mod u32 (IpLongMax_f p - IpLongMin_f p + 1))).

Lemma GetDomain_active m k e : active m !! k = Some e → GetDomain m k = Domain e.
Proof. intros He. unfold GetDomain. by rewrite He. Qed.

Lemma entryFor_v4 m k : is_v6_text k = false → entryFor m k = active m !! k.
Proof. intros Hk. unfold entryFor. by rewrite Hk. Qed.

Lemma LookupAndTouch_real m k e r now :
  entryFor m k = Some e → ipToRealIP m !! k = Some r → r ≠ ""%string →
  ∃ refresh, (LookupAndTouch m k now).2 = (r, Domain e, refresh).
Proof.
  intros He Hr Hn%String.eqb_neq. unfold LookupAndTouch. rewrite He.
  assert (ipToRealIP (update_entry m k (SetLastAccess now)) = ipToRealIP m) as -> by (unfold update_entry; by case_match).
  rewrite Hr, Hn. destruct (_ && _); by eexists.
Qed.

(** ** NAT rules and mappings *)
Record nat_ok m : Prop := {
  nat_rules : ∀ k r, (k, r) ∈ rules (fw m) ↔ ipToRealIP m !! k = Some r;
  nat_real : ∀ k r, ipToRealIP m !! k = Some r → r ≠ ""%string;
  nat_entry : ∀ k r, ipToRealIP m !! k = Some r → is_Some (entryFor m k)
}.

(** Operations that touch neither the mappings nor the firewall, and drop no entry. *)
Definition same_nat m m' : Prop :=
  fw m' = fw m ∧ ipToRealIP m' = ipToRealIP m ∧ ∀ k, is_Some (entryFor m k) → is_Some (entryFor m' k).
Lemma same_nat_ok m m' : same_nat m m' → nat_ok m → nat_ok m'.
Proof. intros (Ef & Er & He) []. split; rewrite ?Ef, ?Er; eauto. Qed.

Lemma same_nat_upd m k f : same_nat m (update_entry m k f).
Proof.
  unfold update_entry. destruct (is_v6_text k) eqn:Hk; split_and!; try done; intros j; unfold entryFor; cbn;
    destruct (is_v6_text j); try done; by rewrite lookup_alter_is_Some.
Qed.
Lemma same_nat_refl m : same_nat m m.
Proof. done. Qed.
Lemma same_nat_trans m1 m2 m3 : same_nat m1 m2 → same_nat m2 m3 → same_nat m1 m3.
Proof. intros (E1 & E2 & E3) (E4 & E5 & E6). split_and!; [congruence..|auto]. Qed.

Lemma resolveWithCache_nat m d u v t : same_nat m (resolveWithCache m d u v t).1.
Proof. unfold resolveWithCache. by repeat (case_match; simplify_eq/=). Qed.
Lemma start_task_nat m k d u b : same_nat m (start_task m k d u b).
Proof. unfold start_task. by repeat case_match. Qed.
Lemma LookupAndTouch_nat m k t : same_nat m (LookupAndTouch m k t).1.
Proof.
  unfold LookupAndTouch. destruct (entryFor m k) as [e|]; [|done].
  pose proof (same_nat_upd m k (SetLastAccess t)) as S1.
  destruct (ipToRealIP _ !! k) as [r|]; [|done]. destruct (String.eqb r ""); [done|].
  destruct (_ && _); [|done]. eapply same_nat_trans; [exact S1|by apply same_nat_upd].
Qed.
Lemma entry_put (a : gmap string fakeIPEntry) k e j : is_Some (a !! j) → is_Some (<[k := e]> a !! j).
Proof. intros Ha. destruct (decide (j = k)) as [->|]; [rewrite lookup_insert_eq|rewrite lookup_insert_ne]; eauto. Qed.
Lemma AcquireFakeIP_nat m d now : same_nat m (AcquireFakeIP m d now).1.
Proof.
  unfold AcquireFakeIP. destruct (domainToIP m !! d) as [k|]; [destruct (active m !! k) as [e|]|];
    (split_and!; [done..|]); intros j; unfold entryFor; cbn [fst activeV6 active with_active with_pools];
    destruct (is_v6_text j); try done; apply entry_put.
Qed.
Lemma AcquireFakeIPv6_nat m d now m' ip : AcquireFakeIPv6 m d now = Ret (m', ip) → same_nat m m'.
Proof.
  unfold AcquireFakeIPv6. destruct (poolV6 m) as [p|]; [|by intros; simplify_eq].
  destruct (v6_next p) as [p' n].
  destruct (domainToIPV6 m !! d) as [k|]; [destruct (activeV6 m !! k) as [e|]|];
    try (destruct (bigToIP n) as [b|]; [|done]); intros; simplify_eq/=;
    (split_and!; [done..|]); intros j; unfold entryFor; cbn;
    destruct (is_v6_text j); try done; apply entry_put.
Qed.

(** A resolution that succeeds has an address. *)
Lemma collect_real q ans : ∀ ttl, Forall rr_ok ans → Forall (λ ip, ip ≠ ""%string) (collect q ans ttl).1.
Proof.
  induction ans as [|[ip t|ip t|] ans IH]; intros ttl Ha; [constructor| | |]; apply Forall_cons in Ha as [Hx Ha]; cbn; [| |by apply IH];
    (case_bool_decide; [|by apply IH]);
    (match goal with |- context [collect ?Q ?L ?T] => specialize (IH T); destruct (collect Q L T) end);
    (constructor; [done|by apply IH]).
Qed.

Lemma queryDNS_real d dom q srv d' ip ttl : queryDNS d dom q srv = (d', inr (ip, ttl)) → ip ≠ ""%string.
Proof.
  unfold queryDNS. destruct (exchange d dom q srv) as [d1 [e|rc ans]] eqn:Ex; [done|].
  destruct (negb _); [done|]. pose proof (collect_real q ans 0 (exchange_ok _ _ _ _ _ _ _ Ex)) as Hc.
  destruct (collect q ans 0) as [ips t]. cbn [fst] in Hc. destruct ips as [|x ips]; [done|].
  destruct (rand_Intn d1 _) as [d2 i] eqn:Er. intros E. injection E as <- <- <-.
  apply rand_Intn_ok in Er; [|cbn; lia]. destruct (lookup_lt_is_Some_2 (x :: ips) i Er) as [y Hy].
  rewrite Hy. cbn. by eapply Forall_lookup_1 in Hc.
Qed.

Lemma resolve_retry_real n dom q srv d' ip ttl : ∀ d last,
  resolve_retry n d dom q srv last = (d', inr (ip, ttl)) → ip ≠ ""%string.
Proof.
  induction n as [|n IH]; intros d last; [done|]. cbn [resolve_retry].
  destruct (queryDNS _ _ _ _) as [d1 [[e|e]|[ip1 t1]]] eqn:Eq; [done|by apply IH|].
  intros E. injection E as <- <- <-. by eapply queryDNS_real.
Qed.
Lemma resolve_real v6 d dom u d' ip ttl : resolve v6 d dom u = (d', inr (ip, ttl)) → ip ≠ ""%string.
Proof. apply resolve_retry_real. Qed.

Lemma resolveWithCache_real m d u v t m' ip ttl : resolveWithCache m d u v t = (m', inr (ip, ttl)) → ip ≠ ""%string.
Proof.
  unfold resolveWithCache. destruct (cached m _ t) as [c|].
  - destruct (String.eqb (dc_RealIP c) "") eqn:E; [done|]. apply String.eqb_neq in E. intros. by simplify_eq.
  - destruct (resolve _ _ _ _) as [d' [e|[ip1 t1]]] eqn:Er; intros; simplify_eq. by eapply resolve_real.
Qed.

Section reliable.
(** The firewall carries out every command. *)
Context (Hadd : ∀ f k r, (AddNatRule f k r).2 = None) (Hdel : ∀ f k r, (DelNatRule f k r).2 = None).

Lemma AddMapping_reliable m k r :
  is_Some (entryFor m k) → ipToRealIP m !! k ≠ Some r →
  let f1 := if String.eqb (GetRealIP m k) "" then fw m else (DelNatRule (fw m) k (GetRealIP m k)).1 in
  AddMapping m k r = (with_real (<[k := r]> (ipToRealIP m)) (AddNatRule f1 k r).1 m, None).
Proof.
  intros [e He] Hr. unfold AddMapping, GetRealIP. rewrite He, bool_decide_eq_false_2 by done. cbn zeta.
  destruct (String.eqb _ _); cbn [fw with_real].
  - pose proof (Hadd (fw m) k r) as Ha. destruct (AddNatRule (fw m) k r) as [f [e'|]]; [done|]. done.
  - pose proof (Hdel (fw m) k (default ""%string (ipToRealIP m !! k))) as Hd.
    destruct (DelNatRule _ _ _) as [f [e'|]]; [done|]. cbn [fst fw with_real].
    pose proof (Hadd f k r) as Ha. destruct (AddNatRule f k r) as [f' [e'|]]; [done|]. done.
Qed.

Lemma AddMapping_nat m k r : nat_ok m → r ≠ ""%string → nat_ok (AddMapping m k r).1.
Proof.
  intros [Hru Hre Hen] Hr. destruct (entryFor m k) as [e|] eqn:He; [|by unfold AddMapping; rewrite He].
  destruct (decide (ipToRealIP m !! k = Some r)) as [Hs|Hs].
  { unfold AddMapping. by rewrite He, bool_decide_eq_true_2 by done. }
  rewrite AddMapping_reliable by (rewrite ?He; done). cbn [fst].
  set (f1 := if String.eqb _ _ then _ else _).
  assert (∀ j x, (j, x) ∈ rules f1 ↔ j ≠ k ∧ ipToRealIP m !! j = Some x) as H1'.
  { intros j x. subst f1. unfold GetRealIP. destruct (ipToRealIP m !! k) as [old|] eqn:Ho; cbn [default from_option id].
    - rewrite (proj2 (String.eqb_neq old "")) by eauto.
      pose proof (Hdel (fw m) k old) as Hd. destruct (DelNatRule (fw m) k old) as [f [e'|]] eqn:Ed; [done|].
      cbn [fst]. rewrite (DelNatRule_ok _ _ _ _ Ed), elem_of_difference, elem_of_singleton, Hru.
      split; [intros [Hj Hn]; split; [|done]; intros ->; congruence|intros [Hj Hl]; split; [done|]; congruence].
    - rewrite String.eqb_refl, Hru. split; [intros Hl; split; [|done]; congruence|by intros [_ ?]]. }
  pose proof (Hadd f1 k r) as Ha. destruct (AddNatRule f1 k r) as [f2 [e'|]] eqn:Ea; [done|].
  split; cbn [fw ipToRealIP with_real fst].
  - intros j x. rewrite (AddNatRule_ok _ _ _ _ Ea), elem_of_union, elem_of_singleton, H1', lookup_insert_Some.
    split; [intros [[= -> ->]|[? ?]]|intros [[-> ->]|[? ?]]]; auto.
  - intros j x [[-> <-]|[_ Hl]]%lookup_insert_Some; eauto.
  - intros j x [[<- _]|[_ Hl]]%lookup_insert_Some; [exact (mk_is_Some _ _ He)|by eapply Hen].
Qed.

(** [nat_ok] but for the entry of [k], as a cleaning leaves it. *)
Lemma RemoveMapping_nat m k :
  (∀ j r, (j, r) ∈ rules (fw m) ↔ ipToRealIP m !! j = Some r) → (∀ j r, ipToRealIP m !! j = Some r → r ≠ ""%string) →
  (∀ j r, j ≠ k → ipToRealIP m !! j = Some r → is_Some (entryFor m j)) → nat_ok (RemoveMapping m k).1.
Proof.
  intros Hru Hre Hen. unfold RemoveMapping. destruct (ipToRealIP m !! k) as [r|] eqn:Hk.
  - pose proof (Hdel (fw m) k r) as Hd. destruct (DelNatRule (fw m) k r) as [f [e|]] eqn:Ed; [done|].
    split; cbn [fw ipToRealIP with_real fst].
    + intros j x. rewrite (DelNatRule_ok _ _ _ _ Ed), elem_of_difference, elem_of_singleton, Hru, lookup_delete_Some.
      split; [intros [Hj Hn]; split; [|done]; intros ->; congruence|intros [Hj Hl]; split; [done|]; congruence].
    + intros j x [_ Hl]%lookup_delete_Some; eauto.
    + intros j x [Hn Hl]%lookup_delete_Some. eapply Hen; eauto.
  - cbn [fst]. split; [done..|]. intros j x Hl. eapply Hen; [|done]. intros ->. congruence.
Qed.

Lemma cleanup_one_nat m k now : nat_ok m → nat_ok (cleanup_one m k now).
Proof.
  intros Hok. pose proof Hok as [Hru Hre Hen]. unfold cleanup_one. destruct (entryFor m k) as [e|]; [|done].
  destruct (_ <=? _); [done|].
  destruct (is_v6_text k) eqn:Hk; apply RemoveMapping_nat; try done; intros j x Hn Hl;
    specialize (Hen _ _ Hl); unfold entryFor in *; cbn; destruct (is_v6_text j) eqn:Hj; try done;
    by rewrite lookup_delete_ne by congruence.
Qed.
Lemma cleanup_nat now l : ∀ m, nat_ok m → nat_ok (fold_left (λ m k, cleanup_one m k now) l m).
Proof. induction l as [|k l IH]; intros m Hok; [done|]. cbn. by apply IH, cleanup_one_nat. Qed.

Lemma add_and_refresh_nat m k r ttl t :
  nat_ok m → r ≠ ""%string →
  nat_ok (let '(m', err) := AddMapping m k r in match err with Some _ => m' | None => setRefreshAt m' k ttl t end).
Proof.
  intros Hok Hr. pose proof (AddMapping_nat m k r Hok Hr) as Hn. destruct (AddMapping m k r) as [m' [e|]]; [done|].
  eapply same_nat_ok; [apply same_nat_upd|done].
Qed.

Lemma run_task_nat m key t : nat_ok m → nat_ok (run_task m key t).
Proof.
  intros Hok. unfold run_task. destruct (tasks m !! key) as [tk|]; [|done].
  set (m0 := with_tasks _ _ m). assert (nat_ok m0) as Hok0 by (by eapply same_nat_ok; [|exact Hok]).
  destruct (mt_renew tk).
  - destruct (resolve _ _ _ _) as [d [e|[ip ttl]]] eqn:Er.
    + eapply same_nat_ok; [apply same_nat_upd|]. by eapply same_nat_ok; [|exact Hok0].
    + apply add_and_refresh_nat; [|by eapply resolve_real]. by eapply same_nat_ok; [|exact Hok0].
  - pose proof (resolveWithCache_nat m0 (mt_domain tk) (mt_upstream tk) (is_v6_text (mt_fakeIP tk)) t) as S1.
    destruct (resolveWithCache _ _ _ _ _) as [m1 [e1|[ip ttl]]] eqn:Er; [by eapply same_nat_ok|].
    apply add_and_refresh_nat; [by eapply same_nat_ok|by eapply resolveWithCache_real].
Qed.
Lemma RemoveMapping_entries_nat m k : nat_ok m → nat_ok (RemoveMapping m k).1.
Proof. intros []. apply RemoveMapping_nat; eauto. Qed.
End reliable.

(** Every step keeps the rules, when the firewall carries out every command. *)
Lemma step_nat m m' :
  (∀ f k r, (AddNatRule f k r).2 = None) → (∀ f k r, (DelNatRule f k r).2 = None) →
  nat_ok m → step m m' → nat_ok m'.
Proof.
  intros Ha Hd Hok Hs. destruct Hs.
  - by eapply same_nat_ok; [apply AcquireFakeIP_nat|].
  - by eapply same_nat_ok; [eapply AcquireFakeIPv6_nat|].
  - by eapply same_nat_ok; [apply LookupAndTouch_nat|].
  - eapply same_nat_ok; [|exact Hok]. split_and!; [done..|]. intros j. unfold entryFor, UpdateAccess; cbn.
    destruct (is_v6_text j); [done|]. by rewrite lookup_alter_is_Some.
  - unfold ResolveAndMappingSync. destruct (negb _); [done|].
    pose proof (resolveWithCache_nat m d u (is_v6_text k) now) as S1.
    destruct (resolveWithCache _ _ _ _ _) as [m1 [[e|e]|[ip ttl]]] eqn:Er; [by eapply same_nat_ok..|].
    pose proof (add_and_refresh_nat Ha Hd m1 k ip ttl now (same_nat_ok _ _ S1 Hok) (resolveWithCache_real _ _ _ _ _ _ _ _ Er)).
    destruct (AddMapping m1 k ip) as [m2 [e|]]; done.
  - eapply same_nat_ok; [|done]. unfold ResolveAndMapping. destruct (negb _); [done|apply start_task_nat].
  - by eapply same_nat_ok; [apply start_task_nat|].
  - by apply run_task_nat.
  - by apply RemoveMapping_entries_nat.
  - by apply cleanup_nat.
  - by eapply same_nat_ok; [|done].
Qed.

Lemma GetFakeDNSManager_nat cfg f d m :
  GetFakeDNSManager cfg f d = Some m → rules (fw m) = ∅ → nat_ok m.
Proof.
  unfold GetFakeDNSManager. destruct (newFakeDNSManager cfg f d DefaultFakeIPRange) as [m0|] eqn:E; [|done].
  assert (ipToRealIP m0 = ∅) as H0'.
  { unfold newFakeDNSManager in E. destruct (ParseCIDR _) as [[a n]|]; [|done].
    destruct (CreateChains _ _ _) as [f' [err|]]; [done|]. by injection E as <-. }
  assert (ipToRealIP (initV6Pool cfg m0 DefaultFakeIPv6Range).1 = ∅) as H6.
  { unfold initV6Pool. destruct (ParseCIDR _) as [[a n]|]; [|done]. case_bool_decide; [done|].
    destruct (mask_Size _) as [o b]. destruct (String.eqb _ _); [done|]. by destruct (CreateChains _ _ _) as [f' [err|]]. }
  intros [= <-] Hr. assert (∀ x : M, ipToRealIP x = ∅ → rules (fw x) = ∅ → nat_ok x) as Hx.
  { intros x Hx Hrx. split; intros k r; rewrite Hx, ?Hrx, lookup_empty; [|done..]. split; [by intros ?%elem_of_empty|done]. }
  destruct (String.eqb _ _); by apply Hx.
Qed.

(** C31. As long as no more addresses were allocated than the pool has, a fake
    address names one domain: from the manager the program starts with, after
    any operations in any order, the address a query for [dom] is answered with
    is looked up as [dom], and every other domain that holds an address holds a
    different one and is still found under it. *)
Theorem fake_address_names_one_domain cfg f d m0 m dom now :
  GetFakeDNSManager cfg f d = Some m0 → rtc step_in_pool m0 m → counter (pool m) < pool_size (pool m) →
  let m' := (AcquireFakeIP m dom now).1 in let a := ip_String (AcquireFakeIP m dom now).2 in
  GetDomain m' a = dom ∧
  ∀ dom' ip, dom' ≠ dom → domainToIP m !! dom' = Some ip → ip ≠ a ∧ GetDomain m' ip = dom'.
Proof.
  intros Hi Hr Hc m' a. pose proof (steps_ok _ _ (GetFakeDNSManager_ok _ _ _ _ Hi) Hr) as Hok.
  destruct (AcquireFakeIP_ok m dom now Hok Hc) as (Hok' & Ha & Hold & _). fold m' a in Hok', Ha, Hold.
  assert (∀ x ip, domainToIP m' !! x = Some ip → GetDomain m' ip = x) as Hg.
  { intros x ip (e & He & <-)%(no_domain m' Hok'). by apply GetDomain_active. }
  split; [by apply Hg|]. intros dom' ip Hn Hl. pose proof (Hg _ _ (Hold _ _ Hl)) as Hd. split; [|done].
  intros ->. apply Hg in Ha. congruence.
Qed.

(** When the pool has gone round, the next allocation takes the address of
    a domain that still holds it: from then on the address is looked up as the
    new domain, packets for it still go to the real address of the old one, the
    new domain's resolutions, in the background or before the answer, find the
    mapping made and do nothing, and queries for the old domain are still
    answered with the address. *)
Theorem fake_address_taken_over m d1 d2 e r u now later :
  domainToIP m !! d2 = None → active m !! next_fake (pool m) = Some e → Domain e = d1 → d1 ≠ d2 →
  domainToIP m !! d1 = Some (next_fake (pool m)) →
  ipToRealIP m !! next_fake (pool m) = Some r → r ≠ ""%string →
  let m' := (AcquireFakeIP m d2 now).1 in let a := ip_String (AcquireFakeIP m d2 now).2 in
  GetDomain m' a = d2 ∧ (LookupAndTouch m' a later).2.1.1 = r ∧
  ResolveAndMapping m' a d2 u = m' ∧ ResolveAndMappingSync m' a d2 u later = (m', None) ∧
  ip_String (AcquireFakeIP m' d1 later).2 = a.
Proof.
  intros H2' He De Hn Hd1 Hr Hne m' a.
  assert (m' = with_active (<[a := {| Domain := d2; FakeIP := a; LastAccess := now; RefreshAt := 0 |}]> (active m))
                 (<[d2 := a]> (domainToIP m)) (with_pools (pool m') (poolV6 m) m)) as E.
  { subst m' a. unfold AcquireFakeIP. by rewrite H2'. }
  assert (a = next_fake (pool m)) as Ea by (subst a; unfold AcquireFakeIP; by rewrite H2').
  rewrite <- Ea in *. clearbody m' a.
  assert (active m' !! a = Some {| Domain := d2; FakeIP := a; LastAccess := now; RefreshAt := 0 |}) as Ha
    by (rewrite E; cbn; apply lookup_insert_eq).
  assert (ipToRealIP m' !! a = Some r) as Hr' by (by rewrite E).
  assert (is_v6_text a = false) as H4 by (rewrite Ea; apply addr_key_v4).
  assert (GetRealIP m' a = r) as Hg by (unfold GetRealIP; by rewrite Hr').
  assert (negb (String.eqb (GetRealIP m' a) "") = true) as Hg' by (rewrite Hg; by apply negb_true_iff, String.eqb_neq).
  split_and!.
  - by rewrite (GetDomain_active _ _ _ Ha).
  - by destruct (LookupAndTouch_real m' a _ r later ltac:(rewrite entryFor_v4 by done; exact Ha) Hr' Hne) as [b ->].
  - unfold ResolveAndMapping. by rewrite Hg'.
  - unfold ResolveAndMappingSync. by rewrite Hg'.
  - rewrite (AcquireFakeIP_hit m' d1 later a _ ltac:(rewrite E; cbn; by rewrite lookup_insert_ne) Ha).
    cbn [snd]. rewrite Ea. unfold next_fake. by rewrite ParseIP_key, ip_String_mapped by apply Long2ip_length.
Qed.


(** A renewal whose new rule the firewall refuses leaves the address with
    no rule at all although the mapping says the old one is in force: the old
    rule was deleted first and the roll-back restores the table only, and
    mapping the address to the old real address again changes nothing. *)
Theorem failed_renewal_loses_rule m k e r0 r f f' err :
  entryFor m k = Some e → ipToRealIP m !! k = Some r0 → r0 ≠ ""%string → r ≠ r0 →
  DelNatRule (fw m) k r0 = (f, None) → AddNatRule f k r = (f', Some err) →
  let m' := (AddMapping m k r).1 in
  (AddMapping m k r).2 = Some err ∧ GetRealIP m' k = r0 ∧ (k, r0) ∉ rules (fw m') ∧ AddMapping m' k r0 = (m', None).
Proof.
  intros He Hr0 Hn0%String.eqb_neq Hn Hd Ha m'.
  assert (AddMapping m k r = (with_real (<[k := r0]> (<[k := r]> (ipToRealIP m))) f' m, Some err)) as E.
  { unfold AddMapping. rewrite He, Hr0, bool_decide_eq_false_2 by congruence. cbn. rewrite Hn0, Hd. cbn. by rewrite Ha. }
  subst m'. rewrite E. cbn [fst snd]. split_and!; [done| | |].
  - unfold GetRealIP. cbn. by rewrite lookup_insert_eq.
  - cbn. rewrite (AddNatRule_err _ _ _ _ _ Ha), (DelNatRule_ok _ _ _ _ Hd). set_solver.
  - unfold AddMapping. assert (entryFor (with_real (<[k := r0]> (<[k := r]> (ipToRealIP m))) f' m) k = Some e) as -> by exact He.
    cbn [ipToRealIP with_real]. by rewrite lookup_insert_eq, bool_decide_eq_true_2.
Qed.
End fakedns.

(** ** Concrete firewalls and resolver *)

(** A rule set that carries out every command, and one that refuses to add while
    the flag is set. *)
Record RuleSet := { rs_rules : gset (string * string); rs_refuse : bool }.
#[export] Instance RuleSet_Firewall : Firewall RuleSet := {
  CreateChains f _ _ := (f, None);
  AddNatRule f k r := if rs_refuse f then (f, Some "nft: busy"%string)
                      else ({| rs_rules := {[(k, r)]} ∪ rs_rules f; rs_refuse := rs_refuse f |}, None);
  DelNatRule f k r := ({| rs_rules := rs_rules f ∖ {[(k, r)]}; rs_refuse := rs_refuse f |}, None);
  CleanupFakeIP f := {| rs_rules := ∅; rs_refuse := rs_refuse f |}
}.
#[export] Instance RuleSet_laws : FirewallLaws RuleSet.
Proof.
  refine {| rules := rs_rules |}.
  - intros f k r f' E. cbn in E. destruct (rs_refuse f); by simplify_eq/=.
  - intros f k r f' e E. cbn in E. destruct (rs_refuse f); by simplify_eq/=.
  - intros f k r f' E. cbn in E. by simplify_eq/=.
  - intros f k r f' e E. cbn in E. done.
Defined.

Record Rules := { r_rules : gset (string * string) }.
#[export] Instance Rules_Firewall : Firewall Rules := {
  CreateChains f _ _ := (f, None);
  AddNatRule f k r := ({| r_rules := {[(k, r)]} ∪ r_rules f |}, None);
  DelNatRule f k r := ({| r_rules := r_rules f ∖ {[(k, r)]} |}, None);
  CleanupFakeIP f := {| r_rules := ∅ |}
}.
#[export] Instance Rules_laws : FirewallLaws Rules.
Proof. by refine {| rules := r_rules |}; intros; simplify_eq/=. Defined.

(** A resolver that counts its queries and gives each the next address. *)
#[export] Instance Counting_Resolver : Resolver Z := {
  exchange n _ q _ := (n + 1, Reply 0 [match q with TypeA => RR_A (addr_key n) 300 | TypeAAAA => RR_AAAA "2001:db9::7" 300 end]);
  rand_Intn n _ := (n, 0%nat)
}.
Lemma addr_key_nonempty k : addr_key k ≠ ""%string.
Proof. intros E. pose proof (ParseIP_key k) as P. rewrite E in P. vm_compute in P. discriminate. Qed.
#[export] Instance Counting_laws : ResolverLaws Z.
Proof.
  split.
  - intros n d q srv n' rc ans E. destruct q; injection E as <- <- <-; (constructor; [|constructor]); [apply addr_key_nonempty|done].
  - intros n k n' i E. injection E as <- <-. lia.
Qed.

Definition fd_now : Time := 1700000000 * Second.
Definition fd_start : option (FakeDNSManager Rules Z) := GetFakeDNSManager example_cfg {| r_rules := ∅ |} 3405803777.
Definition fd_m0 : FakeDNSManager Rules Z :=
  from_option id (Build_FakeDNSManager _ _ {| fp_IPNet := {| net_IP := []; net_Mask := [] |}; IpLongMin_f := 0; IpLongMax_f := 0; counter := 0 |}
    None ∅ ∅ ∅ ∅ ∅ ∅ ∅ {| r_rules := ∅ |} 0 true) fd_start.
Definition fd_m1 := (AcquireFakeIP fd_m0 "a.example" fd_now).1.
Definition fd_m2 := (ResolveAndMappingSync fd_m1 "100.64.0.2" "a.example" "1.1.1.1" fd_now).1.

Lemma fake_address_names_one_domain_witness :
  domainToIP fd_m2 !! "a.example"%string = Some "100.64.0.2"%string ∧
  ("100.64.0.2"%string ≠ ip_String (AcquireFakeIP fd_m2 "b.example" fd_now).2).
Proof.
  split; [vm_compute; reflexivity|].
  assert (GetFakeDNSManager example_cfg {| r_rules := ∅ |} 3405803777 = Some fd_m0) as E0 by (vm_compute; reflexivity).
  assert (rtc step_in_pool fd_m0 fd_m2) as Hr.
  { apply (rtc_l _ _ fd_m1); [split; [apply step_acquire|vm_compute; discriminate]|].
    apply rtc_once. split; [apply step_sync|vm_compute; discriminate]. }
  destruct (fake_address_names_one_domain example_cfg {| r_rules := ∅ |} 3405803777 fd_m0 fd_m2 "b.example" fd_now E0 Hr
              ltac:(vm_compute; reflexivity)) as [_ Hd].
  exact (proj1 (Hd "a.example"%string "100.64.0.2"%string ltac:(discriminate) ltac:(vm_compute; reflexivity))).
Defined.

(** A pool of six addresses: the seventh domain takes the first one's. *)
Definition fd_small : FakeDNSManager Rules Z :=
  from_option id fd_m0 (newFakeDNSManager example_cfg {| r_rules := ∅ |} 3405803777 "192.0.2.0/29").
Definition fd_s1 := (ResolveAndMappingSync (AcquireFakeIP fd_small "a.example" fd_now).1
                       "192.0.2.2" "a.example" "1.1.1.1" fd_now).1.
Definition fd_s6 := fold_left (λ m d, (AcquireFakeIP m d fd_now).1)
  ["b.example"; "c.example"; "d.example"; "e.example"; "f.example"]%string fd_s1.
Definition fd_entry : fakeIPEntry :=
  from_option id {| Domain := ""; FakeIP := ""; LastAccess := 0; RefreshAt := 0 |} (active fd_s6 !! "192.0.2.2"%string).

Lemma fake_address_taken_over_witness :
  GetDomain (AcquireFakeIP fd_s6 "g.example" fd_now).1 "192.0.2.2" = "g.example"%string ∧
  (LookupAndTouch (AcquireFakeIP fd_s6 "g.example" fd_now).1 "192.0.2.2" fd_now).2.1.1 = "203.0.113.1"%string.
Proof.
  destruct (fake_address_taken_over fd_s6 "a.example" "g.example" fd_entry "203.0.113.1" "1.1.1.1" fd_now fd_now
    ltac:(vm_compute; reflexivity) ltac:(vm_compute; reflexivity) ltac:(vm_compute; reflexivity) ltac:(discriminate)
    ltac:(vm_compute; reflexivity) ltac:(vm_compute; reflexivity) ltac:(discriminate)) as (Hd & Hl & _).
  assert (ip_String (AcquireFakeIP fd_s6 "g.example" fd_now).2 = "192.0.2.2"%string) as E by (vm_compute; reflexivity).
  rewrite E in Hd, Hl. exact (conj Hd Hl).
Defined.


Definition fd_r1 : FakeDNSManager RuleSet Z :=
  (ResolveAndMappingSync (AcquireFakeIP
     {| pool := pool fd_m0; poolV6 := None; active := ∅; activeV6 := ∅; domainToIP := ∅; domainToIPV6 := ∅;
        ipToRealIP := ∅; dns_cache := ∅; tasks := ∅; fw := {| rs_rules := ∅; rs_refuse := false |};
        resolver := 3405803777; stopped := false |} "a.example" fd_now).1 "100.64.0.2" "a.example" "1.1.1.1" fd_now).1.
Definition fd_r2 := with_real (ipToRealIP fd_r1) {| rs_rules := rs_rules (fw fd_r1); rs_refuse := true |} fd_r1.
Definition fd_r2_entry : fakeIPEntry :=
  from_option id {| Domain := ""; FakeIP := ""; LastAccess := 0; RefreshAt := 0 |} (entryFor fd_r2 "100.64.0.2").

Lemma failed_renewal_loses_rule_witness :
  ("100.64.0.2", "203.0.113.1")%string ∈ rules (fw fd_r2) ∧
  ("100.64.0.2", "203.0.113.1")%string ∉ rules (fw (AddMapping fd_r2 "100.64.0.2" "203.0.113.2").1).
Proof.
  split; [apply (bool_decide_unpack _); vm_compute; exact I|].
  exact (proj1 (proj2 (proj2 (failed_renewal_loses_rule fd_r2 "100.64.0.2" fd_r2_entry "203.0.113.1" "203.0.113.2"
    (DelNatRule (fw fd_r2) "100.64.0.2" "203.0.113.1").1 (DelNatRule (fw fd_r2) "100.64.0.2" "203.0.113.1").1 "nft: busy"
    ltac:(vm_compute; reflexivity) ltac:(vm_compute; reflexivity) ltac:(discriminate) ltac:(discriminate)
    ltac:(vm_compute; reflexivity) ltac:(vm_compute; reflexivity))))).
Defined.
