(* ===== verification/Packet.v ===== *)
(** * IP packets of the tunnel (server/handler/payload_v6.go, the response
    builders of dns_intercept.go, link_cstp.go's length check)

    Packets come from a logged-in client, so every access is in [res].  A write
    into a slice of a packet under construction is [copy_at]. *)
From S2P Require Export GoNet.
Local Open Scope Z_scope.

(** ** The IPv6 header chain *)
Record v6HeaderInfo := {
  v6_Proto : Z; v6_Src : IP; v6_Dst : IP; v6_SrcPort : Z; v6_DstPort : Z; L4Off : Z; PacketEnd : Z;
  FragmentID : Z; FragmentOffset : Z; MoreFragments : bool; IsFragment : bool
}.

(** The assignments to [info]. *)
Definition v6_start (src dst : IP) : v6HeaderInfo :=
  {| v6_Proto := 0; v6_Src := src; v6_Dst := dst; v6_SrcPort := 0; v6_DstPort := 0; L4Off := 0; PacketEnd := 0;
     FragmentID := 0; FragmentOffset := 0; MoreFragments := false; IsFragment := false |}.
Definition v6_set_fragment (field id : Z) (i : v6HeaderInfo) : v6HeaderInfo :=
  {| v6_Proto := v6_Proto i; v6_Src := v6_Src i; v6_Dst := v6_Dst i; v6_SrcPort := v6_SrcPort i;
     v6_DstPort := v6_DstPort i; L4Off := L4Off i; PacketEnd := PacketEnd i; FragmentID := id;
     FragmentOffset := u16 (Z.shiftr field 3 * 8); MoreFragments := negb (Z.land field 1 =? 0); IsFragment := true |}.
Definition v6_set_upper (proto off pend : Z) (i : v6HeaderInfo) : v6HeaderInfo :=
  {| v6_Proto := proto; v6_Src := v6_Src i; v6_Dst := v6_Dst i; v6_SrcPort := v6_SrcPort i;
     v6_DstPort := v6_DstPort i; L4Off := off; PacketEnd := pend; FragmentID := FragmentID i;
     FragmentOffset := FragmentOffset i; MoreFragments := MoreFragments i; IsFragment := IsFragment i |}.
Definition v6_set_ports (sp dp : Z) (i : v6HeaderInfo) : v6HeaderInfo :=
  {| v6_Proto := v6_Proto i; v6_Src := v6_Src i; v6_Dst := v6_Dst i; v6_SrcPort := sp; v6_DstPort := dp;
     L4Off := L4Off i; PacketEnd := PacketEnd i; FragmentID := FragmentID i; FragmentOffset := FragmentOffset i;
     MoreFragments := MoreFragments i; IsFragment := IsFragment i |}.

Definition maxExtHdrs : nat := 12.
Definition read_ports (data : list byte) (off : Z) (i : v6HeaderInfo) : res v6HeaderInfo :=
  let! sp := be16 data off in
  let! dp := be16 data (off + 2) in
  Ret (v6_set_ports sp dp i).

(** The [default] case: an upper-layer header at [offset]. *)
Definition v6_upper (data : list byte) (packetEnd : Z) (i : v6HeaderInfo) (nextHeader offset : Z)
    : res (option v6HeaderInfo) :=
  let i := v6_set_upper nextHeader offset packetEnd i in
  let has_ports := (nextHeader =? 6) || (nextHeader =? 17) in
  if IsFragment i && negb (FragmentOffset i =? 0) then Ret (Some i)
  else if IsFragment i && MoreFragments i then
    if (offset + 4 <=? packetEnd) && has_ports then let! i := read_ports data offset i in Ret (Some i)
    else Ret (Some i)
  else if (nextHeader =? 6) && (packetEnd <? offset + 20) then Ret None
  else if (nextHeader =? 17) && (packetEnd <? offset + 8) then Ret None
  else if has_ports then let! i := read_ports data offset i in Ret (Some i)
  else Ret (Some i).

(** The body of the loop over the extension headers; [next] is what follows the
    [switch] and the next iteration. *)
Definition v6_step (next : v6HeaderInfo → Z → Z → res (option v6HeaderInfo)) (data : list byte) (packetEnd : Z)
    (i : v6HeaderInfo) (nextHeader offset : Z) : res (option v6HeaderInfo) :=
  if bool_decide (nextHeader ∈ [0; 43; 60; 135]) then
    if packetEnd <? offset + 2 then Ret None
    else let! l := at_z data (offset + 1) in
         let! nh := at_z data offset in
         next i nh (offset + (l + 1) * 8)
  else if nextHeader =? 51 then
    if packetEnd <? offset + 2 then Ret None
    else let! l := at_z data (offset + 1) in
         let! nh := at_z data offset in
         next i nh (offset + (l + 2) * 4)
  else if nextHeader =? 44 then
    if packetEnd <? offset + 8 then Ret None
    else let! field := be16 data (offset + 2) in
         let! id := be32 data (offset + 4) in
         let! nh := at_z data offset in
         next (v6_set_fragment field id i) nh (offset + 8)
  else if nextHeader =? 50 then Ret (Some (v6_set_upper 50 offset packetEnd i))
  else v6_upper data packetEnd i nextHeader offset.

(** The loop, [n] iterations left. *)
Fixpoint v6_headers (n : nat) (data : list byte) (packetEnd : Z) (i : v6HeaderInfo) (nextHeader offset : Z)
    : res (option v6HeaderInfo) :=
  match n with
  | O => Ret None
  | S n =>
      v6_step (λ i nh off, if packetEnd <? off then Ret None else v6_headers n data packetEnd i nh off)
        data packetEnd i nextHeader offset
  end.

Definition parseV6Header (data : list byte) : res (option v6HeaderInfo) :=
  if len data <? 40 then Ret None
  else
    let! b0 := at_z data 0 in
    if negb (Z.shiftr b0 4 =? 6) then Ret None
    else
      let! payloadLen := be16 data 4 in
      let packetEnd := 40 + payloadLen in
      if len data <? packetEnd then Ret None
      else
        let! nextHeader := at_z data 6 in
        let! src := slice data 8 24 in
        let! dst := slice data 24 40 in
        v6_headers maxExtHdrs data packetEnd (v6_start src dst) nextHeader 40.

(** ** Building packets *)

(** [copy(p[lo:], src)], of at most the bytes that are there. *)
Definition copy_at (p : list byte) (lo : Z) (src : list byte) : list byte :=
  let lo := Z.to_nat lo in
  take lo p ++ take (length p - lo) src ++ drop (lo + length src) p.

(** The loop of [calculateChecksum] over pairs of bytes, in [uint32]. *)
Fixpoint sum_words (sum : Z) (data : list byte) : Z :=
  match data with
  | a :: b :: r => sum_words (u32 (sum + Z.lor (Z.shiftl (b2z a) 8) (b2z b))) r
  | [a] => u32 (sum + Z.shiftl (b2z a) 8)
  | [] => sum
  end.
(** [for sum > 0xffff]: a 32-bit sum needs at most two rounds. *)
Fixpoint fold_carry (fuel : nat) (sum : Z) : Z :=
  match fuel with
  | O => sum
  | S fuel => if 65535 <? sum then fold_carry fuel (Z.shiftr sum 16 + Z.land sum 65535) else sum
  end.
Definition calculateChecksum (data : list byte) : Z := u16 (Z.lnot (u16 (fold_carry 3 (sum_words 0 data)))).

(** A checksum of 0 means none in UDP. *)
Definition udp_checksum (data : list byte) : Z :=
  let c := calculateChecksum data in if c =? 0 then 65535 else c.

Definition put32 (x : Z) : list byte := put16 (x / 65536 mod 65536) ++ put16 (x mod 65536).

Definition buildDNSResponsePacket (queryPacket dnsResp : list byte) : res (list byte) :=
  let! b0 := at_z queryPacket 0 in
  let ipHeaderLen := Z.land b0 15 * 4 in
  let totalLen := ipHeaderLen + 8 + len dnsResp in
  let p := replicate (Z.to_nat totalLen) (z2b 0) in
  let! hdr := slice queryPacket 0 ipHeaderLen in
  let p := copy_at p 0 hdr in
  let! dst := slice queryPacket 16 20 in
  let p := copy_at p 12 dst in
  let! src := slice queryPacket 12 16 in
  let p := copy_at p 16 src in
  let p := copy_at p 2 (put16 (u16 totalLen)) in
  let p := copy_at p 10 [z2b 0; z2b 0] in
  let! iph := slice p 0 ipHeaderLen in
  let p := copy_at p 10 (put16 (calculateChecksum iph)) in
  let! udp := slice queryPacket ipHeaderLen (ipHeaderLen + 8) in
  let p := copy_at p ipHeaderLen udp in
  let! dp := slice queryPacket (ipHeaderLen + 2) (ipHeaderLen + 4) in
  let p := copy_at p ipHeaderLen dp in
  let! sp := slice queryPacket ipHeaderLen (ipHeaderLen + 2) in
  let p := copy_at p (ipHeaderLen + 2) sp in
  let udpLen := 8 + len dnsResp in
  let p := copy_at p (ipHeaderLen + 4) (put16 (u16 udpLen)) in
  let p := copy_at p (ipHeaderLen + 8) dnsResp in
  let p := copy_at p (ipHeaderLen + 6) [z2b 0; z2b 0] in
  let! addrs := slice p 12 20 in
  let! seg := slice p ipHeaderLen (len p) in
  let pseudo := addrs ++ [z2b 0; z2b 17] ++ put16 (u16 udpLen) ++ seg in
  Ret (copy_at p (ipHeaderLen + 6) (put16 (udp_checksum pseudo))).

(** [To16] of an address that is not one gives nil, and [copy] of nothing. *)
Definition to16_bytes (ip : IP) : list byte := from_option id [] (ip_to16 ip).

Definition buildDNSResponsePacket6 (info : v6HeaderInfo) (dnsResp : list byte) : res (list byte) :=
  let udpLen := 8 + len dnsResp in
  let p := replicate (Z.to_nat (40 + udpLen)) (z2b 0) in
  let p := copy_at p 0 [z2b 96] in
  let p := copy_at p 4 (put16 (u16 udpLen)) in
  let p := copy_at p 6 [z2b 17] in
  let p := copy_at p 7 [z2b 64] in
  let p := copy_at p 8 (to16_bytes (v6_Dst info)) in
  let p := copy_at p 24 (to16_bytes (v6_Src info)) in
  let p := copy_at p 40 (put16 (v6_DstPort info)) in
  let p := copy_at p 42 (put16 (v6_SrcPort info)) in
  let p := copy_at p 44 (put16 (u16 udpLen)) in
  let p := copy_at p 48 dnsResp in
  let! addrs := slice p 8 40 in
  let! seg := slice p 40 (len p) in
  let pseudo := addrs ++ put32 (u32 udpLen) ++ [z2b 0; z2b 0; z2b 0; z2b 17] ++ seg in
  Ret (copy_at p 46 (put16 (udp_checksum pseudo))).

Definition buildDNSResponse (queryPacket : list byte) (v6Info : v6HeaderInfo) (isV6 : bool) (dnsResp : list byte)
    : res (list byte) :=
  if isV6 then buildDNSResponsePacket6 v6Info dnsResp else buildDNSResponsePacket queryPacket dnsResp.

(** ** CSTP data frames *)
Definition BufferSize : Z := 2048.
Definition validCstpDataLen (dataLen n : Z) : bool :=
  if (dataLen =? 0) || (BufferSize <? 8 + dataLen) then false else 8 + dataLen <=? n.
