(* ===== verification/PacketSpec.v ===== *)
(** * IP packets: parsing never panics, checksums verify, replies parse back *)
From S2P Require Import Packet.
Local Open Scope Z_scope.

(** ** Writing into a packet *)
Lemma copy_at_app pre old post lo src :
  lo = len pre → length old = length src → copy_at (pre ++ old ++ post) lo src = pre ++ src ++ post.
Proof.
  intros -> Hl. unfold copy_at, len. rewrite Nat2Z.id, take_app_length. f_equal.
  rewrite take_ge by (rewrite !length_app; lia). f_equal.
  rewrite app_assoc. apply drop_app_length'. rewrite length_app. lia.
Qed.

Lemma length_put16 x : length (put16 x) = 2%nat.
Proof. done. Qed.

(** ** The Internet checksum *)

(** The sum of the 16-bit words of [data], padded with a zero byte. *)
Fixpoint wsum (data : list byte) : Z :=
  match data with
  | a :: b :: r => b2z a * 256 + b2z b + wsum r
  | [a] => b2z a * 256
  | [] => 0
  end.

Lemma pair_ind {A} (P : list A → Prop) :
  P [] → (∀ a, P [a]) → (∀ a b r, P r → P (a :: b :: r)) → ∀ l, P l.
Proof.
  intros H0 H1 H2. assert (∀ n l, (length l < n)%nat → P l) as Hn; [|intros l; apply (Hn (S (length l)) l); lia].
  induction n as [|n IH]; [lia|]. intros [|a [|b r]] Hl; [exact H0|exact (H1 a)|]. apply H2, IH. cbn in Hl. lia.
Qed.

Lemma wsum_bounds data : 0 ≤ wsum data ≤ 32768 * (len data + 1).
Proof.
  induction data as [|a|a b r IH] using pair_ind; [unfold len; cbn; lia|pose proof (b2z_range a); unfold len; cbn; lia|].
  pose proof (b2z_range a). pose proof (b2z_range b). cbn [wsum]. rewrite !len_cons. lia.
Qed.

Lemma wsum_app a b : Nat.Even (length a) → wsum (a ++ b) = wsum a + wsum b.
Proof.
  induction a as [|x|x y r IH] using pair_ind; intros Hev; [cbn; lia|destruct Hev as [k Hk]; cbn in Hk; lia|].
  cbn [app wsum]. rewrite IH; [lia|]. destruct Hev as [k Hk]. exists (k - 1)%nat. cbn in Hk. lia.
Qed.

Lemma wsum_put16 x r : 0 ≤ x < 65536 → wsum (put16 x ++ r) = x + wsum r.
Proof.
  intros Hx. unfold put16. cbn [app wsum]. pose proof (Z.mod_pos_bound x 256 ltac:(lia)).
  assert (0 ≤ x / 256 < 256) by (split; [apply Z.div_pos|apply Z.div_lt_upper_bound]; lia).
  rewrite !b2z_z2b_small by lia. rewrite (Z.div_mod x 256) at 3 by lia. lia.
Qed.

Lemma sum_words_wsum data : ∀ s, 0 ≤ s → s + wsum data < 2 ^ 32 → sum_words s data = s + wsum data.
Proof.
  induction data as [|a|a b r IH] using pair_ind; intros s Hs Hb; cbn [sum_words wsum] in *; [lia| |].
  - pose proof (b2z_range a). rewrite Z.shiftl_mul_pow2, wrap_small by lia. lia.
  - pose proof (b2z_range a). pose proof (b2z_range b). pose proof (wsum_bounds r).
    rewrite lor_shiftl_add, wrap_small, IH by lia. lia.
Qed.

Lemma carry_step s : 0 ≤ s → Z.shiftr s 16 + Z.land s 65535 = s - 65535 * (s / 65536) ∧ 0 ≤ s / 65536.
Proof.
  intros Hs. rewrite Z.shiftr_div_pow2 by lia. change (2 ^ 16) with 65536. change 65535 with (Z.ones 16) at 1.
  rewrite Z.land_ones by lia. change (2 ^ 16) with 65536. pose proof (Z.div_mod s 65536 ltac:(lia)).
  pose proof (Z.div_pos s 65536 ltac:(lia) ltac:(lia)). lia.
Qed.

(** Folding keeps the sum modulo 65535 and zero only for zero. *)
Lemma fold_carry_spec s : 0 ≤ s < 2 ^ 32 →
  ∃ k, fold_carry 3 s = s - 65535 * k ∧ 0 ≤ fold_carry 3 s ≤ 65535 ∧ (fold_carry 3 s = 0 → s = 0).
Proof.
  intros Hs. cbn [fold_carry].
  destruct (Z.ltb_spec 65535 s) as [H1|H1]; [|exists 0; lia].
  destruct (carry_step s ltac:(lia)) as [-> P1]. pose proof (Z.div_mod s 65536 ltac:(lia)).
  pose proof (Z.mod_pos_bound s 65536 ltac:(lia)). set (q := s / 65536) in *. set (t := s - 65535 * q) in *.
  assert (0 < t ≤ 131070) as Ht by (subst t; lia).
  destruct (Z.ltb_spec 65535 t) as [H2|H2]; [|exists q; lia].
  destruct (carry_step t ltac:(lia)) as [-> P2].
  assert (t / 65536 = 0 ∨ t / 65536 = 1) as [E|E].
  { assert (t / 65536 < 2) by (apply Z.div_lt_upper_bound; lia). lia. }
  - assert (t < 65536) by (apply Z.div_small_iff in E; lia). lia.
  - rewrite E. destruct (Z.ltb_spec 65535 (t - 65535 * 1)) as [H3|H3]; [|exists (q + 1); lia].
    pose proof (Z.div_mod t 65536 ltac:(lia)). pose proof (Z.mod_pos_bound t 65536 ltac:(lia)). lia.
Qed.

Lemma checksum_fold data :
  len data + 1 < 131072 → calculateChecksum data = 65535 - fold_carry 3 (wsum data).
Proof.
  intros Hl. unfold calculateChecksum. pose proof (wsum_bounds data).
  rewrite sum_words_wsum by lia. destruct (fold_carry_spec (wsum data) ltac:(lia)) as (k & _ & Hf & _).
  change (0 + wsum data) with (wsum data). rewrite (wrap_small 16 (fold_carry 3 (wsum data))) by lia.
  unfold wrap, Z.lnot. rewrite <- Z.sub_1_r. change (2 ^ 16) with 65536.
  replace (- fold_carry 3 (wsum data) - 1) with (65535 - fold_carry 3 (wsum data) + (-1) * 65536) by lia.
  rewrite Z.mod_add, Z.mod_small by lia. done.
Qed.

(** The field a checksum is written to makes the whole sum verify. *)
Lemma checksum_verifies a b x :
  Nat.Even (length a) → len a + len b + 3 < 131072 → 0 ≤ x < 65536 → 0 < x ∨ wsum a + wsum b ≠ 0 →
  (x + wsum a + wsum b) mod 65535 = 0 → calculateChecksum (a ++ put16 x ++ b) = 0.
Proof.
  intros Hev Hl Hx Hpos Hm. rewrite checksum_fold by (rewrite !len_app; change (len (put16 x)) with 2; lia).
  rewrite wsum_app, wsum_put16 by done. pose proof (wsum_bounds a). pose proof (wsum_bounds b).
  destruct (fold_carry_spec (wsum a + (x + wsum b)) ltac:(lia)) as (k & Hk & Hf & F0).
  set (f := fold_carry 3 _) in *. assert (f mod 65535 = 0) as Hfm.
  { rewrite Hk. replace (wsum a + (x + wsum b) - 65535 * k) with (x + wsum a + wsum b + (- k) * 65535) by lia.
    by rewrite Z.mod_add by lia. }
  apply Z.mod_divide in Hfm as [j Hj]; [|lia]. assert (f ≠ 0) by (intros E; apply F0 in E; lia). lia.
Qed.

Lemma checksum_insert a b :
  Nat.Even (length a) → len a + len b + 3 < 131072 →
  let c := calculateChecksum (a ++ put16 0 ++ b) in
  0 ≤ c < 65536 ∧ calculateChecksum (a ++ put16 c ++ b) = 0 ∧
  calculateChecksum (a ++ put16 (udp_checksum (a ++ put16 0 ++ b)) ++ b) = 0.
Proof.
  intros Hev Hl c. pose proof (wsum_bounds a). pose proof (wsum_bounds b).
  assert (c = 65535 - fold_carry 3 (wsum a + wsum b)) as Ec.
  { subst c. rewrite checksum_fold by (rewrite !len_app; change (len (put16 0)) with 2; lia).
    rewrite wsum_app, wsum_put16 by (done || lia). done. }
  destruct (fold_carry_spec (wsum a + wsum b) ltac:(lia)) as (k & Hk & Hf & F0).
  set (f := fold_carry 3 (wsum a + wsum b)) in *. split; [lia|].
  assert (∀ y, 65535 * y + wsum a + wsum b - f = 65535 * (y + k)) as Hy by (intros; lia).
  assert ((c + wsum a + wsum b) mod 65535 = 0) as Hc.
  { replace (c + wsum a + wsum b) with ((1 + k) * 65535) by lia. by rewrite Z.mod_mul. }
  assert (0 < c ∨ wsum a + wsum b ≠ 0) as Hp.
  { destruct (decide (wsum a + wsum b = 0)) as [E|]; [left|by right].
    assert (f = 0) by (unfold f; rewrite E; reflexivity). lia. }
  split; [by apply checksum_verifies; [| |lia| |]|].
  unfold udp_checksum. fold c. destruct (Z.eqb_spec c 0) as [E|]; [|by apply checksum_verifies; [| |lia| |]].
  apply checksum_verifies; [done|done|lia|left; lia|].
  replace (65535 + wsum a + wsum b) with ((2 + k) * 65535) by lia. by rewrite Z.mod_mul.
Qed.

(** ** The IPv6 header chain *)
Definition header_in (data : list byte) (i : v6HeaderInfo) : Prop :=
  40 ≤ L4Off i ≤ PacketEnd i ∧ PacketEnd i ≤ len data ∧
  0 ≤ v6_SrcPort i < 65536 ∧ 0 ≤ v6_DstPort i < 65536 ∧
  (v6_Proto i = 17 → IsFragment i = false → L4Off i + 8 ≤ PacketEnd i) ∧
  (v6_Proto i = 6 → IsFragment i = false → L4Off i + 20 ≤ PacketEnd i).

(** What the loop keeps of the information gathered so far. *)
Definition same_ends (i i' : v6HeaderInfo) : Prop := v6_Src i' = v6_Src i ∧ v6_Dst i' = v6_Dst i.

Lemma read_ports_ret data off i :
  0 ≤ off → off + 4 ≤ len data →
  ∃ sp dp, read_ports data off i = Ret (v6_set_ports sp dp i) ∧ 0 ≤ sp < 65536 ∧ 0 ≤ dp < 65536.
Proof.
  intros Ho Hl. unfold read_ports. destruct (be16_is_ret data off) as [sp Hs]; [lia..|].
  destruct (be16_is_ret data (off + 2)) as [dp Hd]; [lia..|]. rewrite Hs, Hd. cbn [res_bind].
  exists sp, dp. eauto using be16_range.
Qed.

Lemma v6_upper_ret data pend i nh off :
  40 ≤ off ≤ pend → pend ≤ len data → v6_SrcPort i = 0 → v6_DstPort i = 0 →
  ∃ r, v6_upper data pend i nh off = Ret r ∧ ∀ i', r = Some i' → header_in data i' ∧ same_ends i i'.
Proof.
  intros Ho Hl Hs Hd. unfold v6_upper. set (j := v6_set_upper nh off pend i).
  assert (∀ i', Some j = Some i' → (IsFragment i = false → nh ≠ 6 ∧ nh ≠ 17) → header_in data i' ∧ same_ends i i') as Hj.
  { intros i' [= <-] Hn. unfold header_in, same_ends, j. cbn. rewrite Hs, Hd.
    split; [|done]. split_and!; try lia; intros -> Hf; by destruct (Hn Hf). }
  assert (∀ sp dp, 0 ≤ sp < 65536 → 0 ≤ dp < 65536 →
            (IsFragment i = false → (nh = 6 → off + 20 ≤ pend) ∧ (nh = 17 → off + 8 ≤ pend)) →
            header_in data (v6_set_ports sp dp j) ∧ same_ends i (v6_set_ports sp dp j)) as Hp.
  { intros sp dp Hsp Hdp Hn. unfold header_in, same_ends, j. cbn. split; [|done]. split_and!; try lia; intros; by apply Hn. }
  change (IsFragment j) with (IsFragment i). change (FragmentOffset j) with (FragmentOffset i).
  change (MoreFragments j) with (MoreFragments i).
  destruct (IsFragment i) eqn:Hf; cbn [andb].
  - destruct (negb (FragmentOffset i =? 0)); [eexists; split; [done|]; intros; by apply Hj|].
    destruct (MoreFragments i).
    + destruct (Z.leb_spec (off + 4) pend); cbn [andb]; [|eexists; split; [done|]; intros; by apply Hj].
      destruct (_ || _); [|eexists; split; [done|]; intros; by apply Hj].
      destruct (read_ports_ret data off j) as (sp & dp & -> & ? & ?); [lia..|]. cbn [res_bind].
      eexists. split; [done|]. intros i' [= <-]. by apply Hp.
    + destruct (Z.eqb_spec nh 6) as [->|N6]; cbn [andb orb].
      * destruct (Z.ltb_spec pend (off + 20)); [by eexists|]. cbn [Z.eqb Pos.eqb andb].
        destruct (read_ports_ret data off j) as (sp & dp & -> & ? & ?); [lia..|]. cbn [res_bind].
        eexists. split; [done|]. intros i' [= <-]. by apply Hp.
      * destruct (Z.eqb_spec nh 17) as [->|N17]; cbn [andb orb]; [|eexists; split; [done|]; intros; by apply Hj].
        destruct (Z.ltb_spec pend (off + 8)); [by eexists|].
        destruct (read_ports_ret data off j) as (sp & dp & -> & ? & ?); [lia..|]. cbn [res_bind].
        eexists. split; [done|]. intros i' [= <-]. by apply Hp.
  - destruct (Z.eqb_spec nh 6) as [->|N6]; cbn [andb orb].
    + destruct (Z.ltb_spec pend (off + 20)); [by eexists|]. cbn [Z.eqb Pos.eqb andb].
      destruct (read_ports_ret data off j) as (sp & dp & -> & ? & ?); [lia..|]. cbn [res_bind].
      eexists. split; [done|]. intros i' [= <-]. apply Hp; [done..|]. intros _. lia.
    + destruct (Z.eqb_spec nh 17) as [->|N17]; cbn [andb orb]; [|eexists; split; [done|]; intros; by apply Hj].
      destruct (Z.ltb_spec pend (off + 8)); [by eexists|].
      destruct (read_ports_ret data off j) as (sp & dp & -> & ? & ?); [lia..|]. cbn [res_bind].
      eexists. split; [done|]. intros i' [= <-]. apply Hp; [done..|]. intros _. lia.
Qed.

(** One iteration on each kind of header. *)
Lemma v6_headers_S n data pend i nh off : v6_headers (S n) data pend i nh off =
  v6_step (λ i nh off, if pend <? off then Ret None else v6_headers n data pend i nh off) data pend i nh off.
Proof. done. Qed.

Lemma v6_step_opts next data pend i ty off l nh :
  ty ∈ [0; 43; 60; 135] → off + 2 ≤ pend → at_z data (off + 1) = Ret l → at_z data off = Ret nh →
  v6_step next data pend i ty off = next i nh (off + (l + 1) * 8).
Proof.
  intros Ht Hp El En. unfold v6_step. rewrite bool_decide_eq_true_2 by done.
  destruct (Z.ltb_spec pend (off + 2)); [lia|]. by rewrite El, En.
Qed.
Lemma v6_step_auth next data pend i off l nh :
  off + 2 ≤ pend → at_z data (off + 1) = Ret l → at_z data off = Ret nh →
  v6_step next data pend i 51 off = next i nh (off + (l + 2) * 4).
Proof.
  intros Hp El En. unfold v6_step. change (bool_decide (51 ∈ [0; 43; 60; 135])) with false. cbn [Z.eqb Pos.eqb].
  destruct (Z.ltb_spec pend (off + 2)); [lia|]. by rewrite El, En.
Qed.
Lemma v6_step_frag next data pend i off field id nh :
  off + 8 ≤ pend → be16 data (off + 2) = Ret field → be32 data (off + 4) = Ret id → at_z data off = Ret nh →
  v6_step next data pend i 44 off = next (v6_set_fragment field id i) nh (off + 8).
Proof.
  intros Hp Ef Ei En. unfold v6_step. change (bool_decide (44 ∈ [0; 43; 60; 135])) with false. cbn [Z.eqb Pos.eqb].
  destruct (Z.ltb_spec pend (off + 8)); [lia|]. by rewrite Ef, Ei, En.
Qed.
Lemma v6_step_upper next data pend i nh off : nh = 6 ∨ nh = 17 →
  v6_step next data pend i nh off = v6_upper data pend i nh off.
Proof. by intros [->| ->]. Qed.

Lemma v6_headers_ret n data pend : ∀ i nh off,
  40 ≤ off ≤ pend → pend ≤ len data → v6_SrcPort i = 0 → v6_DstPort i = 0 →
  ∃ r, v6_headers n data pend i nh off = Ret r ∧ ∀ i', r = Some i' → header_in data i' ∧ same_ends i i'.
Proof.
  induction n as [|n IH]; intros i nh off Ho Hl Hs Hd; [by eexists|]. rewrite v6_headers_S.
  assert (∀ j k off', off ≤ off' → same_ends i j → v6_SrcPort j = 0 → v6_DstPort j = 0 →
    ∃ r, (if pend <? off' then Ret None else v6_headers n data pend j k off') = Ret r
      ∧ ∀ i', r = Some i' → header_in data i' ∧ same_ends i i') as Hnext.
  { intros j k off' Ho' (E1 & E2) Hs' Hd'. destruct (Z.ltb_spec pend off'); [by eexists|].
    destruct (IH j k off') as (r & -> & Hr); [lia..|done|done|]. exists r. split; [done|].
    intros i' Hi. destruct (Hr i' Hi) as (? & E3 & E4). split; [done|]. split; congruence. }
  assert (∀ o, off ≤ o < pend → ∃ z, at_z data o = Ret z ∧ 0 ≤ z < 256) as Hat.
  { intros o Hoo. destruct (at_z_is_ret data o) as [z Hz]; [lia|]. eauto using at_z_range. }
  unfold v6_step. case_bool_decide; [|destruct (nh =? 51); [|destruct (nh =? 44); [|destruct (nh =? 50)]]].
  - destruct (Z.ltb_spec pend (off + 2)); [by eexists|].
    destruct (Hat (off + 1)) as (l & -> & Hl'); [lia|]. destruct (Hat off) as (k & -> & Hk); [lia|]. cbn [res_bind].
    apply Hnext; [lia|done|done|done].
  - destruct (Z.ltb_spec pend (off + 2)); [by eexists|].
    destruct (Hat (off + 1)) as (l & -> & Hl'); [lia|]. destruct (Hat off) as (k & -> & Hk); [lia|]. cbn [res_bind].
    apply Hnext; [lia|done|done|done].
  - destruct (Z.ltb_spec pend (off + 8)); [by eexists|].
    destruct (be16_is_ret data (off + 2)) as [f ->]; [lia..|]. destruct (be32_is_ret data (off + 4)) as [id ->]; [lia..|].
    destruct (Hat off) as (k & -> & Hk); [lia|]. cbn [res_bind]. apply (IH (v6_set_fragment f id i) k (off + 8)); done || lia.
  - eexists. split; [done|]. intros i' [= <-]. split; [|done]. unfold header_in. cbn. rewrite Hs, Hd.
    split_and!; try lia; discriminate.
  - by apply v6_upper_ret.
Qed.

(** No packet makes the parser panic, and what it reports lies inside the packet. *)
Lemma parseV6Header_ret data :
  ∃ r, parseV6Header data = Ret r ∧
    ∀ i, r = Some i → header_in data i ∧ slice data 8 24 = Ret (v6_Src i) ∧ slice data 24 40 = Ret (v6_Dst i).
Proof.
  unfold parseV6Header. destruct (Z.ltb_spec (len data) 40); [by eexists|].
  destruct (at_z_is_ret data 0) as [b0 ->]; [lia|]. cbn [res_bind]. destruct (negb _); [by eexists|].
  destruct (be16_is_ret data 4) as [pl Hpl]; [lia..|]. rewrite Hpl. cbn [res_bind]. apply be16_range in Hpl.
  destruct (Z.ltb_spec (len data) (40 + pl)); [by eexists|].
  destruct (at_z_is_ret data 6) as [nh ->]; [lia|]. cbn [res_bind].
  destruct (slice_is_ret data 8 24) as [src ->]; [lia..|]. destruct (slice_is_ret data 24 40) as [dst ->]; [lia..|].
  cbn [res_bind]. destruct (v6_headers_ret maxExtHdrs data (40 + pl) (v6_start src dst) nh 40) as (r & -> & Hr); [lia..|done|done|].
  exists r. split; [done|]. intros i Hi. destruct (Hr i Hi) as (? & -> & ->). done.
Qed.

(** *** Well-formed packets *)
Inductive ext_hdr := ExtOpts (ty : Z) (body : list byte) | ExtAuth (body : list byte) | ExtAtomicFrag (id : Z).
Definition ext_type (e : ext_hdr) : Z := match e with ExtOpts ty _ => ty | ExtAuth _ => 51 | ExtAtomicFrag _ => 44 end.
(** The length fields count units of 8 and of 4 bytes. *)
Definition ext_ok (e : ext_hdr) : Prop :=
  match e with
  | ExtOpts ty b => ty ∈ [0; 43; 60; 135] ∧ ∃ k, 0 ≤ k < 256 ∧ len b + 2 = (k + 1) * 8
  | ExtAuth b => ∃ k, 0 ≤ k < 256 ∧ len b + 2 = (k + 2) * 4
  | ExtAtomicFrag id => 0 ≤ id < 2 ^ 32
  end.
Definition enc_ext (e : ext_hdr) (nh : Z) : list byte :=
  match e with
  | ExtOpts _ b => z2b nh :: z2b ((len b + 2) / 8 - 1) :: b
  | ExtAuth b => z2b nh :: z2b ((len b + 2) / 4 - 2) :: b
  | ExtAtomicFrag id => z2b nh :: z2b 0 :: put16 0 ++ put32 id
  end.
Fixpoint chain (es : list ext_hdr) (proto : Z) (l4 : list byte) : Z * list byte :=
  match es with
  | [] => (proto, l4)
  | e :: es => let '(nh, bs) := chain es proto l4 in (ext_type e, enc_ext e nh ++ bs)
  end.
Definition v6_packet (src dst : IP) (es : list ext_hdr) (proto : Z) (l4 pad : list byte) : list byte :=
  let '(nh, bs) := chain es proto l4 in
  [z2b 96; z2b 0; z2b 0; z2b 0] ++ put16 (len bs) ++ [z2b nh; z2b 64] ++ src ++ dst ++ bs ++ pad.

Lemma at_cur_be32 (b : list byte) off x rest :
  0 ≤ x < 2 ^ 32 → at_cur b off (put32 x ++ rest) → is_ret (be32 b off).
Proof.
  intros Hx Hc. pose proof (at_cur_len _ _ _ Hc) as Hl. rewrite len_app in Hl. change (len (put32 x)) with 4 in Hl.
  pose proof (at_cur_nonneg _ _ _ Hc). pose proof (len_nonneg rest). apply be32_is_ret; lia.
Qed.

Definition upper_hdr (proto : Z) (sp dp : Z) (rest : list byte) : Prop :=
  (proto = 6 ∧ 16 ≤ len rest ∨ proto = 17 ∧ 4 ≤ len rest) ∧ 0 ≤ sp < 65536 ∧ 0 ≤ dp < 65536.

Lemma v6_upper_ports data i proto sp dp rest pad off :
  upper_hdr proto sp dp rest → FragmentOffset i = 0 → MoreFragments i = false →
  at_cur data off ((put16 sp ++ put16 dp ++ rest) ++ pad) →
  let pend := off + len (put16 sp ++ put16 dp ++ rest) in
  v6_upper data pend i proto off = Ret (Some (v6_set_ports sp dp (v6_set_upper proto off pend i))).
Proof.
  intros (Hu & Hs & Hd) Hf Hm Hc pend. unfold v6_upper. set (j := v6_set_upper proto off pend i).
  change (IsFragment j) with (IsFragment i). change (FragmentOffset j) with (FragmentOffset i).
  change (MoreFragments j) with (MoreFragments i). rewrite Hf, Hm. cbn [negb Z.eqb]. rewrite !andb_false_r.
  assert (pend = off + 4 + len rest) as Ep.
  { subst pend. rewrite !len_app. change (len (put16 sp)) with 2. change (len (put16 dp)) with 2. lia. }
  assert (read_ports data off j = Ret (v6_set_ports sp dp j)) as Hr.
  { unfold read_ports. rewrite <- !app_assoc in Hc. rewrite (at_cur_be16 _ _ _ _ Hs Hc). cbn [res_bind].
    apply at_cur_app in Hc. change (len (put16 sp)) with 2 in Hc. by rewrite (at_cur_be16 _ _ _ _ Hd Hc). }
  rewrite Hr. destruct Hu as [[-> Hl]|[-> Hl]]; cbn [Z.eqb Pos.eqb andb orb].
  - destruct (Z.ltb_spec pend (off + 20)); [lia|]. done.
  - destruct (Z.ltb_spec pend (off + 8)); [lia|]. done.
Qed.

Lemma enc_ext_head e nh : ∃ l, enc_ext e nh = z2b nh :: l.
Proof. destruct e; by eexists. Qed.

(** One extension header is skipped. *)
Lemma v6_headers_ext n data pend i e nh bs off :
  ext_ok e → 0 ≤ nh < 256 → at_cur data off (enc_ext e nh ++ bs) → off + len (enc_ext e nh) ≤ pend →
  ∃ j, v6_headers (S n) data pend i (ext_type e) off = v6_headers n data pend j nh (off + len (enc_ext e nh)) ∧
    same_ends i j ∧ (j = i ∨ FragmentOffset j = 0 ∧ MoreFragments j = false).
Proof.
  intros He Hn Hc Hp. pose proof (at_cur_nonneg _ _ _ Hc) as Ho.
  assert (at_z data off = Ret nh) as Hat.
  { destruct (enc_ext_head e nh) as [l E]. rewrite E in Hc. cbn [app] in Hc.
    rewrite (at_cur_at _ _ _ _ Hc), b2z_z2b_small by lia. done. }
  rewrite v6_headers_S. destruct e as [ty b|b|id]; cbn [enc_ext ext_type ext_ok] in *.
  - destruct He as (Ht & k & Hk & Hl). rewrite !len_cons in *. pose proof (len_nonneg b).
    cbn [app] in Hc. apply at_cur_cons in Hc. pose proof (at_cur_at _ _ _ _ Hc) as El.
    rewrite Hl, Z.div_mul, b2z_z2b_small in El by lia.
    rewrite (v6_step_opts _ data pend i ty off _ _ Ht ltac:(lia) El Hat).
    replace (off + (1 + (1 + len b))) with (off + (k + 1 - 1 + 1) * 8) by lia.
    destruct (Z.ltb_spec pend (off + (k + 1 - 1 + 1) * 8)); [lia|]. exists i. split_and!; [done|done|by left].
  - destruct He as (k & Hk & Hl). rewrite !len_cons in *. pose proof (len_nonneg b).
    cbn [app] in Hc. apply at_cur_cons in Hc. pose proof (at_cur_at _ _ _ _ Hc) as El.
    rewrite Hl, Z.div_mul, b2z_z2b_small in El by lia.
    rewrite (v6_step_auth _ data pend i off _ _ ltac:(lia) El Hat).
    replace (off + (1 + (1 + len b))) with (off + (k + 2 - 2 + 2) * 4) by lia.
    destruct (Z.ltb_spec pend (off + (k + 2 - 2 + 2) * 4)); [lia|]. exists i. split_and!; [done|done|by left].
  - change (len (z2b nh :: z2b 0 :: put16 0 ++ put32 id)) with 8 in *.
    apply (at_cur_app _ _ [z2b nh; z2b 0] ((put16 0 ++ put32 id) ++ bs)) in Hc. change (len [z2b nh; z2b 0]) with 2 in Hc.
    rewrite <- app_assoc in Hc. pose proof (at_cur_be16 data (off + 2) 0 _ ltac:(lia) Hc) as Ef.
    apply at_cur_app in Hc. change (len (put16 0)) with 2 in Hc. replace (off + 2 + 2) with (off + 4) in Hc by lia.
    destruct (at_cur_be32 _ _ _ _ He Hc) as [x Ex].
    rewrite (v6_step_frag _ _ _ _ _ _ _ _ Hp Ef Ex Hat). destruct (Z.ltb_spec pend (off + 8)); [lia|].
    exists (v6_set_fragment 0 x i). split_and!; [done|done|by right].
Qed.

Lemma chain_type es proto l4 nh bs :
  Forall ext_ok es → 0 ≤ proto < 256 → chain es proto l4 = (nh, bs) → 0 ≤ nh < 256.
Proof.
  intros Hok Hp E. destruct es as [|e es]; cbn in E; [by simplify_eq|].
  destruct (chain es proto l4). simplify_eq. apply Forall_cons in Hok as [He _].
  destruct e; cbn in *; [|lia..]. destruct He as (Ht & _). set_solver by lia.
Qed.

Lemma v6_headers_chain proto sp dp rest pad data pend : upper_hdr proto sp dp rest →
  ∀ es n i off nh bs, (length es < n)%nat → Forall ext_ok es →
  FragmentOffset i = 0 → MoreFragments i = false →
  chain es proto (put16 sp ++ put16 dp ++ rest) = (nh, bs) → at_cur data off (bs ++ pad) → pend = off + len bs →
  ∃ j, v6_headers n data pend i nh off = Ret (Some j) ∧ same_ends i j ∧ v6_Proto j = proto ∧
    v6_SrcPort j = sp ∧ v6_DstPort j = dp ∧ PacketEnd j = pend ∧
    slice data (L4Off j) (PacketEnd j) = Ret (put16 sp ++ put16 dp ++ rest).
Proof.
  intros Hu. assert (proto = 6 ∨ proto = 17) as Hp by (destruct Hu as [[[? _]|[? _]] _]; auto).
  induction es as [|e es IH]; intros n i off nh bs Hn Hok Hf Hm Ec Hc Hpe; cbn [chain] in Ec.
  - simplify_eq. destruct n as [|n]; [cbn in Hn; lia|]. rewrite v6_headers_S, (v6_step_upper _ _ _ _ _ _ Hp).
    rewrite (v6_upper_ports data i nh sp dp rest pad off Hu Hf Hm Hc). eexists. split; [done|].
    split_and!; try done. by apply (at_cur_slice data off _ pad).
  - destruct (chain es proto _) as [nh' bs'] eqn:Ec'. simplify_eq.
    apply Forall_cons in Hok as [He Hok]. destruct n as [|n]; [cbn in Hn; lia|].
    rewrite len_app. pose proof (len_nonneg bs'). rewrite <- app_assoc in Hc.
    destruct (v6_headers_ext n data (off + (len (enc_ext e nh') + len bs')) i e nh' (bs' ++ pad) off) as (j & -> & (Es & Ed) & Hj);
      [done|eapply chain_type; [done| |done]; lia|done|lia|].
    apply at_cur_app in Hc.
    destruct (IH n j (off + len (enc_ext e nh')) nh' bs') as (r & Hr & (E1 & E2) & E3);
      [cbn in Hn; lia|done|destruct Hj as [->|[? ?]]; done|destruct Hj as [->|[? ?]]; done|done|done|rewrite ?len_app; lia|].
    exists r. split; [rewrite ?len_app in Hr; exact Hr|]. split; [split; congruence|]. rewrite ?len_app in E3. exact E3.
Qed.

Lemma parseV6Header_packet src dst es proto sp dp rest pad :
  len src = 16 → len dst = 16 → (length es ≤ 11)%nat → Forall ext_ok es → upper_hdr proto sp dp rest →
  len (chain es proto (put16 sp ++ put16 dp ++ rest)).2 < 65536 →
  let data := v6_packet src dst es proto (put16 sp ++ put16 dp ++ rest) pad in
  ∃ i, parseV6Header data = Ret (Some i) ∧ v6_Src i = src ∧ v6_Dst i = dst ∧ v6_Proto i = proto ∧
    v6_SrcPort i = sp ∧ v6_DstPort i = dp ∧
    slice data (L4Off i) (PacketEnd i) = Ret (put16 sp ++ put16 dp ++ rest).
Proof.
  intros Hs Hd Hn Hok Hu Hl data. subst data. unfold v6_packet.
  destruct (chain es proto _) as [nh bs] eqn:Ec. cbn [snd] in Hl.
  assert (0 ≤ nh < 256) as Hnh by (eapply chain_type; [done| |done]; destruct Hu as [[[? _]|[? _]] _]; lia).
  set (data := _ ++ put16 (len bs) ++ _). pose proof (at_cur_start data) as H0'. pose proof (len_nonneg bs). pose proof (len_nonneg pad).
  assert (at_cur data 4 (put16 (len bs) ++ [z2b nh; z2b 64] ++ src ++ dst ++ bs ++ pad)) as H4 by (apply (at_cur_app _ _ _ _ H0')).
  pose proof (at_cur_app _ _ _ _ H4) as H6. change (4 + len (put16 (len bs))) with 6 in H6.
  pose proof (at_cur_app _ _ _ _ H6) as H8. change (6 + len [z2b nh; z2b 64]) with 8 in H8.
  pose proof (at_cur_app _ _ _ _ H8) as H24. rewrite Hs in H24. change (8 + 16) with 24 in H24.
  pose proof (at_cur_app _ _ _ _ H24) as H40. rewrite Hd in H40. change (24 + 16) with 40 in H40.
  pose proof (at_cur_len _ _ _ H40) as Hlen. rewrite len_app in Hlen.
  unfold parseV6Header. destruct (Z.ltb_spec (len data) 40); [lia|].
  rewrite (at_cur_at _ _ _ _ H0'). cbn [res_bind]. rewrite b2z_z2b_small by lia. cbn [Z.shiftr Z.shiftl Z.opp Pos.iter Z.div2 Pos.div2 Z.eqb Pos.eqb negb].
  rewrite (at_cur_be16 _ _ _ _ (conj (len_nonneg bs) Hl) H4). cbn [res_bind]. destruct (Z.ltb_spec (len data) (40 + len bs)); [lia|].
  cbn [app] in H6. rewrite (at_cur_at _ _ _ _ H6). cbn [res_bind]. rewrite b2z_z2b_small by lia.
  pose proof (at_cur_slice _ _ _ _ H8) as S8. rewrite Hs in S8. change (8 + 16) with 24 in S8. rewrite S8. cbn [res_bind].
  pose proof (at_cur_slice _ _ _ _ H24) as S24. rewrite Hd in S24. change (24 + 16) with 40 in S24. rewrite S24. cbn [res_bind].
  destruct (v6_headers_chain proto sp dp rest pad data (40 + len bs) Hu es maxExtHdrs (v6_start src dst) 40 nh bs)
    as (j & -> & (E1 & E2) & E3 & E4 & E5 & E6 & E7); [unfold maxExtHdrs; lia|done..|].
  exists j. split_and!; done.
Qed.

(** ** Replies

    A packet under construction as a list of chunks: a write that covers one
    chunk replaces it, a slice along chunk borders is a sublist. *)
Lemma concat_split {A} (cs : list (list A)) k : concat cs = concat (take k cs) ++ concat (drop k cs).
Proof. by rewrite <- concat_app, take_drop. Qed.

Lemma copy_at_chunk cs k lo src old :
  cs !! k = Some old → length old = length src → lo = len (concat (take k cs)) →
  copy_at (concat cs) lo src = concat (<[k := src]> cs).
Proof.
  intros Hk Hl ->. rewrite (insert_take_drop cs k src) by (by eapply lookup_lt_Some).
  rewrite (concat_split cs k), (drop_S cs old k) by done. rewrite concat_app. cbn [concat].
  by apply copy_at_app.
Qed.

Lemma slice_chunks {A} (cs : list (list A)) j k lo hi :
  lo = len (concat (take j cs)) → hi = lo + len (concat (take k (drop j cs))) →
  slice (concat cs) lo hi = Ret (concat (take k (drop j cs))).
Proof.
  intros -> ->. rewrite (concat_split cs j) at 1. rewrite (concat_split (drop j cs) k) at 1.
  apply (at_cur_slice _ _ _ (concat (drop k (drop j cs)))). by exists (concat (take j cs)).
Qed.

Definition zs (n : nat) : list byte := replicate n (z2b 0).
Lemma len_zs n : len (zs n) = Z.of_nat n.
Proof. unfold len, zs. by rewrite length_replicate. Qed.
Lemma len_put32 x : len (put32 x) = 4.
Proof. done. Qed.
#[local] Hint Rewrite len_zs len_put16 len_put32 : remlink.
Lemma len_length {A} (l m : list A) : len l = len m → length l = length m.
Proof. unfold len. lia. Qed.

(** Side conditions on offsets: add up the lengths of chunks. *)
Ltac offsets := cbn [concat take drop]; autorewrite with remlink; unfold len in *; lia.
Ltac write_chunk k :=
  erewrite (copy_at_chunk _ k); [cbn [insert list_insert]|reflexivity|apply len_length; offsets|offsets].

Lemma buildDNSResponsePacket6_form info resp :
  len (v6_Src info) = 16 → len (v6_Dst info) = 16 →
  let udpLen := 8 + len resp in
  let pre := v6_Dst info ++ v6_Src info ++ put32 (u32 udpLen) ++ [z2b 0; z2b 0; z2b 0; z2b 17] ++
             put16 (v6_DstPort info) ++ put16 (v6_SrcPort info) ++ put16 (u16 udpLen) in
  buildDNSResponsePacket6 info resp =
    Ret (concat [[z2b 96]; zs 3; put16 (u16 udpLen); [z2b 17]; [z2b 64]; v6_Dst info; v6_Src info;
                 put16 (v6_DstPort info); put16 (v6_SrcPort info); put16 (u16 udpLen);
                 put16 (udp_checksum (pre ++ put16 0 ++ resp)); resp]).
Proof.
  intros Hs Hd udpLen pre. unfold buildDNSResponsePacket6. fold udpLen. pose proof (len_nonneg resp).
  assert (∀ ip, len ip = 16 → to16_bytes ip = ip) as H16.
  { intros ip Hip. unfold to16_bytes, ip_to16. by replace (length ip) with 16%nat by (unfold len in Hip; lia). }
  rewrite (H16 _ Hs), (H16 _ Hd).
  assert (replicate (Z.to_nat (40 + udpLen)) (z2b 0) =
    concat [zs 1; zs 3; zs 2; zs 1; zs 1; zs 16; zs 16; zs 2; zs 2; zs 2; zs 2; zs (length resp)]) as ->.
  { subst udpLen. unfold len. replace (Z.to_nat (40 + (8 + Z.of_nat (length resp)))) with (48 + length resp)%nat by lia.
    cbn [concat]. rewrite app_nil_r. unfold zs. by rewrite replicate_add. }
  cbn zeta. write_chunk 0%nat. write_chunk 2%nat. write_chunk 3%nat. write_chunk 4%nat. write_chunk 5%nat.
  write_chunk 6%nat. write_chunk 7%nat. write_chunk 8%nat. write_chunk 9%nat. write_chunk 11%nat.
  erewrite (slice_chunks _ 5 2 8 40) by offsets. cbn [res_bind].
  erewrite (slice_chunks _ 7 5 40) by offsets. cbn [res_bind].
  write_chunk 10%nat. cbn [take drop concat]. change (zs 2) with (put16 0). unfold pre.
  rewrite !app_nil_r, <- !app_assoc. done.
Qed.

(** *** The reply to an IPv6 query *)
Definition pseudo6 (src dst : IP) (seg : list byte) : list byte :=
  src ++ dst ++ put32 (len seg) ++ [z2b 0; z2b 0; z2b 0; z2b 17] ++ seg.

(** The reply built for an IPv6 DNS query is the packet its client waits for:
    parsed again it is a UDP packet from the queried server and port to the
    client's address and port, its data is the answer, and its mandatory UDP
    checksum, taken over the pseudo-header, verifies. *)
Lemma dns_reply6_correct info resp :
  len (v6_Src info) = 16 → len (v6_Dst info) = 16 →
  0 ≤ v6_SrcPort info < 65536 → 0 ≤ v6_DstPort info < 65536 → len resp ≤ 65000 →
  ∃ p i seg, buildDNSResponsePacket6 info resp = Ret p ∧ parseV6Header p = Ret (Some i) ∧
    v6_Src i = v6_Dst info ∧ v6_Dst i = v6_Src info ∧ v6_Proto i = 17 ∧
    v6_SrcPort i = v6_DstPort info ∧ v6_DstPort i = v6_SrcPort info ∧
    slice p (L4Off i) (PacketEnd i) = Ret seg ∧ drop 8 seg = resp ∧
    calculateChecksum (pseudo6 (v6_Src i) (v6_Dst i) seg) = 0.
Proof.
  intros Hs Hd Hsp Hdp Hl. pose proof (buildDNSResponsePacket6_form info resp Hs Hd) as Hb. cbn zeta in Hb.
  set (pre := v6_Dst info ++ _) in Hb. set (udpLen := 8 + len resp) in *. pose proof (len_nonneg resp).
  assert (u16 udpLen = udpLen) as E16 by (apply wrap_small; lia).
  assert (u32 udpLen = udpLen) as E32 by (apply wrap_small; lia).
  set (ck := udp_checksum (pre ++ put16 0 ++ resp)) in *.
  set (rest := put16 (u16 udpLen) ++ put16 ck ++ resp).
  assert (len rest = 4 + len resp) as Hrest by (subst rest; offsets).
  destruct (parseV6Header_packet (v6_Dst info) (v6_Src info) [] 17 (v6_DstPort info) (v6_SrcPort info) rest [])
    as (i & Hi & E1 & E2 & E3 & E4 & E5 & E6); [done|done|cbn; lia|constructor|split; [right; lia|done]|cbn [chain snd]; offsets|].
  set (seg := put16 (v6_DstPort info) ++ put16 (v6_SrcPort info) ++ rest) in *.
  assert (v6_packet (v6_Dst info) (v6_Src info) [] 17 seg [] =
    concat [[z2b 96]; zs 3; put16 (u16 udpLen); [z2b 17]; [z2b 64]; v6_Dst info; v6_Src info;
            put16 (v6_DstPort info); put16 (v6_SrcPort info); put16 (u16 udpLen); put16 ck; resp]) as Ep.
  { unfold v6_packet. cbn [chain]. replace (len seg) with (u16 udpLen) by (rewrite E16; subst seg udpLen; offsets).
    subst seg rest. cbn [concat]. rewrite <- !app_assoc. done. }
  exists (v6_packet (v6_Dst info) (v6_Src info) [] 17 seg []), i, seg. rewrite Ep at 1. split_and!; try done.
  rewrite E1, E2. assert (pseudo6 (v6_Dst info) (v6_Src info) seg = pre ++ put16 ck ++ resp) as ->.
  { unfold pseudo6, pre. replace (len seg) with (u32 udpLen) by (rewrite E32; subst seg udpLen; offsets).
    subst seg rest. rewrite <- !app_assoc. done. }
  assert (len pre = 46) as Hpre by (subst pre; offsets).
  destruct (checksum_insert pre resp) as (_ & _ & Hc); [exists 23%nat; unfold len in Hpre; lia|lia|exact Hc].
Qed.

(** *** The reply to an IPv4 query *)
Definition pseudo4 (src dst : list byte) (seg : list byte) : list byte :=
  src ++ dst ++ [z2b 0; z2b 17] ++ put16 (len seg) ++ seg.

(** The parts of a UDP query: the fixed header with its length and checksum
    fields, the options, the UDP header. *)
Record query4 := {
  q_h0 : list byte; q_len : list byte; q_mid : list byte; q_ck : list byte; q_src : list byte; q_dst : list byte;
  q_opts : list byte; q_sp : list byte; q_dp : list byte; q_ul : list byte; q_uc : list byte; q_data : list byte
}.
Definition query4_ok (q : query4) : Prop :=
  len (q_h0 q) = 2 ∧ len (q_len q) = 2 ∧ len (q_mid q) = 6 ∧ len (q_ck q) = 2 ∧ len (q_src q) = 4 ∧ len (q_dst q) = 4 ∧
  len (q_sp q) = 2 ∧ len (q_dp q) = 2 ∧ len (q_ul q) = 2 ∧ len (q_uc q) = 2 ∧ len (q_opts q) ≤ 40 ∧
  ∃ b0 b1, q_h0 q = [b0; b1] ∧ Z.land (b2z b0) 15 * 4 = 20 + len (q_opts q).
Definition query4_hdr (q : query4) : list (list byte) := [q_h0 q; q_len q; q_mid q; q_ck q; q_src q; q_dst q; q_opts q].
Definition query4_bytes (q : query4) : list byte :=
  concat (query4_hdr q ++ [q_sp q; q_dp q; q_ul q; q_uc q; q_data q]).

(** The header and the UDP segment of the reply, with their checksums. *)
Definition reply4_hdr (q : query4) (total ck : list byte) : list byte :=
  concat [q_h0 q; total; q_mid q; ck; q_dst q; q_src q; q_opts q].
Definition reply4_seg (q : query4) (ul ck resp : list byte) : list byte :=
  concat [q_dp q; q_sp q; ul; ck; resp].

Lemma buildDNSResponsePacket_form q resp :
  query4_ok q → len resp ≤ 65000 →
  let ihl := 20 + len (q_opts q) in let udpLen := 8 + len resp in
  let total := put16 (u16 (ihl + 8 + len resp)) in let ul := put16 (u16 udpLen) in
  let ck := put16 (calculateChecksum (reply4_hdr q total (put16 0))) in
  let uck := put16 (udp_checksum (q_dst q ++ q_src q ++ [z2b 0; z2b 17] ++ ul ++ reply4_seg q ul (put16 0) resp)) in
  buildDNSResponsePacket (query4_bytes q) resp = Ret (reply4_hdr q total ck ++ reply4_seg q ul uck resp).
Proof.
  intros (L1 & L2 & L3 & L4 & L5 & L6 & L7 & L8 & L9 & L10 & Lo & b0 & b1 & Eh & Hb) Hr ihl udpLen total ul ck uck.
  unfold buildDNSResponsePacket. pose proof (len_nonneg resp). pose proof (len_nonneg (q_opts q)).
  assert (at_cur (query4_bytes q) 0 (b0 :: b1 :: concat (tail (query4_hdr q ++ [q_sp q; q_dp q; q_ul q; q_uc q; q_data q])))) as Hc.
  { unfold query4_bytes, query4_hdr. cbn [app concat tail]. rewrite Eh. apply at_cur_start. }
  rewrite (at_cur_at _ _ _ _ Hc). cbn [res_bind]. rewrite Hb. fold ihl. fold udpLen.
  unfold query4_bytes, query4_hdr. cbn [app].
  erewrite (slice_chunks _ 0 7 0) by (subst ihl; offsets). cbn [res_bind].
  erewrite (slice_chunks _ 5 1 16) by offsets. cbn [res_bind].
  erewrite (slice_chunks _ 4 1 12) by offsets. cbn [res_bind].
  assert (replicate (Z.to_nat (ihl + 8 + len resp)) (z2b 0) =
    concat [zs (Z.to_nat ihl); zs 8; zs (length resp)]) as ->.
  { subst ihl. unfold len. replace (Z.to_nat (20 + _ + 8 + _)) with (Z.to_nat (20 + Z.of_nat (length (q_opts q))) + (8 + length resp))%nat by lia.
    cbn [concat]. rewrite app_nil_r. unfold zs. by rewrite !replicate_add. }
  cbn zeta. write_chunk 0%nat.
  match goal with |- context [concat [?X; zs 8; zs (length resp)]] =>
    replace (concat [X; zs 8; zs (length resp)])
      with (concat [q_h0 q; q_len q; q_mid q; q_ck q; q_src q; q_dst q; q_opts q; zs 8; zs (length resp)])
      by (cbn [concat take drop]; rewrite !app_nil_r, <- !app_assoc; done) end.
  write_chunk 4%nat. write_chunk 5%nat. write_chunk 1%nat. write_chunk 3%nat.
  erewrite (slice_chunks _ 0 7 0) by (subst ihl; offsets). cbn [res_bind].
  write_chunk 3%nat.
  erewrite (slice_chunks _ 7 4 ihl) by (subst ihl; offsets). cbn [res_bind].
  write_chunk 7%nat.
  match goal with |- context [concat [?a0; ?a1; ?a2; ?a3; ?a4; ?a5; ?a6; ?X; zs (length resp)]] =>
    replace (concat [a0; a1; a2; a3; a4; a5; a6; X; zs (length resp)])
      with (concat [a0; a1; a2; a3; a4; a5; a6; q_sp q; q_dp q; q_ul q; q_uc q; zs (length resp)])
      by (cbn [concat take drop]; rewrite !app_nil_r, <- !app_assoc; done) end.
  erewrite (slice_chunks _ 8 1 (ihl + 2)) by (subst ihl; offsets). cbn [res_bind].
  write_chunk 7%nat.
  erewrite (slice_chunks _ 7 1 ihl) by (subst ihl; offsets). cbn [res_bind].
  write_chunk 8%nat. write_chunk 9%nat. write_chunk 11%nat. write_chunk 10%nat.
  erewrite (slice_chunks _ 4 2 12) by offsets. cbn [res_bind].
  erewrite (slice_chunks _ 7 5 ihl) by (subst ihl; offsets). cbn [res_bind].
  write_chunk 10%nat. f_equal. unfold uck, ck, ul, total, reply4_hdr, reply4_seg. subst udpLen.
  cbn [concat take drop]. change [z2b 0; z2b 0] with (put16 0). rewrite !app_nil_r, <- !app_assoc. done.
Qed.

(** The reply built for an IPv4 DNS query, whatever IP options the query
    has: addresses and ports are swapped, the data is the answer, and both the
    header checksum and the UDP checksum verify. *)
Lemma dns_reply4_correct q resp :
  query4_ok q → len resp ≤ 65000 →
  ∃ total ck ul uck,
    buildDNSResponsePacket (query4_bytes q) resp = Ret (reply4_hdr q total ck ++ reply4_seg q ul uck resp) ∧
    total = put16 (20 + len (q_opts q) + 8 + len resp) ∧ ul = put16 (8 + len resp) ∧
    calculateChecksum (reply4_hdr q total ck) = 0 ∧
    calculateChecksum (pseudo4 (q_dst q) (q_src q) (reply4_seg q ul uck resp)) = 0.
Proof.
  intros Hq Hl. pose proof (buildDNSResponsePacket_form q resp Hq Hl) as Hb. cbn zeta in Hb.
  destruct Hq as (L1 & L2 & L3 & L4 & L5 & L6 & L7 & L8 & L9 & L10 & Lo & _).
  pose proof (len_nonneg resp). pose proof (len_nonneg (q_opts q)).
  rewrite !(wrap_small 16) in Hb by lia.
  do 4 eexists. split; [exact Hb|]. split_and!; [done|done| |].
  - set (total := put16 _). assert (∀ ck, reply4_hdr q total ck = (q_h0 q ++ total ++ q_mid q) ++ ck ++ q_dst q ++ q_src q ++ q_opts q) as E.
    { intros. unfold reply4_hdr. cbn [concat]. rewrite app_nil_r, <- !app_assoc. done. }
    rewrite !E. set (pre := q_h0 q ++ total ++ q_mid q). set (post := q_dst q ++ q_src q ++ q_opts q).
    assert (len pre = 10) as Hpre by (subst pre total; offsets). assert (len post ≤ 48) as Hpost by (subst post; offsets).
    destruct (checksum_insert pre post) as (_ & Hc & _); [exists 5%nat; unfold len in Hpre; lia|lia|exact Hc].
  - set (ul := put16 _). assert (∀ ck, pseudo4 (q_dst q) (q_src q) (reply4_seg q ul ck resp) =
      (q_dst q ++ q_src q ++ [z2b 0; z2b 17] ++ put16 (len (reply4_seg q ul ck resp)) ++ q_dp q ++ q_sp q ++ ul) ++ ck ++ resp) as E.
    { intros. unfold pseudo4, reply4_seg at 2. cbn [concat]. rewrite app_nil_r, <- !app_assoc. done. }
    assert (∀ x, len (reply4_seg q ul (put16 x) resp) = 8 + len resp) as El by (intros; unfold reply4_seg; subst ul; offsets).
    rewrite E, El. fold ul. set (pre := q_dst q ++ _).
    assert (q_dst q ++ q_src q ++ [z2b 0; z2b 17] ++ ul ++ reply4_seg q ul (put16 0) resp = pre ++ put16 0 ++ resp) as ->.
    { unfold pre, reply4_seg. cbn [concat]. rewrite app_nil_r, <- !app_assoc. done. }
    assert (len pre = 18) as Hpre by (subst pre ul; offsets).
    destruct (checksum_insert pre resp) as (_ & _ & Hc); [exists 9%nat; unfold len in Hpre; lia|lia|exact Hc].
Qed.

(** C33. The IPv6 reader never panics, whatever bytes a client sends, and what it
    reports lies inside the packet; and it reads back a packet it understands:
    behind any chain of up to eleven well-formed extension headers it finds the
    addresses, the ports and exactly the bytes of the segment. *)
Theorem parseV6Header_correct data :
  (∃ r, parseV6Header data = Ret r ∧
    ∀ i, r = Some i → header_in data i ∧ slice data 8 24 = Ret (v6_Src i) ∧ slice data 24 40 = Ret (v6_Dst i)) ∧
  (∀ src dst es proto sp dp rest pad,
    len src = 16 → len dst = 16 → (length es ≤ 11)%nat → Forall ext_ok es → upper_hdr proto sp dp rest →
    len (chain es proto (put16 sp ++ put16 dp ++ rest)).2 < 65536 →
    data = v6_packet src dst es proto (put16 sp ++ put16 dp ++ rest) pad →
    ∃ i, parseV6Header data = Ret (Some i) ∧ v6_Src i = src ∧ v6_Dst i = dst ∧ v6_Proto i = proto ∧
      v6_SrcPort i = sp ∧ v6_DstPort i = dp ∧
      slice data (L4Off i) (PacketEnd i) = Ret (put16 sp ++ put16 dp ++ rest)).
Proof.
  split; [exact (parseV6Header_ret data)|]. intros * Hs Hd Hn Hok Hu Hl ->.
  exact (parseV6Header_packet src dst es proto sp dp rest pad Hs Hd Hn Hok Hu Hl).
Qed.

(** C34. The reply an intercepted query gets: for a query over IPv6 a packet the
    reader understands, for one over IPv4 a packet with the query's header and
    options; addresses and ports are swapped, the data is the answer, and every
    checksum verifies. *)
Theorem dns_reply_correct resp :
  len resp ≤ 65000 →
  (∀ info query, len (v6_Src info) = 16 → len (v6_Dst info) = 16 →
    0 ≤ v6_SrcPort info < 65536 → 0 ≤ v6_DstPort info < 65536 →
    ∃ p i seg, buildDNSResponse query info true resp = Ret p ∧ parseV6Header p = Ret (Some i) ∧
      v6_Src i = v6_Dst info ∧ v6_Dst i = v6_Src info ∧ v6_Proto i = 17 ∧
      v6_SrcPort i = v6_DstPort info ∧ v6_DstPort i = v6_SrcPort info ∧
      slice p (L4Off i) (PacketEnd i) = Ret seg ∧ drop 8 seg = resp ∧
      calculateChecksum (pseudo6 (v6_Src i) (v6_Dst i) seg) = 0) ∧
  (∀ info q, query4_ok q →
    ∃ total ck ul uck,
      buildDNSResponse (query4_bytes q) info false resp = Ret (reply4_hdr q total ck ++ reply4_seg q ul uck resp) ∧
      total = put16 (20 + len (q_opts q) + 8 + len resp) ∧ ul = put16 (8 + len resp) ∧
      calculateChecksum (reply4_hdr q total ck) = 0 ∧
      calculateChecksum (pseudo4 (q_dst q) (q_src q) (reply4_seg q ul uck resp)) = 0).
Proof. intros Hl. split; intros; [by apply dns_reply6_correct|by apply dns_reply4_correct]. Qed.

(** ** Witnesses *)
Definition ex_ip6 (n : Z) : IP := z2b 32 :: z2b 1 :: zs 13 ++ [z2b n].

(** A destination-options header in front of a UDP segment, and padding. *)
Lemma parseV6Header_correct_witness :
  ∃ i, parseV6Header (v6_packet (ex_ip6 1) (ex_ip6 2) [ExtOpts 60 (zs 6)] 17 (put16 5353 ++ put16 53 ++ zs 4) [z2b 7])
         = Ret (Some i) ∧ v6_DstPort i = 53 ∧ L4Off i = 48 ∧ PacketEnd i = 56.
Proof.
  destruct (parseV6Header_correct (v6_packet (ex_ip6 1) (ex_ip6 2) [ExtOpts 60 (zs 6)] 17 (put16 5353 ++ put16 53 ++ zs 4) [z2b 7]))
    as [_ Hrt].
  assert (Forall ext_ok [ExtOpts 60 (zs 6)]) as He.
  { constructor; [|constructor]. split; [do 2 apply list_elem_of_further; constructor|]. exists 0. split; [lia|reflexivity]. }
  destruct (Hrt (ex_ip6 1) (ex_ip6 2) [ExtOpts 60 (zs 6)] 17 5353 53 (zs 4) [z2b 7] eq_refl eq_refl ltac:(cbn; lia) He
    ltac:(split; [right; split; [reflexivity|vm_compute; discriminate]|lia]) ltac:(vm_compute; reflexivity) eq_refl)
    as (i & Ei & _ & _ & _ & _ & Edp & _).
  exists i. split; [exact Ei|]. split; [exact Edp|].
  assert (∃ j, parseV6Header (v6_packet (ex_ip6 1) (ex_ip6 2) [ExtOpts 60 (zs 6)] 17 (put16 5353 ++ put16 53 ++ zs 4) [z2b 7])
         = Ret (Some j) ∧ L4Off j = 48 ∧ PacketEnd j = 56) as (j & Ej & Hj)
    by (eexists; split; [vm_compute; reflexivity|split; reflexivity]).
  rewrite Ei in Ej. injection Ej as ->. exact Hj.
Defined.

Definition ex_query6 : v6HeaderInfo := v6_set_ports 40000 53 (v6_set_upper 17 40 60 (v6_start (ex_ip6 1) (ex_ip6 2))).

(** A query with the four-byte router-alert option. *)
Definition ex_query4 : query4 := {|
  q_h0 := [z2b 70; z2b 0]; q_len := put16 36; q_mid := [z2b 0; z2b 1; z2b 0; z2b 0; z2b 64; z2b 17]; q_ck := put16 4660;
  q_src := [z2b 10; z2b 0; z2b 0; z2b 2]; q_dst := [z2b 1; z2b 1; z2b 1; z2b 1]; q_opts := [z2b 148; z2b 4; z2b 0; z2b 0];
  q_sp := put16 40000; q_dp := put16 53; q_ul := put16 12; q_uc := put16 0; q_data := [z2b 1; z2b 2; z2b 3; z2b 4] |}.

Lemma dns_reply_correct_witness :
  (∃ p i, buildDNSResponse [] ex_query6 true [z2b 1; z2b 2; z2b 3] = Ret p ∧ parseV6Header p = Ret (Some i) ∧
    v6_Dst i = ex_ip6 1 ∧ v6_DstPort i = 40000) ∧
  ∃ total ck ul uck,
    buildDNSResponse (query4_bytes ex_query4) ex_query6 false [z2b 1; z2b 2; z2b 3]
      = Ret (reply4_hdr ex_query4 total ck ++ reply4_seg ex_query4 ul uck [z2b 1; z2b 2; z2b 3]) ∧
    total = put16 35 ∧ calculateChecksum (reply4_hdr ex_query4 total ck) = 0.
Proof.
  destruct (dns_reply_correct [z2b 1; z2b 2; z2b 3] ltac:(vm_compute; discriminate)) as [H6 H4]. split.
  - destruct (H6 ex_query6 [] eq_refl eq_refl ltac:(vm_compute; split; [discriminate|reflexivity])
      ltac:(vm_compute; split; [discriminate|reflexivity])) as (p & i & seg & E1 & E2 & _ & E4 & _ & _ & E7 & _).
    exact (ex_intro _ p (ex_intro _ i (conj E1 (conj E2 (conj E4 E7))))).
  - assert (query4_ok ex_query4) as Hq.
    { unfold query4_ok. split_and!; try reflexivity; [vm_compute; discriminate|]. exists (z2b 70), (z2b 0). split; reflexivity. }
    destruct (H4 ex_query6 ex_query4 Hq) as (total & ck & ul & uck & E1 & E2 & _ & E4 & _).
    exists total, ck, ul, uck. split; [exact E1|]. split; [rewrite E2; reflexivity|exact E4].
Defined.
