(* ===== verification/Policies.v ===== *)
(** * Policies (server/dbdata/policy.go and the checks of group.go)

    Saving a policy validates and normalises it; loading applies the user's
    policy before the group's.  Regular expressions are recognisers over the
    pieces between their separators, which their classes exclude.  The tables
    are the class [PolicyDb]. *)
From S2P Require Export DbTypes GoTime.
Local Open Scope Z_scope.

(** An error text or a value. *)
Definition result (A : Type) : Type := string + A.
Definition result_bind {A B} (m : result A) (k : A → result B) : result B :=
  match m with inl e => inl e | inr a => k a end.
Notation "'try!' x ':=' e 'in' k" := (result_bind e (fun x => k))
  (at level 10, x pattern, e at level 200, k at level 200,
   format "'[v' 'try!'  x  ':='  e  'in' '/' k ']'") : remlink_scope.

Definition Allow : string := "allow".
Definition Deny : string := "deny".
Definition ALL : string := "all".
Definition TCP : string := "tcp".
Definition UDP : string := "udp".
Definition ICMP : string := "icmp".
Definition DsMaxLen : Z := 20000.

(** Numbers of [waterutil]'s protocols (IANA). *)
Definition proto_ICMP : Z := 1.
Definition proto_TCP : Z := 6.
Definition proto_UDP : Z := 17.

Definition wrap_err {A} (prefix : string) (m : result A) : result A :=
  match m with inl e => inl (prefix +:+ e)%string | inr a => inr a end.

(** ** Texts *)
Definition is_digit (b : byte) : bool := bool_decide (is_Some (digit b)).
Definition is_alpha (b : byte) : bool :=
  let c := b2z b in ((97 <=? c) && (c <=? 122)) || ((65 <=? c) && (c <=? 90)).
Definition split_commas (s : string) : list string := str_of <$> split_byte ","%byte (bytes_of s).

(** [\d{1,5}] *)
Definition digits15 (s : list byte) : bool := (1 <=? len s) && (len s <=? 5) && forallb is_digit s.
(** [rePortRange] *)
Definition rePortRange (s : list byte) : bool :=
  match split_byte "-"%byte s with [a; b] => digits15 a && digits15 b | _ => false end.
(** One item of [rePortsAll], and all of them. *)
Definition re_port_item (s : list byte) : bool :=
  match split_byte "-"%byte s with [a] => digits15 a | [a; b] => digits15 a && digits15 b | _ => false end.
Definition rePortsAll (s : string) : bool := forallb re_port_item (split_byte ","%byte (bytes_of s)).

(** The labels of [ValidateDomainName]'s expression. *)
Definition domain_label (l : list byte) : bool :=
  match l with
  | c :: r => (is_alpha c || is_digit c) && (len r <=? 62)
              && forallb (λ b, is_alpha b || is_digit b || beqb b "-"%byte) r
  | [] => false
  end.
Definition domain_tld (l : list byte) : bool := (2 <=? len l) && (len l <=? 18) && forallb is_alpha l.
Definition ValidateDomainName (domain : string) : bool :=
  match rev (split_byte "."%byte (bytes_of domain)) with
  | tld :: (_ :: _) as ls => domain_tld tld && forallb domain_label (tail ls)
  | _ => false
  end.

Fixpoint check_domains (vals : list string) (strLen : Z) : result Z :=
  match vals with
  | [] => inr strLen
  | val :: vals =>
      if String.eqb val "" then inl (val +:+ " 请以逗号分隔域名")%string
      else if negb (ValidateDomainName val) then inl (val +:+ " 域名有误")%string
      else check_domains vals (strLen + str_len val)
  end.
Definition CheckDomainNames (domains : string) : result unit :=
  if String.eqb domains "" then inr tt
  else try! n := check_domains (split_commas domains) 0 in
       if DsMaxLen <? n then inl "字符长度超出限制，最大20,000个(不包含逗号), 请删减一些域名"%string else inr tt.
Definition CheckFakeDNSDomains (domains : string) : result unit :=
  if String.eqb domains "" then inr tt
  else try! _ := check_domains (split_commas domains) 0 in inr tt.

Definition parseIpNet (s : string) : result (string * IPNet) :=
  match ParseCIDR s with
  | None => inl ("invalid CIDR address: " +:+ s)%string
  | Some (ip, ipNet) => inr ((ip_String ip +:+ "/" +:+ ip_String (net_Mask ipNet))%string, ipNet)
  end.

(** [ContainsPortInStr]: the loop over the items, then the function. *)
Fixpoint port_items (pts : list (list byte)) (port : Z) : bool :=
  match pts with
  | [] => false
  | pt :: pts =>
      let pt := trim_space pt in
      let hit :=
        if Nat.eqb (length pt) 0 then false
        else match index_byte "-"%byte pt with
             | Some (S idx) =>
                 match parse_uint 16 (firstn (S idx) pt), parse_uint 16 (skipn (S (S idx)) pt) with
                 | Some from, Some to => (from <=? port) && (port <=? to)
                 | _, _ => false
                 end
             | _ => match parse_uint 16 pt with Some p => p =? port | None => false end
             end in
      hit || port_items pts port
  end.
Definition ContainsPortInStr (portStr : string) (port : Z) : bool :=
  let portStr := str_trim portStr in
  if String.eqb portStr "" || String.eqb portStr "0" then true
  else port_items (split_byte ","%byte (bytes_of portStr)) port.

(** ** Saving a policy *)
Definition set_IpMask (m : string) (v : ValData) : ValData := {| Val := Val v; IpMask := m; vd_Note := vd_Note v |}.
Definition set_Val (s : string) (v : ValData) : ValData := {| Val := s; IpMask := IpMask v; vd_Note := vd_Note v |}.

(** The loops over [RouteInclude] and [RouteExclude]: [all] passes the first one only. *)
Fixpoint check_routes (name : string) (all_ok : bool) (vs : list ValData) : result (list ValData) :=
  match vs with
  | [] => inr []
  | v :: vs =>
      if String.eqb (Val v) "" then check_routes name all_ok vs
      else if all_ok && String.eqb (Val v) ALL then
        try! r := check_routes name all_ok vs in inr (v :: r)
      else
        match parseIpNet (Val v) with
        | inl e => inl (name +:+ " 错误" +:+ e)%string
        | inr (ipMask, ipNet) =>
            if negb (bytes_eqb (hd [] (split_byte "/"%byte (bytes_of ipMask))) (bytes_of (ip_String (net_IP ipNet))))
            then inl (name +:+ " 错误: 网络地址错误，建议： " +:+ Val v +:+ " 改为 " +:+ net_String ipNet)%string
            else try! r := check_routes name all_ok vs in inr (set_IpMask ipMask v :: r)
        end
  end.

Fixpoint check_ports (pts : list (list byte)) : result unit :=
  match pts with
  | [] => inr tt
  | pt :: pts =>
      if Nat.eqb (length pt) 0 then check_ports pts
      else if rePortRange pt then
        match split_byte "-"%byte pt with
        | [a; b] =>
            match parse_uint 16 a, parse_uint 16 b with
            | None, _ => inl ("端口:" +:+ str_of a +:+ " 格式错误")%string
            | _, None => inl ("端口:" +:+ str_of b +:+ " 格式错误")%string
            | Some from, Some to =>
                if to <? from
                then inl ("端口范围错误: 起始端口 " +:+ str_of a +:+ " 不能大于结束端口 " +:+ str_of b)%string
                else check_ports pts
            end
        | _ => check_ports pts
        end
      else match parse_uint 16 pt with
           | None => inl ("端口:" +:+ str_of pt +:+ " 格式错误")%string
           | Some _ => check_ports pts
           end
  end.

Definition acl_of (protocol : string) (proto : Z) (port : string) (n : IPNet) (v : GroupLinkAcl) : GroupLinkAcl :=
  {| Action := Action v; Protocol := protocol; IpProto := proto; acl_Val := acl_Val v; Port := port;
     Ports := Ports v; acl_IpNet := Some n; acl_Note := acl_Note v |}.

Definition check_acl (v : GroupLinkAcl) : result GroupLinkAcl :=
  match parseIpNet (acl_Val v) with
  | inl e => inl ("GroupLinkAcl 错误" +:+ e)%string
  | inr (_, ipNet) =>
      let '(protocol, proto) :=
        if String.eqb (Protocol v) TCP then (TCP, proto_TCP)
        else if String.eqb (Protocol v) UDP then (UDP, proto_UDP)
        else if String.eqb (Protocol v) ICMP then (ICMP, proto_ICMP)
        else (ALL, IpProto v) in
      let portsStr := Port v in
      if rePortsAll portsStr then
        try! _ := check_ports (split_byte ","%byte (bytes_of portsStr)) in
        inr (acl_of protocol proto (str_trim portsStr) ipNet v)
      else inl ("端口: " +:+ portsStr +:+ " 格式错误,请用逗号分隔的端口,比如: 22,80,443 连续端口用-,比如:1234-5678")%string
  end.
Fixpoint check_acls (vs : list GroupLinkAcl) : result (list GroupLinkAcl) :=
  match vs with
  | [] => inr []
  | v :: vs =>
      if String.eqb (acl_Val v) "" then check_acls vs
      else try! v := check_acl v in
           try! r := check_acls vs in inr (v :: r)
  end.

Fixpoint check_dns (vs : list ValData) : result (list ValData) :=
  match vs with
  | [] => inr []
  | v :: vs =>
      let v := set_Val (str_trim (Val v)) v in
      if String.eqb (Val v) "" then check_dns vs
      else if negb (String.eqb (ip_String (ParseIP (Val v))) (Val v)) then inl "DNS IP 错误"%string
      else try! r := check_dns vs in inr (v :: r)
  end.

(** The FakeDNS fields, checked or cleared: upstream, include, exclude, prefer-v6. *)
Definition check_fakedns (p : Policy) (clientDns : list ValData) : result (string * string * string * bool) :=
  if negb (EnableFakeDNS p) then inr (""%string, ""%string, ""%string, false)
  else if Nat.eqb (length clientDns) 0 && String.eqb (FakeDNSUpstream p) ""
  then inl "未配置客户端 DNS 时,必须配置 FakeDNS 上游 DNS,否则 FakeDNS 功能无法生效"%string
  else
    let up := str_trim (FakeDNSUpstream p) in
    let host := match SplitHostPort up with Some (h, _) => h | None => up end in
    if negb (String.eqb up "") && ip_nil (ParseIP host) then inl "FakeDNS 上游 DNS 格式错误（应为 IP[:port]）"%string
    else
      let inc := str_trim (FakeDNSInclude p) in
      let exc := str_trim (FakeDNSExclude p) in
      if negb (String.eqb inc "") && negb (String.eqb exc "") then inl "FakeDNS 包含/排除域名不能同时填写"%string
      else if String.eqb inc "" && String.eqb exc ""
      then inl "启用 FakeDNS 时必须至少填写包含域名或排除域名"%string
      else
        try! _ := wrap_err "FakeDNS 包含域名有误：" (CheckFakeDNSDomains inc) in
        try! _ := wrap_err "FakeDNS 排除域名有误：" (CheckFakeDNSDomains exc) in
        inr (up, inc, exc, PreferIPv6 p).

(** The traffic fields: the reset period, with its default. *)
Definition check_traffic (p : Policy) : result string :=
  if Bandwidth p <? 0 then inl "下行带宽不能小于0"%string
  else if BandwidthUp p <? 0 then inl "上行带宽不能小于0"%string
  else if TrafficQuota p <? 0 then inl "流量配额不能小于0"%string
  else if negb (bool_decide (TrafficReset p ∈ [""; "daily"; "weekly"; "monthly"]%string))
  then inl "流量配额重置周期错误，可选: daily/weekly/monthly"%string
  else
    let r := if (0 <? TrafficQuota p) && String.eqb (TrafficReset p) "" then "monthly"%string else TrafficReset p in
    inr (if TrafficQuota p =? 0 then ""%string else r).

(** Everything [SetPolicy] does to [p] before it reaches the tables. *)
Definition check_policy (p : Policy) (now : Time) : result Policy :=
  if String.eqb (pol_Name p) "" then inl "策略名称不能为空"%string
  else
    try! reset := check_traffic p in
    try! inc := check_routes "RouteInclude" true (RouteInclude p) in
    try! exc := check_routes "RouteExclude" false (RouteExclude p) in
    try! acl := check_acls (LinkAcl p) in
    try! dns := check_dns (ClientDns p) in
    let isDefRoute := match inc with [] => true | [v] => String.eqb (Val v) "all" | _ => false end in
    if isDefRoute && Nat.eqb (length dns) 0 then inl "默认路由，必须设置一个DNS"%string
    else
      let dsi := str_trim (DsIncludeDomains p) in
      let dse := str_trim (DsExcludeDomains p) in
      if negb (String.eqb dsi "") && negb (String.eqb dse "") then inl "包含/排除域名不能同时填写"%string
      else
        try! _ := wrap_err "包含域名有误：" (CheckDomainNames dsi) in
        try! _ := wrap_err "排除域名有误：" (CheckDomainNames dse) in
        if isDefRoute && negb (String.eqb dsi "") then inl "默认路由, 不允许设置包含域名, 请重新配置"%string
        else
          try! fk := check_fakedns p dns in
          let '(up, fi, fe, v6) := fk in
          inr {| pol_Id := pol_Id p; pol_Name := pol_Name p; pol_Note := pol_Note p; AllowLan := AllowLan p;
                 ClientDns := dns; RouteInclude := inc; RouteExclude := exc; DsExcludeDomains := dse;
                 DsIncludeDomains := dsi; LinkAcl := acl; Bandwidth := Bandwidth p; BandwidthUp := BandwidthUp p;
                 TrafficQuota := TrafficQuota p; TrafficReset := reset; EnableFakeDNS := EnableFakeDNS p;
                 FakeDNSUpstream := up; FakeDNSInclude := fi; FakeDNSExclude := fe; PreferIPv6 := v6;
                 FakeDNSIncludeSet := FakeDNSIncludeSet p; FakeDNSExcludeSet := FakeDNSExcludeSet p;
                 pol_Status := pol_Status p; pol_CreatedAt := pol_CreatedAt p; pol_UpdatedAt := now |}.

(** ** The tables *)
Class PolicyDb (db : Type) := {
  pol_by_id : db → Z → lookup_res Policy;              (* One("Id", id, p) *)
  user_row : db → string → lookup_res User;            (* One("Username", username, u) *)
  db_set_policy : db → Policy → db * option string;    (* Set(p), Add(p) *)
  db_add_policy : db → Policy → db * option string;
  users_of_policy : db → Z → lookup_res (list User);   (* policy_id=? *)
  groups_of_policy : db → Z → lookup_res (list Group);
  all_users : db → lookup_res (list User);             (* Find(&users) *)
  (* UPDATE user SET traffic_used, traffic_reset_at WHERE username and the old reset time *)
  update_user_traffic : db → string → option (option Time) → option Z → option Time → db;
  (* UPDATE user SET traffic_used = traffic_used + ?: false is a lock conflict or another error *)
  add_user_traffic : db → string → Z → db * option string
}.

Definition addDomainSet (raw : string) : gset string :=
  if String.eqb raw "" then ∅
  else list_to_set (List.filter (λ d, negb (String.eqb d ""))
         ((λ d, str_trim (str_lower d)) <$> split_commas raw)).

Definition AddFakeDNSRules (p : Policy) : Policy :=
  {| pol_Id := pol_Id p; pol_Name := pol_Name p; pol_Note := pol_Note p; AllowLan := AllowLan p;
     ClientDns := ClientDns p; RouteInclude := RouteInclude p; RouteExclude := RouteExclude p;
     DsExcludeDomains := DsExcludeDomains p; DsIncludeDomains := DsIncludeDomains p; LinkAcl := LinkAcl p;
     Bandwidth := Bandwidth p; BandwidthUp := BandwidthUp p; TrafficQuota := TrafficQuota p;
     TrafficReset := TrafficReset p; EnableFakeDNS := EnableFakeDNS p; FakeDNSUpstream := FakeDNSUpstream p;
     FakeDNSInclude := FakeDNSInclude p; FakeDNSExclude := FakeDNSExclude p; PreferIPv6 := PreferIPv6 p;
     FakeDNSIncludeSet := addDomainSet (FakeDNSInclude p); FakeDNSExcludeSet := addDomainSet (FakeDNSExclude p);
     pol_Status := pol_Status p; pol_CreatedAt := pol_CreatedAt p; pol_UpdatedAt := pol_UpdatedAt p |}.

Definition GetUpstreamDNS (p : Policy) : string :=
  if negb (String.eqb (FakeDNSUpstream p) "") then FakeDNSUpstream p
  else match ClientDns p with v :: _ => Val v | [] => "8.8.8.8" end%string.

(** [nextTrafficReset] in a location [tz] seconds east of UTC. *)
Definition nextTrafficReset (tz : Z) (period : string) (from : Time) : Time :=
  let day := day_of tz from in
  let '(y, m, d) := civil day in
  if String.eqb period "daily" then time_Date tz y m (d + 1)
  else if String.eqb period "weekly" then
    let daysToMonday := Z.rem (1 - weekday day + 7) 7 in
    time_Date tz y m (d + (if daysToMonday =? 0 then 7 else daysToMonday))
  else if String.eqb period "monthly" then time_Date tz y (m + 1) 1
  else zero_time.

Section tables.
Context {db : Type} `{PolicyDb db} (tz : Z).

Definition LoadPolicyById (d : db) (id : Z) : option Policy :=
  match pol_by_id d id with Found p => Some (AddFakeDNSRules p) | _ => None end.

Definition ApplyPolicy (d : db) (username : string) (g : Group) : option Policy :=
  let user := match user_row d username with Found u => u | _ => zero_User end in
  if 0 <? usr_PolicyId user then
    match LoadPolicyById d (usr_PolicyId user) with
    | None => None
    | Some p => if negb (pol_Status p =? 1) then None else Some p
    end
  else if grp_PolicyId g <=? 0 then None
  else match LoadPolicyById d (grp_PolicyId g) with
       | None => None
       | Some p => if negb (pol_Status p =? 1) then None else Some p
       end.

Definition UsersInGroups (d : db) (groups : list string) : lookup_res (list User) :=
  match groups with
  | [] => Found []
  | _ => match all_users d with
         | Found us => Found (List.filter (λ u, existsb (λ g, bool_decide (g ∈ groups)) (Groups u)) us)
         | r => r
         end
  end.

(** The user names [clearTrafficResetAt] collects and clears. *)
Definition policy_usernames (d : db) (policyId : Z) : gset string :=
  let direct := match users_of_policy d policyId with Found us => usr_Username <$> us | _ => [] end in
  let via := match groups_of_policy d policyId with
             | Found (_ :: _ as gs) =>
                 match UsersInGroups d (grp_Name <$> gs) with Found us => usr_Username <$> us | _ => [] end
             | _ => [] end in
  list_to_set (direct ++ via).
Definition clearTrafficResetAt (d : db) (policyId : Z) : db :=
  set_fold (λ username d, update_user_traffic d username None None None) d (policy_usernames d policyId).

Definition SetPolicy (d : db) (p : Policy) (now : Time) : db * option string :=
  match check_policy p now with
  | inl e => (d, Some e)
  | inr p =>
      if 0 <? pol_Id p then
        let d := match pol_by_id d (pol_Id p) with
                 | Found old =>
                     if negb (String.eqb (TrafficReset old) (TrafficReset p)) || negb (TrafficQuota old =? TrafficQuota p)
                     then clearTrafficResetAt d (pol_Id p) else d
                 | _ => d
                 end in
        db_set_policy d p
      else db_add_policy d p
  end.

(** [QuotaExceeded]: the answer is from the row read before the update. *)
Definition QuotaExceeded (d : db) (username : string) (p : option Policy) (now : Time) : db * (bool * Z) :=
  match p with
  | None => (d, (false, 0))
  | Some p =>
      if TrafficQuota p <=? 0 then (d, (false, 0))
      else match user_row d username with
           | Found u =>
               let next := nextTrafficReset tz (TrafficReset p) now in
               match TrafficResetAt u with
               | None =>
                   (if negb (time_IsZero next) then update_user_traffic d username (Some None) None (Some next) else d,
                    (TrafficQuota p <=? TrafficUsed u, TrafficUsed u))
               | Some at_ =>
                   if time_After now at_ then
                     (if negb (time_IsZero next)
                      then update_user_traffic d username (Some (Some at_)) (Some 0) (Some next) else d, (false, 0))
                   else (d, (TrafficQuota p <=? TrafficUsed u, TrafficUsed u))
               end
           | _ => (d, (false, 0))
           end
  end.

Definition ResetTrafficUsed (d : db) (username : string) (p : option Policy) (now : Time) : db :=
  match p with
  | None => d
  | Some p =>
      if String.eqb (TrafficReset p) "" then d
      else let next := nextTrafficReset tz (TrafficReset p) now in
           if time_IsZero next then d else update_user_traffic d username None (Some 0) (Some next)
  end.

(** Up to [n] attempts, while the table is locked or busy. *)
Fixpoint add_traffic_retry (n : nat) (d : db) (username : string) (delta : Z) : db :=
  match n with
  | O => d
  | S n =>
      let '(d, err) := add_user_traffic d username delta in
      match err with
      | None => d
      | Some e => if str_contains e "database is locked" || str_contains e "database is busy"
                  then add_traffic_retry n d username delta else d
      end
  end.
Definition AddTrafficUsed (d : db) (username : string) (delta : Z) : db :=
  if delta <=? 0 then d else add_traffic_retry 5 d username delta.
End tables.

(** [EscapeLike]: the special characters of a LIKE pattern. *)
Fixpoint escape_like (s : list byte) : list byte :=
  match s with
  | [] => []
  | c :: r =>
      if bool_decide (c ∈ [z2b 92; "%"%byte; "_"%byte; z2b 34]) then z2b 92 :: c :: escape_like r else c :: escape_like r
  end.
Definition EscapeLike (s : string) : string := str_of (escape_like (bytes_of s)).
