(* ===== verification/PoliciesSpec.v ===== *)
(** * Policies: what a saved policy guarantees, quota periods, whose policy applies *)
From S2P Require Import Policies.
Local Open Scope Z_scope.

(** ** Texts: splitting, trimming, numbers *)
Lemma split_byte_pieces c s : Forall (λ w, c ∉ w) (split_byte c s).
Proof.
  induction s as [|x s IH]; cbn [split_byte]; [constructor; [apply not_elem_of_nil|constructor]|].
  destruct (beqb x c) eqn:E; [constructor; [apply not_elem_of_nil|done]|]. apply beqb_false in E.
  destruct (split_byte c s) as [|w ws]; [constructor; [set_solver|constructor]|].
  apply Forall_cons in IH as [Hw IH]. constructor; [|done]. intros [->|?]%elem_of_cons; done.
Qed.
Lemma join_split c s : join_byte c (split_byte c s) = s.
Proof.
  induction s as [|x s IH]; [done|]. cbn [split_byte]. pose proof (split_byte_nonempty c s) as Hn.
  destruct (beqb x c) eqn:E.
  - apply beqb_true in E as ->. destruct (split_byte c s) as [|w ws]; [done|]. cbn in IH |- *. by rewrite IH.
  - destruct (split_byte c s) as [|w [|w' ws]]; [done| |]; cbn in IH |- *; by rewrite IH.
Qed.

Lemma index_byte_None c w : c ∉ w → index_byte c w = None.
Proof.
  induction w as [|x w IH]; [done|]. intros Hn. cbn [index_byte].
  rewrite (proj2 (beqb_false x c)) by (intros ->; apply Hn; left). rewrite IH; [done|]. intros ?. apply Hn. by right.
Qed.
Lemma index_byte_app c w s : c ∉ w → index_byte c (w ++ c :: s) = Some (length w).
Proof.
  induction w as [|x w IH]; intros Hn; cbn [app index_byte]; [by rewrite beqb_refl|].
  rewrite (proj2 (beqb_false x c)) by (intros ->; apply Hn; left). rewrite IH; [done|]. intros ?. apply Hn. by right.
Qed.

(** An ASCII byte that is not a space stops the trimming on either side. *)
Definition plain (b : byte) : Prop := 32 < b2z b < 128.
Lemma plain_space a : plain a → ascii_space a = false.
Proof. unfold plain, ascii_space. intros. destruct (Z.eqb_spec (b2z a) 32), (Z.leb_spec 9 (b2z a)), (Z.leb_spec (b2z a) 13); cbn; lia. Qed.
Lemma plain_wide a b c : plain a →
  wide_space2 a b = false ∧ wide_space2 b a = false ∧ wide_space3 a b c = false ∧ wide_space3 c b a = false.
Proof.
  intros Ha. unfold plain in Ha. unfold wide_space2, wide_space3.
  assert (∀ k, 128 ≤ k → (b2z a =? k) = false) as E by (intros; apply Z.eqb_neq; lia).
  rewrite !(E 194), !(E 225), !(E 226), !(E 227), !(E 128), !(E 133), !(E 160), !(E 168), !(E 169), !(E 175), !(E 159) by lia.
  replace (128 <=? b2z a) with false by (symmetry; apply Z.leb_gt; lia).
  cbn [andb orb]. rewrite ?andb_false_r. done.
Qed.
Lemma trim_left_plain a s : plain a → trim_left (a :: s) = a :: s ∧ trim_left_rev (a :: s) = a :: s.
Proof.
  intros Ha. pose proof (plain_space a Ha) as Es.
  destruct s as [|b [|c s]]; cbn [trim_left trim_left_rev]; rewrite Es; [done| |].
  - by destruct (plain_wide a b b Ha) as (-> & -> & _).
  - by destruct (plain_wide a b c Ha) as (-> & -> & -> & ->).
Qed.
Lemma trim_space_plain s : Forall plain s → trim_space s = s.
Proof.
  intros Hs. unfold trim_space. destruct s as [|a s]; [done|].
  rewrite (proj1 (trim_left_plain a s (Forall_inv Hs))).
  destruct (rev (a :: s)) as [|z r] eqn:E; [by apply (f_equal (@length byte)) in E; rewrite length_rev in E|].
  assert (plain z) as Hz.
  { rewrite Forall_forall in Hs. apply Hs. rewrite list_elem_of_In, in_rev, E. by left. }
  rewrite (proj2 (trim_left_plain z r Hz)), <- E. apply rev_involutive.
Qed.

Lemma digit_plain b : is_digit b = true → plain b ∧ b ≠ "-"%byte ∧ b ≠ ","%byte.
Proof.
  unfold is_digit, digit, plain. intros [d Hd]%bool_decide_eq_true.
  destruct (Z.leb_spec 48 (b2z b)), (Z.leb_spec (b2z b) 57); try done.
  split; [lia|]. split; intros ->; cbn in *; lia.
Qed.

Lemma parse_digits_nonneg s : ∀ acc n, 0 ≤ acc → parse_digits acc s = Some n → 0 ≤ n.
Proof.
  induction s as [|b s IH]; intros acc n Ha; cbn; [by intros; simplify_eq|].
  unfold digit. destruct (Z.leb_spec 48 (b2z b)); cbn [andb]; [|done].
  destruct (Z.leb_spec (b2z b) 57); [|done]. apply IH. lia.
Qed.
Lemma parse_uint_range bits s n : parse_uint bits s = Some n → 0 ≤ n < 2 ^ bits.
Proof.
  unfold parse_uint. destruct s as [|b s]; [done|]. destruct (parse_digits 0 (b :: s)) as [m|] eqn:E; [|done].
  destruct (Z.ltb_spec m (2 ^ bits)); [|done]. intros. simplify_eq. split; [by eapply parse_digits_nonneg|done].
Qed.

(** ** Ports

    The set a port text denotes: its items are numbers and ranges. *)
Definition range_of (pt : list byte) : option (Z * Z) :=
  match split_byte "-"%byte pt with
  | [a] => match parse_uint 16 a with Some p => Some (p, p) | None => None end
  | [a; b] => match parse_uint 16 a, parse_uint 16 b with Some lo, Some hi => Some (lo, hi) | _, _ => None end
  | _ => None
  end.
Definition port_ranges (s : string) : option (list (Z * Z)) := mapM range_of (split_byte ","%byte (bytes_of s)).
Definition in_ranges (p : Z) (rs : list (Z * Z)) : Prop := ∃ lo hi, (lo, hi) ∈ rs ∧ lo ≤ p ≤ hi.

Lemma digits15_plain s : digits15 s = true → Forall plain s ∧ s ≠ [].
Proof.
  unfold digits15. intros [[Hl _]%andb_prop Hd]%andb_prop. split.
  - rewrite Forall_forall. intros b Hb.
    rewrite forallb_forall in Hd. apply digit_plain, Hd. by apply list_elem_of_In.
  - intros ->. done.
Qed.

Lemma re_port_item_inv pt : re_port_item pt = true →
  Forall plain pt ∧ pt ≠ [] ∧
  ((∃ a, split_byte "-"%byte pt = [a] ∧ pt = a ∧ index_byte "-"%byte pt = None ∧ rePortRange pt = false) ∨
   ∃ a b, split_byte "-"%byte pt = [a; b] ∧ pt = a ++ "-"%byte :: b ∧ rePortRange pt = true ∧
     ∃ i, index_byte "-"%byte pt = Some (S i) ∧ firstn (S i) pt = a ∧ skipn (S (S i)) pt = b).
Proof.
  unfold re_port_item, rePortRange. pose proof (join_split "-"%byte pt) as Hj. pose proof (split_byte_pieces "-"%byte pt) as Hp.
  destruct (split_byte "-"%byte pt) as [|a [|b [|]]]; try done.
  - cbn in Hj. subst a. intros Hd. destruct (digits15_plain _ Hd) as [? ?]. split_and!; [done..|]. left.
    exists pt. split_and!; [done..| |done]. apply index_byte_None. by apply Forall_inv in Hp.
  - cbn in Hj. intros [Ha Hb]%andb_prop. destruct (digits15_plain _ Ha) as [Pa Na], (digits15_plain _ Hb) as [Pb Nb].
    apply Forall_inv in Hp. subst pt. split_and!.
    + apply Forall_app. split; [done|]. constructor; [done|done].
    + by destruct a.
    + right. exists a, b. split_and!; [done..|by rewrite Ha, Hb|]. rewrite index_byte_app by done.
      destruct a as [|x a]; [done|]. cbn [length]. exists (length a). split; [done|]. split.
      * change (S (length a)) with (length (x :: a)). apply take_app_length.
      * change (S (S (length a))) with (S (length (x :: a))). cbn [app skipn]. 
        replace (a ++ "-"%byte :: b) with ((a ++ ["-"%byte]) ++ b) by by rewrite <- app_assoc.
        apply drop_app_length'. rewrite length_app. cbn. lia.
Qed.

(** One item that passed the checks: its range, and when the packet check hits it. *)
Lemma port_item_ok pt :
  re_port_item pt = true → check_ports [pt] = inr tt →
  ∃ lo hi, range_of pt = Some (lo, hi) ∧ 0 ≤ lo ≤ hi ∧ hi < 65536 ∧
    ∀ port r, port_items (pt :: r) port = ((lo <=? port) && (port <=? hi)) || port_items r port.
Proof.
  intros Hre Hck. destruct (re_port_item_inv pt Hre) as (Hpl & Hne & Hcase).
  cbn [check_ports] in Hck. replace (Nat.eqb (length pt) 0) with false in Hck by (by destruct pt).
  assert (trim_space pt = pt) as Ht by by apply trim_space_plain.
  assert (Nat.eqb (length pt) 0 = false) as Hl by by destruct pt.
  destruct Hcase as [(a & Es & -> & Ei & Er)|(a & b & Es & Ept & Er & i & Ei & Ef & Ek)]; rewrite Er in Hck.
  - destruct (parse_uint 16 a) as [p|] eqn:Ep; [|done]. pose proof (parse_uint_range _ _ _ Ep).
    exists p, p. unfold range_of. rewrite Es, Ep. split_and!; [done|lia..|].
    intros port r. cbn [port_items]. rewrite Ht, Hl, Ei, Ep. f_equal.
    destruct (Z.eqb_spec p port), (Z.leb_spec p port), (Z.leb_spec port p); cbn; try done; lia.
  - rewrite Es in Hck. destruct (parse_uint 16 a) as [lo|] eqn:Ea; [|done].
    destruct (parse_uint 16 b) as [hi|] eqn:Eb; [|done]. destruct (Z.ltb_spec hi lo); [done|].
    pose proof (parse_uint_range _ _ _ Ea). pose proof (parse_uint_range _ _ _ Eb).
    exists lo, hi. unfold range_of. rewrite Es, Ea, Eb. split_and!; [done|lia..|].
    intros port r. cbn [port_items]. by rewrite Ht, Hl, Ei, Ef, Ek, Ea, Eb.
Qed.

Lemma check_ports_cons pt pts : re_port_item pt = true → check_ports (pt :: pts) = inr tt →
  check_ports [pt] = inr tt ∧ check_ports pts = inr tt.
Proof.
  intros Hre. cbn [check_ports]. destruct (Nat.eqb (length pt) 0); [done|]. destruct (rePortRange pt) eqn:Er.
  - unfold rePortRange in Er. destruct (split_byte _ pt) as [|a [|b [|]]]; try done.
    destruct (parse_uint 16 a); [|done]. destruct (parse_uint 16 b); [|done]. by destruct (_ <? _).
  - by destruct (parse_uint 16 pt).
Qed.

Lemma port_items_ok pts : forallb re_port_item pts = true → check_ports pts = inr tt →
  ∃ rs, mapM range_of pts = Some rs ∧ Forall (λ r, 0 ≤ r.1 ≤ r.2 ∧ r.2 < 65536) rs ∧
    ∀ port, port_items pts port = true ↔ in_ranges port rs.
Proof.
  induction pts as [|pt pts IH]; cbn [forallb].
  - intros _ _. exists []. split_and!; [done|constructor|]. intros port. split; [done|]. intros (lo & hi & H & _). by apply elem_of_nil in H.
  - intros [Hre Hall]%andb_prop Hck. destruct (check_ports_cons pt pts Hre Hck) as [H1 H2].
    destruct (port_item_ok pt Hre H1) as (lo & hi & Er & Hr & Hb & Hi). destruct (IH Hall H2) as (rs & Em & Hrs & Hps).
    exists ((lo, hi) :: rs). split_and!; [cbn; rewrite Er; cbn; by rewrite Em|constructor; [cbn; lia|done]|].
    intros port. rewrite Hi, orb_true_iff, Hps. unfold in_ranges. split.
    + intros [[Hlo Hhi]%andb_prop|(l & h & Hin & Hp)].
      * exists lo, hi. split; [left|lia].
      * exists l, h. split; [by right|done].
    + intros (l & h & [E|Hin]%elem_of_cons & Hp); [simplify_eq; left; apply andb_true_intro; lia|right; eauto].
Qed.

(** A port text the validation accepts denotes a set of ports, and the packet
    check is membership in it; the single text 0 stands for every port. *)
Lemma ports_accepted s :
  rePortsAll s = true → check_ports (split_byte ","%byte (bytes_of s)) = inr tt →
  str_trim s = s ∧ ∃ rs, port_ranges s = Some rs ∧ Forall (λ r, 0 ≤ r.1 ≤ r.2 ∧ r.2 < 65536) rs ∧
    ∀ port, ContainsPortInStr s port = true ↔ s = "0"%string ∨ in_ranges port rs.
Proof.
  intros Hre Hck. unfold rePortsAll in Hre. destruct (port_items_ok _ Hre Hck) as (rs & Em & Hrs & Hp).
  assert (Forall plain (bytes_of s)) as Hpl.
  { rewrite <- (join_split ","%byte (bytes_of s)). clear -Hre.
    induction (split_byte ","%byte (bytes_of s)) as [|w ws IH]; [constructor|].
    cbn [forallb] in Hre. apply andb_prop in Hre as [Hw Hre]. destruct (re_port_item_inv w Hw) as (Hpw & _ & _).
    cbn [join_byte]. destruct ws as [|w' ws]; [done|]. apply Forall_app. split; [done|]. constructor; [done|by apply IH]. }
  assert (str_trim s = s) as Ht by (unfold str_trim; by rewrite trim_space_plain, str_of_bytes_of).
  split; [done|]. exists rs. split_and!; [done|done|]. intros port. unfold ContainsPortInStr. rewrite Ht.
  destruct (String.eqb_spec s "") as [->|Hne]; [by cbn in Hre|]. cbn [orb].
  destruct (String.eqb_spec s "0") as [->|Hz]; [split; auto|]. rewrite Hp. split; [auto|by intros [?|?]].
Qed.

(** ** Saved rules *)
Definition proto_name (v : GroupLinkAcl) : Prop :=
  Protocol v = TCP ∧ IpProto v = 6 ∨ Protocol v = UDP ∧ IpProto v = 17 ∨ Protocol v = ICMP ∧ IpProto v = 1 ∨ Protocol v = ALL.
Definition rule_ok (v : GroupLinkAcl) : Prop :=
  proto_name v ∧ (∃ a n, ParseCIDR (acl_Val v) = Some (a, n) ∧ acl_IpNet v = Some n) ∧
  ∃ rs, port_ranges (Port v) = Some rs ∧ Forall (λ r, 0 ≤ r.1 ≤ r.2 ∧ r.2 < 65536) rs ∧
    ∀ port, ContainsPortInStr (Port v) port = true ↔ Port v = "0"%string ∨ in_ranges port rs.

Lemma check_acl_ok v w : check_acl v = inr w → rule_ok w ∧ Action w = Action v ∧ acl_Val w = acl_Val v.
Proof.
  unfold check_acl, parseIpNet. destruct (ParseCIDR (acl_Val v)) as [[a n]|] eqn:Ec; [|done].
  set (pp := if String.eqb (Protocol v) TCP then _ else _). destruct pp as [protocol proto] eqn:Epp.
  destruct (rePortsAll (Port v)) eqn:Ere; [|done].
  destruct (check_ports _) as [e|[]] eqn:Eck; [done|]. cbn [result_bind]. intros [= <-].
  destruct (ports_accepted _ Ere Eck) as (Et & rs & Er & Hrs & Hp).
  split; [|done]. unfold rule_ok, proto_name, acl_of. cbn. rewrite Et. split_and!; [|by exists a, n|by exists rs].
  subst pp. repeat case_match; simplify_eq; auto.
Qed.

Lemma check_acls_ok vs ws : check_acls vs = inr ws →
  Forall rule_ok ws ∧ ws = omap (λ v, if String.eqb (acl_Val v) "" then None
                                      else match check_acl v with inr w => Some w | inl _ => None end) vs.
Proof.
  revert ws. induction vs as [|v vs IH]; intros ws; cbn [check_acls].
  - intros [= <-]. split; [constructor|done].
  - cbn [omap list_omap]. destruct (String.eqb (acl_Val v) ""); [apply IH|].
    destruct (check_acl v) as [e|w] eqn:Ew; [done|]. cbn [result_bind].
    destruct (check_acls vs) as [e|r]; [done|]. cbn. intros [= <-]. destruct (IH r eq_refl) as [Hr Er].
    split; [constructor; [by eapply check_acl_ok|done]|]. by rewrite <- Er.
Qed.

(** ** Saved policies *)
Definition dns_ok (v : ValData) : Prop := Val v ≠ ""%string ∧ ip_String (ParseIP (Val v)) = Val v.
Definition default_route (p : Policy) : Prop := RouteInclude p = [] ∨ ∃ v, RouteInclude p = [v] ∧ Val v = "all"%string.

Record saved_ok (q : Policy) : Prop := {
  so_name : pol_Name q ≠ ""%string;
  so_acl : Forall rule_ok (LinkAcl q);
  so_dns : Forall dns_ok (ClientDns q);
  so_default : default_route q → ClientDns q ≠ [] ∧ DsIncludeDomains q = ""%string;
  so_split : DsIncludeDomains q = ""%string ∨ DsExcludeDomains q = ""%string;
  so_limits : 0 ≤ Bandwidth q ∧ 0 ≤ BandwidthUp q ∧ 0 ≤ TrafficQuota q;
  so_quota : (TrafficQuota q = 0 ∧ TrafficReset q = ""%string) ∨
             (0 < TrafficQuota q ∧ TrafficReset q ∈ ["daily"; "weekly"; "monthly"]%string);
  so_fakedns : if EnableFakeDNS q
               then (FakeDNSInclude q = ""%string ∧ FakeDNSExclude q ≠ ""%string) ∨
                    (FakeDNSInclude q ≠ ""%string ∧ FakeDNSExclude q = ""%string)
               else FakeDNSInclude q = ""%string ∧ FakeDNSExclude q = ""%string ∧ FakeDNSUpstream q = ""%string ∧
                    PreferIPv6 q = false
}.

Lemma check_dns_ok vs ws : check_dns vs = inr ws → Forall dns_ok ws.
Proof.
  revert ws. induction vs as [|v vs IH]; intros ws; cbn [check_dns]; [intros [= <-]; constructor|].
  set (u := set_Val (str_trim (Val v)) v). destruct (String.eqb_spec (Val u) ""); [apply IH|].
  destruct (String.eqb_spec (ip_String (ParseIP (Val u))) (Val u)); cbn [negb]; [|done].
  destruct (check_dns vs) as [e'|r]; [done|]. cbn. intros [= <-]. constructor; [done|by apply IH].
Qed.

Lemma check_traffic_ok p r : check_traffic p = inr r →
  0 ≤ Bandwidth p ∧ 0 ≤ BandwidthUp p ∧ 0 ≤ TrafficQuota p ∧
  ((TrafficQuota p = 0 ∧ r = ""%string) ∨ (0 < TrafficQuota p ∧ r ∈ ["daily"; "weekly"; "monthly"]%string)).
Proof.
  unfold check_traffic. destruct (Z.ltb_spec (Bandwidth p) 0); [done|]. destruct (Z.ltb_spec (BandwidthUp p) 0); [done|].
  destruct (Z.ltb_spec (TrafficQuota p) 0); [done|]. case_bool_decide as Hin; [|done]. cbn [negb].
  intros [= <-]. split_and!; [lia..|]. destruct (Z.eqb_spec (TrafficQuota p) 0) as [->|Hq]; [by left|]. right.
  rewrite (proj2 (Z.ltb_lt 0 (TrafficQuota p))) by lia. split; [lia|]. cbn [andb].
  destruct (String.eqb_spec (TrafficReset p) ""); [by do 2 right; left|]. set_solver.
Qed.

Lemma check_fakedns_ok p dns up inc exc v6 : check_fakedns p dns = inr (up, inc, exc, v6) →
  if EnableFakeDNS p then (inc = ""%string ∧ exc ≠ ""%string) ∨ (inc ≠ ""%string ∧ exc = ""%string)
  else inc = ""%string ∧ exc = ""%string ∧ up = ""%string ∧ v6 = false.
Proof.
  unfold check_fakedns. destruct (EnableFakeDNS p); cbn [negb]; [|intros; by simplify_eq].
  destruct (_ && _); [done|]. destruct (_ && _); [done|].
  set (i := str_trim (FakeDNSInclude p)). set (e := str_trim (FakeDNSExclude p)).
  destruct (String.eqb_spec i ""), (String.eqb_spec e ""); cbn [negb andb]; try done.
  all: destruct (wrap_err _ (CheckFakeDNSDomains i)) as [|[]]; [done|]; cbn [result_bind].
  all: destruct (wrap_err _ (CheckFakeDNSDomains e)) as [|[]]; [done|]; cbn [result_bind].
  all: intros [= <- <- <- <-]; auto.
Qed.

Lemma check_policy_saved p now q : check_policy p now = inr q → saved_ok q.
Proof.
  unfold check_policy. destruct (String.eqb_spec (pol_Name p) "") as [|Hname]; [done|].
  destruct (check_traffic p) as [|reset] eqn:Et; [done|]. cbn [result_bind].
  destruct (check_routes "RouteInclude" _ _) as [|inc]; [done|]. cbn [result_bind].
  destruct (check_routes "RouteExclude" _ _) as [|exc]; [done|]. cbn [result_bind].
  destruct (check_acls _) as [|acl] eqn:Ea; [done|]. cbn [result_bind].
  destruct (check_dns _) as [|dns] eqn:Ed; [done|]. cbn [result_bind].
  set (def := match inc with [] => true | [v] => String.eqb (Val v) "all" | _ => false end).
  destruct (def && Nat.eqb (length dns) 0) eqn:Hdef; [done|].
  set (dsi := str_trim (DsIncludeDomains p)). set (dse := str_trim (DsExcludeDomains p)).
  destruct (negb (String.eqb dsi "") && negb (String.eqb dse "")) eqn:Hsp; [done|].
  destruct (wrap_err _ (CheckDomainNames dsi)) as [|[]]; [done|]; cbn [result_bind].
  destruct (wrap_err _ (CheckDomainNames dse)) as [|[]]; [done|]; cbn [result_bind].
  destruct (def && negb (String.eqb dsi "")) eqn:Hdd; [done|].
  destruct (check_fakedns p dns) as [|[[[up fi] fe] v6]] eqn:Ef; [done|]. cbn [result_bind]. intros [= <-].
  destruct (check_traffic_ok _ _ Et) as (? & ? & ? & Hq). apply check_fakedns_ok in Ef.
  assert (∀ s, negb (String.eqb s "") = false → s = ""%string) as Hs.
  { intros s. destruct (String.eqb_spec s ""); done. }
  split; cbn; [done|by eapply check_acls_ok|by eapply check_dns_ok| |apply andb_false_iff in Hsp as [?|?]; auto|done|done|done].
  intros Hr. assert (def = true) as Hd.
  { unfold default_route in Hr. cbn in Hr. subst def. destruct Hr as [->|(v & -> & ->)]; [done|]. by rewrite String.eqb_refl. }
  rewrite Hd in Hdef, Hdd. split; [by intros ->|by apply Hs].
Qed.


(** ** Quota periods *)
Lemma days_of_add y m d k : days_of y m (d + k) = days_of y m d + k.
Proof. unfold days_of. lia. Qed.
Lemma days_of_today day k : let '(y, m, d) := civil day in days_of y m (d + k) = day + k.
Proof. pose proof (days_of_civil day) as H. destruct (civil day) as [[y m] d]. rewrite days_of_add. lia. Qed.
Lemma midnight_le tz t day : day_of tz t < day → t < midnight tz day.
Proof.
  intros Hd. pose proof (day_of_bounds tz t) as [_ Hb].
  assert (midnight tz (day_of tz t + 1) ≤ midnight tz day) by (unfold midnight, Second; lia). lia.
Qed.

(** The day a period ends on, as the calendar says it. *)
Definition period_end (period : string) (today day : Z) : Prop :=
  (period = "daily"%string ∧ day = today + 1) ∨
  (period = "weekly"%string ∧ weekday day = 1 ∧ today < day ≤ today + 7) ∨
  (period = "monthly"%string ∧ (civil day).2 = 1 ∧ today < day ≤ today + 31 ∧ ∀ k, today < k < day → (civil k).2 ≠ 1).

(** A quota's next reset is in the future, at a local midnight, of the next
    day, the next Monday or the next first of a month; between now and a monthly
    reset there is no other first of a month. *)
Theorem next_reset_is_period_end tz period from :
  period ∈ ["daily"; "weekly"; "monthly"]%string →
  let next := nextTrafficReset tz period from in
  from < next ∧ next = midnight tz (day_of tz next) ∧ period_end period (day_of tz from) (day_of tz next).
Proof.
  intros Hp next. unfold next, nextTrafficReset, time_Date. set (today := day_of tz from).
  pose proof (days_of_today today) as Ht. pose proof (next_month today) as Hm. destruct (civil today) as [[y m] d].
  assert (∀ day, today < day → period_end period today day →
    from < midnight tz day ∧ midnight tz day = midnight tz (day_of tz (midnight tz day)) ∧
    period_end period today (day_of tz (midnight tz day))) as Hfin.
  { intros day Hd Hpe. rewrite midnight_day. split; [by apply midnight_le|done]. }
  apply elem_of_cons in Hp as [->|Hp]; [|apply elem_of_cons in Hp as [->|Hp]; [|apply list_elem_of_singleton in Hp as ->]]; cbn.
  - rewrite Ht. apply Hfin; [lia|by left].
  - rewrite Ht. set (k := if _ =? 0 then 7 else _).
    assert (1 ≤ k ≤ 7 ∧ weekday (today + k) = 1) as [Hk Hw].
    { subst k. rewrite Z.rem_mod_nonneg by (unfold weekday; div_eqs). unfold weekday.
      destruct (Z.eqb_spec ((1 - (today + 4) mod 7 + 7) mod 7) 0); div_eqs. }
    apply Hfin; [lia|]. right; left. split_and!; [done|done|lia..].
  - destruct Hm as (Hb & Hf & Hn). apply Hfin; [lia|]. do 2 right. split_and!; [done|done|lia..|done].
Qed.

(** ** Witnesses *)
Definition ex_acl (action proto net port : string) : GroupLinkAcl :=
  {| Action := action; Protocol := proto; IpProto := 0; acl_Val := net; Port := port; Ports := None; acl_IpNet := None; acl_Note := "" |}.
Definition ex_val (v : string) : ValData := {| Val := v; IpMask := ""; vd_Note := "" |}.

(** What an administrator types: no SSH to 10.0.0.0/8, the rest of it allowed. *)
Definition ex_policy_form : Policy := {|
  pol_Id := 1; pol_Name := "staff"; pol_Note := ""; AllowLan := false;
  ClientDns := [ex_val "223.5.5.5"]; RouteInclude := []; RouteExclude := [];
  DsExcludeDomains := ""; DsIncludeDomains := "";
  LinkAcl := [ex_acl "deny" "tcp" "10.0.0.0/8" "22,8000-8100"; ex_acl "allow" "all" "10.0.0.0/8" "0";
              ex_acl "deny" "tcp" "::/0" "22"; ex_acl "allow" "all" "::/0" "0"];
  Bandwidth := 0; BandwidthUp := 0; TrafficQuota := 1000; TrafficReset := "monthly";
  EnableFakeDNS := true; FakeDNSUpstream := ""; FakeDNSInclude := "Example.com, corp.example"; FakeDNSExclude := "";
  PreferIPv6 := false; FakeDNSIncludeSet := ∅; FakeDNSExcludeSet := ∅;
  pol_Status := 1; pol_CreatedAt := 0; pol_UpdatedAt := 0 |}.
Definition ex_now : Time := 1700000000 * Second.
Definition ex_policy : Policy := match check_policy ex_policy_form ex_now with inr q => q | inl _ => ex_policy_form end.


(** From Tuesday 2023-11-14 in UTC+8, a month's quota ends on December 1. *)
Lemma next_reset_is_period_end_witness :
  civil (day_of 28800 (nextTrafficReset 28800 "monthly" ex_now)) = (2023, 12, 1) ∧
  period_end "monthly" (day_of 28800 ex_now) (day_of 28800 (nextTrafficReset 28800 "monthly" ex_now)).
Proof.
  split; [vm_compute; reflexivity|].
  assert ("monthly"%string ∈ ["daily"; "weekly"; "monthly"]%string) as Hm by (do 2 apply list_elem_of_further; constructor).
  exact (proj2 (proj2 (next_reset_is_period_end 28800 "monthly" ex_now Hm))).
Defined.
