(* ===== verification/Acl.v ===== *)
(** * The packet path of a tunnel (server/handler/payload.go, dns_intercept.go)

    What happens to a packet of a logged-in client: DNS queries for names under
    FakeDNS are answered, packets to a fake address are held back until it has
    a mapping, everything else passes the link ACL.  [waterutil] reads the
    fields of an IPv4 packet and [dns.Msg] the query; both are classes. *)
From S2P Require Export Policies Packet FakeDns.
Local Open Scope Z_scope.

(** ** Third-party readers *)

(** [waterutil.IPv4Protocol], [IPv4Destination] and [IPv4DestinationPort]. *)
Class WaterUtil := {
  IPv4Protocol : list byte → res Z;
  IPv4Destination : list byte → res IP;
  IPv4DestinationPort : list byte → res Z
}.
(** Their documented answers, on a packet that holds its header and ports.  The
    destination is a [net.IP] of the four bytes, in either of its forms. *)
Class WaterUtilLaws `{WaterUtil} : Prop := {
  IPv4Protocol_ok data : 20 ≤ len data → IPv4Protocol data = at_z data 9;
  IPv4Destination_ok data d : slice data 16 20 = Ret d → ∃ ip, IPv4Destination data = Ret ip ∧ ip_to4 ip = Some d;
  IPv4DestinationPort_ok data b0 :
    at_z data 0 = Ret b0 → Z.land b0 15 * 4 + 4 ≤ len data →
    IPv4DestinationPort data = be16 data (Z.land b0 15 * 4 + 2)
}.

(** A query: the name and type of its first question, if it has one.  An answer
    is an address and its type, or none; [Pack] can fail. *)
Inductive DnsRcode := RcodeSuccess | RcodeServerFailure.
Class DnsCodec (Msg : Type) := {
  Unpack : list byte → option Msg;
  question : Msg → option (string * Z);
  PackReply : Msg → option (Z * IP * Z) → DnsRcode → option (list byte)  (* type, address, ttl *)
}.
Definition dns_TypeA : Z := 1.
Definition dns_TypeAAAA : Z := 28.

Record Payload := { LType : Z; PType : Z; Data : list byte }.
Definition LTypeEthernet : Z := 1.
Definition LTypeIPData : Z := 2.
Definition is_ip_data (pl : Payload) : bool := (LType pl =? LTypeIPData) && (PType pl =? 0).

(** ** The link ACL *)
Section acl.
Context `{WaterUtil}.

(** The loop over the rules, behind the packet's fields. *)
Fixpoint acl_rules (rules : list GroupLinkAcl) (ipProto : Z) (ipDst : IP) (ipPort : Z) (isICMP : bool) : res bool :=
  match rules with
  | [] => Ret false
  | v :: rules =>
      if String.eqb (Protocol v) "" || String.eqb (Protocol v) ALL || (IpProto v =? ipProto) then
        match acl_IpNet v with
        | None => Panic
        | Some n =>
            if net_Contains n ipDst then
              if isICMP then Ret (String.eqb (Action v) Allow)
              else if ContainsPortInStr (Port v) ipPort then Ret (String.eqb (Action v) Allow)
              else acl_rules rules ipProto ipDst ipPort isICMP
            else acl_rules rules ipProto ipDst ipPort isICMP
        end
      else acl_rules rules ipProto ipDst ipPort isICMP
  end.

(** Destination, port and protocol of a packet; [None] is refused. *)
Definition acl_fields (data : list byte) : res (option (Z * IP * Z * bool)) :=
  let! b0 := at_z data 0 in
  let version := Z.shiftr (Z.land b0 240) 4 in
  if version =? 4 then
    let! ipProto := IPv4Protocol data in
    let! ipDst := IPv4Destination data in
    let! ipPort := IPv4DestinationPort data in
    Ret (Some (ipProto, ipDst, ipPort, ipProto =? proto_ICMP))
  else if version =? 6 then
    let! r := parseV6Header data in
    Ret (match r with
         | None => None
         | Some info =>
             if v6_Proto info =? 58 then Some (proto_ICMP, v6_Dst info, v6_DstPort info, true)
             else Some (v6_Proto info, v6_Dst info, v6_DstPort info, false)
         end)
  else Ret None.

Definition checkLinkAcl (rp : Policy) (pl : Payload) : res bool :=
  if negb (is_ip_data pl) then Ret true
  else match LinkAcl rp with
       | [] => Ret true
       | _ =>
           let! f := acl_fields (Data pl) in
           match f with
           | None => Ret false
           | Some (ipProto, ipDst, ipPort, isICMP) =>
               if existsb (λ v, String.eqb (Val v) (ip_String ipDst) && (ipPort =? 53)) (ClientDns rp) then Ret true
               else acl_rules (LinkAcl rp) ipProto ipDst ipPort isICMP
           end
       end.
End acl.

(** ** Names under FakeDNS *)

(** [matchDomainSet]: the name and its parents. *)
Fixpoint match_suffix (fuel : nat) (d : list byte) (set : gset string) : bool :=
  match fuel with
  | O => false
  | S fuel =>
      if bool_decide (str_of d ∈ set) then true
      else match index_byte "."%byte d with
           | None => false
           | Some idx => match_suffix fuel (skipn (S idx) d) set
           end
  end.
Definition matchDomainSet (domain : string) (set : gset string) : bool :=
  match_suffix (S (length (bytes_of domain))) (bytes_of domain) set.

Definition shouldUseFakeIP (domain : string) (p : Policy) : bool :=
  let domain := str_lower domain in
  if negb (bool_decide (FakeDNSIncludeSet p = ∅)) then matchDomainSet domain (FakeDNSIncludeSet p)
  else if negb (bool_decide (FakeDNSExcludeSet p = ∅)) then negb (matchDomainSet domain (FakeDNSExcludeSet p))
  else false.

Definition dnsAddrEqual (cfgVal : string) (dst : IP) : bool :=
  if String.eqb cfgVal (ip_String dst) then true
  else let ip := ParseIP cfgVal in negb (ip_nil ip) && ip_Equal ip dst.

Definition trim_dot (s : string) : string :=
  let b := bytes_of s in
  match rev b with c :: r => if beqb c "."%byte then str_of (rev r) else s | [] => s end.

(** ** The handlers *)
Section path.
Context {F D Msg : Type} `{WaterUtil, Firewall F, Resolver D, DnsCodec Msg}.
Abbreviation M := (FakeDNSManager F D).

(** Destination of a packet; [None] for a malformed one. *)
Definition packet_dst (data : list byte) : res (option IP) :=
  let! b0 := at_z data 0 in
  let version := Z.shiftr (Z.land b0 240) 4 in
  if version =? 4 then let! d := IPv4Destination data in Ret (Some d)
  else if version =? 6 then
    let! r := parseV6Header data in Ret (match r with Some info => Some (v6_Dst info) | None => None end)
  else Ret None.

(** [fd] is the connection's [FakeDNS], [None] when nil. *)
Definition isFakeIPDst (fd : option M) (rp : Policy) (pl : Payload) : res bool :=
  match fd with
  | None => Ret false
  | Some m =>
      if negb (EnableFakeDNS rp) then Ret false
      else let! d := packet_dst (Data pl) in
           Ret (match d with Some ip => IsFakeIP m ip | None => false end)
  end.

(** [restoreFakeIP]: the manager after it and whether the packet is done with. *)
Definition restoreFakeIP (fd : option M) (rp : Policy) (pl : Payload) (now : Time) : res (option M * bool) :=
  match fd with
  | None => Ret (fd, false)
  | Some m =>
      if negb (EnableFakeDNS rp) then Ret (fd, false)
      else
        let! d := packet_dst (Data pl) in
        match d with
        | None => Ret (fd, false)
        | Some ipDst =>
            if negb (IsFakeIP m ipDst) then Ret (fd, false)
            else
              let fakeIPStr := ip_String ipDst in
              let upstream := FormatUpstream (GetUpstreamDNS rp) in
              let '(m, (realIP, domain, needRefresh)) := LookupAndTouch m fakeIPStr now in
              if negb (String.eqb realIP "") then
                Ret (Some (if needRefresh then RenewMapping m fakeIPStr domain upstream else m), false)
              else if String.eqb domain "" then Ret (Some m, true)
              else Ret (Some (ResolveAndMapping m fakeIPStr domain upstream), true)
        end
  end.

(** The fields of a DNS query packet: destination, port, data, and the IPv6 header. *)
Definition dns_fields (data : list byte) : res (option (IP * Z * list byte * option v6HeaderInfo)) :=
  if len data <? 1 then Ret None
  else
    let! b0 := at_z data 0 in
    let version := Z.shiftr (Z.land b0 240) 4 in
    if version =? 4 then
      let ipHeaderLen := Z.land b0 15 * 4 in
      if (ipHeaderLen <? 20) || (60 <? ipHeaderLen) then Ret None
      else if len data <? ipHeaderLen + 8 then Ret None
      else
        let! proto := IPv4Protocol data in
        if negb (proto =? proto_UDP) then Ret None
        else
          let! ipDst := IPv4Destination data in
          let! ipPort := IPv4DestinationPort data in
          let! q := slice data (ipHeaderLen + 8) (len data) in
          Ret (Some (ipDst, ipPort, q, None))
    else if version =? 6 then
      let! r := parseV6Header data in
      match r with
      | None => Ret None
      | Some info =>
          if negb (v6_Proto info =? 17) then Ret None
          else if PacketEnd info <? L4Off info + 8 then Ret None
          else let! q := slice data (L4Off info + 8) (PacketEnd info) in
               Ret (Some (v6_Dst info, v6_DstPort info, q, Some info))
      end
    else Ret None.

Definition is_dns_server (rp : Policy) (ipDst : IP) : bool :=
  existsb (λ v, dnsAddrEqual (Val v) ipDst) (ClientDns rp)
  || (negb (String.eqb (FakeDNSUpstream rp) "") && dnsAddrEqual (FakeDNSUpstream rp) ipDst).

(** [sendDNSResponse]: a reply longer than a buffer is dropped. *)
Definition send_reply (data : list byte) (v6 : option v6HeaderInfo) (resp : list byte) : res (list (list byte)) :=
  let! p := match v6 with
            | Some info => buildDNSResponse data info true resp
            | None => buildDNSResponse data (v6_start [] []) false resp
            end in
  Ret (if BufferSize <? len p then [] else [p]).

(** What [interceptDNS] answers: the manager, the packets it sends to the client
    and whether the query is done with.  [reply] packs an answer and sends it. *)
Definition reply (m : M) (data : list byte) (v6 : option v6HeaderInfo) (msg : Msg) (ans : option (Z * IP * Z))
    (rc : DnsRcode) : res (M * list (list byte) * bool) :=
  match PackReply msg ans rc with
  | None => Ret (m, [], false)
  | Some resp => let! out := send_reply data v6 resp in Ret (m, out, true)
  end.

Definition answer_AAAA (m : M) (rp : Policy) (data : list byte) (v6 : option v6HeaderInfo) (msg : Msg)
    (domain : string) (now : Time) : res (M * list (list byte) * bool) :=
  if negb (IsV6Enabled m) then Ret (m, [], false)
  else if negb (PreferIPv6 rp) then reply m data v6 msg None RcodeSuccess
  else
    let upstream := FormatUpstream (GetUpstreamDNS rp) in
    if IsAAAANegative m domain upstream now then reply m data v6 msg None RcodeSuccess
    else
      let! a := AcquireFakeIPv6 m domain now in
      let '(m, fakeIP6) := a in
      if ip_nil fakeIP6 then reply m data v6 msg None RcodeSuccess
      else
        let '(m, err) := ResolveAndMappingSync m (ip_String fakeIP6) domain upstream now in
        match err with
        | None => reply m data v6 msg (Some (dns_TypeAAAA, fakeIP6, 60)) RcodeSuccess
        | Some _ => reply m data v6 msg None RcodeServerFailure
        end.

(** The answer to an A query with a fake address. *)
Definition answer_fake (m : M) (rp : Policy) (data : list byte) (v6 : option v6HeaderInfo) (msg : Msg)
    (domain : string) (now : Time) : res (M * list (list byte) * bool) :=
  let '(m, fakeIP) := AcquireFakeIP m domain now in
  if ip_nil fakeIP then Ret (m, [], false)
  else
    let '(m, err) := ResolveAndMappingSync m (ip_String fakeIP) domain (FormatUpstream (GetUpstreamDNS rp)) now in
    match err with
    | Some _ => Ret (m, [], false)
    | None => reply m data v6 msg (Some (dns_TypeA, fakeIP, 60)) RcodeSuccess
    end.

(** With IPv6 preferred and known to work, an A query gets no address; a failed
    allocation falls through to the fake address. *)
Definition answer_A (m : M) (rp : Policy) (data : list byte) (v6 : option v6HeaderInfo) (msg : Msg)
    (domain : string) (now : Time) : res (M * list (list byte) * bool) :=
  let upstream := FormatUpstream (GetUpstreamDNS rp) in
  if PreferIPv6 rp && IsV6Enabled m && IsAAAAPositive m domain upstream now then
    let! a := AcquireFakeIPv6 m domain now in
    let '(m, fakeIP6) := a in
    if ip_nil fakeIP6 then answer_fake m rp data v6 msg domain now
    else reply (ResolveAndMapping m (ip_String fakeIP6) domain upstream) data v6 msg None RcodeSuccess
  else answer_fake m rp data v6 msg domain now.

Definition interceptDNS (fd : option M) (rp : Policy) (pl : Payload) (now : Time)
    : res (option M * list (list byte) * bool) :=
  match fd with
  | None => Ret (fd, [], false)
  | Some m =>
      if negb (EnableFakeDNS rp) || negb (is_ip_data pl) then Ret (fd, [], false)
      else
        let! f := dns_fields (Data pl) in
        match f with
        | None => Ret (fd, [], false)
        | Some (ipDst, ipPort, dnsData, v6) =>
            if negb (ipPort =? 53) || negb (is_dns_server rp ipDst) then Ret (fd, [], false)
            else
              match Unpack dnsData with
              | None => Ret (fd, [], false)
              | Some msg =>
                  match question msg with
                  | None => Ret (fd, [], false)
                  | Some (name, qType) =>
                      let domain := trim_dot name in
                      if (qType =? dns_TypeAAAA) && shouldUseFakeIP domain rp then
                        let! r := answer_AAAA m rp (Data pl) v6 msg domain now in
                        Ret (Some r.1.1, r.1.2, r.2)
                      else if negb (qType =? dns_TypeA) || negb (shouldUseFakeIP domain rp) then Ret (fd, [], false)
                      else
                        let! r := answer_A m rp (Data pl) v6 msg domain now in
                        Ret (Some r.1.1, r.1.2, r.2)
                  end
              end
        end
  end.

(** [payloadIn] up to its channel: the manager, the packets sent to the client,
    and whether the packet goes on into the network. *)
Definition payloadIn (fd : option M) (rp : Policy) (pl : Payload) (now : Time)
    : res (option M * list (list byte) * bool) :=
  let! r := interceptDNS fd rp pl now in
  let '(fd, out, done) := r in
  if (done : bool) then Ret (fd, out, false)
  else
    let! r := restoreFakeIP fd rp pl now in
    let '(fd, done) := r in
    if (done : bool) then Ret (fd, out, false)
    else if is_ip_data pl then
      let! fake := isFakeIPDst fd rp pl in
      if (fake : bool) then Ret (fd, out, true)
      else let! ok := checkLinkAcl rp pl in Ret (fd, out, ok)
    else Ret (fd, out, true).
End path.
