(* ===== verification/AclSpec.v ===== *)
(** * The packet path: first-match ACL, fragments, names under FakeDNS, answers
    that are forwarded *)
From S2P Require Import Acl PoliciesSpec PacketSpec FakeDnsSpec.
Local Open Scope Z_scope.

(** ** The ACL an administrator reads

    A rule matches a packet by protocol, network and, unless it is ICMP, by the
    set of ports its text denotes; the first match decides and nothing means
    refusal. *)
Record flow := { fl_proto : Z; fl_dst : IP; fl_port : Z; fl_icmp : bool }.

Definition rule_matches (v : GroupLinkAcl) (f : flow) : Prop :=
  (Protocol v = ""%string ∨ Protocol v = ALL ∨ IpProto v = fl_proto f) ∧
  (∃ n, acl_IpNet v = Some n ∧ net_Contains n (fl_dst f) = true) ∧
  (fl_icmp f = true ∨ Port v = "0"%string ∨ ∃ rs, port_ranges (Port v) = Some rs ∧ in_ranges (fl_port f) rs).

Inductive verdict (f : flow) : list GroupLinkAcl → bool → Prop :=
| verdict_none : verdict f [] false
| verdict_hit v rules : rule_matches v f → verdict f (v :: rules) (String.eqb (Action v) Allow)
| verdict_skip v rules b : ¬ rule_matches v f → verdict f rules b → verdict f (v :: rules) b.

(** What the policy says of a flow. *)
Definition policy_allows (rp : Policy) (f : flow) : Prop :=
  LinkAcl rp = [] ∨ (fl_port f = 53 ∧ ip_String (fl_dst f) ∈ Val <$> ClientDns rp) ∨ verdict f (LinkAcl rp) true.

Lemma verdict_fun f rules b c : verdict f rules b → verdict f rules c → b = c.
Proof. intros Hb. revert c. induction Hb; intros c Hc; inversion Hc; subst; try done; by apply IHHb. Qed.

(** *** The two forms of an IPv4 address

    A [net.IP] of an IPv4 address has four bytes or sixteen; nothing the policy
    says depends on which. *)
Definition same_addr (a b : IP) : Prop := a = b ∨ ∃ d, ip_to4 a = Some d ∧ ip_to4 b = Some d.

#[export] Instance same_addr_equiv : Equivalence same_addr.
Proof.
  split; [by left|intros a b [->|(d & ? & ?)]; [by left|right; eauto]|].
  intros a b c [->|(d & Ha & Hb)]; [done|]. intros [<-|(e & Hb' & Hc)]; right; [eauto|]. rewrite Hb in Hb'. simplify_eq. eauto.
Qed.
#[export] Instance ip_String_proper : Proper (same_addr ==> eq) ip_String.
Proof.
  intros a b [->|(d & Ha & Hb)]; [done|]. unfold ip_String. destruct a, b; [done..|]. by rewrite Ha, Hb.
Qed.
#[export] Instance net_Contains_proper : Proper (eq ==> same_addr ==> eq) net_Contains.
Proof. intros n ? <- a b [->|(d & Ha & Hb)]; [done|]. unfold net_Contains. by rewrite Ha, Hb. Qed.

Definition same_flow (f g : flow) : Prop :=
  fl_proto f = fl_proto g ∧ same_addr (fl_dst f) (fl_dst g) ∧ fl_port f = fl_port g ∧ fl_icmp f = fl_icmp g.
#[export] Instance same_flow_sym : Symmetric same_flow.
Proof. intros f g (E1 & E2 & E3 & E4). split_and!; by symmetry. Qed.
#[export] Instance rule_matches_proper : Proper (eq ==> same_flow ==> iff) rule_matches.
Proof.
  intros v ? <- f g (E1 & E2 & E3 & E4). unfold rule_matches. rewrite E1, E3, E4.
  split; intros (H1 & (n & Hn & Hc) & H3); (split_and!; [done| |done]); exists n; split; [done| |done|];
    [by rewrite <- E2|by rewrite E2].
Qed.
Lemma verdict_same_flow f g rules b : same_flow f g → verdict f rules b → verdict g rules b.
Proof.
  intros Hfg. induction 1 as [|v rules Hm|v rules b Hm Hv IH]; [constructor| |].
  - apply verdict_hit. by rewrite <- Hfg.
  - apply verdict_skip; [by rewrite <- Hfg|done].
Qed.
#[export] Instance policy_allows_proper : Proper (eq ==> same_flow ==> iff) policy_allows.
Proof.
  assert (∀ rp f g, same_flow f g → policy_allows rp f → policy_allows rp g) as Hw.
  { intros rp f g Hfg [?|[[Hp Hd]|Hv]]; [by left| |right; right; by eapply verdict_same_flow].
    destruct Hfg as (_ & Ed & Ep & _). right; left. by rewrite <- Ep, <- Ed. }
  intros rp ? <- f g Hfg. split; apply Hw; [done|by symmetry].
Qed.

(** ** Flows of packets *)
Inductive packet_flow (data : list byte) : flow → Prop :=
| flow4 b0 proto dst port :
    at_z data 0 = Ret b0 → Z.shiftr (Z.land b0 240) 4 = 4 → 20 ≤ len data → Z.land b0 15 * 4 + 4 ≤ len data →
    at_z data 9 = Ret proto → slice data 16 20 = Ret dst → be16 data (Z.land b0 15 * 4 + 2) = Ret port →
    packet_flow data {| fl_proto := proto; fl_dst := dst; fl_port := port; fl_icmp := proto =? 1 |}
| flow6 src dst es proto sp dp rest pad :
    len src = 16 → len dst = 16 → (length es ≤ 11)%nat → Forall ext_ok es → upper_hdr proto sp dp rest →
    len (chain es proto (put16 sp ++ put16 dp ++ rest)).2 < 65536 →
    data = v6_packet src dst es proto (put16 sp ++ put16 dp ++ rest) pad →
    packet_flow data {| fl_proto := proto; fl_dst := dst; fl_port := dp; fl_icmp := false |}.

Section acl_spec.
Context `{WaterUtilLaws}.

Lemma acl_rules_spec f rules :
  Forall rule_ok rules →
  ∃ b, acl_rules rules (fl_proto f) (fl_dst f) (fl_port f) (fl_icmp f) = Ret b ∧ verdict f rules b.
Proof.
  induction 1 as [|v rules Hv Hrules (b & Eb & Hb)]; [exists false; by split; [|constructor]|].
  cbn [acl_rules]. destruct Hv as (_ & (a & n & _ & En) & rs & Ers & _ & Hp). rewrite En.
  set (pm := String.eqb (Protocol v) "" || String.eqb (Protocol v) ALL || (IpProto v =? fl_proto f)).
  assert (pm = true ↔ Protocol v = ""%string ∨ Protocol v = ALL ∨ IpProto v = fl_proto f) as Hpm.
  { subst pm. rewrite !orb_true_iff, !String.eqb_eq, Z.eqb_eq. tauto. }
  assert (∀ P : Prop, ¬ rule_matches v f → ∃ b, acl_rules rules (fl_proto f) (fl_dst f) (fl_port f) (fl_icmp f) = Ret b ∧ verdict f (v :: rules) b) as Hskip.
  { intros _ Hn. exists b. split; [done|]. by apply verdict_skip. }
  destruct pm.
  - destruct (net_Contains n (fl_dst f)) eqn:Ec.
    + destruct (fl_icmp f) eqn:Ei.
      * eexists. split; [done|]. apply verdict_hit. split; [tauto|]. split; [by exists n|]. by left.
      * destruct (ContainsPortInStr (Port v) (fl_port f)) eqn:Et.
        -- eexists. split; [done|]. apply verdict_hit. split; [tauto|]. split; [by exists n|]. right.
           apply Hp in Et as [->|?]; [by left|right; by exists rs].
        -- apply (Hskip True). intros (_ & _ & [?|[Hz|(rs' & Ers' & Hin)]]); [congruence| |]; simplify_eq.
           ++ assert (ContainsPortInStr (Port v) (fl_port f) = true) by (apply Hp; by left). congruence.
           ++ assert (ContainsPortInStr (Port v) (fl_port f) = true) by (apply Hp; by right). congruence.
    + apply (Hskip True). intros (_ & (n' & En' & Hc) & _). congruence.
  - apply (Hskip True). intros (Hm & _). apply Hpm in Hm. done.
Qed.

Lemma acl_fields_flow data f : packet_flow data f →
  ∃ g, acl_fields data = Ret (Some (fl_proto g, fl_dst g, fl_port g, fl_icmp g)) ∧ same_flow g f.
Proof.
  intros Hf. unfold acl_fields. destruct Hf as [b0 proto dst port H0' Hv Hl Hh Hp Hd Hpt|src dst es proto sp dp rest pad Hs Hd Hn Hok Hu Hl ->].
  - rewrite H0'. cbn [res_bind]. rewrite Hv. cbn [Z.eqb Pos.eqb].
    rewrite IPv4Protocol_ok, Hp by done. cbn [res_bind]. destruct (IPv4Destination_ok data dst Hd) as (ip & -> & Eip). cbn [res_bind].
    rewrite (IPv4DestinationPort_ok data b0 H0' Hh), Hpt.
    exists {| fl_proto := proto; fl_dst := ip; fl_port := port; fl_icmp := proto =? 1 |}. split; [done|].
    split_and!; try done. right. exists dst. split; [done|]. apply ip_to4_v4.
    apply slice_len in Hd. unfold len in Hd. lia.
  - destruct (parseV6Header_packet src dst es proto sp dp rest pad Hs Hd Hn Hok Hu Hl) as (i & Hi & _ & E2 & E3 & _ & E5 & _).
    assert (at_z (v6_packet src dst es proto (put16 sp ++ put16 dp ++ rest) pad) 0 = Ret 96) as ->.
    { unfold v6_packet. destruct (chain _ _ _) as [nh bs]. exact (at_cur_at _ 0 (z2b 96) _ (at_cur_start _)). }
    cbn [res_bind]. change (Z.shiftr (Z.land 96 240) 4) with 6. cbn [Z.eqb Pos.eqb]. rewrite Hi. cbn [res_bind].
    replace (v6_Proto i =? 58) with false;
      [exists {| fl_proto := proto; fl_dst := dst; fl_port := dp; fl_icmp := false |}; rewrite E2, E3, E5; by repeat split; left|].
    symmetry. apply Z.eqb_neq. destruct Hu as [[[-> _]|[-> _]] _]; lia.
Qed.

(** C7. The packet check implements the ACL as it is read: for a policy that
    passed validation, a complete IPv4 packet, or an IPv6 TCP or UDP packet
    behind any chain of extension headers, goes through exactly when the list is
    empty, it is DNS to a resolver of the policy, or the first rule that matches
    its protocol, network and port set allows it. *)
Theorem acl_refines_first_match rp pl f :
  saved_ok rp → is_ip_data pl = true → packet_flow (Data pl) f →
  ∃ b, checkLinkAcl rp pl = Ret b ∧ (b = true ↔ policy_allows rp f).
Proof.
  intros Hrp Hpl Hf. destruct (acl_fields_flow _ _ Hf) as (g & Hg & Hs). setoid_rewrite <- Hs. clear f Hf Hs. rename g into f.
  unfold checkLinkAcl, policy_allows. rewrite Hpl. cbn [negb].
  destruct (LinkAcl rp) as [|v vs] eqn:El; [exists true; split; [done|tauto]|]. rewrite <- El, Hg. cbn [res_bind].
  set (dns := existsb _ (ClientDns rp)).
  assert (dns = true ↔ fl_port f = 53 ∧ ip_String (fl_dst f) ∈ Val <$> ClientDns rp) as Hdns.
  { subst dns. rewrite existsb_exists, list_elem_of_fmap. split.
    - intros (u & Hin & [E1%String.eqb_eq E2%Z.eqb_eq]%andb_prop). split; [done|]. exists u. split; [done|by apply list_elem_of_In].
    - intros (E2 & u & E1 & Hin). exists u. split; [by apply list_elem_of_In|]. rewrite E1, E2, String.eqb_refl. done. }
  destruct dns; [exists true; split; [done|tauto]|].
  destruct (acl_rules_spec f (LinkAcl rp) (so_acl rp Hrp)) as (b & -> & Hb). exists b. split; [done|]. split.
  - intros ->. auto.
  - intros [E|[Hd|Hv]]; [congruence| |exact (verdict_fun f _ _ _ Hb Hv)]. discriminate (proj2 Hdns Hd).
Qed.
End acl_spec.

(** ** Names under FakeDNS *)
Lemma index_byte_Some c s i : index_byte c s = Some i → ∃ w r, s = w ++ c :: r ∧ c ∉ w ∧ skipn (S i) s = r.
Proof.
  revert i. induction s as [|x s IH]; intros i; [done|]. cbn [index_byte]. destruct (beqb x c) eqn:E.
  - apply beqb_true in E as ->. intros [= <-]. exists [], s. split_and!; [done|apply not_elem_of_nil|done].
  - apply beqb_false in E. destruct (index_byte c s) as [j|]; [|done]. intros [= <-].
    destruct (IH j eq_refl) as (w & r & -> & Hw & Hr). exists (x :: w), r. split_and!; [done| |exact Hr].
    intros [->|?]%elem_of_cons; done.
Qed.

Definition parent_of (s d : list byte) : Prop := d = s ∨ ∃ pre, d = pre ++ "."%byte :: s.

Lemma match_suffix_spec set fuel : ∀ d, (length d < fuel)%nat →
  match_suffix fuel d set = true ↔ ∃ s, str_of s ∈ set ∧ parent_of s d.
Proof.
  induction fuel as [|fuel IH]; intros d Hd; [lia|]. cbn [match_suffix]. case_bool_decide as Hin.
  { split; [|done]. intros _. exists d. split; [done|by left]. }
  destruct (index_byte "."%byte d) as [i|] eqn:Ei.
  - destruct (index_byte_Some _ _ _ Ei) as (w & r & -> & Hw & ->). rewrite IH by (rewrite length_app in Hd; cbn in Hd; lia).
    split; intros (s & Hs & Hp); exists s; (split; [done|]).
    + destruct Hp as [->|[pre ->]]; right; [by exists w|]. exists (w ++ "."%byte :: pre). by rewrite <- app_assoc.
    + destruct Hp as [<-|[pre E]]; [done|]. apply app_eq_inv in E as [(k & -> & E)|(k & -> & E)].
      * destruct k as [|y k]; cbn in E; simplify_eq; [by left|]. exfalso. apply Hw. set_solver.
      * destruct k as [|y k]; cbn in E; simplify_eq; [by left|]. right. by exists k.
  - split; [done|]. intros (s & Hs & [->|[pre ->]]); [done|]. exfalso.
    assert (∀ l, index_byte "."%byte (l ++ "."%byte :: s) ≠ None) as Hne; [|by eapply Hne].
    intros l. induction l as [|x l IHl]; cbn; [by rewrite beqb_refl|]. destruct (beqb x _); [done|].
    destruct (index_byte "."%byte (l ++ "."%byte :: s)); [done|exact (λ _, IHl eq_refl)].
Qed.

(** A domain list covers a name exactly when it has the name or one of its
    parent domains: a suffix of the name behind a dot. *)
Theorem matchDomainSet_suffixes domain set :
  matchDomainSet domain set = true ↔
  ∃ s, s ∈ set ∧ (domain = s ∨ ∃ pre, bytes_of domain = pre ++ "."%byte :: bytes_of s).
Proof.
  unfold matchDomainSet. rewrite match_suffix_spec by lia. split.
  - intros (s & Hs & Hp). exists (str_of s). split; [done|]. rewrite bytes_of_str_of. destruct Hp as [E|[pre E]]; [left|eauto].
    by rewrite <- (str_of_bytes_of domain), E.
  - intros (s & Hs & Hp). exists (bytes_of s). rewrite str_of_bytes_of. split; [done|].
    destruct Hp as [->|[pre E]]; [by left|right; eauto].
Qed.

(** ** Fragments

    [v6_fragment more off]: a fragment of the payload [frag] whose upper
    protocol is [proto]. *)
Definition v6_fragment (src dst : IP) (proto id off : Z) (more : bool) (frag : list byte) : list byte :=
  [z2b 96; z2b 0; z2b 0; z2b 0] ++ put16 (8 + len frag) ++ [z2b 44; z2b 64] ++ src ++ dst ++
  [z2b proto; z2b 0] ++ put16 (off * 8 + (if more then 1 else 0)) ++ put32 id ++ frag.

Definition frag_info (src dst : IP) (off : Z) (more : bool) (id : Z) : v6HeaderInfo :=
  v6_set_fragment (off * 8 + (if more then 1 else 0)) id (v6_start src dst).

(** The parser comes to the fragment's data, at offset 48. *)
Lemma v6_fragment_parse src dst proto id off more frag :
  len src = 16 → len dst = 16 → 0 ≤ proto < 256 → 0 ≤ id < 2 ^ 32 → 0 ≤ off < 8192 → len frag < 65500 →
  let data := v6_fragment src dst proto id off more frag in
  at_cur data 48 frag ∧ at_z data 0 = Ret 96 ∧
  ∃ x, parseV6Header data = v6_headers 11 data (48 + len frag) (frag_info src dst off more x) proto 48.
Proof.
  intros Hs Hd Hp Hid Hoff Hl data. pose proof (len_nonneg frag) as Hn.
  assert (at_cur data 0 ([z2b 96; z2b 0; z2b 0; z2b 0] ++ put16 (8 + len frag) ++ [z2b 44; z2b 64] ++ src ++ dst ++
    [z2b proto; z2b 0] ++ put16 (off * 8 + (if more then 1 else 0)) ++ put32 id ++ frag)) as H0' by apply at_cur_start.
  pose proof (at_cur_app _ _ _ _ H0') as H4. change (0 + len [z2b 96; z2b 0; z2b 0; z2b 0]) with 4 in H4.
  pose proof (at_cur_app _ _ _ _ H4) as H6. change (4 + len (put16 (8 + len frag))) with 6 in H6.
  pose proof (at_cur_app _ _ _ _ H6) as H8. change (6 + len [z2b 44; z2b 64]) with 8 in H8.
  pose proof (at_cur_app _ _ _ _ H8) as H24. rewrite Hs in H24. change (8 + 16) with 24 in H24.
  pose proof (at_cur_app _ _ _ _ H24) as H40. rewrite Hd in H40. change (24 + 16) with 40 in H40.
  pose proof (at_cur_app _ _ _ _ H40) as H42. change (40 + len [z2b proto; z2b 0]) with 42 in H42.
  pose proof (at_cur_app _ _ _ _ H42) as H44. change (42 + len (put16 (off * 8 + (if more then 1 else 0)))) with 44 in H44.
  pose proof (at_cur_app _ _ _ _ H44) as H48. change (44 + len (put32 id)) with 48 in H48.
  pose proof (at_cur_len _ _ _ H48) as Hlen. split; [done|].
  split; [exact (at_cur_at _ 0 (z2b 96) _ H0')|].
  unfold parseV6Header. destruct (Z.ltb_spec (len data) 40); [lia|].
  rewrite (at_cur_at _ _ _ _ H0'). cbn [res_bind]. change (b2z (z2b 96)) with 96. change (Z.shiftr 96 4 =? 6) with true. cbn [negb].
  assert (0 ≤ 8 + len frag < 65536) as Hpl by lia. rewrite (at_cur_be16 _ _ _ _ Hpl H4).
  cbn [res_bind]. destruct (Z.ltb_spec (len data) (40 + (8 + len frag))); [lia|].
  cbn [app] in H6. rewrite (at_cur_at _ _ _ _ H6). cbn [res_bind]. change (b2z (z2b 44)) with 44.
  pose proof (at_cur_slice _ _ _ _ H8) as S8. rewrite Hs in S8. change (8 + 16) with 24 in S8. rewrite S8. cbn [res_bind].
  pose proof (at_cur_slice _ _ _ _ H24) as S24. rewrite Hd in S24. change (24 + 16) with 40 in S24. rewrite S24. cbn [res_bind].
  assert (0 ≤ off * 8 + (if more then 1 else 0) < 65536) as Hf by (destruct more; lia).
  pose proof (at_cur_be16 _ _ _ _ Hf H42) as Ef. destruct (at_cur_be32 _ _ _ _ Hid H44) as [x Ex].
  cbn [app] in H40. pose proof (at_cur_at _ _ _ _ H40) as En. rewrite b2z_z2b_small in En by lia.
  exists x. unfold maxExtHdrs. rewrite v6_headers_S, (v6_step_frag _ data (40 + (8 + len frag)) _ 40 _ _ _ ltac:(lia) Ef Ex En).
  change (40 + 8) with 48. replace (40 + (8 + len frag)) with (48 + len frag) by lia.
  destruct (Z.ltb_spec (48 + len frag) 48); [lia|]. reflexivity.
Qed.

Lemma frag_info_flags src dst off more x : 0 ≤ off < 8192 →
  FragmentOffset (frag_info src dst off more x) = off * 8 ∧ MoreFragments (frag_info src dst off more x) = more.
Proof.
  intros Hoff. unfold frag_info, v6_set_fragment. cbn [FragmentOffset MoreFragments]. split.
  - rewrite Z.shiftr_div_pow2 by lia. change (2 ^ 3) with 8.
    replace ((off * 8 + (if more then 1 else 0)) / 8) with off by (destruct more; div_eqs). apply wrap_small. lia.
  - change 1 with (Z.ones 1) at 2. rewrite Z.land_ones by lia. change (2 ^ 1) with 2.
    assert ((off * 8 + (if more then 1 else 0)) mod 2 = if more then 1 else 0) as -> by (destruct more; div_eqs). by destruct more.
Qed.

(** The ports of a fragment that does not hold them are read as 0. *)
Lemma v6_upper_no_ports data pend src dst off more x proto o :
  0 ≤ off < 8192 → 0 < off ∨ (more = true ∧ pend < o + 4) →
  v6_upper data pend (frag_info src dst off more x) proto o =
    Ret (Some (v6_set_upper proto o pend (frag_info src dst off more x))).
Proof.
  intros Hoff Hs. destruct (frag_info_flags src dst off more x Hoff) as [Ef Em].
  unfold v6_upper. set (j := v6_set_upper _ _ _ _). change (IsFragment j) with true.
  change (FragmentOffset j) with (FragmentOffset (frag_info src dst off more x)).
  change (MoreFragments j) with (MoreFragments (frag_info src dst off more x)). rewrite Ef, Em. cbn [andb].
  destruct (Z.eqb_spec (off * 8) 0) as [E|]; [|done]. destruct Hs as [?|[-> Hs]]; [lia|]. cbn [negb].
  destruct (Z.leb_spec (o + 4) pend); [lia|]. done.
Qed.

(** A packet cut in two behind a destination-options header: the first fragment
    has only that header, the second the whole TCP segment. *)
Definition pad_options (nh : Z) : list byte := [z2b nh; z2b 0; z2b 1; z2b 4; z2b 0; z2b 0; z2b 0; z2b 0].
Definition first_fragment (src dst : IP) (id : Z) : list byte := v6_fragment src dst 60 id 0 true (pad_options 6).
Definition second_fragment (src dst : IP) (id : Z) (seg : list byte) : list byte := v6_fragment src dst 6 id 1 false seg.

Section fragments.
Context `{WaterUtil}.

Lemma acl_fields_info data b0 i :
  at_z data 0 = Ret 96 → parseV6Header data = Ret (Some i) → v6_Proto i = b0 → b0 ≠ 58 →
  acl_fields data = Ret (Some (b0, v6_Dst i, v6_DstPort i, false)).
Proof.
  intros E0 Ei <- Hn. unfold acl_fields. rewrite E0. cbn [res_bind]. change (Z.shiftr (Z.land 96 240) 4) with 6.
  cbn [Z.eqb Pos.eqb]. rewrite Ei. cbn [res_bind]. by rewrite (proj2 (Z.eqb_neq _ 58)).
Qed.

Lemma first_fragment_fields src dst id : len src = 16 → len dst = 16 → 0 ≤ id < 2 ^ 32 →
  acl_fields (first_fragment src dst id) = Ret (Some (6, dst, 0, false)).
Proof.
  intros Hs Hd Hid. unfold first_fragment.
  destruct (v6_fragment_parse src dst 60 id 0 true (pad_options 6) Hs Hd ltac:(lia) Hid ltac:(lia) ltac:(change (len (pad_options 6)) with 8; lia)) as (Hc & H0' & x & Hp).
  apply (acl_fields_info _ 6 (v6_set_upper 6 56 56 (frag_info src dst 0 true x))); [done| |done|lia].
  rewrite Hp. set (data := v6_fragment _ _ _ _ _ _ _) in *. change (48 + len (pad_options 6)) with 56.
  unfold pad_options in Hc. pose proof (at_cur_at _ _ _ _ Hc) as E48. apply at_cur_cons in Hc. pose proof (at_cur_at _ _ _ _ Hc) as E49.
  change (48 + 1) with 49 in E49.
  rewrite v6_headers_S, (v6_step_opts _ data 56 _ 60 48 0 6); [|by do 2 apply list_elem_of_further; constructor|lia|exact E49|exact E48].
  change (48 + (0 + 1) * 8) with 56. change (56 <? 56) with false. cbv beta iota.
  rewrite v6_headers_S, v6_step_upper by auto. apply v6_upper_no_ports; [lia|]. right. split; [done|lia].
Qed.

Lemma second_fragment_fields src dst id seg : len src = 16 → len dst = 16 → 0 ≤ id < 2 ^ 32 → len seg < 65500 →
  acl_fields (second_fragment src dst id seg) = Ret (Some (6, dst, 0, false)).
Proof.
  intros Hs Hd Hid Hl. unfold second_fragment.
  destruct (v6_fragment_parse src dst 6 id 1 false seg Hs Hd ltac:(lia) Hid ltac:(lia) Hl) as (Hc & H0' & x & Hp).
  apply (acl_fields_info _ 6 (v6_set_upper 6 48 (48 + len seg) (frag_info src dst 1 false x))); [done| |done|lia].
  rewrite Hp, v6_headers_S, v6_step_upper by auto. apply v6_upper_no_ports; [lia|]. by left.
Qed.

(** The rules decide on the flow the fields name. *)
Lemma checkLinkAcl_fields rp pl proto dst port :
  saved_ok rp → is_ip_data pl = true → LinkAcl rp ≠ [] → port ≠ 53 →
  acl_fields (Data pl) = Ret (Some (proto, dst, port, false)) →
  ∃ b, checkLinkAcl rp pl = Ret b ∧ verdict {| fl_proto := proto; fl_dst := dst; fl_port := port; fl_icmp := false |} (LinkAcl rp) b.
Proof.
  intros Hrp Hpl Hne Hport Hf. unfold checkLinkAcl. rewrite Hpl. cbn [negb].
  destruct (LinkAcl rp) as [|v vs] eqn:El; [done|]. rewrite Hf. cbn [res_bind]. rewrite (proj2 (Z.eqb_neq port 53) Hport).
  assert (∀ us, existsb (λ u, String.eqb (Val u) (ip_String dst) && false) us = false) as ->
    by (intros us; induction us as [|u us IH]; cbn; [done|by rewrite andb_false_r]).
  rewrite <- El. apply (acl_rules_spec {| fl_proto := proto; fl_dst := dst; fl_port := port; fl_icmp := false |}).
  exact (so_acl rp Hrp).
Qed.

(** C11. A client evades a rule that refuses some ports: whatever TCP segment it
    sends, cut behind an options header both fragments are judged as packets to
    port 0, so when a rule such as allow-the-rest covers port 0 they pass,
    whichever port the segment is for. *)
Theorem fragments_evade_port_rules rp src dst id seg :
  saved_ok rp → len src = 16 → len dst = 16 → 0 ≤ id < 2 ^ 32 → len seg < 65500 →
  verdict {| fl_proto := 6; fl_dst := dst; fl_port := 0; fl_icmp := false |} (LinkAcl rp) true →
  checkLinkAcl rp {| LType := LTypeIPData; PType := 0; Data := first_fragment src dst id |} = Ret true ∧
  checkLinkAcl rp {| LType := LTypeIPData; PType := 0; Data := second_fragment src dst id seg |} = Ret true.
Proof.
  intros Hrp Hs Hd Hid Hl Hv. assert (LinkAcl rp ≠ []) as Hne by (intros E; rewrite E in Hv; inversion Hv).
  split.
  - destruct (checkLinkAcl_fields rp {| LType := LTypeIPData; PType := 0; Data := first_fragment src dst id |} 6 dst 0 Hrp eq_refl Hne
      ltac:(lia) (first_fragment_fields src dst id Hs Hd Hid)) as (b & -> & Hb). by rewrite (verdict_fun _ _ _ _ Hb Hv).
  - destruct (checkLinkAcl_fields rp {| LType := LTypeIPData; PType := 0; Data := second_fragment src dst id seg |} 6 dst 0 Hrp eq_refl Hne
      ltac:(lia) (second_fragment_fields src dst id seg Hs Hd Hid Hl)) as (b & -> & Hb). by rewrite (verdict_fun _ _ _ _ Hb Hv).
Qed.
End fragments.

(** ** Witnesses *)

(** A reader that gives addresses in the sixteen-byte form. *)
#[export] Instance ex_reader : WaterUtil := {
  IPv4Protocol data := at_z data 9;
  IPv4Destination data := let! d := slice data 16 20 in Ret (v4_in_v6_prefix ++ d);
  IPv4DestinationPort data := let! b := at_z data 0 in be16 data (Z.land b 15 * 4 + 2)
}.
#[export] Instance ex_reader_laws : WaterUtilLaws.
Proof.
  split; [done| |].
  - intros data d E. cbn. rewrite E. eexists. split; [done|]. apply ip_to4_mapped. apply slice_len in E. unfold len in E. lia.
  - intros data b0 E _. cbn. by rewrite E.
Qed.

(** A TCP segment for 10.1.2.3. *)
Definition ex_tcp4 (port : Z) : Payload := {| LType := LTypeIPData; PType := 0;
  Data := [z2b 69; z2b 0] ++ put16 40 ++ zs 4 ++ [z2b 64; z2b 6] ++ zs 2 ++ [z2b 10; z2b 8; z2b 0; z2b 2; z2b 10; z2b 1; z2b 2; z2b 3] ++
          put16 40000 ++ put16 port ++ zs 16 |}.
Definition ex_flow4 (port : Z) : flow := {| fl_proto := 6; fl_dst := [z2b 10; z2b 1; z2b 2; z2b 3]; fl_port := port; fl_icmp := false |}.
Lemma ex_policy_ok : saved_ok ex_policy.
Proof. apply (check_policy_saved ex_policy_form ex_now). vm_compute. reflexivity. Qed.

Lemma acl_refines_first_match_witness :
  ¬ policy_allows ex_policy (ex_flow4 22) ∧ policy_allows ex_policy (ex_flow4 443).
Proof.
  assert (∀ port, at_z (Data (ex_tcp4 port)) 0 = Ret 69 ∧ len (Data (ex_tcp4 port)) = 40 ∧ at_z (Data (ex_tcp4 port)) 9 = Ret 6 ∧
            slice (Data (ex_tcp4 port)) 16 20 = Ret (fl_dst (ex_flow4 port))) as Hd by (intros; split_and!; reflexivity).
  assert (be16 (Data (ex_tcp4 22)) 22 = Ret 22 ∧ be16 (Data (ex_tcp4 443)) 22 = Ret 443) as [P22 P443] by (split; vm_compute; reflexivity).
  assert (∀ port, be16 (Data (ex_tcp4 port)) 22 = Ret port → packet_flow (Data (ex_tcp4 port)) (ex_flow4 port)) as Hf.
  { intros port Hp. destruct (Hd port) as (E0 & El & E9 & Es).
    exact (flow4 (Data (ex_tcp4 port)) 69 6 _ port E0 eq_refl ltac:(rewrite El; lia) ltac:(rewrite El; vm_compute; discriminate) E9 Es Hp). }
  destruct (acl_refines_first_match ex_policy (ex_tcp4 22) (ex_flow4 22) ex_policy_ok eq_refl (Hf 22 P22)) as (b & Eb & Hb).
  destruct (acl_refines_first_match ex_policy (ex_tcp4 443) (ex_flow4 443) ex_policy_ok eq_refl (Hf 443 P443)) as (c & Ec & Hc).
  assert (checkLinkAcl ex_policy (ex_tcp4 22) = Ret false ∧ checkLinkAcl ex_policy (ex_tcp4 443) = Ret true) as [F T]
    by (split; vm_compute; reflexivity).
  rewrite Eb in F. rewrite Ec in T. injection F as ->. injection T as ->. split.
  - intros Ha. discriminate (proj2 Hb Ha).
  - exact (proj1 Hc eq_refl).
Defined.

(** The segment of an SSH connection: whole it is refused, cut in two it passes. *)
Definition ex_ssh : list byte := put16 40000 ++ put16 22 ++ zs 16.
Lemma fragments_evade_port_rules_witness :
  checkLinkAcl ex_policy {| LType := LTypeIPData; PType := 0;
    Data := v6_packet (ex_ip6 1) (ex_ip6 2) [ExtOpts 60 [z2b 1; z2b 4; z2b 0; z2b 0; z2b 0; z2b 0]] 6 ex_ssh [] |} = Ret false ∧
  checkLinkAcl ex_policy {| LType := LTypeIPData; PType := 0; Data := first_fragment (ex_ip6 1) (ex_ip6 2) 7 |} = Ret true ∧
  checkLinkAcl ex_policy {| LType := LTypeIPData; PType := 0; Data := second_fragment (ex_ip6 1) (ex_ip6 2) 7 ex_ssh |} = Ret true.
Proof.
  split; [vm_compute; reflexivity|].
  set (f := {| fl_proto := 6; fl_dst := ex_ip6 2; fl_port := 0; fl_icmp := false |}).
  destruct (acl_rules_spec f (LinkAcl ex_policy) (so_acl _ ex_policy_ok)) as (b & Eb & Hb).
  assert (acl_rules (LinkAcl ex_policy) (fl_proto f) (fl_dst f) (fl_port f) (fl_icmp f) = Ret true) as Et by (vm_compute; reflexivity).
  rewrite Eb in Et. injection Et as ->.
  exact (fragments_evade_port_rules ex_policy (ex_ip6 1) (ex_ip6 2) 7 ex_ssh ex_policy_ok eq_refl eq_refl ltac:(lia)
           ltac:(vm_compute; reflexivity) Hb).
Defined.
