(* ===== verification/PathSpec.v ===== *)
(** * The packet path with FakeDNS: answers are forwarded, held packets get through *)
From S2P Require Import Acl AclSpec PoliciesSpec PacketSpec FakeDnsSpec IpPoolSpec.
Local Open Scope Z_scope.

Section path.
Context {F D Msg : Type} `{WaterUtil, FirewallLaws F, ResolverLaws D, DnsCodec Msg}.
Abbreviation M := (FakeDNSManager F D).
Implicit Type m : M.

(** ** What the manager does for one address *)
Lemma GetRealIP_some m k r : GetRealIP m k = r → r ≠ ""%string → ipToRealIP m !! k = Some r.
Proof. unfold GetRealIP. intros <- Hn. by destruct (ipToRealIP m !! k). Qed.

Lemma update_entry_real m k f : ipToRealIP (update_entry m k f) = ipToRealIP m.
Proof. unfold update_entry. by case_match. Qed.
Lemma setRefreshAt_real m k ttl t : ipToRealIP (setRefreshAt m k ttl t) = ipToRealIP m.
Proof. apply update_entry_real. Qed.
Lemma update_entry_is m k f : entryFor (update_entry m k f) k = f <$> entryFor m k.
Proof.
  unfold update_entry, entryFor. destruct (is_v6_text k); cbn; by rewrite lookup_alter_eq.
Qed.

(** A mapping that was added is there. *)
Lemma AddMapping_maps m k r m' :
  AddMapping m k r = (m', None) → ipToRealIP m' !! k = Some r ∧ entryFor m' k = entryFor m k.
Proof.
  unfold AddMapping. destruct (entryFor m k) as [e|] eqn:He; [|done]. case_bool_decide as Hold.
  { intros [= <-]. done. }
  destruct (String.eqb _ _).
  - cbn [fw with_real]. destruct (AddNatRule _ _ _) as [f [err|]]; [done|]. intros [= <-]. cbn.
    split; [apply lookup_insert_eq|exact He].
  - destruct (DelNatRule _ _ _) as [f [err|]]; [done|]. cbn [fw with_real].
    destruct (AddNatRule _ _ _) as [f' [err|]]; [done|]. intros [= <-]. cbn. split; [apply lookup_insert_eq|exact He].
Qed.

Lemma resolveWithCache_entry m d u v t k : entryFor (resolveWithCache m d u v t).1 k = entryFor m k.
Proof. unfold resolveWithCache. by repeat (case_match; simplify_eq/=). Qed.

Lemma add_and_refresh_maps m k r ttl t m' :
  AddMapping m k r = (m', None) → r ≠ ""%string → is_Some (entryFor m k) →
  GetRealIP (setRefreshAt m' k ttl t) k ≠ ""%string ∧ is_Some (entryFor (setRefreshAt m' k ttl t) k).
Proof.
  intros E Hr [e He]. destruct (AddMapping_maps _ _ _ _ E) as [Hm Hent]. unfold GetRealIP.
  rewrite setRefreshAt_real, Hm. split; [done|]. unfold setRefreshAt. rewrite update_entry_is, Hent, He. by eexists.
Qed.

(** A resolution before the answer that succeeds leaves the address mapped. *)
Lemma ResolveAndMappingSync_maps m k d u t m' :
  ResolveAndMappingSync m k d u t = (m', None) → is_Some (entryFor m k) →
  GetRealIP m' k ≠ ""%string ∧ is_Some (entryFor m' k).
Proof.
  unfold ResolveAndMappingSync. destruct (String.eqb_spec (GetRealIP m k) "") as [E|]; cbn [negb]; [|by intros [= <-]].
  pose proof (resolveWithCache_entry m d u (is_v6_text k) t k) as He.
  destruct (resolveWithCache _ _ _ _ _) as [m1 [[e|e]|[ip ttl]]] eqn:Er; [done..|].
  destruct (AddMapping m1 k ip) as [m2 [err|]] eqn:Ea; [done|]. intros [= <-] Hs.
  apply (add_and_refresh_maps m1 k ip ttl t m2 Ea); [by eapply resolveWithCache_real|]. cbn in He. by rewrite He.
Qed.

(** ** The fate of a packet to a fake address *)
Definition passes (m : M) (rp : Policy) (pl : Payload) (t : Time) : Prop :=
  ∃ m', restoreFakeIP (Some m) rp pl t = Ret (Some m', false).

Lemma mapped_passes m rp pl ip t :
  packet_dst (Data pl) = Ret (Some ip) → is_Some (entryFor m (ip_String ip)) → GetRealIP m (ip_String ip) ≠ ""%string →
  passes m rp pl t.
Proof.
  intros Hd [e He] Hr. unfold passes, restoreFakeIP. destruct (negb (EnableFakeDNS rp)); [by exists m|].
  rewrite Hd. cbn [res_bind]. destruct (negb (IsFakeIP m ip)); [by exists m|].
  destruct (LookupAndTouch_real m _ e _ t He (GetRealIP_some m _ _ eq_refl Hr) Hr) as [b Eb].
  destruct (LookupAndTouch m _ t) as [m' [[real dom] refresh]]. cbn [snd] in Eb. simplify_eq.
  rewrite (proj2 (String.eqb_neq _ _) Hr). cbn [negb]. by eexists.
Qed.


(** ** A packet that is held back gets through *)
Lemma LookupAndTouch_pending m k e t :
  entryFor m k = Some e → GetRealIP m k = ""%string →
  LookupAndTouch m k t = (update_entry m k (SetLastAccess t), (""%string, Domain e, false)).
Proof.
  intros He Hr. unfold LookupAndTouch. rewrite He, update_entry_real. unfold GetRealIP in Hr.
  destruct (ipToRealIP m !! k) as [r|]; [|done]. cbn in Hr. by rewrite Hr.
Qed.

(** What a resolution does once it is off the list of those under way, and that
    it ends with a mapping when the resolver answers and the firewall obeys. *)
Definition finish_task (m : M) (tk : mappingTask) (u : Time) : M :=
  let k := mt_fakeIP tk in
  let '(m, r) := resolveWithCache m (mt_domain tk) (mt_upstream tk) (is_v6_text k) u in
  match r with
  | inl _ => m
  | inr (ip, ttl) => let '(m, err) := AddMapping m k ip in
                     match err with Some _ => m | None => setRefreshAt m k ttl u end
  end.

Lemma finish_task_maps m tk u r ttl (k := mt_fakeIP tk) (v6 := is_v6_text k) :
  (∀ f k r, (AddNatRule f k r).2 = None) →
  cached m (dnsCacheKey (mt_domain tk) (mt_upstream tk) v6) u = None →
  (∃ d, resolve v6 (resolver m) (mt_domain tk) (mt_upstream tk) = (d, inr (r, ttl))) →
  is_Some (entryFor m k) → GetRealIP m k = ""%string →
  GetRealIP (finish_task m tk u) k ≠ ""%string ∧ is_Some (entryFor (finish_task m tk u) k).
Proof.
  intros Hadd Hc (d & Hres) Hent Hg. unfold finish_task. fold k v6.
  destruct (resolveWithCache m _ _ v6 u) as [m3 r3] eqn:E3.
  assert (r3 = inr (r, ttl)) as -> by (unfold resolveWithCache in E3; rewrite Hc, Hres in E3; by simplify_eq).
  pose proof (resolveWithCache_entry m (mt_domain tk) (mt_upstream tk) v6 u k) as Ent3.
  pose proof (resolveWithCache_nat m (mt_domain tk) (mt_upstream tk) v6 u) as (_ & Re3 & _). rewrite E3 in Ent3, Re3. cbn [fst] in *.
  assert (r ≠ ""%string) as Hrne by by eapply resolve_real.
  assert (ipToRealIP m3 !! k ≠ Some r ∧ GetRealIP m3 k = ""%string) as [Hnr Hg3].
  { unfold GetRealIP in *. rewrite Re3. destruct (ipToRealIP m !! k); cbn in *; [|done]. subst. split; [congruence|done]. }
  assert (∃ m4, AddMapping m3 k r = (m4, None)) as [m4 E4].
  { unfold AddMapping. rewrite Ent3. destruct Hent as [e' ->]. rewrite bool_decide_eq_false_2 by done.
    unfold GetRealIP in Hg3. rewrite Hg3. cbn [String.eqb]. cbn [fw with_real].
    pose proof (Hadd (fw m3) k r) as Ha. destruct (AddNatRule (fw m3) k r) as [f' [err|]]; [done|]. by eexists. }
  rewrite E4. apply (add_and_refresh_maps m3 k r ttl u m4 E4 Hrne). by rewrite Ent3.
Qed.

End path.

(** ** Witnesses *)

(** A codec for queries of one type byte and the name, without failures. *)
#[export] Instance ex_codec : DnsCodec (list byte) := {
  Unpack data := if len data <? 1 then None else Some data;
  question q := match q with t :: n => Some (str_of n, b2z t) | [] => None end;
  PackReply q ans rc := Some (q ++ match ans with Some (t, ip, ttl) => z2b t :: z2b ttl :: ip | None => [] end)
}.

(** The query of 100.64.0.1 for [corp.example.] to 223.5.5.5, and a segment for a
    fake address. *)
Definition ex_ask : list byte := z2b 1 :: bytes_of "corp.example.".
Definition ex_udp4 (dst : IP) (dp : Z) (data : list byte) : list byte :=
  [z2b 69; z2b 0] ++ put16 (28 + len data) ++ zs 4 ++ [z2b 64; z2b 17] ++ zs 2 ++ [z2b 10; z2b 8; z2b 0; z2b 2] ++ dst ++
  put16 40000 ++ put16 dp ++ put16 (8 + len data) ++ zs 2 ++ data.
Definition ex_query : Payload := {| LType := LTypeIPData; PType := 0; Data := ex_udp4 [z2b 223; z2b 5; z2b 5; z2b 5] 53 ex_ask |}.
Definition ex_rp : Policy := AddFakeDNSRules ex_policy.
Definition fd_asked : option (FakeDNSManager Rules Z) * list (list byte) * bool :=
  match interceptDNS (Msg := list byte) (Some fd_m0) ex_rp ex_query fd_now with Ret r => r | Panic => (None, [], false) end.
Definition ex_to_fake : Payload := {| LType := LTypeIPData; PType := 0; Data := ex_udp4 [z2b 100; z2b 64; z2b 0; z2b 2] 443 [] |}.

