(* ===== verification/Tunnel.v ===== *)
(** * Tunnel framing (server/handler/pool.go, link_cstp.go, link_dtls.go, payload.go, dtls.go)

    The two read loops and the two write loops of a connection, and the limit on
    DTLS handshakes.  A buffer is its backing array and a length, because the
    code reslices one array: what lies behind the length is whatever was there.
    The compressor (a third-party package behind [CmpEncoding]) is a class. *)
From S2P Require Export Acl Session.
Local Open Scope Z_scope.

(** ** Buffers *)
Record buffer := { b_LType : Z; b_PType : Z; b_arr : list byte; b_len : Z }.
Definition b_data (b : buffer) : list byte := take (Z.to_nat (b_len b)) (b_arr b).
Definition b_cap (b : buffer) : Z := len (b_arr b).
Definition to_payload (b : buffer) : Payload := {| LType := b_LType b; PType := b_PType b; Data := b_data b |}.

Definition zeros (n : Z) : list byte := replicate (Z.to_nat n) (z2b 0).
Definition plHeader : list byte := [z2b 83; z2b 84; z2b 70; z2b 1; z2b 0; z2b 0; z2b 0; z2b 0].

(** [plPool.New]; [getPayload] gives one of these or one [putPayload] put back. *)
Definition new_payload : buffer := {| b_LType := LTypeIPData; b_PType := 0; b_arr := zeros BufferSize; b_len := BufferSize |}.
(** What goes back into the pool; [None]: a grown buffer is dropped. *)
Definition putPayload (b : buffer) : option buffer :=
  if negb (b_cap b =? BufferSize) then None
  else Some {| b_LType := LTypeIPData; b_PType := 0; b_arr := zeros BufferSize; b_len := BufferSize |}.

Definition set_PType (t : Z) (b : buffer) : buffer :=
  {| b_LType := b_LType b; b_PType := t; b_arr := b_arr b; b_len := b_len b |}.
Definition set_slice (arr : list byte) (n : Z) (b : buffer) : buffer :=
  {| b_LType := b_LType b; b_PType := b_PType b; b_arr := arr; b_len := n |}.
(** [pl.Data = pl.Data[:n]] *)
Definition reslice (n : Z) (b : buffer) : res buffer :=
  if (0 <=? n) && (n <=? b_cap b) then Ret (set_slice (b_arr b) n b) else Panic.
(** [pl.Data = append(pl.Data[:k], s...)]: in place when it fits, otherwise a
    new array (with no more room than needed; Go may leave some). *)
Definition append_at (k : Z) (s : list byte) (b : buffer) : res buffer :=
  if (0 <=? k) && (k <=? b_cap b) then
    let d := take (Z.to_nat k) (b_arr b) ++ s in
    Ret (set_slice (d ++ drop (length d) (b_arr b)) (len d) b)
  else Panic.
(** [pl.Data[i] = x] *)
Definition set_byte (i x : Z) (b : buffer) : res buffer :=
  if (0 <=? i) && (i <? b_len b) then Ret (set_slice (copy_at (b_arr b) i [z2b x]) (b_len b) b) else Panic.
(** [binary.BigEndian.PutUint16(pl.Data[i:i+2], x)] *)
Definition put_be16 (i x : Z) (b : buffer) : res buffer :=
  if (0 <=? i) && (i + 2 <=? b_cap b) then Ret (set_slice (copy_at (b_arr b) i (put16 (u16 x))) (b_len b) b) else Panic.
(** A read into the buffer: [n] bytes of [input] replace its start. *)
Definition read_into (input : list byte) (b : buffer) : buffer := set_slice (copy_at (b_arr b) 0 input) (b_len b) b.

(** ** The compressor

    The bytes written into a destination of the given size, or an error. *)
Class CmpEncoding := {
  Compress : list byte → Z → option (list byte);
  Uncompress : list byte → Z → option (list byte)
}.
Class CmpLaws `{CmpEncoding} : Prop := {
  Compress_fits src n c : Compress src n = Some c → len c ≤ n;
  Uncompress_fits src n d : Uncompress src n = Some d → len d ≤ n;
  Uncompress_Compress src n c m : Compress src n = Some c → len src ≤ m → Uncompress c m = Some src;
  Compress_nonempty src n c : Compress src n = Some c → 0 < len src → 0 < len c
}.

(** ** Reading a frame

    What the loops make of the [n] bytes read into a buffer. *)
Inductive frame :=
| FShort | FKeepalive | FDisconnect
| FDpdReq (answer : buffer)
| FDpdResp | FSkip
| FData (pl : buffer)
| FUnknown.

Section frames.
Context `{CmpEncoding}.

(** The case [0x00] of [LinkCstp]. *)
Definition cstp_data (b : buffer) (n : Z) : res frame :=
  let! dataLen := be16 (b_arr b) 4 in
  if negb (validCstpDataLen dataLen n) then Ret FSkip
  else let! d := slice (b_arr b) 8 (8 + dataLen) in
       let! b := append_at 0 d b in Ret (FData b).

(** The [switch] of [LinkCstp]; [cmp] is [cSess.CstpPickCmp]. *)
Definition cstp_frame (cmp : option string) (b : buffer) (n : Z) : res frame :=
  if n <? 7 then Ret FShort
  else
    let! t := at_z (b_data b) 6 in
    if t =? 7 then Ret FKeepalive
    else if t =? 5 then Ret FDisconnect
    else if t =? 3 then Ret (FDpdReq (set_PType 4 b))
    else if t =? 4 then Ret FDpdResp
    else if t =? 8 then
      if bool_decide (cmp = None) || (n <? 9) then Ret FSkip
      else
        let! src := slice (b_arr b) 8 n in
        match Uncompress src BufferSize with
        | None => Ret FSkip
        | Some d =>
            if (len d <=? 0) || (BufferSize <? 8 + len d) then Ret FSkip
            else
              let! b := put_be16 4 (len d) b in
              let! b := append_at 8 d b in
              cstp_data b (8 + len d)
        end
    else if t =? 0 then cstp_data b n
    else Ret FUnknown.

Definition dtls_data (b : buffer) (n : Z) : res frame :=
  if n <? 2 then Ret FSkip
  else let! d := slice (b_arr b) 1 n in
       let! b := append_at 0 d b in Ret (FData b).

(** The [switch] of [LinkDtls]. *)
Definition dtls_frame (cmp : option string) (b : buffer) (n : Z) : res frame :=
  if n <? 1 then Ret FShort
  else
    let! t := at_z (b_data b) 0 in
    if t =? 7 then Ret FKeepalive
    else if t =? 5 then Ret FDisconnect
    else if t =? 3 then let! b := reslice n (set_PType 4 b) in Ret (FDpdReq b)
    else if t =? 4 then Ret FDpdResp
    else if t =? 8 then
      if bool_decide (cmp = None) || (n <? 2) then Ret FSkip
      else
        let! src := slice (b_arr b) 1 n in
        match Uncompress src BufferSize with
        | None => Ret FSkip
        | Some d =>
            if (len d <=? 0) || (BufferSize <? len d + 1) then Ret FSkip
            else let! b := append_at 1 d b in dtls_data b (len d + 1)
        end
    else if t =? 0 then dtls_data b n
    else Ret FUnknown.

(** ** Writing a frame

    The bytes of [conn.Write] and the buffer they are in; [None]: dropped. *)
Definition cstp_write (cfg : ServerConfig) (cmp : option string) (pl : buffer) : res (option buffer) :=
  if negb (b_LType pl =? LTypeIPData) then Ret None
  else if b_PType pl =? 0 then
    let compressed :=
      if negb (bool_decide (cmp = None)) && (NoCompressLimit cfg <? b_len pl) then
        match Compress (b_data pl) (BufferSize - 8) with
        | Some c => if len c <? b_len pl then Some c else None
        | None => None
        end
      else None in
    match compressed with
    | Some c =>
        let! b := append_at 0 (take 4 plHeader ++ put16 (u16 (len c)) ++ [z2b 8] ++ drop 7 plHeader ++ c) pl in Ret (Some b)
    | None =>
        if b_cap pl <? b_len pl + 8 then Ret None
        else
          let d := b_data pl in
          let! b := reslice (b_len pl + 8) pl in
          let b := set_slice (copy_at (b_arr b) 8 d) (b_len b) b in
          let b := set_slice (copy_at (b_arr b) 0 plHeader) (b_len b) b in
          let! b := put_be16 4 (u16 (b_len b - 8)) b in Ret (Some b)
    end
  else
    let! b := append_at 0 plHeader pl in
    let! b := set_byte 6 (b_PType pl) b in Ret (Some b).

Definition dtls_write (cfg : ServerConfig) (cmp : option string) (pl : buffer) : res (option buffer) :=
  if negb (b_LType pl =? LTypeIPData) then Ret None
  else if b_PType pl =? 0 then
    let compressed :=
      if negb (bool_decide (cmp = None)) && (NoCompressLimit cfg <? b_len pl) then
        match Compress (b_data pl) (BufferSize - 1) with
        | Some c => if len c <? b_len pl then Some c else None
        | None => None
        end
      else None in
    match compressed with
    | Some c => let! b := append_at 0 (z2b 8 :: c) pl in Ret (Some b)
    | None =>
        if b_cap pl <? b_len pl + 1 then Ret None
        else
          let d := b_data pl in
          let! b := reslice (b_len pl + 1) pl in
          let b := set_slice (copy_at (b_arr b) 1 d) (b_len b) b in
          let! b := set_byte 0 (b_PType pl) b in Ret (Some b)
    end
  else if b_PType pl =? 4 then let! b := set_byte 0 (b_PType pl) pl in Ret (Some b)
  else let! b := append_at 0 [z2b (b_PType pl)] pl in Ret (Some b).
End frames.

(** ** The loops

    What a connection's goroutines put on its channels. *)
Inductive out_event := ToNetwork (pl : Payload) | ToCstp (pl : buffer) | ToDtls (pl : buffer).

(** A [select] on a channel and [CloseChan]: on a closed connection either may
    be taken, [pick] says the channel was.  A full queue makes the sender wait. *)
Definition payloadOutCstp (cs : ConnSession) (pick : bool) (pl : buffer) : list out_event * bool :=
  if cs_closed cs && negb pick then ([], true) else ([ToCstp pl], false).
Definition payloadOutDtls (ds : DtlsSession) (pick : bool) (pl : buffer) : list out_event * bool :=
  match ds_CloseChan ds with
  | ChanClosed => (if pick then [ToDtls pl] else [], false)
  | _ => ([ToDtls pl], false)
  end.
Definition payloadOut (cs : ConnSession) (pick : bool) (pl : buffer) : list out_event * bool :=
  match GetDtlsSession cs with
  | None => payloadOutCstp cs pick pl
  | Some ds => payloadOutDtls ds pick pl
  end.

Section loops.
Context {db F D Msg : Type} `{IpMapStore db, SessionDb, WaterUtil, Firewall F, Resolver D, DnsCodec Msg, CmpEncoding}.
Context (cfg : ServerConfig).
Abbreviation M := (FakeDNSManager F D).
Record tunnel := { t_world : world db; t_fd : option M }.

(** [sendDNSResponse] puts a reply on the channel of the fast path if there is one. *)
Definition dns_event (cs : ConnSession) (p : list byte) : out_event :=
  let pl := set_slice (copy_at (zeros BufferSize) 0 p) (len p) new_payload in
  match GetDtlsSession cs with Some _ => ToDtls pl | None => ToCstp pl end.

(** [payloadIn] with its channel: the answers to the client, the packet that
    goes into the network, and whether the connection is closed. *)
Definition payloadIn_run (t : tunnel) (cs : ConnSession) (pl : Payload) (pick : bool) (now : Time)
    : res (tunnel * list out_event * bool) :=
  match cs_Policy (info cs) with
  | None => Panic
  | Some rp =>
      let! r := payloadIn (if FakeDNS (info cs) then t_fd t else None) rp pl now in
      let '(fd, out, go) := r in
      let t := {| t_world := t_world t; t_fd := if FakeDNS (info cs) then fd else t_fd t |} in
      let ev := map (dns_event cs) out in
      if negb (go : bool) then Ret (t, ev, false)
      else if cs_closed cs && negb pick then Ret (t, ev, true)
      else Ret (t, ev ++ [ToNetwork pl], false)
  end.

Definition set_last (now : Time) (cs : ConnSession) : ConnSession :=
  {| info := info cs; cs_Mtu := cs_Mtu cs; userLogoutCode := userLogoutCode cs; traffic := traffic cs;
     cs_closed := cs_closed cs; dSess := dSess cs; LastDataTime := time_Unix now; MasterSecret := MasterSecret cs;
     CstpPickCmp := CstpPickCmp cs; DtlsPickCmp := DtlsPickCmp cs |}.
Definition with_conn (c : loc) (f : ConnSession → ConnSession) (t : tunnel) : tunnel :=
  {| t_world := match conn_heap (t_world t) !! c with Some cs => set_conn c (f cs) (t_world t) | None => t_world t end;
     t_fd := t_fd t |}.
Definition with_world (w : world db) (t : tunnel) : tunnel := {| t_world := w; t_fd := t_fd t |}.

(** [CloseSess(cSess.Sess.Token, code)] *)
Definition close_own (t : tunnel) (cs : ConnSession) (code : Z) (now : Time) : res tunnel :=
  match sess_heap (t_world t) !! cs_Sess (info cs) with
  | None => Panic
  | Some s => let! w := CloseSess cfg (t_world t) (Token s) (Some code) now in Ret (with_world w t)
  end.

(** The case [0x00] once the payload is cut out. *)
Definition deliver (t : tunnel) (c : loc) (cs : ConnSession) (pl : buffer) (pick : bool) (now : Time)
    : res (tunnel * list out_event * bool) :=
  let! r := payloadIn_run t cs (to_payload pl) pick now in
  let '(t, ev, closed) := r in
  if (closed : bool) then Ret (t, ev, true) else Ret (with_conn c (set_last now) t, ev, false).

(** One read of [LinkCstp]: the state, the events, and whether the loop returns. *)
Definition LinkCstp_step (c : loc) (t : tunnel) (input : list byte) (pick : bool) (now : Time)
    : res (tunnel * list out_event * bool) :=
  let n := len input in
  let b := read_into input new_payload in
  if n <? 7 then Ret (t, [], false)
  else
    let t := with_conn c (λ cs, (RateLimit cs n true).1) t in
    match conn_heap (t_world t) !! c with
    | None => Panic
    | Some cs =>
        let! f := cstp_frame (CstpPickCmp cs) b n in
        match f with
        | FKeepalive =>
            if (0 <? IdleTimeout cfg) && (LastDataTime cs <? time_Unix now - IdleTimeout cfg) then
              let! t := close_own t cs UserIdleTimeout now in Ret (t, [], true)
            else Ret (t, [], false)
        | FDisconnect =>
            let t := with_conn c (SetLogoutCode UserLogoutClient) t in
            let! t := close_own t cs UserLogoutClient now in Ret (t, [], true)
        | FDpdReq pl => let '(ev, closed) := payloadOutCstp cs pick pl in Ret (t, ev, closed)
        | FData pl => deliver t c cs pl pick now
        | FShort | FDpdResp | FSkip | FUnknown => Ret (t, [], false)
        end
    end.

(** The deferred function of [LinkCstp]. *)
Definition LinkCstp_return (c : loc) (t : tunnel) (now : Time) : res tunnel :=
  let t := with_conn c (SetLogoutCode UserLogoutLink) t in
  let! w := ConnSession_Close cfg (t_world t) c now in Ret (with_world w t).

(** [LinkCstp] over the reads of the socket; their end is a failed or timed-out
    read.  A panic is recovered: it ends the loop like an error (what the
    handler had done to the fake addresses by then is not kept). *)
Fixpoint LinkCstp (c : loc) (t : tunnel) (reads : list (list byte * bool * Time)) (now : Time)
    : res (tunnel * list out_event) :=
  match reads with
  | [] => let! t := LinkCstp_return c t now in Ret (t, [])
  | (input, pick, at_) :: reads =>
      match LinkCstp_step c t input pick at_ with
      | Panic => let! t := LinkCstp_return c (with_conn c (λ cs, (RateLimit cs (len input) true).1) t) at_ in Ret (t, [])
      | Ret (t, ev, true) => let! t := LinkCstp_return c t at_ in Ret (t, ev)
      | Ret (t, ev, false) => let! r := LinkCstp c t reads now in Ret (r.1, ev ++ r.2)
      end
  end.

(** One read of [LinkDtls]. *)
Definition LinkDtls_step (c : loc) (t : tunnel) (input : list byte) (pick : bool) (now : Time)
    : res (tunnel * list out_event * bool) :=
  let n := len input in
  let b := read_into input new_payload in
  if n <? 1 then Ret (t, [], false)
  else
    let t := with_conn c (λ cs, (RateLimit cs n true).1) t in
    match conn_heap (t_world t) !! c with
    | None => Panic
    | Some cs =>
        let! f := dtls_frame (DtlsPickCmp cs) b n in
        match f with
        | FDisconnect => Ret (with_conn c (SetLogoutCode UserLogoutClient) t, [], true)
        | FDpdReq pl => let '(ev, closed) := payloadOutDtls (dSess cs) pick pl in Ret (t, ev, closed)
        | FData pl => deliver t c cs pl pick now
        | FKeepalive | FShort | FDpdResp | FSkip | FUnknown => Ret (t, [], false)
        end
    end.

(** The deferred function of [LinkDtls]: the tunnel stays, the fast path closes. *)
Definition LinkDtls_return (c : loc) (t : tunnel) : res tunnel :=
  match conn_heap (t_world t) !! c with
  | None => Panic
  | Some cs => let! d := DtlsSession_Close (dSess cs) in
               Ret (with_conn c (λ cs, set_closed (cs_closed cs) d cs) t)
  end.

Fixpoint LinkDtls_loop (c : loc) (t : tunnel) (reads : list (list byte * bool * Time)) : res (tunnel * list out_event) :=
  match reads with
  | [] => let! t := LinkDtls_return c t in Ret (t, [])
  | (input, pick, at_) :: reads =>
      match LinkDtls_step c t input pick at_ with
      | Panic => let! t := LinkDtls_return c (with_conn c (λ cs, (RateLimit cs (len input) true).1) t) in Ret (t, [])
      | Ret (t, ev, true) => let! t := LinkDtls_return c t in Ret (t, ev)
      | Ret (t, ev, false) => let! r := LinkDtls_loop c t reads in Ret (r.1, ev ++ r.2)
      end
  end.

(** [LinkDtls], for a connection nobody else closes meanwhile. *)
Definition LinkDtls (c : loc) (t : tunnel) (reads : list (list byte * bool * Time)) : res (tunnel * list out_event) :=
  match conn_heap (t_world t) !! c with
  | None => Panic
  | Some cs =>
      match NewDtlsConn cs with
      | (_, None) => Ret (t, [])
      | (cs, Some _) => LinkDtls_loop c (with_world (set_conn c cs (t_world t)) t) reads
      end
  end.

(** What [cstpWrite] and [dtlsWrite] do with one payload: the bytes written. *)
Definition cstpWrite_step (c : loc) (w : world db) (pl : buffer) : res (world db * option (list byte)) :=
  match conn_heap w !! c with
  | None => Panic
  | Some cs =>
      let! o := cstp_write cfg (CstpPickCmp cs) pl in
      match o with
      | None => Ret (w, None)
      | Some b => Ret (set_conn c (RateLimit cs (len (b_data b)) false).1 w, Some (b_data b))
      end
  end.
Definition dtlsWrite_step (c : loc) (w : world db) (pl : buffer) : res (world db * option (list byte)) :=
  match conn_heap w !! c with
  | None => Panic
  | Some cs =>
      let! o := dtls_write cfg (DtlsPickCmp cs) pl in
      match o with
      | None => Ret (w, None)
      | Some b => Ret (set_conn c (RateLimit cs (len (b_data b)) false).1 w, Some (b_data b))
      end
  end.
End loops.

(** ** DTLS handshakes (dtls.go) *)
Definition maxDtlsHandshakePerIP : Z := 16.
Definition dtlsHandshakeBegin (m : gmap string Z) (ip : string) : gmap string Z * bool :=
  let n := default 0 (m !! ip) in
  if maxDtlsHandshakePerIP <=? n then (m, false) else (<[ip := n + 1]> m, true).
Definition dtlsHandshakeEnd (m : gmap string Z) (ip : string) : gmap string Z :=
  let n := default 0 (m !! ip) in
  if 0 <? n then (if n - 1 =? 0 then delete ip m else <[ip := n - 1]> m) else m.

(** The goroutines [startDtls] has running: the address and what they are at. *)
Inductive dtls_phase := Handshaking | Linked.
#[export] Instance dtls_phase_eq_dec : EqDecision dtls_phase.
Proof. solve_decision. Defined.
Record dtls_server := { dtlsHsPerIP : gmap string Z; running : list (string * dtls_phase) }.

(** One step of the listener or of a goroutine: a connection is accepted or
    refused; its handshake ends with a session, whose [LinkDtls] then runs, or
    without; [LinkDtls] returns.  A goroutine that ends runs its deferred call. *)
Inductive dtls_step (s : dtls_server) : dtls_server → Prop :=
| dtls_accept ip m : ip = ""%string ∧ m = dtlsHsPerIP s ∨ ip ≠ ""%string ∧ dtlsHandshakeBegin (dtlsHsPerIP s) ip = (m, true) →
    dtls_step s {| dtlsHsPerIP := m; running := (ip, Handshaking) :: running s |}
| dtls_refuse ip : ip ≠ ""%string → (dtlsHandshakeBegin (dtlsHsPerIP s) ip).2 = false → dtls_step s s
| dtls_linked ip rs : running s ≡ₚ (ip, Handshaking) :: rs →
    dtls_step s {| dtlsHsPerIP := dtlsHsPerIP s; running := (ip, Linked) :: rs |}
| dtls_end ip ph rs : running s ≡ₚ (ip, ph) :: rs →
    dtls_step s {| dtlsHsPerIP := if String.eqb ip "" then dtlsHsPerIP s else dtlsHandshakeEnd (dtlsHsPerIP s) ip; running := rs |}.

Definition dtlsCipherSuites : list string := ["ECDHE-RSA-AES256-GCM-SHA384"; "ECDHE-RSA-AES128-GCM-SHA256"]%string.
Definition checkDtls12Ciphersuite (ciphersuite : string) : string :=
  let cs := str_of <$> split_byte ":"%byte (bytes_of ciphersuite) in
  match List.filter (λ v, bool_decide (v ∈ dtlsCipherSuites)) cs with
  | v :: _ => v
  | [] => "ECDHE-RSA-AES128-GCM-SHA256"
  end.
