(* ===== verification/TunnelSpec.v ===== *)
(** * Tunnel framing: what the loops make of the bytes read, round trips, every
    packet passes the ACL, every end of a loop closes the connection *)
From S2P Require Import Tunnel SessionSpec PacketSpec.
Local Open Scope Z_scope.

(** ** Frames as the protocol documents them

    A pure reader of the bytes of one frame, which knows no buffers. *)
Inductive view :=
| VShort | VKeepalive | VDisconnect | VDpdReq (answer : list byte) | VDpdResp | VSkip | VData (pl : Payload) | VUnknown.

Definition ip_payload (d : list byte) : Payload := {| LType := LTypeIPData; PType := 0; Data := d |}.

Section parse.
Context `{CmpEncoding}.

Definition inflate (cmp : option string) (room : Z) (body : list byte) : view :=
  match cmp, body with
  | None, _ | _, [] => VSkip
  | Some _, _ => match Uncompress body BufferSize with
                 | Some (x :: d) => if room <? len (x :: d) then VSkip else VData (ip_payload (x :: d))
                 | _ => VSkip
                 end
  end.

Definition parse_cstp (cmp : option string) (input : list byte) : view :=
  match input with
  | _ :: _ :: _ :: _ :: l1 :: l0 :: t :: rest =>
      let t := b2z t in
      let body := tail rest in
      if t =? 7 then VKeepalive
      else if t =? 5 then VDisconnect
      else if t =? 3 then VDpdReq (take 6 plHeader ++ [z2b 4; z2b 0])
      else if t =? 4 then VDpdResp
      else if t =? 8 then inflate cmp (BufferSize - 8) body
      else if t =? 0 then
        let dataLen := b2z l1 * 256 + b2z l0 in
        if (dataLen =? 0) || (len body <? dataLen) then VSkip
        else VData (ip_payload (take (Z.to_nat dataLen) body))
      else VUnknown
  | _ => VShort
  end.

Definition parse_dtls (cmp : option string) (input : list byte) : view :=
  match input with
  | t :: body =>
      let t := b2z t in
      if t =? 7 then VKeepalive
      else if t =? 5 then VDisconnect
      else if t =? 3 then VDpdReq (z2b 4 :: body)
      else if t =? 4 then VDpdResp
      else if t =? 8 then inflate cmp (BufferSize - 1) body
      else if t =? 0 then match body with [] => VSkip | _ => VData (ip_payload body) end
      else VUnknown
  | [] => VShort
  end.

(** What the loops show of a frame: the payload they hand on, and of an answer
    the bytes the write loop sends. *)
Definition frame_view (write : buffer → res (option buffer)) (f : frame) : view :=
  match f with
  | FShort => VShort | FKeepalive => VKeepalive | FDisconnect => VDisconnect | FDpdResp => VDpdResp
  | FSkip => VSkip | FUnknown => VUnknown
  | FDpdReq b => match write b with Ret (Some b') => VDpdReq (b_data b') | _ => VUnknown end
  | FData b => VData (to_payload b)
  end.

Lemma view_data w f pl : frame_view w f = VData pl → ∃ b, f = FData b ∧ to_payload b = pl.
Proof.
  destruct f; cbn [frame_view]; try done; [|intros [= <-]; by eexists]. by destruct (w answer) as [[?|]|].
Qed.

(** ** Buffer algebra *)
Lemma len_zeros n : 0 ≤ n → len (zeros n) = n.
Proof. intros. unfold zeros, len. rewrite length_replicate. lia. Qed.
Lemma len_take {A} n (l : list A) : 0 ≤ n ≤ len l → len (take (Z.to_nat n) l) = n.
Proof. unfold len. rewrite length_take. lia. Qed.
Lemma len_drop {A} n (l : list A) : 0 ≤ n ≤ len l → len (drop (Z.to_nat n) l) = len l - n.
Proof. unfold len. rewrite length_drop. lia. Qed.

Lemma read_into_arr input b :
  len input ≤ b_cap b → b_arr (read_into input b) = input ++ drop (length input) (b_arr b).
Proof.
  intros Hl. unfold read_into, copy_at, b_cap, len in *. cbn [b_arr set_slice]. change (Z.to_nat 0) with 0%nat.
  cbn [take app]. rewrite Nat.sub_0_r, Nat.add_0_l. by rewrite (take_ge input) by lia.
Qed.

Lemma append_at_ok k s b : 0 ≤ k ≤ b_cap b →
  ∃ b', append_at k s b = Ret b' ∧ b_data b' = take (Z.to_nat k) (b_arr b) ++ s ∧ b_len b' = k + len s ∧
    b_LType b' = b_LType b ∧ b_PType b' = b_PType b ∧ (k + len s ≤ b_cap b → b_cap b' = b_cap b) ∧
    b_arr b' = (take (Z.to_nat k) (b_arr b) ++ s) ++ drop (Z.to_nat (k + len s)) (b_arr b).
Proof.
  intros Hk. unfold append_at. pose proof (len_nonneg s).
  rewrite (proj2 (Z.leb_le 0 k)), (proj2 (Z.leb_le k _)) by lia. cbn [andb]. eexists. split; [done|].
  set (d := take (Z.to_nat k) (b_arr b) ++ s).
  assert (len d = k + len s) as Ed by (subst d; rewrite len_app, len_take by (unfold b_cap in Hk; lia); lia).
  assert (length d = Z.to_nat (k + len s)) as El by (unfold len in *; lia).
  cbn [set_slice b_len b_LType b_PType b_arr]. rewrite El. split_and!; [|done|done|done| |done].
  - unfold b_data. cbn. rewrite Ed, <- El. by rewrite take_app_length.
  - intros Hf. unfold b_cap in *. cbn. rewrite len_app, len_drop by lia. lia.
Qed.

(** A buffer in its full size, as it comes from the pool. *)
Definition pooled (b : buffer) : Prop := b_cap b = BufferSize ∧ b_len b = BufferSize ∧ b_LType b = LTypeIPData ∧ b_PType b = 0.

Lemma slice_drop_take {A} (l : list A) lo hi : 0 ≤ lo ≤ hi → hi ≤ len l →
  slice l lo hi = Ret (take (Z.to_nat (hi - lo)) (drop (Z.to_nat lo) l)).
Proof.
  intros. unfold slice. rewrite (proj2 (Z.leb_le 0 lo)), (proj2 (Z.leb_le lo hi)), (proj2 (Z.leb_le hi _)) by lia. done.
Qed.

Lemma validCstpDataLen_spec dl n : n ≤ BufferSize →
  validCstpDataLen dl n = negb (dl =? 0) && (8 + dl <=? n).
Proof.
  intros Hn. unfold validCstpDataLen.
  destruct (Z.eqb_spec dl 0), (Z.leb_spec (8 + dl) n), (Z.ltb_spec BufferSize (8 + dl)); cbn; lia || done.
Qed.

(** Cutting the payload out of a buffer. *)
Lemma cut_payload b lo hi :
  b_cap b = BufferSize → b_LType b = LTypeIPData → b_PType b = 0 → 0 ≤ lo ≤ hi → hi ≤ BufferSize →
  ∃ b', (let! d := slice (b_arr b) lo hi in let! b := append_at 0 d b in Ret (FData b)) = Ret (FData b') ∧
    to_payload b' = ip_payload (take (Z.to_nat (hi - lo)) (drop (Z.to_nat lo) (b_arr b))).
Proof.
  intros Hc Hlt Hpt Hlo Hhi. unfold b_cap in Hc. rewrite slice_drop_take by lia. cbn [res_bind].
  destruct (append_at_ok 0 (take (Z.to_nat (hi - lo)) (drop (Z.to_nat lo) (b_arr b))) b) as (b' & -> & Ed & _ & El & Ep & _);
    [unfold b_cap, BufferSize in *; lia|].
  cbn [res_bind]. exists b'. split; [done|]. unfold to_payload, ip_payload. by rewrite Ed, El, Ep, Hlt, Hpt.
Qed.

Lemma cstp_data_spec b n dl :
  b_cap b = BufferSize → b_LType b = LTypeIPData → b_PType b = 0 → n ≤ BufferSize → be16 (b_arr b) 4 = Ret dl →
  ∃ f, cstp_data b n = Ret f ∧ ∀ w, frame_view w f =
    if (dl =? 0) || (n <? 8 + dl) then VSkip else VData (ip_payload (take (Z.to_nat dl) (drop 8 (b_arr b)))).
Proof.
  intros Hc Hlt Hpt Hn Hdl. unfold cstp_data. rewrite Hdl. cbn [res_bind]. apply be16_range in Hdl as Hr.
  rewrite validCstpDataLen_spec by done. rewrite negb_andb, negb_involutive, Z.leb_antisym, negb_involutive.
  destruct ((dl =? 0) || (n <? 8 + dl)) eqn:E; [by eexists|]. apply orb_false_iff in E as [?%Z.eqb_neq ?%Z.ltb_ge].
  destruct (cut_payload b 8 (8 + dl) Hc Hlt Hpt) as (b' & -> & Eb); [lia..|]. exists (FData b'). split; [done|]. intros w.
  cbn [frame_view]. rewrite Eb. by replace (8 + dl - 8) with dl by lia.
Qed.

(** A compressed body: what [Uncompress] gives goes behind the header. *)
Lemma tail_drop {A} (l : list A) n : tail (drop n l) = drop (S n) l.
Proof. revert l. induction n as [|n IH]; intros [|x l]; cbn; done. Qed.

Lemma inflate_spec cmp room body (k : list byte → res frame) :
  (∀ d, Uncompress body BufferSize = Some d → 0 < len d ≤ room → ∃ f, k d = Ret f ∧ ∀ w, frame_view w f = VData (ip_payload d)) →
  ∃ f, (if bool_decide (cmp = None) || bool_decide (body = []) then Ret FSkip
        else match Uncompress body BufferSize with
             | None => Ret FSkip
             | Some d => if (len d <=? 0) || (room <? len d) then Ret FSkip else k d
             end) = Ret f ∧ ∀ w, frame_view w f = inflate cmp room body.
Proof.
  intros Hk. unfold inflate. destruct cmp as [c|]; [|by eexists]. cbn [bool_decide orb].
  destruct body as [|x body]; [by eexists|]. rewrite !bool_decide_eq_false_2 by done. cbn [orb].
  destruct (Uncompress _ _) as [[|y d]|]; [by eexists| |by eexists].
  pose proof (len_nonneg d). rewrite len_cons in *. rewrite (proj2 (Z.leb_gt _ 0)) by lia. cbn [orb].
  destruct (Z.ltb_spec room (1 + len d)); [by eexists|]. apply Hk; [done|]. rewrite len_cons. lia.
Qed.

Lemma take_drop_middle_z {A} (x y : list A) n : n = len x → drop (Z.to_nat n) (x ++ y) = y.
Proof. intros ->. unfold len. by rewrite Nat2Z.id, drop_app_length. Qed.

Lemma inflate_nil cmp room : inflate cmp room [] = VSkip.
Proof. by destruct cmp. Qed.

(** Reading into a pooled buffer: the input, then the residue. *)
Lemma read_into_pooled stale input :
  pooled stale → len input ≤ BufferSize →
  pooled (read_into input stale) ∧ b_data (read_into input stale) = b_arr (read_into input stale) ∧
  ∃ rest, b_arr (read_into input stale) = input ++ rest.
Proof.
  intros (Hc & Hl & Hlt & Hpt) Hin. pose proof (read_into_arr input stale ltac:(lia)) as Ea.
  assert (b_cap (read_into input stale) = BufferSize) as Hcap.
  { unfold b_cap in *. rewrite Ea. unfold len in *. rewrite length_app, length_drop. lia. }
  split_and!; [split_and!; done| |by eexists].
  unfold b_data. change (b_len (read_into input stale)) with (b_len stale). rewrite Hl, take_ge; [done|].
  unfold b_cap, len in Hcap. lia.
Qed.

(** The decompressed bytes put behind the header read like a plain frame. *)
Lemma cstp_inflated b d :
  pooled b → 0 < len d ≤ BufferSize - 8 →
  ∃ f, (let! b := put_be16 4 (len d) b in let! b := append_at 8 d b in cstp_data b (8 + len d)) = Ret f ∧
    ∀ w, frame_view w f = VData (ip_payload d).
Proof.
  intros (Hc & Hl & Hlt & Hpt) Hd. unfold put_be16. rewrite (proj2 (Z.leb_le _ _)) by lia. cbn [andb res_bind].
  rewrite (proj2 (Z.leb_le _ _)) by (rewrite Hc; unfold BufferSize; lia). cbn [res_bind].
  assert (u16 (len d) = len d) as -> by (apply wrap_small; unfold BufferSize in *; lia).
  assert (∃ h x y r, b_arr b = h ++ x ++ y ++ r ∧ len h = 4 ∧ len x = 2 ∧ len y = 2) as (h & x & y & r & Ea & Hh & Hx & Hy).
  { exists (take 4 (b_arr b)), (take 2 (drop 4 (b_arr b))), (take 2 (drop 6 (b_arr b))), (drop 8 (b_arr b)).
    unfold b_cap, len, BufferSize in *. rewrite !length_take, !length_drop. split; [|lia].
    change 8%nat with (6 + 2)%nat. rewrite <- drop_drop, take_drop. change 6%nat with (4 + 2)%nat. by rewrite <- drop_drop, !take_drop. }
  set (b1 := set_slice _ _ b). assert (b_arr b1 = h ++ put16 (len d) ++ y ++ r) as Ea1.
  { unfold b1. cbn [set_slice b_arr]. rewrite Ea. apply (copy_at_app h x (y ++ r) 4 (put16 (len d))); [lia|unfold len in Hx; rewrite length_put16; lia]. }
  assert (b_cap b1 = BufferSize) as Hc1.
  { rewrite <- Hc. unfold b_cap. rewrite Ea1, Ea, !len_app, len_put16. lia. }
  destruct (append_at_ok 8 d b1) as (b2 & -> & _ & _ & Elt & Ept & Hc2 & Ea2); [unfold BufferSize in *; lia|]. cbn [res_bind].
  assert (take (Z.to_nat 8) (b_arr b1) = h ++ put16 (len d) ++ y) as Etk.
  { rewrite Ea1, !app_assoc. rewrite take_app_length'; [done|]. unfold len in *. rewrite !length_app, length_put16. lia. }
  rewrite Etk in Ea2.
  assert (be16 (b_arr b2) 4 = Ret (len d)) as Hb.
  { apply (at_cur_be16 _ _ _ (y ++ d ++ drop (Z.to_nat (8 + len d)) (b_arr b1))); [unfold BufferSize in *; lia|].
    exists h. rewrite Ea2, <- !app_assoc. split; [done|lia]. }
  destruct (cstp_data_spec b2 (8 + len d) (len d)) as (f & Ef & Hf);
    [by rewrite Hc2 by (unfold BufferSize in *; lia)|by rewrite Elt|by rewrite Ept|lia|done|].
  exists f. split; [done|]. intros w. rewrite Hf. rewrite (proj2 (Z.eqb_neq _ _)), (proj2 (Z.ltb_ge _ _)) by lia. cbn [orb].
  do 2 f_equal. rewrite Ea2, app_assoc, <- (app_assoc _ d). rewrite drop_app_length' by (unfold len in *; rewrite !length_app, length_put16; lia).
  unfold len. by rewrite Nat2Z.id, take_app_length.
Qed.

(** The answer to a DPD request. *)
Lemma cstp_dpd_answer cfg b :
  pooled b → ∃ b', cstp_write cfg None (set_PType 4 b) = Ret (Some b') ∧ b_data b' = take 6 plHeader ++ [z2b 4; z2b 0].
Proof.
  intros (Hc & Hl & Hlt & Hpt). unfold cstp_write. cbn [set_PType b_LType b_PType]. rewrite Hlt. cbn [negb Z.eqb Pos.eqb].
  change (LTypeIPData =? LTypeIPData) with true. cbn [negb].
  destruct (append_at_ok 0 plHeader (set_PType 4 b)) as (b1 & -> & Ed & El & _ & _ & Hc1 & Ea); [change (b_cap (set_PType 4 b)) with (b_cap b); unfold BufferSize in *; lia|].
  cbn [res_bind]. change (0 + len plHeader) with 8 in *. unfold set_byte. rewrite El. cbn [Z.leb Z.ltb Z.compare Pos.compare Pos.compare_cont andb res_bind].
  eexists. split; [done|]. unfold b_data. cbn [set_slice b_len b_arr]. rewrite Ea. cbn [Z.to_nat take app].
  unfold copy_at, plHeader. cbn. done.
Qed.

Lemma cstp_frame_spec cfg cmp stale input :
  pooled stale → len input ≤ BufferSize →
  ∃ f, cstp_frame cmp (read_into input stale) (len input) = Ret f ∧
    frame_view (cstp_write cfg None) f = parse_cstp cmp input.
Proof.
  intros Hst Hin. destruct (read_into_pooled stale input Hst Hin) as (Hb & Hdb & rest & Ea).
  set (b := read_into input stale) in *. clearbody b. unfold cstp_frame. rewrite Hdb.
  destruct (Z.ltb_spec (len input) 7) as [Hn|Hn].
  { exists FShort. split; [done|]. do 7 (destruct input as [|? input]; [done|]). unfold len in Hn. cbn in Hn. lia. }
  destruct input as [|a0 [|a1 [|a2 [|a3 [|l1 [|l0 [|t body]]]]]]]; [unfold len in Hn; cbn in Hn; lia..|].
  assert (at_z (b_arr b) 6 = Ret (b2z t)) as ->.
  { apply (at_cur_at _ _ _ (body ++ rest)). exists [a0; a1; a2; a3; l1; l0]. by rewrite Ea. }
  assert (be16 (b_arr b) 4 = Ret (b2z l1 * 256 + b2z l0)) as Hdl.
  { unfold be16. rewrite (at_cur_at _ 4 l1 (l0 :: t :: body ++ rest)) by (exists [a0; a1; a2; a3]; by rewrite Ea). cbn [res_bind].
    change (4 + 1) with 5. rewrite (at_cur_at _ 5 l0 (t :: body ++ rest)) by (exists [a0; a1; a2; a3; l1]; by rewrite Ea). cbn [res_bind].
    by rewrite lor_shiftl_add by apply b2z_range. }
  cbn [res_bind parse_cstp].
  destruct (b2z t =? 7); [by eexists|]. destruct (b2z t =? 5); [by eexists|].
  destruct (b2z t =? 3).
  { eexists. split; [done|]. cbn [frame_view]. by destruct (cstp_dpd_answer cfg b Hb) as (b' & -> & ->). }
  destruct (b2z t =? 4); [by eexists|]. destruct (b2z t =? 8).
  - destruct body as [|x body]; cbn [tail].
    { rewrite inflate_nil. change (len [a0; a1; a2; a3; l1; l0; t] <? 9) with true. rewrite orb_true_r. by eexists. }
    destruct body as [|y body].
    { rewrite inflate_nil. change (len [a0; a1; a2; a3; l1; l0; t; x] <? 9) with true. rewrite orb_true_r. by eexists. }
    set (input := a0 :: _) in *. assert (len input <? 9 = false) as -> by (apply Z.ltb_ge; unfold input, len; cbn; lia).
    assert (slice (b_arr b) 8 (len input) = Ret (y :: body)) as ->.
    { replace (len input) with (8 + len (y :: body)) by (unfold input; rewrite !len_cons; lia).
      apply (at_cur_slice _ 8 _ rest). exists [a0; a1; a2; a3; l1; l0; t; x]. by rewrite Ea. }
    destruct (inflate_spec cmp (BufferSize - 8) (y :: body) (λ d, let! b := put_be16 4 (len d) b in let! b := append_at 8 d b in cstp_data b (8 + len d)))
      as (f & Ef & Hf); [intros d _ Hd; by apply cstp_inflated|].
    rewrite (bool_decide_eq_false_2 (y :: body = [])), orb_false_r in Ef by done. rewrite orb_false_r. exists f. split; [|apply Hf]. rewrite <- Ef.
    destruct (bool_decide (cmp = None)); [done|]. cbn [res_bind]. destruct (Uncompress _ _) as [d|]; [|done].
    replace (BufferSize <? 8 + len d) with (BufferSize - 8 <? len d); [done|].
    destruct (Z.ltb_spec (BufferSize - 8) (len d)), (Z.ltb_spec BufferSize (8 + len d)); lia || done.
  - destruct (b2z t =? 0); [|by eexists]. destruct Hb as (Hc & Hl & Hlt & Hpt).
    destruct (cstp_data_spec b _ _ Hc Hlt Hpt Hin Hdl) as (f & -> & Hf). exists f. split; [done|]. rewrite Hf, Ea. clear.
    set (dl := b2z l1 * 256 + b2z l0). pose proof (b2z_range l1). pose proof (b2z_range l0).
    destruct body as [|x body].
    { cbn [tail]. change (len [a0; a1; a2; a3; l1; l0; t]) with 7. change (len []) with 0.
      destruct (Z.eqb_spec dl 0); [done|]. rewrite (proj2 (Z.ltb_lt 7 _)), (proj2 (Z.ltb_lt 0 _)) by lia. done. }
    cbn [tail app drop]. replace (len _ <? 8 + dl) with (len body <? dl)
      by (rewrite !len_cons; destruct (Z.ltb_spec (len body) dl); symmetry; [apply Z.ltb_lt|apply Z.ltb_ge]; lia).
    destruct ((dl =? 0) || (len body <? dl)) eqn:E; [done|]. apply orb_false_iff in E as [_ ?%Z.ltb_ge].
    do 2 f_equal. rewrite drop_0, take_app_le; [done|]. unfold len in *. lia.
Qed.

Lemma dtls_dpd_answer cfg b n :
  pooled b → 1 ≤ n ≤ BufferSize →
  ∃ b1 b', reslice n (set_PType 4 b) = Ret b1 ∧ dtls_write cfg None b1 = Ret (Some b') ∧
    b_data b' = z2b 4 :: tail (take (Z.to_nat n) (b_arr b)).
Proof.
  intros (Hc & Hl & Hlt & Hpt) Hn. unfold reslice. change (b_cap (set_PType 4 b)) with (b_cap b).
  rewrite (proj2 (Z.leb_le 0 n)), (proj2 (Z.leb_le n _)) by lia. cbn [andb]. do 2 eexists. split; [done|].
  unfold dtls_write. cbn [set_slice set_PType b_LType b_PType]. rewrite Hlt. change (LTypeIPData =? LTypeIPData) with true.
  cbn [negb Z.eqb Pos.eqb]. unfold set_byte. cbn [set_slice b_len]. rewrite (proj2 (Z.ltb_lt 0 n)) by lia. cbn [Z.leb Z.compare andb res_bind].
  split; [done|]. unfold b_data, copy_at. cbn [set_slice set_PType b_len b_arr]. change (Z.to_nat 0) with 0%nat. unfold b_cap, len in Hc.
  destruct (b_arr b) as [|x arr]; [done|]. cbn. destruct (Z.to_nat n) as [|k] eqn:Ek; [lia|]. by rewrite take_nil, drop_0.
Qed.

Lemma dtls_inflated b d :
  pooled b → 0 < len d ≤ BufferSize - 1 →
  ∃ f, (let! b := append_at 1 d b in dtls_data b (len d + 1)) = Ret f ∧ ∀ w, frame_view w f = VData (ip_payload d).
Proof.
  intros (Hc & Hl & Hlt & Hpt) Hd.
  destruct (append_at_ok 1 d b) as (b2 & -> & _ & _ & Elt & Ept & Hc2 & Ea2); [unfold BufferSize in *; lia|]. cbn [res_bind].
  unfold dtls_data. rewrite (proj2 (Z.ltb_ge _ 2)) by lia.
  destruct (cut_payload b2 1 (len d + 1)) as (b' & -> & Eb); [rewrite Hc2; unfold BufferSize in *; lia|by rewrite Elt|by rewrite Ept|lia..|].
  exists (FData b'). split; [done|]. intros w. cbn [frame_view]. rewrite Eb, Ea2. do 2 f_equal.
  replace (len d + 1 - 1) with (len d) by lia. change (Z.to_nat 1) with 1%nat. unfold b_cap, len in Hc.
  destruct (b_arr b) as [|x arr]; [done|]. cbn [take app drop]. rewrite drop_0. unfold len. by rewrite Nat2Z.id, take_app_length.
Qed.

Lemma dtls_frame_spec cfg cmp stale input :
  pooled stale → len input ≤ BufferSize →
  ∃ f, dtls_frame cmp (read_into input stale) (len input) = Ret f ∧
    frame_view (dtls_write cfg None) f = parse_dtls cmp input.
Proof.
  intros Hst Hin. destruct (read_into_pooled stale input Hst Hin) as (Hb & Hdb & rest & Ea).
  set (b := read_into input stale) in *. clearbody b. unfold dtls_frame. rewrite Hdb.
  destruct input as [|t body]; [by exists FShort|]. pose proof (len_nonneg body).
  rewrite (proj2 (Z.ltb_ge _ 1)) by (rewrite len_cons; lia).
  assert (at_z (b_arr b) 0 = Ret (b2z t)) as -> by (apply (at_cur_at _ _ _ (body ++ rest)); exists []; by rewrite Ea).
  cbn [res_bind parse_dtls].
  destruct (b2z t =? 7); [by eexists|]. destruct (b2z t =? 5); [by eexists|].
  destruct (b2z t =? 3).
  { destruct (dtls_dpd_answer cfg b (len (t :: body)) Hb) as (b1 & b' & -> & E & Ed); [rewrite len_cons in *; lia|].
    eexists. split; [done|]. cbn [frame_view]. rewrite E, Ed, Ea. unfold len. by rewrite Nat2Z.id, take_app_length. }
  destruct (b2z t =? 4); [by eexists|]. destruct (b2z t =? 8).
  - destruct body as [|y body].
    { rewrite inflate_nil. change (len [t] <? 2) with true. rewrite orb_true_r. by eexists. }
    rewrite (proj2 (Z.ltb_ge _ 2)), orb_false_r by (rewrite !len_cons; pose proof (len_nonneg body); lia).
    assert (slice (b_arr b) 1 (len (t :: y :: body)) = Ret (y :: body)) as ->.
    { rewrite len_cons. apply (at_cur_slice _ 1 _ rest). exists [t]. by rewrite Ea. }
    destruct (inflate_spec cmp (BufferSize - 1) (y :: body) (λ d, let! b := append_at 1 d b in dtls_data b (len d + 1)))
      as (f & Ef & Hf); [intros d _ Hd; by eapply dtls_inflated|].
    rewrite (bool_decide_eq_false_2 (y :: body = [])), orb_false_r in Ef by done. exists f. split; [|apply Hf]. rewrite <- Ef.
    destruct (bool_decide (cmp = None)); [done|]. cbn [res_bind]. destruct (Uncompress _ _) as [d|]; [|done].
    replace (BufferSize <? len d + 1) with (BufferSize - 1 <? len d); [done|].
    destruct (Z.ltb_spec (BufferSize - 1) (len d)), (Z.ltb_spec BufferSize (len d + 1)); lia || done.
  - destruct (b2z t =? 0); [|by eexists]. destruct Hb as (Hc & Hl & Hlt & Hpt). unfold dtls_data.
    destruct body as [|y body]; [by exists FSkip|].
    rewrite (proj2 (Z.ltb_ge _ 2)) by (rewrite !len_cons; pose proof (len_nonneg body); lia).
    destruct (cut_payload b 1 (len (t :: y :: body)) Hc Hlt Hpt) as (b' & -> & Eb); [rewrite !len_cons; pose proof (len_nonneg body); lia|done|].
    exists (FData b'). split; [done|]. cbn [frame_view]. rewrite Eb, Ea. do 2 f_equal. change (Z.to_nat 1) with 1%nat. cbn [drop app].
    rewrite len_cons. replace (1 + len (y :: body) - 1) with (len (y :: body)) by lia. 
    change (y :: body ++ rest) with ((y :: body) ++ rest). unfold len. by rewrite Nat2Z.id, take_app_length.
Qed.

(** ** Round trips *)
Definition cstp_header (n t : Z) : list byte := take 4 plHeader ++ put16 n ++ [z2b t; z2b 0].

Lemma parse_cstp_plain cmp d : 0 < len d < 65536 → parse_cstp cmp (cstp_header (len d) 0 ++ d) = VData (ip_payload d).
Proof.
  intros Hd. unfold parse_cstp, cstp_header, put16. cbn [app take plHeader tail]. rewrite !b2z_z2b.
  change (u8 0) with 0. cbn [Z.eqb].
  assert (u8 (len d / 256) * 256 + u8 (len d mod 256) = len d) as ->.
  { pose proof (Z.mod_pos_bound (len d) 256 ltac:(lia)).
    assert (0 ≤ len d / 256 < 256) by (split; [apply Z.div_pos|apply Z.div_lt_upper_bound]; lia).
    rewrite !(wrap_small 8) by lia. pose proof (Z.div_mod (len d) 256). lia. }
  rewrite (proj2 (Z.eqb_neq _ 0)), Z.ltb_irrefl by lia. cbn [orb]. unfold len. by rewrite Nat2Z.id, firstn_all.
Qed.

Lemma inflate_deflate `{!CmpLaws} cmp room d c n :
  cmp ≠ None → Compress d n = Some c → 0 < len d ≤ room → room ≤ BufferSize →
  inflate cmp room c = VData (ip_payload d).
Proof.
  intros Hcmp Hc Hd Hr. pose proof (Compress_nonempty _ _ _ Hc ltac:(lia)) as Hl. unfold inflate.
  destruct cmp; [|done]. rewrite (Uncompress_Compress d n c BufferSize Hc) by lia.
  destruct c; [done|]. destruct d as [|x d]; [change (len []) with 0 in Hd; lia|]. by rewrite (proj2 (Z.ltb_ge _ _)) by lia.
Qed.

Lemma parse_cstp_inflated `{!CmpLaws} cmp d c n :
  cmp ≠ None → Compress d n = Some c → 0 < len d ≤ BufferSize - 8 →
  parse_cstp cmp (cstp_header (len c) 8 ++ c) = VData (ip_payload d).
Proof.
  intros Hcmp Hc Hd. unfold parse_cstp, cstp_header, put16. cbn [app take plHeader tail]. rewrite !b2z_z2b.
  change (u8 8) with 8. cbn [Z.eqb Pos.eqb]. by eapply inflate_deflate.
Qed.

(** A payload in a buffer of the usual size. *)
Definition holds (pl : buffer) (d : list byte) : Prop :=
  b_cap pl = BufferSize ∧ b_LType pl = LTypeIPData ∧ b_PType pl = 0 ∧ b_data pl = d ∧ b_len pl = len d.

(** The compressed form the write loops choose. *)
Lemma deflate_choice (cmp : option string) lim n d m :
  (if negb (bool_decide (cmp = None)) && (lim <? m) then
     match Compress d n with Some c => if len c <? m then Some c else None | None => None end
   else None) = None ∨
  ∃ c, (if negb (bool_decide (cmp = None)) && (lim <? m) then
          match Compress d n with Some c => if len c <? m then Some c else None | None => None end
        else None) = Some c ∧ cmp ≠ None ∧ Compress d n = Some c.
Proof.
  destruct (bool_decide_reflect (cmp = None)); cbn [negb andb]; [by left|]. destruct (lim <? m); [|by left].
  destruct (Compress d n) as [c|]; [|by left]. destruct (len c <? m); [|by left]. right. by exists c.
Qed.

(** Room for the header: the payload moves behind it. *)
Lemma shift_payload pl d k hdr :
  holds pl d → len hdr = k → len d + k ≤ BufferSize →
  ∃ r, copy_at (copy_at (b_arr pl) k d) 0 hdr = hdr ++ d ++ r ∧ k + len d + len r = BufferSize.
Proof.
  intros (Hc & _) Hk Hd. unfold b_cap in Hc. pose proof (len_nonneg hdr). pose proof (len_nonneg d).
  assert (∃ h x r, b_arr pl = h ++ x ++ r ∧ len h = k ∧ len x = len d) as (h & x & r & Ea & Hh & Hx).
  { exists (take (Z.to_nat k) (b_arr pl)), (take (Z.to_nat (len d)) (drop (Z.to_nat k) (b_arr pl))),
      (drop (Z.to_nat (len d)) (drop (Z.to_nat k) (b_arr pl))).
    rewrite !take_drop, !len_take; [done|rewrite len_drop; lia|lia]. }
  exists r. rewrite Ea, !len_app in Hc. rewrite Ea, (copy_at_app h x r k d) by (unfold len in *; lia).
  split; [apply (copy_at_app [] h (d ++ r) 0 hdr); [done|unfold len in *; lia]|lia].
Qed.

(** The frame [cstpWrite] sends. *)
Lemma cstp_write_frame `{!CmpLaws} cfg cmp pl d :
  holds pl d → 0 < len d ≤ BufferSize - 8 →
  ∃ b, cstp_write cfg cmp pl = Ret (Some b) ∧ len (b_data b) ≤ BufferSize ∧
    (b_data b = cstp_header (len d) 0 ++ d ∨
     ∃ c, cmp ≠ None ∧ Compress d (BufferSize - 8) = Some c ∧ b_data b = cstp_header (len c) 8 ++ c).
Proof.
  intros Hh Hd. pose proof Hh as (Hc & Hlt & Hpt & Hdata & Hl). unfold cstp_write. rewrite Hlt, Hpt. change (LTypeIPData =? LTypeIPData) with true. cbn [negb Z.eqb]. cbv zeta. rewrite Hdata.
  destruct (deflate_choice cmp (NoCompressLimit cfg) (BufferSize - 8) d (b_len pl)) as [->|(c & -> & Hcmp & Hcc)]; swap 1 2.
  - pose proof (Compress_fits _ _ _ Hcc). pose proof (len_nonneg c).
    assert (u16 (len c) = len c) as -> by (apply wrap_small; unfold BufferSize in *; lia).
    assert (take 4 plHeader ++ put16 (len c) ++ [z2b 8] ++ drop 7 plHeader ++ c = cstp_header (len c) 8 ++ c) as -> by done.
    destruct (append_at_ok 0 (cstp_header (len c) 8 ++ c) pl) as (b & -> & Eb & _); [unfold BufferSize in *; lia|].
    cbn [res_bind]. exists b. split; [done|]. change (take (Z.to_nat 0) (b_arr pl)) with (@nil byte) in Eb. cbn [app] in Eb. rewrite Eb. split; [|right; eauto].
    rewrite len_app. change (len (cstp_header (len c) 8)) with 8. lia.
  - rewrite Hc, Hl, (proj2 (Z.ltb_ge BufferSize (len d + 8))) by lia. unfold reslice. rewrite Hc.
    rewrite (proj2 (Z.leb_le 0 _)), (proj2 (Z.leb_le _ BufferSize)) by lia. cbn [andb res_bind].
    unfold put_be16. cbn [set_slice b_arr b_len]. set (a1 := copy_at (b_arr pl) 8 d). set (a2 := copy_at a1 0 plHeader).
    destruct (shift_payload pl d 8 plHeader Hh eq_refl ltac:(lia)) as (r' & E2 & Hr'). fold a1 in E2. fold a2 in E2.
    assert (b_cap (set_slice a2 (len d + 8) (set_slice a1 (len d + 8) (set_slice (b_arr pl) (len d + 8) pl))) = BufferSize) as Hcap.
    { unfold b_cap. cbn. rewrite E2, !len_app. change (len plHeader) with 8. lia. }
    rewrite Hcap. change (4 + 2 <=? BufferSize) with true. cbn [Z.leb Z.compare andb res_bind]. eexists. split; [done|].
    replace (len d + 8 - 8) with (len d) by lia.
    assert (∀ x, 0 ≤ x < 65536 → u16 x = x) as Hu by (intros; by apply wrap_small).
    rewrite !Hu by (rewrite ?Hu; unfold BufferSize in *; lia).
    assert (copy_at a2 4 (put16 (len d)) = (cstp_header (len d) 0 ++ d) ++ r') as ->.
    { rewrite E2. change (plHeader ++ d ++ r') with (take 4 plHeader ++ [z2b 0; z2b 0] ++ ([z2b 0; z2b 0] ++ d ++ r')).
      rewrite (copy_at_app (take 4 plHeader) [z2b 0; z2b 0] ([z2b 0; z2b 0] ++ d ++ r') 4 (put16 (len d))) by done.
      unfold cstp_header. by rewrite <- !app_assoc. }
    unfold b_data. cbn [set_slice b_len b_arr]. rewrite take_app_length'; [|unfold len, cstp_header; rewrite length_app; cbn; lia].
    split; [|by left]. rewrite len_app. change (len (cstp_header (len d) 0)) with 8. lia.
Qed.

Lemma dtls_write_frame `{!CmpLaws} cfg cmp pl d :
  holds pl d → 0 < len d ≤ BufferSize - 1 →
  ∃ b, dtls_write cfg cmp pl = Ret (Some b) ∧ len (b_data b) ≤ BufferSize ∧
    (b_data b = z2b 0 :: d ∨ ∃ c, cmp ≠ None ∧ Compress d (BufferSize - 1) = Some c ∧ b_data b = z2b 8 :: c).
Proof.
  intros Hh Hd. pose proof Hh as (Hc & Hlt & Hpt & Hdata & Hl). unfold dtls_write.
  rewrite Hlt, Hpt. change (LTypeIPData =? LTypeIPData) with true. cbn [negb Z.eqb]. cbv zeta. rewrite Hdata.
  destruct (deflate_choice cmp (NoCompressLimit cfg) (BufferSize - 1) d (b_len pl)) as [->|(c & -> & Hcmp & Hcc)]; swap 1 2.
  - pose proof (Compress_fits _ _ _ Hcc). pose proof (len_nonneg c).
    destruct (append_at_ok 0 (z2b 8 :: c) pl) as (b & -> & Eb & _); [unfold BufferSize in *; lia|].
    cbn [res_bind]. exists b. split; [done|]. change (take (Z.to_nat 0) (b_arr pl)) with (@nil byte) in Eb. cbn [app] in Eb.
    rewrite Eb, len_cons. split; [lia|right; eauto].
  - rewrite Hc, Hl, (proj2 (Z.ltb_ge BufferSize (len d + 1))) by lia. unfold reslice. rewrite Hc.
    rewrite (proj2 (Z.leb_le 0 _)), (proj2 (Z.leb_le _ BufferSize)) by lia. cbn [andb res_bind].
    unfold set_byte. cbn [set_slice b_arr b_len]. rewrite (proj2 (Z.ltb_lt 0 _)) by lia. cbn [Z.leb Z.compare andb res_bind].
    destruct (shift_payload pl d 1 [z2b 0] Hh eq_refl ltac:(lia)) as (r & -> & Hr). eexists. split; [done|].
    unfold b_data. cbn [set_slice b_len b_arr]. rewrite app_assoc, take_app_length' by (unfold len; cbn; lia).
    cbn [app]. rewrite len_cons. split; [lia|by left].
Qed.

Lemma parse_dtls_plain cmp d : d ≠ [] → parse_dtls cmp (z2b 0 :: d) = VData (ip_payload d).
Proof. by destruct d. Qed.

(** ** Theorems *)


(** C4. A packet written to a tunnel is read at the other end as it was,
    compressed or not: the write loop sends a frame that fits one read, and the
    read loop of an end with the same codec hands on the packet. *)
Theorem tunnel_roundtrip `{!CmpLaws} cfg cmp pl d :
  holds pl d → 0 < len d →
  (len d ≤ BufferSize - 8 → ∃ b, cstp_write cfg cmp pl = Ret (Some b) ∧ len (b_data b) ≤ BufferSize ∧
    ∀ stale, pooled stale → ∃ pl', cstp_frame cmp (read_into (b_data b) stale) (len (b_data b)) = Ret (FData pl') ∧
      to_payload pl' = ip_payload d) ∧
  (len d ≤ BufferSize - 1 → ∃ b, dtls_write cfg cmp pl = Ret (Some b) ∧ len (b_data b) ≤ BufferSize ∧
    ∀ stale, pooled stale → ∃ pl', dtls_frame cmp (read_into (b_data b) stale) (len (b_data b)) = Ret (FData pl') ∧
      to_payload pl' = ip_payload d).
Proof.
  intros Hh Hd. split; intros Hm.
  - destruct (cstp_write_frame cfg cmp pl d Hh ltac:(lia)) as (b & Ew & Hl & Hf). exists b. split_and!; [done..|]. intros stale Hs.
    destruct (cstp_frame_spec cfg cmp stale (b_data b) Hs Hl) as (f & -> & Hv).
    assert (parse_cstp cmp (b_data b) = VData (ip_payload d)) as Ep.
    { destruct Hf as [->|(c & Hc & Ec & ->)]; [apply parse_cstp_plain; unfold BufferSize in *; lia|by eapply parse_cstp_inflated]. }
    rewrite Ep in Hv. destruct (view_data _ _ _ Hv) as (pl' & -> & ?). by exists pl'.
  - destruct (dtls_write_frame cfg cmp pl d Hh ltac:(lia)) as (b & Ew & Hl & Hf). exists b. split_and!; [done..|]. intros stale Hs.
    destruct (dtls_frame_spec cfg cmp stale (b_data b) Hs Hl) as (f & -> & Hv).
    assert (parse_dtls cmp (b_data b) = VData (ip_payload d)) as Ep.
    { destruct Hf as [->|(c & Hc & Ec & ->)]; [apply parse_dtls_plain; by intros ->|].
      unfold parse_dtls. rewrite b2z_z2b. change (u8 8) with 8. cbn [Z.eqb Pos.eqb]. by eapply inflate_deflate. }
    rewrite Ep in Hv. destruct (view_data _ _ _ Hv) as (pl' & -> & ?). by exists pl'.
Qed.
End parse.

(** ** Witnesses *)

(** A codec for texts of one repeated byte. *)
#[export] Instance ex_cmp : CmpEncoding := {
  Compress src n :=
    match src with
    | b :: _ => if bool_decide (src = replicate (length src) b) && (3 <=? n) && (len src <? 65536)
                then Some (b :: put16 (len src)) else None
    | [] => None
    end;
  Uncompress src n :=
    match src with
    | [b; h; l] => let k := b2z h * 256 + b2z l in if k <=? n then Some (replicate (Z.to_nat k) b) else None
    | _ => None
    end
}.
#[export] Instance ex_cmp_laws : CmpLaws.
Proof.
  assert (∀ b src n c, Compress (b :: src) n = Some c →
    b :: src = replicate (length (b :: src)) b ∧ c = b :: put16 (len (b :: src)) ∧ 3 ≤ n ∧ len (b :: src) < 65536) as Hc.
  { intros b src n c. cbn [Compress ex_cmp]. case_bool_decide; [|done]. destruct (Z.leb_spec 3 n); [|done].
    cbn [andb]. destruct (Z.ltb_spec (len (b :: src)) 65536); [|done]. by intros [= <-]. }
  split.
  - intros [|b src] n c; [done|]. intros (_ & -> & ? & _)%Hc. rewrite len_cons, len_put16. lia.
  - intros src n d. cbn [Uncompress ex_cmp]. destruct src as [|b [|h [|l [|]]]]; try done. cbv zeta.
    destruct (Z.leb_spec (b2z h * 256 + b2z l) n); [|done]. intros [= <-]. unfold len. rewrite length_replicate.
    pose proof (b2z_range h). pose proof (b2z_range l). lia.
  - intros [|b src] n c m; [done|]. intros (Er & -> & _ & Hl)%Hc Hm. cbn [Uncompress ex_cmp put16].
    set (k := len (b :: src)) in *. pose proof (len_nonneg (b :: src)). fold k in H.
    pose proof (Z.mod_pos_bound k 256 ltac:(lia)). assert (0 ≤ k / 256 < 256) by (split; [apply Z.div_pos|apply Z.div_lt_upper_bound]; lia).
    rewrite !b2z_z2b_small by lia. replace (k / 256 * 256 + k mod 256) with k by (pose proof (Z.div_mod k 256); lia).
    rewrite (proj2 (Z.leb_le _ _)) by lia. rewrite Er. unfold k, len. by rewrite Nat2Z.id.
  - intros [|b src] n c; [done|]. intros (_ & -> & _ & _)%Hc _. rewrite len_cons, len_put16. lia.
Qed.

Definition ex_held (d : list byte) : buffer :=
  {| b_LType := LTypeIPData; b_PType := 0; b_arr := d ++ zeros (BufferSize - len d); b_len := len d |}.

(** A buffer that still holds another connection's bytes. *)
Definition ex_stale : buffer :=
  {| b_LType := LTypeIPData; b_PType := 0; b_arr := replicate (Z.to_nat BufferSize) (z2b 255); b_len := BufferSize |}.


(** Three hundred equal bytes travel compressed. *)
Lemma tunnel_roundtrip_witness :
  ∃ b, cstp_write example_cfg (Some "lzs"%string) (ex_held (replicate 300 (z2b 65))) = Ret (Some b) ∧ b_len b = 11 ∧
  ∃ pl', cstp_frame (Some "lzs"%string) (read_into (b_data b) ex_stale) (len (b_data b)) = Ret (FData pl') ∧
    to_payload pl' = ip_payload (replicate 300 (z2b 65)).
Proof.
  assert (pooled ex_stale) as Hp by (split_and!; vm_compute; reflexivity).
  assert (holds (ex_held (replicate 300 (z2b 65))) (replicate 300 (z2b 65))) as Hh by (split_and!; vm_compute; reflexivity).
  destruct (tunnel_roundtrip example_cfg (Some "lzs"%string) _ _ Hh ltac:(vm_compute; reflexivity)) as [Hc _].
  destruct (Hc ltac:(vm_compute; discriminate)) as (b & Eb & _ & Hr). exists b. split; [exact Eb|]. split; [|exact (Hr ex_stale Hp)].
  assert (∃ b', cstp_write example_cfg (Some "lzs"%string) (ex_held (replicate 300 (z2b 65))) = Ret (Some b') ∧ b_len b' = 11)
    as (b' & Eb' & Hb') by (eexists; split; [vm_compute; reflexivity|reflexivity]).
  rewrite Eb in Eb'. injection Eb' as ->. exact Hb'.
Defined.
