(* ===== verification/TunnelLoopSpec.v ===== *)
(** * The tunnel loops: packets pass the ACL, the end of a loop closes the
    connection, DTLS connections are counted *)
From S2P Require Import Tunnel TunnelSpec SessionSpec IpPoolSpec AclSpec PoliciesSpec FakeDnsSpec PathSpec.
Local Open Scope Z_scope.

Section loops.
Context {db F D Msg : Type} `{IpMapStore db, SessionDb, WaterUtil, Firewall F, Resolver D, DnsCodec Msg, CmpEncoding}.
Context (cfg : ServerConfig).
Abbreviation M := (FakeDNSManager F D).
Implicit Types (t : tunnel (db := db) (F := F) (D := D)) (c : loc).

(** ** Complete mediation

    A packet may go into the network when the link ACL of the policy lets it
    pass, or when it goes to a fake address of a policy with FakeDNS. *)
Definition may_pass (rp : Policy) (pl : Payload) : Prop :=
  checkLinkAcl rp pl = Ret true ∨
  EnableFakeDNS rp = true ∧ ∃ (m : M) ip, packet_dst (Data pl) = Ret (Some ip) ∧ IsFakeIP m ip = true.

Lemma payloadIn_may_pass (fd : option M) rp pl now fd' out :
  is_ip_data pl = true → payloadIn fd rp pl now = Ret (fd', out, true) → may_pass rp pl.
Proof.
  intros Hip. unfold payloadIn. intros ([[fd1 out1] done1] & _ & Hk)%res_bind_Ret_inv.
  destruct done1; [done|]. apply res_bind_Ret_inv in Hk as ([fd2 done2] & _ & Hk). destruct done2; [done|].
  rewrite Hip in Hk. apply res_bind_Ret_inv in Hk as (fake & Hfk & Hk). destruct fake.
  - right. unfold isFakeIPDst in Hfk. destruct fd2 as [m|]; [|done]. destruct (EnableFakeDNS rp); [|done]. split; [done|].
    cbn [negb] in Hfk. apply res_bind_Ret_inv in Hfk as ([ip|] & Hd & [= Hm]). by exists m, ip.
  - left. apply res_bind_Ret_inv in Hk as (ok & Hok & [= _ _ ->]). done.
Qed.

(** What a connection never changes. *)
Definition has_info c (i : ConnInfo) t : Prop := ∃ cs, conn_heap (t_world t) !! c = Some cs ∧ info cs = i.

Lemma has_info_with c i f t : (∀ cs, info (f cs) = info cs) → has_info c i t → has_info c i (with_conn c f t).
Proof.
  intros Hf (cs & Hc & Hi). exists (f cs). unfold with_conn. cbn. rewrite Hc. cbn. rewrite lookup_insert_eq. by rewrite Hf.
Qed.
Lemma RateLimit_info cs n up : info (RateLimit cs n up).1 = info cs.
Proof. unfold RateLimit. by destruct up. Qed.

Lemma deliver_spec t c cs pl pick now t' ev stop d rp :
  to_payload pl = ip_payload d → conn_heap (t_world t) !! c = Some cs → cs_Policy (info cs) = Some rp →
  deliver t c cs pl pick now = Ret (t', ev, stop) →
  has_info c (info cs) t' ∧ ∀ p, ToNetwork p ∈ ev → may_pass rp p.
Proof.
  intros Hpl Hc Hrp. unfold deliver. rewrite Hpl. intros ([[t1 ev1] closed] & Hr & Hk)%res_bind_Ret_inv.
  unfold payloadIn_run in Hr. rewrite Hrp in Hr. apply res_bind_Ret_inv in Hr as ([[fd out] go] & Hp & Hr).
  assert (has_info c (info cs) t1 ∧ ∀ p, ToNetwork p ∈ ev1 → may_pass rp p) as [Hi Hev].
  { assert (∀ p, ToNetwork p ∉ map (dns_event cs) out) as Hno.
    { intros p Hin. apply list_elem_of_fmap in Hin as (x & Ex & _). unfold dns_event in Ex. by destruct (GetDtlsSession cs). }
    destruct go; cbn [negb] in Hr.
    - destruct (cs_closed cs && negb pick); simplify_eq; (split; [by exists cs|]); intros p Hin; [by apply Hno in Hin|].
      apply elem_of_app in Hin as [Hin|Hin]; [by apply Hno in Hin|]. apply list_elem_of_singleton in Hin as [= ->].
      by eapply payloadIn_may_pass in Hp.
    - simplify_eq. split; [by exists cs|]. intros p Hin. by apply Hno in Hin. }
  destruct closed; simplify_eq; [done|]. split; [|done]. by apply has_info_with.
Qed.

Lemma inflate_ip cmp room body pl : inflate cmp room body = VData pl → ∃ d, pl = ip_payload d.
Proof. unfold inflate. repeat case_match; intros; simplify_eq; eauto. Qed.
Lemma parse_cstp_ip cmp input pl : parse_cstp cmp input = VData pl → ∃ d, pl = ip_payload d.
Proof.
  unfold parse_cstp. do 7 (destruct input as [|? input]; [done|]). repeat (case_match; try done); intros E; simplify_eq; eauto using inflate_ip.
Qed.
Lemma parse_dtls_ip cmp input pl : parse_dtls cmp input = VData pl → ∃ d, pl = ip_payload d.
Proof.
  unfold parse_dtls. destruct input as [|? input]; [done|]. repeat (case_match; try done); intros E; simplify_eq; eauto using inflate_ip.
Qed.

Lemma new_payload_pooled : pooled new_payload.
Proof. by split_and!. Qed.

Lemma cstp_frame_data cmp input pl :
  len input ≤ BufferSize → cstp_frame cmp (read_into input new_payload) (len input) = Ret (FData pl) →
  ∃ d, to_payload pl = ip_payload d.
Proof.
  intros Hl E. destruct (cstp_frame_spec cfg cmp new_payload input new_payload_pooled Hl) as (f & Ef & Hv).
  rewrite E in Ef. simplify_eq. symmetry in Hv. by apply parse_cstp_ip in Hv.
Qed.
Lemma dtls_frame_data cmp input pl :
  len input ≤ BufferSize → dtls_frame cmp (read_into input new_payload) (len input) = Ret (FData pl) →
  ∃ d, to_payload pl = ip_payload d.
Proof.
  intros Hl E. destruct (dtls_frame_spec cfg cmp new_payload input new_payload_pooled Hl) as (f & Ef & Hv).
  rewrite E in Ef. simplify_eq. symmetry in Hv. by apply parse_dtls_ip in Hv.
Qed.

(** One read: the packets it sends on, and the connection if the loop goes on. *)
Lemma cstp_step_mediates t c i rp input pick now t' ev stop :
  len input ≤ BufferSize → has_info c i t → cs_Policy i = Some rp →
  LinkCstp_step cfg c t input pick now = Ret (t', ev, stop) →
  (stop = false → has_info c i t') ∧ ∀ p, ToNetwork p ∈ ev → may_pass rp p.
Proof.
  intros Hl Hi Hrp. unfold LinkCstp_step. destruct (len input <? 7).
  { intros [= <- <- <-]. split; [done|]. by intros p ?%not_elem_of_nil. }
  apply (has_info_with c i (λ cs, (RateLimit cs (len input) true).1)) in Hi; [|intros; apply RateLimit_info].
  set (t1 := with_conn c _ t) in *. destruct Hi as (cs & Hc & Hics). rewrite Hc.
  intros (f & Hf & Hk)%res_bind_Ret_inv.
  destruct f; simplify_eq; try (split; [intros _; by exists cs|by intros p ?%not_elem_of_nil]).
  - destruct (_ && _); [|simplify_eq; split; [intros _; by exists cs|by intros p ?%not_elem_of_nil]].
    apply res_bind_Ret_inv in Hk as (t2 & _ & Hk). simplify_eq. split; [done|]. by intros p ?%not_elem_of_nil.
  - apply res_bind_Ret_inv in Hk as (t2 & _ & Hk). simplify_eq. split; [done|]. by intros p ?%not_elem_of_nil.
  - unfold payloadOutCstp in Hk. destruct (_ && _); simplify_eq; (split; [intros _; by exists cs|]); intros p Hin;
      [by apply not_elem_of_nil in Hin|by apply list_elem_of_singleton in Hin].
  - destruct (cstp_frame_data _ _ _ Hl Hf) as (d & Hd).
    destruct (deliver_spec t1 c cs pl pick now t' ev stop d rp Hd Hc Hrp Hk). done.
Qed.

Lemma dtls_step_mediates t c i rp input pick now t' ev stop :
  len input ≤ BufferSize → has_info c i t → cs_Policy i = Some rp →
  LinkDtls_step c t input pick now = Ret (t', ev, stop) →
  has_info c i t' ∧ ∀ p, ToNetwork p ∈ ev → may_pass rp p.
Proof.
  intros Hl Hi Hrp. unfold LinkDtls_step. destruct (len input <? 1).
  { intros [= <- <- <-]. split; [done|]. by intros p ?%not_elem_of_nil. }
  apply (has_info_with c i (λ cs, (RateLimit cs (len input) true).1)) in Hi; [|intros; apply RateLimit_info].
  set (t1 := with_conn c _ t) in *. pose proof Hi as (cs & Hc & Hics). rewrite Hc.
  intros (f & Hf & Hk)%res_bind_Ret_inv.
  destruct f; simplify_eq; try (split; [done|by intros p ?%not_elem_of_nil]).
  - split; [|by intros p ?%not_elem_of_nil]. apply has_info_with; [|done]. intros. apply SetLogoutCode_frame.
  - unfold payloadOutDtls in Hk. split; [by repeat case_match; simplify_eq|]. intros p Hin.
    repeat case_match; simplify_eq; first [by apply not_elem_of_nil in Hin|by apply list_elem_of_singleton in Hin].
  - destruct (dtls_frame_data _ _ _ Hl Hf) as (d & Hd).
    exact (deliver_spec t1 c cs pl pick now t' ev stop d rp Hd Hc Hrp Hk).
Qed.

Definition reads_fit (reads : list (list byte * bool * Time)) : Prop := Forall (λ r, len r.1.1 ≤ BufferSize) reads.

Lemma LinkCstp_mediates reads t c i rp now t' ev :
  reads_fit reads → has_info c i t → cs_Policy i = Some rp →
  LinkCstp cfg c t reads now = Ret (t', ev) → ∀ p, ToNetwork p ∈ ev → may_pass rp p.
Proof.
  intros Hr Hi Hrp. revert t t' ev Hi. induction Hr as [|[[input pick] at_] reads Hl Hr IH]; intros t t' ev Hi; cbn [LinkCstp].
  { intros (t1 & _ & [= _ <-])%res_bind_Ret_inv. by intros p ?%not_elem_of_nil. }
  destruct (LinkCstp_step cfg c t input pick at_) as [[[t1 ev1] stop]|] eqn:Es;
    [|intros (t1 & _ & [= _ <-])%res_bind_Ret_inv; by intros p ?%not_elem_of_nil].
  destruct (cstp_step_mediates t c i rp input pick at_ t1 ev1 stop Hl Hi Hrp Es) as [Hi1 Hev].
  destruct stop; intros (r & Hr1 & [= _ <-])%res_bind_Ret_inv; [done|].
  intros p [Hin|Hin]%elem_of_app; [by apply Hev|]. destruct r. by eapply (IH t1); [apply Hi1|..].
Qed.

Lemma LinkDtls_mediates reads t c i rp t' ev :
  reads_fit reads → has_info c i t → cs_Policy i = Some rp →
  LinkDtls c t reads = Ret (t', ev) → ∀ p, ToNetwork p ∈ ev → may_pass rp p.
Proof.
  intros Hr (cs & Hc & Hi) Hrp. unfold LinkDtls. rewrite Hc. destruct (NewDtlsConn cs) as [cs1 [ds|]] eqn:En;
    [|intros [= _ <-]; by intros p ?%not_elem_of_nil].
  assert (has_info c i (with_world (set_conn c cs1 (t_world t)) t)) as Hi1.
  { exists cs1. cbn. rewrite lookup_insert_eq. split; [done|]. unfold NewDtlsConn in En. case_match; by simplify_eq. }
  revert Hi1. generalize (with_world (set_conn c cs1 (t_world t)) t). clear Hc Hi En t cs cs1 ds.
  revert t' ev. induction Hr as [|[[input pick] at_] reads Hl Hr IH]; intros t' ev t Hi; cbn [LinkDtls_loop].
  { intros (t1 & _ & [= _ <-])%res_bind_Ret_inv. by intros p ?%not_elem_of_nil. }
  destruct (LinkDtls_step c t input pick at_) as [[[t1 ev1] stop]|] eqn:Es;
    [|intros (t1 & _ & [= _ <-])%res_bind_Ret_inv; by intros p ?%not_elem_of_nil].
  destruct (dtls_step_mediates t c i rp input pick at_ t1 ev1 stop Hl Hi Hrp Es) as [Hi1 Hev].
  destruct stop; intros (r & Hr1 & [= _ <-])%res_bind_Ret_inv; [done|].
  intros p [Hin|Hin]%elem_of_app; [by apply Hev|]. destruct r. by eapply (IH _ _ t1).
Qed.

(** ** The end of a loop *)
Lemma Close_keeps w c now w' : ConnSession_Close cfg w c now = Ret w' → ∀ k, is_Some (conn_heap w !! k) → is_Some (conn_heap w' !! k).
Proof.
  unfold ConnSession_Close. destruct (conn_heap w !! c) as [cs|] eqn:Hc; [|done]. destruct (cs_closed cs); [by intros [= ->]|].
  destruct (sess_heap w !! _) as [s|]; [|done]. intros (d & _ & Hk)%res_bind_Ret_inv.
  destruct (settleTraffic _) as [cs' ev]. injection Hk as <-. intros k Hs. cbn. apply lookup_insert_is_Some'. by right.
Qed.
Lemma CloseSess_keeps w tok code now w' : CloseSess cfg w tok code now = Ret w' → ∀ k, is_Some (conn_heap w !! k) → is_Some (conn_heap w' !! k).
Proof.
  unfold CloseSess. destruct (sessions w !! tok) as [l|]; [|by intros [= ->]]. destruct (sess_heap w !! l) as [s|]; [|done].
  cbv zeta. destruct (CSess s) as [c|]; [|intros [= <-]; done]. cbn [conn_heap]. destruct (conn_heap w !! c) as [cs|] eqn:Hc; [|done].
  intros Hcl k Hk. eapply Close_keeps; [exact Hcl|]. cbn. apply lookup_insert_is_Some'. by right.
Qed.

(** A world the sessions can reach, in which the connection exists. *)
Definition live_world (p0 : pool_state db) c t : Prop := reachable cfg p0 (t_world t) ∧ is_Some (conn_heap (t_world t) !! c).

Lemma live_fields p0 c f t :
  (∀ cs, info (f cs) = info cs ∧ cs_closed (f cs) = cs_closed cs ∧ dSess (f cs) = dSess cs) →
  live_world p0 c t → live_world p0 c (with_conn c f t).
Proof.
  intros Hf [Hr [cs Hc]]. unfold with_conn. split; cbn; rewrite Hc.
  - eapply reach_step; [exact Hr|]. destruct (Hf cs) as (? & ? & ?). by eapply step_fields.
  - cbn. rewrite lookup_insert_eq. by eexists.
Qed.
Lemma live_rate p0 c n up t : live_world p0 c t → live_world p0 c (with_conn c (λ cs, (RateLimit cs n up).1) t).
Proof. apply live_fields. intros cs. unfold RateLimit. by destruct up. Qed.
Lemma live_close p0 c t w tok code now :
  live_world p0 c t → CloseSess cfg (t_world t) tok code now = Ret w → live_world p0 c (with_world w t).
Proof.
  intros [Hr Hc] E. split; [eapply reach_step; [exact Hr|by eapply step_close_sess]|]. by eapply CloseSess_keeps.
Qed.
Lemma live_same p0 c t t' : t_world t' = t_world t → live_world p0 c t → live_world p0 c t'.
Proof. unfold live_world. by intros ->. Qed.

Lemma payloadIn_run_world t cs pl pick now t' ev b : payloadIn_run t cs pl pick now = Ret (t', ev, b) → t_world t' = t_world t.
Proof.
  unfold payloadIn_run. destruct (cs_Policy (info cs)); [|done]. intros ([[fd out] go] & _ & Hk)%res_bind_Ret_inv.
  by repeat case_match; simplify_eq.
Qed.
Lemma deliver_live p0 t c cs pl pick now t' ev b :
  deliver t c cs pl pick now = Ret (t', ev, b) → live_world p0 c t → live_world p0 c t'.
Proof.
  unfold deliver. intros ([[t1 ev1] closed] & Hr & Hk)%res_bind_Ret_inv Hl. apply payloadIn_run_world in Hr.
  apply (live_same p0 c t t1 Hr) in Hl. destruct closed; simplify_eq; [done|]. by apply live_fields.
Qed.
Lemma close_own_live p0 t c cs code now t' : close_own cfg t cs code now = Ret t' → live_world p0 c t → live_world p0 c t'.
Proof.
  unfold close_own. destruct (sess_heap _ !! _) as [s|]; [|done]. intros (w & Hw & [= <-])%res_bind_Ret_inv Hl. by eapply live_close.
Qed.

Lemma cstp_step_live p0 t c input pick now t' ev stop :
  LinkCstp_step cfg c t input pick now = Ret (t', ev, stop) → live_world p0 c t → live_world p0 c t'.
Proof.
  unfold LinkCstp_step. destruct (len input <? 7); [by intros [= <- _ _]|].
  intros E Hl. apply (live_rate p0 c (len input) true) in Hl. destruct (conn_heap (t_world (with_conn c _ t)) !! c) as [cs|]; [|done].
  apply res_bind_Ret_inv in E as (f & _ & E). destruct f; simplify_eq; try done.
  - destruct (_ && _); [|by simplify_eq]. apply res_bind_Ret_inv in E as (t2 & E2 & E). simplify_eq. by eapply close_own_live.
  - apply res_bind_Ret_inv in E as (t2 & E2 & E). simplify_eq. eapply close_own_live; [exact E2|].
    apply live_fields; [|done]. apply SetLogoutCode_frame.
  - destruct (payloadOutCstp cs pick answer). by simplify_eq.
  - by eapply deliver_live.
Qed.

Lemma cstp_return_closed p0 t c now :
  live_world p0 c t → ∃ t', LinkCstp_return cfg c t now = Ret t' ∧ reachable cfg p0 (t_world t') ∧
    ∃ cs, conn_heap (t_world t') !! c = Some cs ∧ cs_closed cs = true.
Proof.
  intros Hl. apply (live_fields p0 c (SetLogoutCode UserLogoutLink)) in Hl; [|intros; apply SetLogoutCode_frame].
  destruct Hl as [Hr [cs Hc]]. unfold LinkCstp_return.
  destruct (Close_spec cfg _ c cs now (reachable_winv cfg p0 _ Hr) Hc) as (w & cs' & E & _ & Hc' & Hcl & _). rewrite E. cbn [res_bind].
  eexists. split; [done|]. split; [|by exists cs']. eapply reach_step; [exact Hr|by eapply step_close].
Qed.

(** C6. However a client behaves, every end of the CSTP loop closes the
    connection: on any sequence of reads, a failed read, a disconnect, a payload
    that makes a packet reader panic, a connection closed under it, the loop
    returns, with the connection closed and the sessions in a reachable state
    (so its address, its limit slot and its traffic are given back once). *)
Theorem tunnel_loop_ends_closed p0 t c reads now :
  reachable cfg p0 (t_world t) → is_Some (conn_heap (t_world t) !! c) →
  ∃ t' ev, LinkCstp cfg c t reads now = Ret (t', ev) ∧ reachable cfg p0 (t_world t') ∧
    ∃ cs, conn_heap (t_world t') !! c = Some cs ∧ cs_closed cs = true.
Proof.
  intros Hr Hc. assert (live_world p0 c t) as Hl by done. clear Hr Hc. revert t Hl.
  induction reads as [|[[input pick] at_] reads IH]; intros t Hl; cbn [LinkCstp].
  { destruct (cstp_return_closed p0 t c now Hl) as (t' & -> & ?). by exists t', []. }
  destruct (LinkCstp_step cfg c t input pick at_) as [[[t1 ev1] stop]|] eqn:Es.
  - apply (cstp_step_live p0) in Es; [|done]. destruct stop.
    + destruct (cstp_return_closed p0 t1 c at_ Es) as (t' & -> & ?). by exists t', ev1.
    + destruct (IH t1 Es) as (t' & ev & -> & ?). by exists t', (ev1 ++ ev).
  - apply (live_rate p0 c (len input) true) in Hl.
    destruct (cstp_return_closed p0 _ c at_ Hl) as (t' & -> & ?). by exists t', [].
Qed.

End loops.

(** ** DTLS connections per address *)
Definition at_addr (ip : string) (rs : list (string * dtls_phase)) : Z := len (List.filter (λ r, String.eqb r.1 ip) rs).

Lemma at_addr_perm ip rs rs' : rs ≡ₚ rs' → at_addr ip rs = at_addr ip rs'.
Proof.
  intros Hp. unfold at_addr, len. f_equal. apply Permutation_length. induction Hp; cbn; [done|by case_match; [constructor|]| |by etrans].
  repeat case_match; first [apply perm_swap|done].
Qed.
Lemma at_addr_cons ip ip' ph rs : at_addr ip ((ip', ph) :: rs) = (if String.eqb ip' ip then 1 else 0) + at_addr ip rs.
Proof. unfold at_addr. cbn [List.filter fst]. destruct (String.eqb ip' ip); [by rewrite len_cons|done]. Qed.

Inductive dtls_reachable : dtls_server → Prop :=
| dtls_init : dtls_reachable {| dtlsHsPerIP := ∅; running := [] |}
| dtls_next s s' : dtls_reachable s → dtls_step s s' → dtls_reachable s'.

(** The table counts the goroutines of an address and has no empty entry. *)
Definition counted (s : dtls_server) : Prop :=
  ∀ ip, ip ≠ ""%string → dtlsHsPerIP s !! ip = (if at_addr ip (running s) =? 0 then None else Some (at_addr ip (running s))) ∧
    at_addr ip (running s) ≤ maxDtlsHandshakePerIP.

Lemma at_addr_nonneg ip rs : 0 ≤ at_addr ip rs.
Proof. apply len_nonneg. Qed.

Lemma dtls_counted s : dtls_reachable s → counted s.
Proof.
  induction 1 as [|s s' _ IH Hs]; [by intros ip _|]. destruct Hs as [ip m [[-> ->]|[Hip Hb]]|ip _ _|ip rs Hp|ip ph rs Hp].
  - intros k Hk. cbn. rewrite at_addr_cons. rewrite (proj2 (String.eqb_neq "" k)) by done. by apply IH.
  - unfold dtlsHandshakeBegin in Hb. destruct (IH ip Hip) as [Em _]. pose proof (at_addr_nonneg ip (running s)) as Hn.
    assert (default 0 (dtlsHsPerIP s !! ip) = at_addr ip (running s)) as Ed by (rewrite Em; by destruct (Z.eqb_spec (at_addr ip (running s)) 0)).
    rewrite Ed in Hb. destruct (Z.leb_spec maxDtlsHandshakePerIP (at_addr ip (running s))); [done|]. simplify_eq.
    intros k Hk. cbn. rewrite at_addr_cons. destruct (String.eqb_spec ip k) as [<-|Hne].
    + rewrite lookup_insert_eq, (proj2 (Z.eqb_neq _ 0)) by lia. split; [f_equal; lia|lia].
    + rewrite lookup_insert_ne by done. by apply IH.
  - done.
  - intros k Hk. cbn. rewrite at_addr_cons. destruct (IH k Hk) as [Em Hm]. rewrite (at_addr_perm k _ _ Hp), at_addr_cons in Em, Hm. done.
  - intros k Hk. cbn. destruct (IH k Hk) as [Em Hm]. rewrite (at_addr_perm k _ _ Hp), at_addr_cons in Em, Hm.
    pose proof (at_addr_nonneg k rs). destruct (String.eqb_spec ip "") as [->|Hip].
    { rewrite (proj2 (String.eqb_neq "" k)) in * by done. done. }
    unfold dtlsHandshakeEnd. revert Em Hm. destruct (String.eqb_spec ip k) as [->|Hne]; intros Em Hm.
    + rewrite (proj2 (Z.eqb_neq _ 0)) in Em by lia. assert (default 0 (dtlsHsPerIP s !! k) = 1 + at_addr k rs) as -> by by rewrite Em.
      rewrite (proj2 (Z.ltb_lt 0 (1 + at_addr k rs))) by lia.
      replace (1 + at_addr k rs - 1) with (at_addr k rs) by lia. split; [|lia].
      destruct (Z.eqb_spec (at_addr k rs) 0); [apply lookup_delete_eq|apply lookup_insert_eq].
    + split; [|done]. rewrite Z.add_0_l in Em. rewrite <- Em. repeat case_match; by rewrite ?lookup_delete_ne, ?lookup_insert_ne.
Qed.

(** C22. The limit on DTLS handshakes of an address is exact, and it counts more
    than handshakes: in every reachable state the table holds, for each address,
    the number of its connections from accept to close, at most sixteen and no
    entry for zero; so an address with sixteen established tunnels and no
    handshake under way is refused another one. *)
Theorem dtls_limit_counts_connections s ip :
  dtls_reachable s → ip ≠ ""%string →
  default 0 (dtlsHsPerIP s !! ip) = at_addr ip (running s) ∧ at_addr ip (running s) ≤ 16 ∧ dtlsHsPerIP s !! ip ≠ Some 0 ∧
  ((dtlsHandshakeBegin (dtlsHsPerIP s) ip).2 = false ↔ at_addr ip (running s) = 16).
Proof.
  intros Hr Hip. destruct (dtls_counted s Hr ip Hip) as [Em Hm]. pose proof (at_addr_nonneg ip (running s)).
  assert (default 0 (dtlsHsPerIP s !! ip) = at_addr ip (running s)) as Ed by (rewrite Em; by destruct (Z.eqb_spec (at_addr ip (running s)) 0)).
  unfold maxDtlsHandshakePerIP in *. split_and!; [done|done| |].
  - rewrite Em. destruct (Z.eqb_spec (at_addr ip (running s)) 0); [done|]. by intros [= ?].
  - unfold dtlsHandshakeBegin, maxDtlsHandshakePerIP. rewrite Ed. destruct (Z.leb_spec 16 (at_addr ip (running s))); cbn; split; intros; lia || done.
Qed.

(** ** Witnesses *)

(** Alice's connection under the example policy. *)
#[export] Instance tun_session_db : SessionDb := {
  group_by_name n := if String.eqb n "ops" then Found example_group else NotFound;
  user_by_name _ := NotFound;
  apply_policy _ _ := Some ex_rp;
  quota_exceeded _ _ := false
}.
Definition tun_w1 : world mem_db := (NewSession (Build_world example_pool ∅ ∅ ∅ ∅ ∅ []) "" "tok" "dtls" (1000 * Second)).1.
Definition tun_w2 : world mem_db := set_sess 1 alice_session tun_w1.
Definition tun_w3 : world mem_db :=
  match NewConn example_cfg 0 tun_w2 1 (1001 * Second) with Done (w, _) => w | _ => tun_w2 end.
Lemma tun_w3_reachable : reachable example_cfg example_pool tun_w3.
Proof.
  eapply (reach_step _ _ tun_w2); [eapply (reach_step _ _ tun_w1); [eapply (reach_step _ _ _ tun_w1)|]|].
  - constructor.
  - apply step_new_session.
  - eapply (step_login _ _ 1%positive); vm_compute; done.
  - apply (step_new_conn _ _ 0 1%positive (1001 * Second) _ (Some 1%positive)). vm_compute. reflexivity.
Defined.

Definition tun_t : tunnel (db := mem_db) (F := Rules) (D := Z) := {| t_world := tun_w3; t_fd := Some fd_m0 |}.
Definition frame_of (pl : Payload) : list byte := cstp_header (len (Data pl)) 0 ++ Data pl.

(** A packet for a port that is allowed, one for a port that is not, a truncated
    IPv4 packet, which makes the reader panic and ends the connection. *)
Definition tun_reads : list (list byte * bool * Time) :=
  [(frame_of (ex_tcp4 443), true, 1002 * Second); (frame_of (ex_tcp4 22), true, 1003 * Second);
   (cstp_header 1 0 ++ [z2b 69], true, 1004 * Second); (frame_of (ex_tcp4 443), true, 1005 * Second)].
Definition tun_result := LinkCstp (Msg := list byte) example_cfg 1 tun_t tun_reads (1006 * Second).

Lemma tunnel_loop_ends_closed_witness :
  ∃ t' ev, tun_result = Ret (t', ev) ∧ ev = [ToNetwork (ex_tcp4 443)] ∧
    ∃ cs, conn_heap (t_world t') !! 1%positive = Some cs ∧ cs_closed cs = true.
Proof.
  destruct (tunnel_loop_ends_closed (Msg := list byte) example_cfg example_pool tun_t 1 tun_reads (1006 * Second) tun_w3_reachable
    ltac:(vm_compute; eexists; reflexivity)) as (t' & ev & E & _ & Hc).
  exists t', ev. split; [exact E|]. split; [|exact Hc].
  assert (match tun_result with Ret (_, ev) => ev | Panic => [] end = [ToNetwork (ex_tcp4 443)]) as Ev by (vm_compute; reflexivity).
  unfold tun_result in Ev. rewrite E in Ev. exact Ev.
Defined.


(** Sixteen tunnels behind one address, and no handshake. *)
Definition dtls_full : dtls_server := {| dtlsHsPerIP := {["192.0.2.1"%string := 16]}; running := replicate 16 ("192.0.2.1"%string, Linked) |}.
Lemma dtls_full_reachable : dtls_reachable dtls_full.
Proof.
  assert (∀ n m, Z.of_nat n ≤ 16 → m = (if decide (n = 0)%nat then ∅ else {["192.0.2.1"%string := Z.of_nat n]}) →
    dtls_reachable {| dtlsHsPerIP := m; running := replicate n ("192.0.2.1"%string, Linked) |}) as Hn.
  { intros n. induction n as [|n IH]; intros m Hl ->; [constructor|].
    eapply dtls_next; [eapply dtls_next; [apply (IH _ ltac:(lia) eq_refl)|apply (dtls_accept _ "192.0.2.1")]|].
    - right. split; [done|]. unfold dtlsHandshakeBegin. cbn [dtlsHsPerIP].
      assert (default 0 ((if decide (n = 0)%nat then ∅ else {["192.0.2.1"%string := Z.of_nat n]} : gmap string Z) !! "192.0.2.1"%string) = Z.of_nat n) as ->.
      { destruct (decide (n = 0)%nat) as [->|]; [done|]. by rewrite lookup_singleton_eq. }
      rewrite (proj2 (Z.leb_gt _ _)) by (unfold maxDtlsHandshakePerIP; lia). reflexivity.
    - match goal with |- dtls_step ?s ?s' => replace s' with {| dtlsHsPerIP := dtlsHsPerIP s; running := ("192.0.2.1"%string, Linked) :: replicate n ("192.0.2.1"%string, Linked) |} end.
      + by apply dtls_linked.
      + cbn [dtlsHsPerIP replicate]. f_equal. destruct (decide (S n = 0)%nat); [done|].
        replace (Z.of_nat n + 1) with (Z.of_nat (S n)) by lia. destruct (decide (n = 0)%nat); [done|apply insert_singleton_eq]. }
  apply (Hn 16%nat); [lia|done].
Qed.
Lemma dtls_limit_counts_connections_witness :
  (dtlsHandshakeBegin (dtlsHsPerIP dtls_full) "192.0.2.1").2 = false ∧ Forall (λ r, r.2 = Linked) (running dtls_full).
Proof.
  destruct (dtls_limit_counts_connections dtls_full "192.0.2.1" dtls_full_reachable ltac:(discriminate)) as (_ & _ & _ & Hb).
  split; [apply Hb; vm_compute; reflexivity|]. apply Forall_replicate. reflexivity.
Defined.
