(* ===== verification/LinkTunnel.v ===== *)
(** * Setting up a tunnel (server/handler/link_tunnel.go)

    The CONNECT request of a logged-in client: its session, a new connection,
    the headers that tell the client its address, routes and resolvers, and the
    switch to the tunnel.  What the code cannot decide itself is an argument:
    whether the HTTP server hands over the socket, whether the virtual device
    comes up, the host name, the text of the domain-split template. *)
From S2P Require Export Tunnel.
Local Open Scope Z_scope.

(** ** Headers: [http.Header], a name to its values in order *)
Abbreviation header := (gmap string (list string)).
Definition HttpSetHeader (key value : string) (h : header) : header := <[key := [value]]> h.
Definition HttpAddHeader (key value : string) (h : header) : header := <[key := default [] (h !! key) ++ [value]]> h.
Definition header_values (h : header) (key : string) : list string := default [] (h !! key).
(** Consecutive statements on the header. *)
Definition when (b : bool) (f : header → header) (h : header) : header := if b then f h else h.
Definition add_all {A} (f : A → header → header) (l : list A) (h : header) : header := fold_left (λ h x, f x h) l h.

Record TunnelRequest := {
  rq_cookie : option string;               (* the cookie "webvpn" *)
  rq_header : string → string;             (* r.Header.Get *)
  rq_RemoteAddr : string; rq_UserAgent : string
}.

Definition APP_NAME : string := "RemLink".
Definition APP_VER : string := "0.0.1".
Definition cstpLeaseDurationSec : string := "1209600".
Definition cstpIdleTimeoutSec : string := "18000".
Definition cstpDisconnectedTimeoutSec : string := "18000".
Definition cstpSessionTimeoutAlertIntervalSec : string := "60".
Definition cstpRekeyTimeSec : string := "86400".
Definition dtlsRekeyTimeSec : string := "86400".

Definition decimal (z : Z) : string := pretty z.
Definition FormatListenAddr (addr : string) : string :=
  if String.eqb addr "" then addr
  else if str_contains addr ":" then addr else (":" +:+ addr)%string.
Definition dtls_port (cfg : ServerConfig) : string :=
  let norm := FormatListenAddr (AdvertiseDTLSAddr cfg) in
  if negb (String.eqb norm "") then match SplitHostPort norm with Some (_, port) => port | None => "443"%string end
  else "443"%string.

(** [net.ParseIP(s) != nil] and not IPv4. *)
Definition v6_text (s : string) : bool :=
  let ip := ParseIP s in negb (ip_nil ip) && bool_decide (ip_to4 ip = None).
Definition is_v6_net (n : IPNet) : bool := bool_decide (ip_to4 (net_IP n) = None).

(** ** Routes and resolvers *)
Definition dns_header (v : ValData) (h : header) : header :=
  if v6_text (Val v) then HttpAddHeader "X-CSTP-DNS-IP6" (Val v) h else HttpAddHeader "X-CSTP-DNS" (Val v) h.

Definition include_header (v : ValData) (h : header) : header :=
  if String.eqb (str_lower (Val v)) ALL then h
  else
    match ParseCIDR (Val v) with
    | Some (_, ipNet) =>
        if is_v6_net ipNet then HttpAddHeader "X-CSTP-Split-Include-IP6" (net_String ipNet) h
        else if bool_decide (mask_Size (net_Mask ipNet) = (0, 32)) then h
        else HttpAddHeader "X-CSTP-Split-Include" (IpMask v) h
    | None => HttpAddHeader "X-CSTP-Split-Include" (IpMask v) h
    end.

Definition exclude_header (v : ValData) (h : header) : header :=
  match ParseCIDR (Val v) with
  | Some (_, ipNet) =>
      if is_v6_net ipNet then HttpAddHeader "X-CSTP-Split-Exclude-IP6" (net_String ipNet) h
      else HttpAddHeader "X-CSTP-Split-Exclude" (IpMask v) h
  | None => HttpAddHeader "X-CSTP-Split-Exclude" (IpMask v) h
  end.

Definition export_headers (rq : TunnelRequest) (h : header) : header :=
  let exportIp4 := rq_header rq "X-Cstp-Remote-Address-Ip4" in
  let h := when (negb (String.eqb exportIp4 "")) (HttpAddHeader "X-CSTP-Split-Exclude" (exportIp4 +:+ "/255.255.255.255")) h in
  let exportIp6 := rq_header rq "X-Cstp-Remote-Address-Ip6" in
  let exportIp6 :=
    if String.eqb exportIp6 "" then
      match SplitHostPort (rq_RemoteAddr rq) with
      | Some (host, _) => if v6_text host then host else exportIp6
      | None => exportIp6
      end
    else exportIp6 in
  when (negb (String.eqb exportIp6 "")) (HttpAddHeader "X-CSTP-Split-Exclude-IP6" (exportIp6 +:+ "/128")) h.

Definition fakedns_headers (cfg : ServerConfig) (rp : Policy) (h : header) : header :=
  let h := when (negb (String.eqb (FakeDNSUpstream rp) ""))
             (HttpAddHeader "X-CSTP-Split-Include"
                (FakeDNSUpstream rp +:+ (if v6_text (FakeDNSUpstream rp) then "/128" else "/255.255.255.255"))) h in
  let h := match ParseCIDR DefaultFakeIPRange with
           | Some (_, ipNet) => HttpAddHeader "X-CSTP-Split-Include" (ip_String (net_IP ipNet) +:+ "/" +:+ ip_String (net_Mask ipNet)) h
           | None => h
           end in
  if negb (String.eqb (Ipv6CIDR cfg) "") && PreferIPv6 rp then
    match ParseCIDR DefaultFakeIPv6Range with
    | Some (_, ipNet6) => HttpAddHeader "X-CSTP-Split-Include-IP6" (net_String ipNet6) h
    | None => h
    end
  else h.

(** The local network, which has to come first among the routes, and the resolvers. *)
Definition lan_dns_headers (rp : Policy) (v6 : bool) (h : header) : header :=
  let h := when (AllowLan rp) (λ h, when v6 (HttpAddHeader "X-CSTP-Split-Exclude-IP6" "::/128")
                                      (HttpSetHeader "X-CSTP-Split-Exclude" "0.0.0.0/255.255.255.255" h)) h in
  add_all dns_header (ClientDns rp) h.

(** ** The whole response *)
Section headers.
Context (cfg : ServerConfig) (hn : string) (post_auth_xml : Policy → option string).

(** [mask] is the pool's, [cs] the connection after [SetMtu] and [SetPickCmp]. *)
Definition tunnel_headers (rq : TunnelRequest) (s : Session) (cs : ConnSession) (rp : Policy) (mask : IP)
    (cstp_cmp dtls_cmp : string * bool) (cstpDpd cstpKeepalive : Z) (mobile : bool) : header :=
  let ip6 := IpAddr6 (info cs) in
  let v6 := negb (ip_nil ip6) in
  let h : header := ∅ in
  let h := HttpSetHeader "X-CSTP-Version" "1" h in
  let h := HttpSetHeader "X-CSTP-Server-Name" (APP_NAME +:+ " " +:+ APP_VER) h in
  let h := HttpSetHeader "X-CSTP-Protocol" "Copyright (c) 2004 Cisco Systems, Inc." h in
  let h := HttpSetHeader "X-CSTP-Address" (ip_String (IpAddr (info cs))) h in
  let h := HttpSetHeader "X-CSTP-Netmask" (ip_String mask) h in
  let h := when v6 (λ h,
             if str_contains (str_lower (rq_UserAgent rq)) "openconnect" then
               HttpAddHeader "X-CSTP-Netmask" (ip_String ip6 +:+ "/128") (HttpAddHeader "X-CSTP-Address" (ip_String ip6) h)
             else HttpSetHeader "X-CSTP-Netmask-IP6" "128" (HttpSetHeader "X-CSTP-Address-IP6" (ip_String ip6) h)) h in
  let h := HttpSetHeader "X-CSTP-Hostname" hn h in
  let h := HttpSetHeader "X-CSTP-Base-MTU" (rq_header rq "X-CSTP-Base-MTU") h in
  let h := when (negb (String.eqb (DefaultDomain cfg) "")) (HttpSetHeader "X-CSTP-Default-Domain" (DefaultDomain cfg)) h in
  let h := when cstp_cmp.2 (HttpSetHeader "X-CSTP-Content-Encoding" cstp_cmp.1) h in
  let h := when (ServerDTLS cfg && dtls_cmp.2) (HttpSetHeader "X-DTLS-Content-Encoding" dtls_cmp.1) h in
  let h := lan_dns_headers rp v6 h in
  let h := add_all (λ v, HttpAddHeader "X-CSTP-Split-DNS" (Val v)) (SplitDns (cs_Group (info cs))) h in
  let h := add_all include_header (RouteInclude rp) h in
  let h := add_all exclude_header (RouteExclude rp) h in
  let h := when (ExcludeExportIp cfg) (export_headers rq) h in
  let h := when (EnableFakeDNS rp) (fakedns_headers cfg rp) h in
  let h := HttpSetHeader "X-CSTP-Lease-Duration" cstpLeaseDurationSec h in
  let h := HttpSetHeader "X-CSTP-Session-Timeout" "none" h in
  let h := HttpSetHeader "X-CSTP-Session-Timeout-Alert-Interval" cstpSessionTimeoutAlertIntervalSec h in
  let h := HttpSetHeader "X-CSTP-Session-Timeout-Remaining" "none" h in
  let h := HttpSetHeader "X-CSTP-Idle-Timeout" cstpIdleTimeoutSec h in
  let h := HttpSetHeader "X-CSTP-Disconnected-Timeout" cstpDisconnectedTimeoutSec h in
  let h := HttpSetHeader "X-CSTP-Keep" "true" h in
  let h := HttpSetHeader "X-CSTP-Tunnel-All-DNS" (if EnableFakeDNS rp then "true" else "false") h in
  let h := HttpSetHeader "X-CSTP-Rekey-Time" cstpRekeyTimeSec h in
  let h := HttpSetHeader "X-CSTP-Rekey-Method" "new-tunnel" h in
  let h := HttpSetHeader "X-DTLS-Rekey-Time" dtlsRekeyTimeSec h in
  let h := HttpSetHeader "X-DTLS-Rekey-Method" "new-tunnel" h in
  let h := HttpSetHeader "X-CSTP-DPD" (decimal cstpDpd) h in
  let h := HttpSetHeader "X-CSTP-Keepalive" (decimal cstpKeepalive) h in
  let h := HttpSetHeader "X-CSTP-MSIE-Proxy-Lockdown" "true" h in
  let h := HttpSetHeader "X-CSTP-Smartcard-Removal-Disconnect" "true" h in
  let h := HttpSetHeader "X-CSTP-MTU" (decimal (cs_Mtu cs)) h in
  let h := HttpSetHeader "X-DTLS-MTU" (decimal (cs_Mtu cs)) h in
  let h := when (ServerDTLS cfg) (λ h,
             let h := HttpSetHeader "X-DTLS-Session-ID" (DtlsSid s) h in
             let h := HttpSetHeader "X-DTLS-Port" (dtls_port cfg) h in
             let h := HttpSetHeader "X-DTLS-DPD" (decimal cstpDpd) h in
             let h := HttpSetHeader "X-DTLS-Keepalive" (decimal cstpKeepalive) h in
             HttpSetHeader "X-DTLS12-CipherSuite" (checkDtls12Ciphersuite (rq_header rq "X-Dtls12-Ciphersuite")) h) h in
  let h := HttpSetHeader "X-CSTP-License" "accept" h in
  let h := HttpSetHeader "X-CSTP-Routing-Filtering-Ignore" "false" h in
  let h := HttpSetHeader "X-CSTP-Quarantine" "false" h in
  let h := HttpSetHeader "X-CSTP-Disable-Always-On-VPN" "false" h in
  let h := HttpSetHeader "X-CSTP-Client-Bypass-Protocol" "true" h in
  let h := HttpSetHeader "X-CSTP-TCP-Keepalive" "false" h in
  if mobile then h
  else if String.eqb (DsExcludeDomains rp) "" && String.eqb (DsIncludeDomains rp) "" then h
  else match post_auth_xml rp with Some x => HttpSetHeader "X-CSTP-Post-Auth-XML" x h | None => h end.
End headers.

(** ** The request *)
Inductive tunnel_outcome :=
| Unauthorized                          (* 401 *)
| HijackFailed (c : loc)                (* 500 *)
| DeviceFailed (c : loc)                (* the socket is closed *)
| TunnelStarted (c : loc) (h : header). (* go LinkCstp *)

Section link.
Context {db : Type} `{IpMapStore db, SessionDb} (cfg : ServerConfig).
Context (hn : string) (post_auth_xml : Policy → option string).
Implicit Types (w : world db) (now : Time).

Definition set_master (m : string) (cs : ConnSession) : ConnSession :=
  {| info := info cs; cs_Mtu := cs_Mtu cs; userLogoutCode := userLogoutCode cs; traffic := traffic cs;
     cs_closed := cs_closed cs; dSess := dSess cs; LastDataTime := LastDataTime cs; MasterSecret := m;
     CstpPickCmp := CstpPickCmp cs; DtlsPickCmp := DtlsPickCmp cs |}.

(** What the client negotiates: MTU, DTLS secret, compression. *)
Definition negotiate (MaxMtu : Z) (rq : TunnelRequest) (cs : ConnSession)
    : Z * ConnSession * (string * bool) * (string * bool) :=
  let '(MaxMtu, cs) := if cs_Mtu cs =? 0 then SetMtu cfg MaxMtu cs (rq_header rq "X-CSTP-MTU") else (MaxMtu, cs) in
  let cs := set_master (rq_header rq "X-DTLS-Master-Secret") cs in
  let '(cs, cstp_cmp) := SetPickCmp cfg cs "cstp" (rq_header rq "X-Cstp-Accept-Encoding") in
  let '(cs, dtls_cmp) := if ServerDTLS cfg then SetPickCmp cfg cs "dtls" (rq_header rq "X-Dtls-Accept-Encoding")
                         else (cs, (""%string, false)) in
  (MaxMtu, cs, cstp_cmp, dtls_cmp).

(** From the new connection on. *)
Definition LinkTunnel_conn (MaxMtu : Z) w (s : Session) (c : loc) (rq : TunnelRequest) (hijack device : bool) now
    : run (world db * Z * tunnel_outcome) :=
  match conn_heap w !! c with
  | None => Crash
  | Some cs =>
      let '(MaxMtu, cs, cstp_cmp, dtls_cmp) := negotiate MaxMtu rq cs in
      let w := set_conn c cs w in
      match cs_Policy (info cs) with
      | None => Crash
      | Some rp =>
          let mobile := String.eqb (rq_header rq "X-Cstp-License") "mobile" in
          let mask := Ipv4Mask (get_pool (pools w) (cs_IpPool (info cs))) in
          let h := tunnel_headers cfg hn post_auth_xml rq s cs rp mask cstp_cmp dtls_cmp
                     (if mobile then MobileDpd cfg else CstpDpd cfg)
                     (if mobile then MobileKeepalive cfg else CstpKeepalive cfg) mobile in
          if negb hijack then Done (w, MaxMtu, HijackFailed c)
          else if negb device then
            match ConnSession_Close cfg (set_conn c (SetLogoutCode UserLogoutTunErr cs) w) c now with
            | Panic => Crash
            | Ret w => Done (w, MaxMtu, DeviceFailed c)
            end
          else Done (w, MaxMtu, TunnelStarted c h)
      end
  end.

(** [LinkTunnel]; [hijack] says whether the server hands over the socket, [device]
    whether the virtual device comes up, [MaxMtu] is the package variable. *)
Definition LinkTunnel (v6fuel : nat) (MaxMtu : Z) w (rq : TunnelRequest) (hijack device : bool) now
    : run (world db * Z * tunnel_outcome) :=
  let refused := Done (w, MaxMtu, Unauthorized) in
  match rq_cookie rq with
  | None => refused
  | Some cookie =>
      if String.eqb cookie "" then refused
      else
        match SToken2Sess w cookie with
        | None => refused
        | Some l =>
            match sess_heap w !! l with
            | None => Crash
            | Some s =>
                if IsExpired (s_LimitTime s) now then
                  match CloseSess cfg w (Token s) (Some UserLogoutExpire) now with
                  | Panic => Crash
                  | Ret w => Done (w, MaxMtu, Unauthorized)
                  end
                else
                  match NewConn cfg v6fuel w l now with
                  | Crash => Crash
                  | Looping => Looping
                  | Done (w, None) => Done (w, MaxMtu, Unauthorized)
                  | Done (w, Some c) => LinkTunnel_conn MaxMtu w s c rq hijack device now
                  end
            end
        end
  end.
End link.
