(* ===== verification/LinkTunnelSpec.v ===== *)
(** * Setting up a tunnel: connections it leaves open, routes the client is told *)
From S2P Require Import LinkTunnel SessionSpec PoliciesSpec IpPoolSpec TunnelLoopSpec.
Local Open Scope Z_scope.

(** ** Connections *)
Section conns.
Context {db : Type} `{IpMapStore db, SessionDb} (cfg : ServerConfig).
Implicit Types (w : world db) (now : Time).

Definition is_open w (c : loc) : Prop := ∃ cs, conn_heap w !! c = Some cs ∧ cs_closed cs = false.

Lemma settle_closed cs : cs_closed (settleTraffic cs).1 = cs_closed cs.
Proof. unfold settleTraffic. by repeat case_match. Qed.

Lemma Close_only_closes w c now w' : ConnSession_Close cfg w c now = Ret w' → ∀ k, is_open w' k → is_open w k.
Proof.
  unfold ConnSession_Close. destruct (conn_heap w !! c) as [cs|] eqn:Hc; [|done].
  destruct (cs_closed cs); [by intros [= ->]|]. destruct (sess_heap w !! _) as [s|]; [|done].
  intros (d & _ & Hk)%res_bind_Ret_inv. pose proof (settle_closed (set_closed true d cs)) as Hs.
  destruct (settleTraffic _) as [cs' ev]. injection Hk as <-. intros k (cs1 & H1 & Ho). cbn in H1.
  apply lookup_insert_Some in H1 as [[<- <-]|[_ ?]]; [cbn in Hs; congruence|by exists cs1].
Qed.

Lemma is_open_set_conn w c cs cs' k :
  conn_heap w !! c = Some cs → cs_closed cs' = cs_closed cs → is_open (set_conn c cs' w) k ↔ is_open w k.
Proof.
  intros Hc He. unfold is_open. cbn. split; intros (cs1 & H1 & Ho).
  - apply lookup_insert_Some in H1 as [[<- <-]|[_ ?]]; [exists cs; split; [done|congruence]|by exists cs1].
  - destruct (decide (c = k)) as [<-|]; [|exists cs1; by rewrite lookup_insert_ne]. exists cs'. rewrite lookup_insert_eq.
    split; [done|congruence].
Qed.

Lemma CloseSess_only_closes w tok code now w' : CloseSess cfg w tok code now = Ret w' → ∀ k, is_open w' k → is_open w k.
Proof.
  unfold CloseSess. destruct (sessions w !! tok) as [l|]; [|by intros [= ->]]. destruct (sess_heap w !! l) as [s|]; [|done].
  cbv zeta. destruct (CSess s) as [c|]; [|intros [= <-]; done]. cbn [conn_heap]. destruct (conn_heap w !! c) as [cs|] eqn:Hc; [|done].
  intros Hcl k Hk. apply (Close_only_closes _ _ _ _ Hcl) in Hk.
  assert (cs_closed (match code with Some k => SetLogoutCode k cs | None => cs end) = cs_closed cs) as He
    by (destruct code; [apply SetLogoutCode_frame|done]).
  exact (proj1 (is_open_set_conn _ c cs _ k Hc He) Hk).
Qed.

(** Only the connection it returns is new. *)
Lemma NewConn_setup_opens w l s g r ip ip6 now w' o :
  NewConn_setup cfg w l s g r ip ip6 now = (w', o) →
  (∀ k, is_open w' k → o = Some k ∨ is_open w k) ∧ (∀ c, o = Some c → is_open w' c).
Proof.
  unfold NewConn_setup. destruct (apply_policy _ _) as [pol|]; [|intros [= <- <-]; split; [by right|done]].
  destruct (quota_exceeded _ _); [intros [= <- <-]; split; [by right|done]|]. intros [= <- <-]. split.
  - intros k (cs & Hk & Ho). cbn in Hk. apply lookup_insert_Some in Hk as [[-> _]|[_ Hk]]; [by left|right; by exists cs].
  - intros c [= <-]. eexists. cbn. by rewrite lookup_insert_eq.
Qed.
Lemma NewConn_open_opens f w l s now w' o :
  NewConn_open cfg f w l s now = Done (w', o) →
  (∀ k, is_open w' k → o = Some k ∨ is_open w k) ∧ (∀ c, o = Some c → is_open w' c).
Proof.
  unfold NewConn_open. destruct (LimitClient _ _ _ _) as [lc ok]. destruct ok; cbn [negb]; [|intros [= <- <-]; split; [by right|done]].
  destruct (group_by_name _) as [g| |]; [|intros [= <- <-]; split; [by right|done]..].
  destruct (GetGroupIpPool _ _ _) as [ps r]. destruct (AcquireIpWithRange _ _ _ _ _ _ _) as [[ps' ip]|]; [|done].
  destruct (ip_nil ip); [intros [= <- <-]; split; [by right|done]|].
  destruct (str_empty _).
  - intros [= E]. by apply NewConn_setup_opens in E.
  - destruct (acquireIpV6 _ _ _ _ _ _ _ _) as [[[ps6 ip6]|]|]; [|done..]. intros [= E]. by apply NewConn_setup_opens in E.
Qed.
Lemma NewConn_opens f w l now w' o :
  NewConn cfg f w l now = Done (w', o) →
  (∀ k, is_open w' k → o = Some k ∨ is_open w k) ∧ (∀ c, o = Some c → is_open w' c).
Proof.
  unfold NewConn. destruct (sess_heap w !! l) as [s|]; [|done]. destruct (IsActive s); [|apply NewConn_open_opens].
  destruct (CSess s) as [c|]; [|done]. destruct (conn_heap w !! c) as [cs|] eqn:Hc; [|done].
  destruct (ConnSession_Close _ _ _ _) as [w1|] eqn:Ec; [|done]. destruct (sess_heap w1 !! l) as [s'|]; [|done].
  intros [Ho Hn]%NewConn_open_opens. split; [|done]. intros k [?|Hk]%Ho; [by left|right].
  apply (Close_only_closes _ _ _ _ Ec) in Hk.
  exact (proj1 (is_open_set_conn w c cs _ k Hc (proj1 (proj2 (SetLogoutCode_frame UserLogoutReconn cs)))) Hk).
Qed.

(** Negotiation changes neither. *)
Lemma negotiate_frame mx rq cs mx' cs' a b :
  negotiate cfg mx rq cs = (mx', cs', a, b) →
  info cs' = info cs ∧ cs_closed cs' = cs_closed cs ∧ dSess cs' = dSess cs.
Proof.
  assert (∀ cs, info (enforceMtuFloorV6 cfg cs) = info cs ∧ cs_closed (enforceMtuFloorV6 cfg cs) = cs_closed cs ∧
    dSess (enforceMtuFloorV6 cfg cs) = dSess cs) as He by (intros; unfold enforceMtuFloorV6; by repeat case_match).
  assert (∀ m cs t, info (SetMtu cfg m cs t).2 = info cs ∧ cs_closed (SetMtu cfg m cs t).2 = cs_closed cs ∧
    dSess (SetMtu cfg m cs t).2 = dSess cs) as Hm.
  { intros m cs0 t. unfold SetMtu. repeat case_match; cbn [snd]; match goal with |- context [enforceMtuFloorV6 cfg ?x] => destruct (He x) as (-> & -> & ->) end; done. }
  assert (∀ cs c e, info (SetPickCmp cfg cs c e).1 = info cs ∧ cs_closed (SetPickCmp cfg cs c e).1 = cs_closed cs ∧
    dSess (SetPickCmp cfg cs c e).1 = dSess cs) as Hp by (intros; unfold SetPickCmp; by repeat case_match).
  unfold negotiate. destruct (if cs_Mtu cs =? 0 then _ else _) as [mx1 cs1] eqn:E1.
  assert (info cs1 = info cs ∧ cs_closed cs1 = cs_closed cs ∧ dSess cs1 = dSess cs) as (I1 & I2 & I3).
  { destruct (cs_Mtu cs =? 0); simplify_eq; [|done]. pose proof (Hm mx cs (rq_header rq "X-CSTP-MTU")) as Hx. rewrite E1 in Hx. exact Hx. }
  pose proof (Hp (set_master (rq_header rq "X-DTLS-Master-Secret") cs1) "cstp"%string (rq_header rq "X-Cstp-Accept-Encoding")) as (P1 & P2 & P3).
  destruct (SetPickCmp cfg _ "cstp" _) as [cs2 c2]. cbn [fst] in *.
  pose proof (Hp cs2 "dtls"%string (rq_header rq "X-Dtls-Accept-Encoding")) as (Q1 & Q2 & Q3).
  destruct (ServerDTLS cfg); [destruct (SetPickCmp cfg cs2 _ _) as [cs3 c3]|]; intros [= _ <- _ _]; cbn in *; split_and!; congruence.
Qed.
End conns.

(** C21. What a tunnel request leaves behind: the sessions stay in a reachable
    state; a refused request and one whose device fails leave no connection open
    that was not open before, and a started tunnel exactly the new one, for an
    unexpired session the cookie names.  But when the server cannot hand over the
    socket, the request fails and its connection stays open: nothing closes it,
    so its address and limit slot stay taken. *)
Theorem tunnel_request_connections {db} `{IpMapStore db, SessionDb} cfg hn px p0 f mx (w : world db) rq hijack device now w' mx' o :
  reachable cfg p0 w → LinkTunnel cfg hn px f mx w rq hijack device now = Done (w', mx', o) →
  reachable cfg p0 w' ∧
  match o with
  | Unauthorized | DeviceFailed _ => ∀ k, is_open w' k → is_open w k
  | TunnelStarted c _ | HijackFailed c =>
      is_open w' c ∧ (∀ k, is_open w' k → k = c ∨ is_open w k) ∧ (hijack = false ↔ o = HijackFailed c) ∧
      ∃ cookie l s, rq_cookie rq = Some cookie ∧ SToken2Sess w cookie = Some l ∧ sess_heap w !! l = Some s ∧
        IsExpired (s_LimitTime s) now = false
  end.
Proof.
  intros Hr. unfold LinkTunnel. destruct (rq_cookie rq) as [cookie|] eqn:Eck; [|by intros [= <- <- <-]].
  destruct (String.eqb cookie ""); [by intros [= <- <- <-]|]. destruct (SToken2Sess w cookie) as [l|] eqn:El; [|by intros [= <- <- <-]].
  destruct (sess_heap w !! l) as [s|] eqn:Es; [|done]. destruct (IsExpired _ _) eqn:Ex.
  { destruct (CloseSess _ _ _ _ _) as [w1|] eqn:Ec; [|done]. intros [= <- <- <-].
    split; [by eapply reach_step, step_close_sess|]. by eapply CloseSess_only_closes. }
  destruct (NewConn cfg f w l now) as [[w1 [c|]]| |] eqn:En; [|intros [= <- <- <-]|done..];
    destruct (NewConn_opens _ _ _ _ _ _ _ En) as [Hop Hc]; (assert (reachable cfg p0 w1) as Hr1 by by eapply reach_step, step_new_conn);
    [|split; [done|]; intros k [?|?]%Hop; done].
  assert (∀ k, is_open w1 k → k = c ∨ is_open w k) as Hop' by (intros k [[= ->]|?]%Hop; auto). clear Hop.
  unfold LinkTunnel_conn. destruct (Hc c eq_refl) as (cs & Hcs & Ho). rewrite Hcs.
  destruct (negotiate cfg mx rq cs) as [[[mx1 cs1] a] b] eqn:Eneg. destruct (negotiate_frame _ _ _ _ _ _ _ _ Eneg) as (I1 & I2 & I3).
  destruct (cs_Policy (info cs1)) as [rp|]; [|done].
  assert (reachable cfg p0 (set_conn c cs1 w1)) as Hr2 by by eapply reach_step, step_fields.
  assert (∀ k, is_open (set_conn c cs1 w1) k ↔ is_open w1 k) as Hio by (intros; by eapply is_open_set_conn).
  assert (is_open (set_conn c cs1 w1) c) as Hopen by (apply Hio; by exists cs).
  assert (∀ k, is_open (set_conn c cs1 w1) k → k = c ∨ is_open w k) as Hall by (intros k Hk; by apply Hop', Hio).
  destruct hijack; cbn [negb].
  - destruct device; cbn [negb].
    + intros [= <- <- <-]. split; [done|]. split_and!; [done|done|by split|eauto 10].
    + destruct (SetLogoutCode_frame UserLogoutTunErr cs1) as (J1 & J2 & J3).
      set (w2 := set_conn c (SetLogoutCode UserLogoutTunErr cs1) (set_conn c cs1 w1)).
      assert (conn_heap (set_conn c cs1 w1) !! c = Some cs1) as Hcs1 by apply lookup_insert_eq.
      assert (reachable cfg p0 w2) as Hr3 by (eapply reach_step; [exact Hr2|by eapply step_fields]).
      destruct (ConnSession_Close cfg w2 c now) as [w3|] eqn:Ec; [|done]. intros [= <- <- <-].
      split; [by eapply reach_step, step_close|]. intros k Hk.
      assert (¬ is_open w3 c) as Hclosed.
      { destruct (Close_spec cfg w2 c (SetLogoutCode UserLogoutTunErr cs1) now (reachable_winv cfg p0 _ Hr3) (lookup_insert_eq _ _ _))
          as (w4 & cs4 & E4 & _ & H4 & H5 & _). rewrite Ec in E4. simplify_eq. intros (cs5 & H6 & H7). congruence. }
      assert (k ≠ c) as Hne by (intros ->; done). apply (Close_only_closes _ _ _ _ _ Ec) in Hk.
      apply (is_open_set_conn _ c cs1) in Hk; [|done|done]. by destruct (Hall k Hk).
  - intros [= <- <- <-]. split; [done|]. split_and!; [done|done|by split|eauto 10].
Qed.

(** Alice's session has no connection yet.  Her request gets a connection, the
    socket cannot be handed over, and the connection is still open afterwards. *)
Definition alice_request : TunnelRequest :=
  {| rq_cookie := Some "x@tok"%string; rq_header _ := ""%string; rq_RemoteAddr := "192.0.2.9:4711"; rq_UserAgent := "" |}.
Definition alice_request_result :=
  LinkTunnel example_cfg "vpn" (λ _, None) 0 0 tun_w2 alice_request false true (1001 * Second).

Lemma tunnel_request_connections_witness :
  ∃ w' mx' c, alice_request_result = Done (w', mx', HijackFailed c) ∧ is_open w' c ∧ ¬ is_open tun_w2 c.
Proof.
  assert (reachable example_cfg example_pool tun_w2) as Hr.
  { eapply (reach_step _ _ tun_w1); [eapply (reach_step _ _ _ tun_w1)|].
    - constructor.
    - apply step_new_session.
    - eapply (step_login _ _ 1%positive); vm_compute; done. }
  assert (match alice_request_result with Done (_, _, HijackFailed c) => c | _ => 99%positive end = 1%positive) as Ev
    by (vm_compute; reflexivity).
  destruct alice_request_result as [[[w' mx'] [|c|c|c h]]| |] eqn:E; try discriminate Ev. subst c.
  destruct (tunnel_request_connections example_cfg "vpn" (λ _, None) example_pool 0 0 tun_w2 alice_request false true
    (1001 * Second) w' mx' (HijackFailed 1) Hr E) as (_ & Ho & _).
  exists w', mx', 1%positive. split; [reflexivity|]. split; [exact Ho|].
  assert (conn_heap tun_w2 !! 1%positive = None) as Hn by (vm_compute; reflexivity).
  intros (cs & Hc & _). congruence.
Defined.
