(* ===== verification/Group.v ===== *)
(** * Groups (server/dbdata/group.go)

    [SetGroup]: the checks a group passes before it is stored, and the store.
    The table and the interfaces of the machine are not the program's: the first
    is the class [GroupDb], the second the argument [ifaces]. *)
From S2P Require Export IpPool Policies Auth.
Local Open Scope Z_scope.

(** ** The table *)
Class GroupDb (db : Type) := {
  all_groups : db → lookup_res (list Group);          (* Find(&groups, 0, 0) *)
  active_groups : db → lookup_res (list Group);       (* status=1 *)
  grp_by_id : db → Z → lookup_res Group;              (* One("Id", id, g) *)
  db_set_group : db → Group → db * option string;     (* Set(g): every column, by Id *)
  db_add_group : db → Group → db * option string;     (* Add(g) *)
  db_del_group : db → Z → db * option string          (* Del(g), by Id *)
}.

(** Network interfaces: [None] when [net.InterfaceByName] fails, [Some None] when
    its [Addrs] do, otherwise the texts of its addresses. *)
Definition interfaces : Type := string → option (option (list string)).

Inductive group_addr := StartAddr | EndAddr | GatewayAddr.
Inductive GroupError :=
| EGroupName | EPolicyRequired | EPolicyMissing | EPolicyDisabled
| EDomain | EOutDev (dev : string)
| ECidr | ECidrFamily | EAddrFormat (a : group_addr) | EAddrOutside (a : group_addr) | EOrder | EIncomplete
| EOverlapGlobal (net global : string) | EOverlapGroup (net name cidr : string) | EOverlapMaster (net dev mnet : string)
| EV6NeedsV4 | ECidr6 | ECidr6Family | ECidr6Prefix
| EProfile (e : ProfileError) | EStepUnknown (typ : string) (i : Z) | EStepProvider (typ : string) (i : Z)
| EStepNoProvider (typ : string) (i : Z)
| EStore (e : string).

Definition group_result A : Type := GroupError + A.
Definition gbind {A B} (m : group_result A) (f : A → group_result B) : group_result B :=
  match m with inl e => inl e | inr a => f a end.
Notation "'check!' x ':=' e 'in' k" := (gbind e (fun x => k))
  (at level 10, x pattern, e at level 200, k at level 200,
   format "'[v' 'check!'  x  ':='  e  'in' '/' k ']'") : remlink_scope.
Definition guard_e (b : bool) (e : GroupError) : group_result unit := if b then inl e else inr tt.

(** ** Names *)
Section names.
Context {db : Type} `{GroupDb db}.

(** An error gives the nil slice, [None]; the others are slices. *)
Definition GetGroupNames (d : db) : option (list string) :=
  match all_groups d with Found gs => Some (grp_Name <$> gs) | NotFound => Some [] | LookupErr => None end.
Definition GetGroupNamesNormal (d : db) : option (list string) :=
  match active_groups d with
  | Found gs => Some (grp_Name <$> List.filter (λ g, Hidden g =? 0) gs)
  | NotFound => Some []
  | LookupErr => None
  end.
Definition GetAllGroups (d : db) : option (list Group) :=
  match active_groups d with Found gs => Some gs | NotFound => Some [] | LookupErr => None end.
Definition GetGroupNamesIds (d : db) : option (list (Z * string)) :=
  match all_groups d with Found gs => Some ((λ g, (grp_Id g, grp_Name g)) <$> gs) | NotFound => Some [] | LookupErr => None end.
End names.

(** ** Networks *)
Definition cidrOverlaps (a b : IPNet) : bool := net_Contains a (net_IP b) || net_Contains b (net_IP a).

(** [if _, n, err := net.ParseCIDR(c); err == nil && cidrOverlaps(n, ipNet)] *)
Definition overlaps_text (c : string) (ipNet : IPNet) : bool :=
  match ParseCIDR c with Some (_, n) => cidrOverlaps n ipNet | None => false end.

Definition group_cidr (isV6 : bool) (g : Group) : string := if isV6 then ClientCidr6 g else ClientCidr g.

Fixpoint check_others (ipNet : IPNet) (id : Z) (isV6 : bool) (others : list Group) : group_result unit :=
  match others with
  | [] => inr tt
  | og :: others =>
      if grp_Id og =? id then check_others ipNet id isV6 others
      else
        let c := group_cidr isV6 og in
        if String.eqb c "" then check_others ipNet id isV6 others
        else if overlaps_text c ipNet then inl (EOverlapGroup (net_String ipNet) (grp_Name og) c)
        else check_others ipNet id isV6 others
  end.

Fixpoint check_master (ipNet : IPNet) (dev : string) (isV6 : bool) (addrs : list string) : group_result unit :=
  match addrs with
  | [] => inr tt
  | a :: addrs =>
      match ParseCIDR a with
      | None => check_master ipNet dev isV6 addrs
      | Some (_, mNet) =>
          let isMv6 := bool_decide (ip_to4 (net_IP mNet) = None) in
          if negb (Bool.eqb isMv6 isV6) then check_master ipNet dev isV6 addrs
          else if cidrOverlaps mNet ipNet then inl (EOverlapMaster (net_String ipNet) dev (net_String mNet))
          else check_master ipNet dev isV6 addrs
      end
  end.

Section overlap.
Context {db : Type} `{GroupDb db} (cfg : ServerConfig) (ifaces : interfaces).

(** A failed query of the groups ends the check without an error, before the
    master device is looked at. *)
Definition checkCidrOverlap (d : db) (ipNet : IPNet) (g : Group) (isV6 : bool) : group_result unit :=
  let globalCIDR := if isV6 then Ipv6CIDR cfg else Ipv4CIDR cfg in
  check! _ := guard_e (negb (String.eqb globalCIDR "") && overlaps_text globalCIDR ipNet)
              (EOverlapGlobal (net_String ipNet) globalCIDR) in
  match all_groups d with
  | LookupErr => inr tt
  | r =>
      check! _ := check_others ipNet (grp_Id g) isV6 (match r with Found l => l | _ => [] end) in
      if String.eqb (MasterDev cfg) "" then inr tt
      else match ifaces (MasterDev cfg) with
           | Some (Some addrs) => check_master ipNet (MasterDev cfg) isV6 addrs
           | _ => inr tt
           end
  end.
End overlap.

(** ** Validation *)
Definition set_vd_Val (s : string) (v : ValData) : ValData := {| Val := s; IpMask := IpMask v; vd_Note := vd_Note v |}.
Fixpoint check_split_dns (l : list ValData) : group_result (list ValData) :=
  match l with
  | [] => inr []
  | v :: l =>
      let v := set_vd_Val (str_trim (Val v)) v in
      if String.eqb (Val v) "" then check_split_dns l
      else if negb (ValidateDomainName (Val v)) then inl EDomain
      else check! l := check_split_dns l in inr (v :: l)
  end.

(** The fields of the group's own range that are filled in. *)
Definition range_fields (g : Group) : Z :=
  len (List.filter (λ f, negb (String.eqb f "")) [ClientCidr g; ClientStart g; ClientEnd g; ClientGateway g]).

Fixpoint check_addrs (ipNet : IPNet) (l : list (group_addr * IP)) : group_result unit :=
  match l with
  | [] => inr tt
  | (name, ip) :: l =>
      if ip_nil ip then inl (EAddrFormat name)
      else if negb (net_Contains ipNet ip) then inl (EAddrOutside name)
      else check_addrs ipNet l
  end.

Definition needs_provider : list string := ["ldap"; "radius"; "wxwork"; "feishu"; "dingtalk"]%string.
Fixpoint check_steps {W} (reg : ProviderRegistry W) (i : Z) (steps : list AuthMethodConfig) : group_result unit :=
  match steps with
  | [] => inr tt
  | step :: steps =>
      let typ := amc_Type step in
      if negb (IsRegistered reg typ) then inl (EStepUnknown typ (i + 1))
      else if bool_decide (typ ∈ needs_provider) then
        if String.eqb (Provider step) "" then inl (EStepProvider typ (i + 1)) else check_steps reg (i + 1) steps
      else if negb (String.eqb (Provider step) "") then inl (EStepNoProvider typ (i + 1))
      else check_steps reg (i + 1) steps
  end.

(** The JSON of the single step "local"; [quoted] puts a text in double quotes. *)
Definition quoted (s : string) : string := str_of ("034"%byte :: bytes_of s ++ ["034"%byte]).
Definition default_profile : string :=
  ("{" +:+ quoted "step" +:+ ":[{" +:+ quoted "type" +:+ ":" +:+ quoted "local" +:+ "}]}")%string.

Section set_group.
Context {db : Type} `{GroupDb db, PolicyDb db} (cfg : ServerConfig) (ifaces : interfaces).
Context {W : Type} (decode : string → option GroupAuthProfile) (reg : ProviderRegistry W).
Implicit Types (d : db) (g : Group) (now : Time).

Definition check_policy_ref d g : group_result unit :=
  check! _ := guard_e ((grp_Status g =? 1) && (grp_PolicyId g <=? 0)) EPolicyRequired in
  if 0 <? grp_PolicyId g then
    match pol_by_id d (grp_PolicyId g) with
    | Found p => guard_e (negb (pol_Status p =? 1)) EPolicyDisabled
    | _ => inl EPolicyMissing
    end
  else inr tt.

(** The group's own IPv4 range. *)
Definition check_range4 d g : group_result unit :=
  let n := range_fields g in
  if n =? 0 then inr tt
  else if n =? 4 then
    match ParseCIDR (ClientCidr g) with
    | None => inl ECidr
    | Some (_, ipNet) =>
        check! _ := guard_e (bool_decide (ip_to4 (net_IP ipNet) = None)) ECidrFamily in
        let start := ParseIP (ClientStart g) in
        let end_ := ParseIP (ClientEnd g) in
        let gateway := ParseIP (ClientGateway g) in
        check! _ := check_addrs ipNet [(StartAddr, start); (EndAddr, end_); (GatewayAddr, gateway)] in
        check! _ := guard_e (Ip2long end_ <=? Ip2long start) EOrder in
        checkCidrOverlap cfg ifaces d ipNet g false
    end
  else inl EIncomplete.

(** Its IPv6 network, of the trimmed text. *)
Definition check_range6 d g (cidr6 : string) : group_result unit :=
  if String.eqb cidr6 "" then inr tt
  else if negb (range_fields g =? 4) then inl EV6NeedsV4
  else
    match ParseCIDR cidr6 with
    | None => inl ECidr6
    | Some (_, v6Net) =>
        check! _ := guard_e (bool_decide (is_Some (ip_to4 (net_IP v6Net)))) ECidr6Family in
        let '(ones, bits) := mask_Size (net_Mask v6Net) in
        check! _ := guard_e (negb (bits =? 128) || (128 <=? ones)) ECidr6Prefix in
        checkCidrOverlap cfg ifaces d v6Net g true
    end.

Definition check_profile (raw : string) : group_result unit :=
  match ParseAuthProfile decode reg raw with
  | inl e => inl (EProfile e)
  | inr profile => check_steps reg 0 (Step profile)
  end.

(** The checks of [SetGroup], in their order; the group as it is stored. *)
Definition check_group d g now : group_result Group :=
  check! _ := guard_e (String.eqb (grp_Name g) "") EGroupName in
  check! _ := check_policy_ref d g in
  check! splitDns := check_split_dns (SplitDns g) in
  check! _ := guard_e (negb (String.eqb (OutDev g) "") && bool_decide (ifaces (OutDev g) = None)) (EOutDev (OutDev g)) in
  check! _ := check_range4 d g in
  let cidr6 := str_trim (ClientCidr6 g) in
  check! _ := check_range6 d g cidr6 in
  let raw := if String.eqb (AuthProfile g) "" then default_profile else AuthProfile g in
  check! _ := check_profile raw in
  inr {| grp_Id := grp_Id g; grp_Name := grp_Name g; grp_Note := grp_Note g; SplitDns := splitDns;
         grp_PolicyId := grp_PolicyId g; AuthProfile := raw; grp_Status := grp_Status g; Hidden := Hidden g;
         ClientCidr := ClientCidr g; ClientStart := ClientStart g; ClientEnd := ClientEnd g;
         ClientGateway := ClientGateway g; ClientCidr6 := cidr6; OutDev := OutDev g;
         grp_CreatedAt := grp_CreatedAt g; grp_UpdatedAt := now |}.

(** [SetGroup]: the table, and the error or the name whose members' web sessions
    are revoked. *)
Definition SetGroup d g now : db * group_result string :=
  match check_group d g now with
  | inl e => (d, inl e)
  | inr g =>
      let oldName :=
        if 0 <? grp_Id g then match grp_by_id d (grp_Id g) with Found old => grp_Name old | _ => grp_Name g end
        else grp_Name g in
      let '(d, err) := if 0 <? grp_Id g then db_set_group d g else db_add_group d g in
      match err with Some e => (d, inl (EStore e)) | None => (d, inr oldName) end
  end.
End set_group.
