(* ===== verification/GroupSpec.v ===== *)
(** * Groups: no address belongs to two pools

    Prefixes as sets of addresses ([cidrOverlaps] is sharing one), the groups
    [SetGroup] stores, and the pools [GetGroupIpPool] builds from them. *)
From S2P Require Import Group IpPoolSpec.
Local Open Scope Z_scope.

(** ** Masks *)
Abbreviation masked x m := (zip_with byte_and x m).

Definition mask_byte (ones : Z) : byte :=
  if 8 <=? ones then "255"%byte else if ones <=? 0 then "000"%byte else z2b (255 - (2 ^ (8 - ones) - 1)).
Lemma mask_bytes_S n ones : mask_bytes (S n) ones = mask_byte ones :: mask_bytes n (ones - 8).
Proof. reflexivity. Qed.
Lemma mask_bytes_length n : ∀ ones, length (mask_bytes n ones) = n.
Proof. induction n as [|n IH]; intros ones; [done|]. rewrite mask_bytes_S. cbn. by rewrite IH. Qed.
Lemma skipn_mask_bytes k n : ∀ ones, skipn k (mask_bytes (k + n) ones) = mask_bytes n (ones - 8 * Z.of_nat k).
Proof.
  induction k as [|k IH]; intros ones; cbn [Nat.add]; [by replace (ones - 8 * Z.of_nat 0) with ones by lia|].
  rewrite mask_bytes_S. cbn [skipn].
  rewrite IH. f_equal. lia.
Qed.

(** Nine masks, and every byte. *)
Definition clip (o : Z) : Z := Z.max 0 (Z.min 8 o).
Lemma mask_byte_clip o : mask_byte o = mask_byte (clip o).
Proof.
  unfold mask_byte, clip. destruct (Z.leb_spec 8 o).
  - by replace (Z.max 0 (Z.min 8 o)) with 8 by lia.
  - destruct (Z.leb_spec o 0); [by replace (Z.max 0 (Z.min 8 o)) with 0 by lia|].
    replace (Z.max 0 (Z.min 8 o)) with o by lia. destruct (Z.leb_spec 8 o); [lia|]. by destruct (Z.leb_spec o 0); [lia|].
Qed.
Definition nine : list Z := [0; 1; 2; 3; 4; 5; 6; 7; 8].
Lemma clip_nine o : clip o ∈ nine.
Proof.
  assert (0 ≤ clip o ≤ 8) by (unfold clip; lia). unfold nine. set_unfold. lia.
Qed.
Definition all_bytes : list byte := map (λ n, z2b (Z.of_nat n)) (seq 0 256).
Lemma all_bytes_elem b : b ∈ all_bytes.
Proof.
  apply list_elem_of_fmap. exists (Z.to_nat (b2z b)). pose proof (b2z_range b). split.
  - by rewrite Z2Nat.id, z2b_b2z by lia.
  - apply elem_of_seq. lia.
Qed.
Lemma all_bytes_forall (P : byte → bool) : forallb P all_bytes = true → ∀ b, P b = true.
Proof. intros H b. rewrite forallb_forall in H. apply H, list_elem_of_In, all_bytes_elem. Qed.
Lemma nine_forall (P : Z → bool) : forallb P nine = true → ∀ o, P (clip o) = true.
Proof. intros H o. rewrite forallb_forall in H. apply H, list_elem_of_In, clip_nine. Qed.

(** [x & m = 2^k * (x / 2^k)] for the mask of [8 - k] ones. *)
Lemma byte_and_mask x o : b2z (byte_and x (mask_byte o)) = b2z x / 2 ^ (8 - clip o) * 2 ^ (8 - clip o).
Proof.
  rewrite mask_byte_clip. apply Z.eqb_eq. revert x. apply all_bytes_forall.
  apply (nine_forall (λ c, forallb (λ x, b2z (byte_and x (mask_byte c)) =? b2z x / 2 ^ (8 - c) * 2 ^ (8 - c)) all_bytes)).
  vm_compute. reflexivity.
Qed.

Lemma byte_and_shorter x o1 o2 : o1 ≤ o2 → byte_and (byte_and x (mask_byte o2)) (mask_byte o1) = byte_and x (mask_byte o1).
Proof.
  intros Ho. apply b2z_inj. rewrite !byte_and_mask. assert (clip o1 ≤ clip o2) as Hc by (unfold clip; lia).
  pose proof (clip_nine o1). pose proof (clip_nine o2).
  assert (0 ≤ clip o1 ≤ 8 ∧ 0 ≤ clip o2 ≤ 8) as [H1 H2] by (unfold clip; lia).
  set (k := 8 - clip o2). replace (8 - clip o1) with (k + (clip o2 - clip o1)) by lia.
  rewrite Z.pow_add_r by lia. f_equal. rewrite <- !Z.div_div by lia. by rewrite Z.div_mul by lia.
Qed.
Lemma byte_and_mono x y o : b2z x ≤ b2z y → b2z (byte_and x (mask_byte o)) ≤ b2z (byte_and y (mask_byte o)).
Proof.
  intros Hx. rewrite !byte_and_mask. apply Z.mul_le_mono_nonneg_r; [apply Z.pow_nonneg; lia|].
  apply Z.div_le_mono; [apply Z.pow_pos_nonneg; [lia|unfold clip; lia]|done].
Qed.
Lemma byte_and_255 x : byte_and x "255"%byte = x.
Proof. apply b2z_inj. change "255"%byte with (mask_byte 8). rewrite byte_and_mask. change (8 - clip 8) with 0. rewrite Z.pow_0_r, Z.div_1_r. lia. Qed.

Lemma masked_shorter n : ∀ x o1 o2, o1 ≤ o2 → masked (masked x (mask_bytes n o2)) (mask_bytes n o1) = masked x (mask_bytes n o1).
Proof.
  induction n as [|n IH]; intros [|b x] o1 o2 Ho; try done. rewrite !mask_bytes_S. cbn [zip_with].
  rewrite byte_and_shorter by done. f_equal. apply IH. lia.
Qed.

Lemma masked_none n : ∀ o a b, length a = length b → o ≤ 0 → masked a (mask_bytes n o) = masked b (mask_bytes n o).
Proof.
  induction n as [|n IH]; intros o [|a0 a] [|b0 b] Hl Ho; try done. rewrite !mask_bytes_S. cbn [zip_with]. f_equal; [|apply IH; [by injection Hl|lia]].
  apply b2z_inj. rewrite !byte_and_mask. replace (clip o) with 0 by (unfold clip; lia).
  pose proof (b2z_range a0). pose proof (b2z_range b0). change (8 - 0) with 8. by rewrite !Z.div_small by lia.
Qed.

(** Ranges lie inside a prefix when their ends do. *)
Lemma masked_convex n : ∀ o a i b, length a = n → length i = n → length b = n →
  masked a (mask_bytes n o) = masked b (mask_bytes n o) → bytes_to_Z a ≤ bytes_to_Z i ≤ bytes_to_Z b →
  masked i (mask_bytes n o) = masked a (mask_bytes n o).
Proof.
  induction n as [|n IH]; intros o [|a0 a] [|i0 i] [|b0 b] La Li Lb Hm Hv; try done.
  cbn [length] in *. injection La as La. injection Li as Li. injection Lb as Lb.
  rewrite mask_bytes_S in *. cbn [zip_with] in *. injection Hm as Hm0 Hm.
  rewrite !bytes_to_Z_cons in Hv. assert (len a = Z.of_nat n ∧ len i = Z.of_nat n ∧ len b = Z.of_nat n) as (Ea & Ei & Eb)
    by (unfold len; by rewrite La, Li, Lb).
  pose proof (bytes_to_Z_range a). pose proof (bytes_to_Z_range i). pose proof (bytes_to_Z_range b).
  rewrite Ea, Ei, Eb in *. set (p := 256 ^ Z.of_nat n) in *.
  assert (b2z a0 ≤ b2z i0 ≤ b2z b0) as [Hi1 Hi2] by nia. f_equal.
  - apply b2z_inj. pose proof (byte_and_mono _ _ o Hi1). pose proof (byte_and_mono _ _ o Hi2). rewrite <- Hm0 in *. lia.
  - destruct (Z.leb_spec 8 o) as [Ho|Ho].
    + assert (mask_byte o = "255"%byte) as E by (unfold mask_byte; by rewrite (proj2 (Z.leb_le _ _) Ho)).
      rewrite E, !byte_and_255 in Hm0. subst b0. assert (b2z i0 = b2z a0) by lia. apply (IH _ a i b); try done. nia.
    + by apply masked_none; [congruence|lia].
Qed.

(** ** Parsed addresses and prefixes *)
Lemma v4_fields_length s : ∀ val nd first ad acc f, (length acc ≤ 3)%nat → v4_fields s val nd first ad acc = Some f → length f = 4%nat.
Proof.
  induction s as [|c s IH]; intros val nd first ad acc f Ha; cbn [v4_fields].
  - destruct (Nat.ltb_spec (length acc) 3); [done|]. intros [= <-]. rewrite length_app. cbn. lia.
  - destruct (digit c).
    + repeat case_match; try done. by apply IH.
    + destruct (beqb c "."%byte); [|done]. destruct (_ || _ || _); [done|].
      destruct (Nat.eqb_spec (length acc) 3); [done|]. apply IH. rewrite length_app. cbn. lia.
Qed.
Lemma parse_v4_length s f : parse_v4 s = Some f → length f = 4%nat.
Proof. apply v4_fields_length. cbn. lia. Qed.

Lemma v6_loop_length fuel : ∀ s ip ell ip' ell' r, (length ip + 2 * fuel ≤ 16)%nat →
  v6_loop fuel s ip ell = Some (ip', ell', r) → (length ip' ≤ 16)%nat.
Proof.
  induction fuel as [|fuel IH]; intros s ip ell ip' ell' r Hl; cbn [v6_loop]; [intros [= <- _ _]; lia|].
  destruct (hex_group s 0 0) as [[[acc [|off]] [|c rest]]|]; try done.
  - intros [= <- _ _]. rewrite length_app. cbn. lia.
  - destruct (beqb c "."%byte).
    + destruct (_ && _); [done|]. destruct (Nat.ltb_spec 16 (length ip + 4)); [done|].
      destruct (parse_v4 s) as [f|] eqn:Ef; [|done]. intros [= <- _ _]. rewrite length_app, (parse_v4_length _ _ Ef). lia.
    + destruct (negb _); [done|]. destruct rest as [|c2 rest2]; [done|].
      destruct (beqb c2 ":"%byte); [destruct ell; [done|]; destruct rest2 as [|c3 rest3]|].
      * intros [= <- _ _]. rewrite length_app. cbn. lia.
      * apply IH. rewrite length_app. cbn. lia.
      * apply IH. rewrite length_app. cbn. lia.
Qed.
Lemma parse_v6_length s f : parse_v6_nozone s = Some f → length f = 16%nat.
Proof.
  unfold parse_v6_nozone. destruct (match s with [] => _ | _ => _ end) as [s1 ell0].
  assert (∀ x, x = match v6_loop 8 s1 [] ell0 with
    | Some (ip, ell, []) => if Nat.ltb (length ip) 16 then
        match ell with None => None | Some e => Some (firstn e ip ++ replicate (16 - length ip) "000"%byte ++ skipn e ip) end
        else match ell with Some _ => None | None => Some ip end
    | _ => None end → x = Some f → length f = 16%nat) as Hx.
  { intros x -> . destruct (v6_loop 8 s1 [] ell0) as [[[ip ell] [|? ?]]|] eqn:E; try done.
    apply v6_loop_length in E; [|cbn; lia]. destruct (Nat.ltb_spec (length ip) 16); destruct ell as [e|]; try done; intros [= <-]; [|lia].
    rewrite !length_app, length_replicate, length_firstn, length_skipn. lia. }
  destruct ell0 as [n|]; [destruct s1|]; [intros [= <-]; done|by apply Hx|by apply Hx].
Qed.
Lemma parse_addr_length s f : parse_addr s = Some f → length f = 4%nat ∨ length f = 16%nat.
Proof.
  unfold parse_addr. generalize s at 2. intros w. revert f. induction s as [|c s IH]; intros f; cbn [parse_addr_scan]; [done|].
  destruct (beqb c "."%byte); [left; by eapply parse_v4_length|]. destruct (beqb c ":"%byte).
  - destruct (bool_decide _); [done|]. right. by eapply parse_v6_length.
  - destruct (beqb c "%"%byte); [done|apply IH].
Qed.

(** A network in canonical form: its number [nn] of [k] bytes and prefix length. *)
Record canon (n : IPNet) (k : nat) (nn : list byte) (o : Z) : Prop := {
  canon_nm : network_number_and_mask n = (nn, mask_bytes k o);
  canon_len : length nn = k;
  canon_masked : masked nn (mask_bytes k o) = nn;
  canon_ip : default (net_IP n) (ip_to4 (net_IP n)) = nn
}.

Lemma masked_length x n o : length x = n → length (masked x (mask_bytes n o)) = n.
Proof. intros Hl. rewrite length_zip_with, mask_bytes_length. lia. Qed.
Lemma masked_idem n x o : masked (masked x (mask_bytes n o)) (mask_bytes n o) = masked x (mask_bytes n o).
Proof. by apply masked_shorter. Qed.
Lemma skipn_zip {A B C} (f : A → B → C) k : ∀ l l', skipn k (zip_with f l l') = zip_with f (skipn k l) (skipn k l').
Proof. induction k as [|k IH]; intros [|x l] [|y l']; cbn; try done. by destruct (skipn k l). Qed.

Lemma ParseCIDR_canon s ip n : ParseCIDR s = Some (ip, n) → ∃ k nn o, canon n k nn o.
Proof.
  unfold ParseCIDR. destruct (cut_byte _ _) as [[addr mask]|]; [|done]. destruct (parse_addr addr) as [a|] eqn:Ea; [|done].
  destruct (parse_prefix_len mask) as [o|]; [|done]. destruct (len a * 8 <? o); [done|]. intros [= _ <-]. cbv zeta.
  apply parse_addr_length in Ea as [Hl|Hl].
  - assert (cidr_mask o (len a * 8) = mask_bytes 4 o) as -> by (unfold len; by rewrite Hl).
    assert (ip_Mask (default nil_ip (ip_to16 a)) (mask_bytes 4 o) = masked a (mask_bytes 4 o)) as ->.
    { assert (default nil_ip (ip_to16 a) = v4_in_v6_prefix ++ a) as -> by (unfold ip_to16; by rewrite Hl).
      unfold ip_Mask. rewrite mask_bytes_length, length_app, Hl. change (skipn 12 (v4_in_v6_prefix ++ a)) with a.
      change (firstn 12 (v4_in_v6_prefix ++ a)) with v4_in_v6_prefix. unfold bytes_eqb.
      rewrite (bool_decide_eq_true_2 (v4_in_v6_prefix = v4_in_v6_prefix)) by done.
      cbn [Nat.eqb andb length v4_in_v6_prefix replicate app Nat.add]. rewrite mask_bytes_length. cbn [Nat.eqb andb]. by rewrite Hl. }
    pose proof (masked_length _ _ o Hl) as Hm. exists 4%nat, (masked a (mask_bytes 4 o)), o. split; [|done|apply masked_idem|].
    + unfold network_number_and_mask. cbn [net_IP net_Mask]. rewrite ip_to4_v4 by done. by rewrite mask_bytes_length, Hm.
    + cbn [net_IP]. by rewrite ip_to4_v4.
  - assert (cidr_mask o (len a * 8) = mask_bytes 16 o) as -> by (unfold len; by rewrite Hl).
    assert (ip_Mask (default nil_ip (ip_to16 a)) (mask_bytes 16 o) = masked a (mask_bytes 16 o)) as ->.
    { assert (default nil_ip (ip_to16 a) = a) as -> by (unfold ip_to16; by rewrite Hl).
      apply ip_Mask_16; [done|apply mask_bytes_length]. }
    pose proof (masked_length _ _ o Hl) as Hm. set (net := masked a (mask_bytes 16 o)) in *.
    destruct (ip_to4 net) as [nn|] eqn:E4.
    + exists 4%nat, nn, (o - 96).
      assert (nn = skipn 12 net) as Hnn.
      { unfold ip_to4 in E4. rewrite Hm in E4. cbn [Nat.eqb] in E4. destruct (_ && _); [congruence|done]. }
      assert (length nn = 4%nat) as H4 by (rewrite Hnn, length_skipn; lia).
      assert (skipn 12 (mask_bytes 16 o) = mask_bytes 4 (o - 96)) as Hs by apply (skipn_mask_bytes 12 4).
      split; [|done| |by cbn [net_IP]; rewrite E4].
      * unfold network_number_and_mask. cbn [net_IP net_Mask]. by rewrite E4, mask_bytes_length, H4, <- Hs.
      * rewrite Hnn. unfold net. rewrite skipn_zip, Hs. apply masked_idem.
    + exists 16%nat, net, o. split; [|done|apply masked_idem|by cbn [net_IP]; rewrite E4].
      unfold network_number_and_mask. cbn [net_IP net_Mask]. rewrite E4, Hm. cbn [Nat.eqb]. by rewrite mask_bytes_length, Hm.
Qed.

Lemma net_Contains_canon n k nn o x : canon n k nn o →
  net_Contains n x = true ↔ length (default x (ip_to4 x)) = k ∧ masked (default x (ip_to4 x)) (mask_bytes k o) = nn.
Proof.
  intros [Hn Hl Hm _]. unfold net_Contains. rewrite Hn, andb_true_iff, Nat.eqb_eq, Hl, Hm. split; intros [-> E]; (split; [done|]).
  - symmetry. by apply bool_decide_eq_true in E.
  - rewrite E. by apply bool_decide_eq_true.
Qed.

(** ** Overlap *)
Definition share_address (a b : IPNet) : Prop := ∃ x, net_Contains a x = true ∧ net_Contains b x = true.

Lemma canon_self n k nn o : canon n k nn o → net_Contains n (net_IP n) = true.
Proof. intros Hc. apply (net_Contains_canon _ _ _ _ _ Hc). destruct Hc as [_ Hl Hm Hi]. rewrite Hi. done. Qed.

Lemma longer_prefix_inside n1 n2 k1 k2 nn1 nn2 o1 o2 x : canon n1 k1 nn1 o1 → canon n2 k2 nn2 o2 → o1 ≤ o2 →
  net_Contains n1 x = true → net_Contains n2 x = true → net_Contains n1 (net_IP n2) = true.
Proof.
  intros C1 C2 Ho [E1 M1]%(net_Contains_canon _ _ _ _ _ C1) [E2 M2]%(net_Contains_canon _ _ _ _ _ C2).
  apply (net_Contains_canon _ _ _ _ _ C1). rewrite (canon_ip _ _ _ _ C2), (canon_len _ _ _ _ C2). split; [congruence|].
  rewrite <- M2, <- M1. assert (k1 = k2) as -> by congruence. by apply masked_shorter.
Qed.

Lemma cidrOverlaps_shares s1 s2 a1 a2 n1 n2 : ParseCIDR s1 = Some (a1, n1) → ParseCIDR s2 = Some (a2, n2) →
  cidrOverlaps n1 n2 = true ↔ share_address n1 n2.
Proof.
  intros (k1 & nn1 & o1 & C1)%ParseCIDR_canon (k2 & nn2 & o2 & C2)%ParseCIDR_canon. unfold cidrOverlaps.
  rewrite orb_true_iff. split.
  - intros [H|H]; [exists (net_IP n2)|exists (net_IP n1)]; (split; [|]); done || by eapply canon_self.
  - intros (x & Hx1 & Hx2). destruct (Z.le_ge_cases o1 o2); [left|right]; by eapply longer_prefix_inside.
Qed.
#[export] Instance share_address_sym : Symmetric share_address.
Proof. intros a b (x & ? & ?). by exists x. Qed.

(** ** Ranges *)
Lemma Ip2long_bytes ip y : ip_to4 ip = Some y → length y = 4%nat → Ip2long ip = bytes_to_Z y.
Proof.
  intros E Hl. unfold Ip2long. rewrite E. destruct y as [|a [|b [|c [|d [|? ?]]]]]; try done.
  rewrite be32_4. pose proof (b2z_range a). pose proof (b2z_range b). pose proof (b2z_range c). pose proof (b2z_range d).
  rewrite !lor_shiftl_add by lia. rewrite lor_shiftl_add_n by lia. unfold bytes_to_Z. cbn [fold_left]. lia.
Qed.
Lemma Contains_v4 n nn o ip : canon n 4 nn o → net_Contains n ip = true →
  ∃ y, ip_to4 ip = Some y ∧ length y = 4%nat ∧ masked y (mask_bytes 4 o) = nn ∧ Ip2long ip = bytes_to_Z y.
Proof.
  intros C [Hl Hm]%(net_Contains_canon _ _ _ _ _ C). destruct (ip_to4 ip) as [y|] eqn:E.
  - exists y. split_and!; [done..|by apply Ip2long_bytes].
  - cbn [from_option] in Hl. by rewrite (ip_to4_v4 ip Hl) in E.
Qed.

Lemma canon_v4 s a n : ParseCIDR s = Some (a, n) → is_Some (ip_to4 (net_IP n)) → ∃ nn o, canon n 4 nn o.
Proof.
  intros (k & nn & o & C)%ParseCIDR_canon [y Hy]. exists nn, o. assert (k = 4%nat) as ->; [|done].
  rewrite <- (canon_len _ _ _ _ C), <- (canon_ip _ _ _ _ C), Hy. cbn. unfold ip_to4 in Hy.
  destruct (Nat.eqb_spec (length (net_IP n)) 4); [congruence|]. destruct (Nat.eqb_spec (length (net_IP n)) 16) as [E|]; [|done].
  destruct (bytes_eqb _ _); [|done]. cbn in Hy. injection Hy as <-. change drop with (@skipn byte). rewrite length_skipn. lia.
Qed.

(** Both ends of a range in a network: so is every address between them. *)
Lemma range_in_net n nn o a b i : canon n 4 nn o → net_Contains n a = true → net_Contains n b = true →
  Ip2long a ≤ i ≤ Ip2long b → net_Contains n (Long2ip i) = true.
Proof.
  intros C (ya & _ & La & Ma & Ea)%(Contains_v4 _ _ _ _ C) (yb & _ & Lb & Mb & Eb)%(Contains_v4 _ _ _ _ C) Hi.
  apply (net_Contains_canon _ _ _ _ _ C). rewrite ip_to4_v4 by done. split; [done|]. cbn [from_option].
  pose proof (bytes_to_Z_range ya) as Ra. pose proof (bytes_to_Z_range yb) as Rb. unfold len in Ra, Rb. rewrite La in Ra. rewrite Lb in Rb.
  rewrite <- Ma. apply (masked_convex 4 o ya (Long2ip i) yb); [done..|congruence|].
  rewrite <- (Ip2long_bytes (Long2ip i) (Long2ip i) (ip_to4_v4 _ (Long2ip_length i)) (Long2ip_length i)). rewrite Ip2long_Long2ip; [lia|].
  change (256 ^ Z.of_nat 4) with (2 ^ 32) in *. lia.
Qed.
Lemma ranges_disjoint n1 n2 nn1 nn2 o1 o2 a1 b1 a2 b2 ip : canon n1 4 nn1 o1 → canon n2 4 nn2 o2 → ¬ share_address n1 n2 →
  net_Contains n1 a1 = true → net_Contains n1 b1 = true → net_Contains n2 a2 = true → net_Contains n2 b2 = true →
  Ip2long a1 ≤ Ip2long ip ≤ Ip2long b1 → ¬ (Ip2long a2 ≤ Ip2long ip ≤ Ip2long b2).
Proof. intros C1 C2 Hn H1 H2 H3 H4 Hi Hj. apply Hn. exists (Long2ip (Ip2long ip)). split; [apply (range_in_net _ _ _ a1 b1 _ C1)|apply (range_in_net _ _ _ a2 b2 _ C2)]; done. Qed.

(** ** Texts of addresses have no bar *)
Definition bar : byte := "|"%byte.
Lemma v4_fields_bar s : ∀ val nd first ad acc f, v4_fields s val nd first ad acc = Some f → bar ∉ s.
Proof.
  induction s as [|c s IH]; intros val nd first ad acc f; cbn [v4_fields]; [set_solver|].
  destruct (decide (c = bar)) as [->|Hc]; [done|]. intros E. apply not_elem_of_cons. split; [congruence|].
  destruct (digit c); repeat case_match; try done; by eapply IH.
Qed.
Lemma hex_group_bar s : ∀ acc off v n rest, hex_group s acc off = Some (v, n, rest) → ∃ pre, s = pre ++ rest ∧ bar ∉ pre.
Proof.
  induction s as [|c s IH]; intros acc off v n rest; cbn [hex_group].
  - intros [= <- <- <-]. exists []. set_solver.
  - destruct (hexval c) as [d|] eqn:Eh.
    + destruct (Nat.ltb 3 off); [done|]. intros (pre & -> & Hp)%IH. exists (c :: pre). split; [done|].
      apply not_elem_of_cons. split; [|done]. intros <-. done.
    + intros [= <- <- <-]. exists []. set_solver.
Qed.
Lemma v6_loop_bar fuel : ∀ s ip ell ip' ell', v6_loop fuel s ip ell = Some (ip', ell', []) → bar ∉ s.
Proof.
  induction fuel as [|fuel IH]; intros s ip ell ip' ell'; cbn [v6_loop]; [intros [= _ _ ->]; set_solver|].
  destruct (hex_group s 0 0) as [[[acc [|off]] rest]|] eqn:Eh; try done. apply hex_group_bar in Eh as (pre & -> & Hp).
  destruct rest as [|c rest]; [rewrite app_nil_r; done|].
  assert (∀ l, c ≠ bar → bar ∉ l → bar ∉ pre ++ c :: l) as Hr by (intros; rewrite not_elem_of_app, not_elem_of_cons; done).
  destruct (beqb c "."%byte).
  { destruct (_ && _); [done|]. destruct (Nat.ltb _ _); [done|]. destruct (parse_v4 (pre ++ c :: rest)) eqn:Ev; [|done].
    intros _. by eapply v4_fields_bar. }
  destruct (negb (beqb c ":"%byte)) eqn:Ec; [done|]. apply negb_false_iff, bool_decide_eq_true in Ec. subst c.
  destruct rest as [|c2 rest2]; [done|]. destruct (beqb c2 ":"%byte) eqn:E2.
  - apply bool_decide_eq_true in E2. subst c2. destruct ell; [done|]. destruct rest2 as [|c3 rest3].
    + intros _. apply Hr; [done|]. set_solver.
    + intros E%IH. apply Hr; [done|]. by apply not_elem_of_cons.
  - intros E%IH. by apply Hr.
Qed.
Lemma parse_v6_bar s f : parse_v6_nozone s = Some f → bar ∉ s.
Proof.
  unfold parse_v6_nozone. destruct (match s with [] => _ | _ => _ end) as [s1 ell0] eqn:E0.
  assert (bar ∉ s1 → bar ∉ s) as Hs.
  { destruct s as [|a [|b r]]; cbn in E0; simplify_eq; try done.
    destruct (beqb a ":"%byte) eqn:Ea, (beqb b ":"%byte) eqn:Eb; cbn in E0; simplify_eq; try done.
    apply bool_decide_eq_true in Ea, Eb. subst. intros Hn. by rewrite !not_elem_of_cons. }
  destruct ell0 as [n|]; [destruct s1 as [|c s1]; [intros _; apply Hs; set_solver|]|];
    destruct (v6_loop 8 _ [] _) as [[[ip ell] [|? ?]]|] eqn:E; try done; intros _; apply Hs; by eapply v6_loop_bar.
Qed.
Lemma parse_addr_bar s f : parse_addr s = Some f → bar ∉ s.
Proof.
  unfold parse_addr. assert (∀ t w, parse_addr_scan t w = Some f → bar ∉ w) as Hg; [|apply Hg].
  induction t as [|c t IH]; intros w; cbn [parse_addr_scan]; [done|].
  destruct (beqb c "."%byte); [by apply v4_fields_bar|]. destruct (beqb c ":"%byte).
  - destruct (bool_decide _); [done|]. by apply parse_v6_bar.
  - destruct (beqb c "%"%byte); [done|apply IH].
Qed.

Lemma parse_digits_bar s : ∀ acc n, parse_digits acc s = Some n → bar ∉ s.
Proof.
  induction s as [|b s IH]; intros acc n; cbn [parse_digits]; [set_solver|]. destruct (digit b) as [d|] eqn:Ed; [|done].
  intros E. apply not_elem_of_cons. split; [by intros <-|by eapply IH].
Qed.
Definition no_bar (s : string) : Prop := bar ∉ bytes_of s.
Lemma cut_byte_app c s : ∀ a b, cut_byte c s = Some (a, b) → s = a ++ c :: b.
Proof.
  induction s as [|x s IH]; intros a b; cbn [cut_byte]; [done|]. destruct (beqb x c) eqn:E.
  - apply bool_decide_eq_true in E. intros [= <- <-]. by subst x.
  - destruct (cut_byte c s) as [[a' b']|]; [|done]. intros [= <- <-]. by rewrite (IH a' b' eq_refl).
Qed.
Lemma ParseCIDR_no_bar s x : ParseCIDR s = Some x → no_bar s.
Proof.
  unfold ParseCIDR, no_bar. destruct (cut_byte _ _) as [[addr mask]|] eqn:Ec; [|done]. apply cut_byte_app in Ec as ->.
  destruct (parse_addr addr) eqn:Ea; [|done]. apply parse_addr_bar in Ea. unfold parse_prefix_len.
  destruct mask as [|m mask]; [done|]. destruct (parse_digits 0 (m :: mask)) eqn:Em; [|done]. apply parse_digits_bar in Em.
  intros _. rewrite not_elem_of_app, not_elem_of_cons. done.
Qed.
Lemma ParseIP_no_bar s : ParseIP s ≠ nil_ip → no_bar s.
Proof. unfold ParseIP, no_bar. destruct (parse_addr (bytes_of s)) eqn:Ea; [intros _; by eapply parse_addr_bar|done]. Qed.
Lemma no_bar_empty : no_bar "".
Proof. unfold no_bar. set_solver. Qed.

(** The last part of a text cut at bars determines both. *)
Lemma last_bar_inj (a b a' b' : list byte) : bar ∉ b → bar ∉ b' → a ++ bar :: b = a' ++ bar :: b' → a = a' ∧ b = b'.
Proof.
  intros Hb Hb'. revert a'. induction a as [|x a IH]; intros [|x' a'] E; cbn in E; simplify_eq; [done| | |].
  - exfalso. apply Hb. set_solver.
  - exfalso. apply Hb'. set_solver.
  - match goal with E : _ ++ _ = _ ++ _ |- _ => destruct (IH a' E) as [-> ->] end. done.
Qed.
Lemma bytes_of_app s t : bytes_of (s +:+ t)%string = bytes_of s ++ bytes_of t.
Proof. unfold bytes_of, list_byte_of_string. induction s as [|c s IH]; [done|].
  change (String c s +:+ t)%string with (String c (s +:+ t)). cbn. f_equal. exact IH. Qed.

(** ** What a saved group looks like *)
Definition own_range (g : Group) (n : IPNet) : Prop :=
  (∃ a, ParseCIDR (ClientCidr g) = Some (a, n)) ∧ is_Some (ip_to4 (net_IP n)) ∧
  (∀ s, s ∈ [ClientStart g; ClientEnd g; ClientGateway g] → ParseIP s ≠ nil_ip ∧ net_Contains n (ParseIP s) = true) ∧
  Ip2long (ParseIP (ClientStart g)) < Ip2long (ParseIP (ClientEnd g)).
Definition v6_range_text (s : string) : Prop :=
  ∃ a n ones, ParseCIDR s = Some (a, n) ∧ ip_to4 (net_IP n) = None ∧ mask_Size (net_Mask n) = (ones, 128) ∧ ones < 128.
(** All four fields of the range or none, and an IPv6 network only with them. *)
Definition group_valid (g : Group) : Prop :=
  ClientCidr g = ""%string ∧ ClientStart g = ""%string ∧ ClientEnd g = ""%string ∧ ClientGateway g = ""%string ∧ ClientCidr6 g = ""%string ∨
  (∃ n, own_range g n) ∧ (ClientCidr6 g = ""%string ∨ v6_range_text (ClientCidr6 g)).

Definition same_range (g g' : Group) : Prop :=
  grp_Name g = grp_Name g' ∧ ClientCidr g = ClientCidr g' ∧ ClientStart g = ClientStart g' ∧ ClientEnd g = ClientEnd g' ∧
  ClientGateway g = ClientGateway g' ∧ ClientCidr6 g = ClientCidr6 g'.
#[export] Instance group_valid_proper : Proper (same_range ==> impl) group_valid.
Proof.
  intros g g' (_ & H1 & H2 & H3 & H4 & H5) [H|[[n Hn] H6]]; [left; congruence|right].
  split; [exists n|by rewrite <- H5]. unfold own_range in *. by rewrite <- H1, <- H2, <- H3, <- H4.
Qed.

Lemma guard_inr b e x : guard_e b e = inr x → b = false.
Proof. by destruct b. Qed.
Lemma gbind_inr {A B} (m : group_result A) (k : A → group_result B) b : gbind m k = inr b → ∃ a, m = inr a ∧ k a = inr b.
Proof. destruct m as [e|a]; [done|]. eauto. Qed.
Lemma check_addrs_ok n l u : check_addrs n l = inr u → ∀ a ip, (a, ip) ∈ l → ip ≠ nil_ip ∧ net_Contains n ip = true.
Proof.
  revert u. induction l as [|[a0 ip0] l IH]; intros u; cbn [check_addrs]; [set_solver|].
  unfold ip_nil. destruct (bool_decide (ip0 = nil_ip)) eqn:En; [done|]. apply bool_decide_eq_false in En.
  destruct (net_Contains n ip0) eqn:Ec; [|done]. cbn [negb]. intros E a ip [[= -> ->]|H]%elem_of_cons; [done|by eapply IH].
Qed.

Section table.
Context {db : Type} `{IpMapStore db, GroupDb db, PolicyDb db} (cfg : ServerConfig) (ifaces : interfaces).
Context {W : Type} (decode : string → option GroupAuthProfile) (reg : ProviderRegistry W).
Implicit Types (d : db) (g : Group).

Lemma range_fields_cases g :
  range_fields g = 0 ↔ ClientCidr g = ""%string ∧ ClientStart g = ""%string ∧ ClientEnd g = ""%string ∧ ClientGateway g = ""%string.
Proof.
  unfold range_fields. destruct (String.eqb_spec (ClientCidr g) ""), (String.eqb_spec (ClientStart g) ""),
    (String.eqb_spec (ClientEnd g) ""), (String.eqb_spec (ClientGateway g) ""); cbn [List.filter];
    repeat match goal with H : ?s = ""%string |- _ => rewrite H; clear H | H : ?s ≠ ""%string |- _ => rewrite (proj2 (String.eqb_neq _ _) H) end;
    cbn; split; intros; try done; try lia; naive_solver.
Qed.

(** The checks of both networks. *)
Definition checked (d : db) g (v6 : bool) (n : IPNet) : Prop := ∃ u, checkCidrOverlap cfg ifaces d n g v6 = inr u.
Lemma check_range4_ok d g u : check_range4 cfg ifaces d g = inr u →
  range_fields g = 0 ∨ range_fields g = 4 ∧ ∃ n, own_range g n ∧ checked d g false n.
Proof.
  unfold check_range4. destruct (Z.eqb_spec (range_fields g) 0) as [|N0]; [by left|]. destruct (Z.eqb_spec (range_fields g) 4); [|done].
  destruct (ParseCIDR (ClientCidr g)) as [[a n]|] eqn:Ep; [|done]. cbv zeta.
  intros (? & H4%guard_inr & (? & Ha & (? & Ho%guard_inr & Hc)%gbind_inr)%gbind_inr)%gbind_inr. right. split; [done|]. exists n.
  split; [|by exists u]. pose proof (check_addrs_ok _ _ _ Ha) as Hok. split_and!; [by exists a| | |apply Z.leb_gt in Ho; lia].
  - destruct (ip_to4 (net_IP n)); [done|]. by rewrite bool_decide_eq_true_2 in H4.
  - intros s Hs. rewrite !elem_of_cons in Hs. destruct Hs as [->|[->|[->|Hs]]]; [..|set_solver];
      (eapply Hok; rewrite !elem_of_cons; eauto).
Qed.
Lemma check_range6_ok d g s u : check_range6 cfg ifaces d g s = inr u →
  s = ""%string ∨ range_fields g = 4 ∧ v6_range_text s ∧ ∃ a n, ParseCIDR s = Some (a, n) ∧ checked d g true n.
Proof.
  unfold check_range6. destruct (String.eqb_spec s "") as [|N0]; [by left|]. destruct (Z.eqb_spec (range_fields g) 4); [|done]. cbn [negb].
  destruct (ParseCIDR s) as [[a n']|] eqn:Ep; [|done]. intros (? & H6%guard_inr & Hk)%gbind_inr.
  destruct (mask_Size (net_Mask n')) as [ones bits] eqn:Em. apply gbind_inr in Hk as (? & Hb%guard_inr & Hc).
  right. split; [done|]. apply orb_false_iff in Hb as [Hb Ho]. apply negb_false_iff, Z.eqb_eq in Hb. apply Z.leb_gt in Ho. subst bits.
  apply bool_decide_eq_false, eq_None_not_Some in H6. split; [by exists a, n', ones|by exists a, n'; split; [|exists u]].
Qed.
Lemma check_group_ok d g now g' : check_group cfg ifaces decode reg d g now = inr g' →
  group_valid g' ∧ grp_Id g' = grp_Id g ∧
  ∀ v6 a n, ParseCIDR (group_cidr v6 g') = Some (a, n) → checked d g v6 n.
Proof.
  unfold check_group. intros (? & _ & (? & _ & (dns & _ & (? & _ & (u4 & N4 & Hk)%gbind_inr)%gbind_inr)%gbind_inr)%gbind_inr)%gbind_inr.
  cbv zeta in Hk. apply gbind_inr in Hk as (u6 & N6 & (? & _ & [= <-])%gbind_inr).
  apply check_range4_ok in N4. apply check_range6_ok in N6. split_and!; [|done|].
  - unfold group_valid. cbn. destruct N4 as [N0|[Hf (n & Hn & _)]].
    + left. pose proof (proj1 (range_fields_cases g) N0) as (? & ? & ? & ?). split_and!; try done.
      destruct N6 as [->|[Hf _]]; [done|]. lia.
    + right. split; [by exists n|]. destruct N6 as [->|(_ & Hv & _)]; [by left|by right].
  - intros [] a n; cbn.
    + destruct N6 as [->|(_ & _ & a' & n' & E & Hc)]; [done|]. intros E'. by simplify_eq.
    + destruct N4 as [N0|[Hf (n' & [[a' E] _] & Hc)]].
      * pose proof (proj1 (range_fields_cases g) N0) as (-> & _). done.
      * intros E'. by simplify_eq.
Qed.
End table.

(** ** The table as a state *)
(** What the database does with the statements: [group_rows] is the contents. *)
Class GroupDbLaws (db : Type) `{GroupDb db} := {
  group_rows : db → list Group;
  all_groups_rows d l : all_groups d = Found l → l = group_rows d;
  all_groups_none d : all_groups d = NotFound → group_rows d = [];
  db_set_group_rows d g : group_rows (db_set_group d g).1 = group_rows d ∨
    ∀ r, r ∈ group_rows (db_set_group d g).1 → r ∈ group_rows d ∧ grp_Id r ≠ grp_Id g ∨ same_range g r ∧ grp_Id r = grp_Id g;
  db_add_group_rows d g : group_rows (db_add_group d g).1 = group_rows d ∨
    ∃ r, same_range g r ∧ (∀ x, x ∈ group_rows d → grp_Id x ≠ grp_Id r) ∧ 0 < grp_Id r ∧
      ∀ x, x ∈ group_rows (db_add_group d g).1 ↔ x = r ∨ x ∈ group_rows d;
  db_del_group_rows d i : group_rows (db_del_group d i).1 ⊆ group_rows d;
  group_rows_id d r : r ∈ group_rows d → 0 < grp_Id r
}.

Definition texts_disjoint (c1 c2 : string) : Prop :=
  ∀ a1 n1 a2 n2, ParseCIDR c1 = Some (a1, n1) → ParseCIDR c2 = Some (a2, n2) → ¬ share_address n1 n2.
#[export] Instance texts_disjoint_sym : Symmetric texts_disjoint.
Proof. intros c1 c2 Hd a1 n1 a2 n2 E1 E2 Hs. symmetry in Hs. by eapply (Hd _ _ _ _ E2 E1). Qed.

Lemma overlaps_text_false c c' a n : ParseCIDR c' = Some (a, n) → overlaps_text c n = false → texts_disjoint c c'.
Proof.
  intros E Ho a1 n1 a2 n2 E1 E2 Hs. rewrite E in E2. injection E2 as -> ->. unfold overlaps_text in Ho. rewrite E1 in Ho.
  apply (cidrOverlaps_shares _ _ _ _ _ _ E1 E) in Hs. congruence.
Qed.
Lemma texts_disjoint_empty c : texts_disjoint "" c.
Proof. intros a1 n1 a2 n2 E1. done. Qed.

Section reachable.
Context {db : Type} `{IpMapStore db, GroupDb db, PolicyDb db, !GroupDbLaws db} (cfg : ServerConfig) (ifaces : interfaces).
Context {W : Type} (decode : string → option GroupAuthProfile) (reg : ProviderRegistry W).
Implicit Types (d : db) (g : Group).

Definition global_cidr (v6 : bool) : string := if v6 then Ipv6CIDR cfg else Ipv4CIDR cfg.

(** Tables reached from an empty one by saving groups, while the other groups can
    be read, and by deleting groups. *)
Inductive table_reachable : db → Prop :=
| table_empty d : group_rows d = [] → table_reachable d
| table_set d g now : table_reachable d → all_groups d ≠ LookupErr → table_reachable (SetGroup cfg ifaces decode reg d g now).1
| table_del d i : table_reachable d → table_reachable (db_del_group d i).1.

Lemma check_others_ok n id v6 l u : check_others n id v6 l = inr u →
  ∀ og, og ∈ l → grp_Id og ≠ id → group_cidr v6 og = ""%string ∨ overlaps_text (group_cidr v6 og) n = false.
Proof.
  revert u. induction l as [|x l IH]; intros u; cbn [check_others]; [set_solver|]. destruct (Z.eqb_spec (grp_Id x) id) as [Ei|Ei].
  - intros E og [->|Ho]%elem_of_cons Hi; [done|by eapply IH].
  - destruct (String.eqb_spec (group_cidr v6 x) ""); [|destruct (overlaps_text _ _) eqn:Eo; [done|]];
      (intros E og [->|Ho]%elem_of_cons Hi; [by auto|by eapply IH]).
Qed.
Lemma checked_disjoint d g v6 c a n : all_groups d ≠ LookupErr → ParseCIDR c = Some (a, n) → checked cfg ifaces d g v6 n →
  texts_disjoint (global_cidr v6) c ∧ ∀ og, og ∈ group_rows d → grp_Id og ≠ grp_Id g → texts_disjoint (group_cidr v6 og) c.
Proof.
  intros Hq Ec (u & Hg). unfold checkCidrOverlap in Hg. fold (global_cidr v6) in Hg. apply gbind_inr in Hg as (? & Hgl%guard_inr & Hg). split.
  - apply andb_false_iff in Hgl as [Hgl|Hgl]; [|by eapply overlaps_text_false].
    apply negb_false_iff, String.eqb_eq in Hgl. rewrite Hgl. apply texts_disjoint_empty.
  - intros og Hog Hi.
    assert (check_others n (grp_Id g) v6 (group_rows d) = inr tt) as Hok.
    { destruct (all_groups d) as [l| |] eqn:El; [|rewrite (all_groups_none _ El); done|done].
      apply all_groups_rows in El as ->. by apply gbind_inr in Hg as ([] & ? & _). }
    destruct (check_others_ok _ _ _ _ _ Hok _ Hog Hi) as [->|Ho]; [apply texts_disjoint_empty|by eapply overlaps_text_false].
Qed.

Definition rows_ok (l : list Group) : Prop :=
  Forall group_valid l ∧
  (∀ g v6, g ∈ l → texts_disjoint (global_cidr v6) (group_cidr v6 g)) ∧
  ∀ g g' v6, g ∈ l → g' ∈ l → grp_Id g ≠ grp_Id g' → texts_disjoint (group_cidr v6 g) (group_cidr v6 g').

Lemma rows_ok_sub l l' : l' ⊆ l → rows_ok l → rows_ok l'.
Proof. intros Hs (Hv & Hg & Ho). split_and!; [rewrite Forall_forall in *; eauto|eauto|eauto]. Qed.
Lemma same_range_cidr g r v6 : same_range g r → group_cidr v6 g = group_cidr v6 r.
Proof. intros (_ & ? & _ & _ & _ & ?). by destruct v6. Qed.

(** One group is replaced or added; it was checked against the others. *)
Lemma rows_ok_save l l' g :
  group_valid g → (∀ v6, texts_disjoint (global_cidr v6) (group_cidr v6 g)) →
  (∀ og v6, og ∈ l → grp_Id og ≠ grp_Id g → texts_disjoint (group_cidr v6 og) (group_cidr v6 g)) →
  (∃ i, ∀ r, r ∈ l' → r ∈ l ∧ grp_Id r ≠ i ∧ grp_Id r ≠ grp_Id g ∨ same_range g r ∧ grp_Id r = i) →
  rows_ok l → rows_ok l'.
Proof.
  intros Hv Hgl Hot [i Hr] (Hv' & Hgl' & Hot'). split_and!.
  - rewrite Forall_forall in *. intros r [[Hin _]|[Hs _]]%Hr; [by apply Hv'|by rewrite <- Hs].
  - intros r v6 [[Hin _]|[Hs _]]%Hr; [by apply Hgl'|by rewrite <- (same_range_cidr _ _ v6 Hs)].
  - intros r r' v6 [(Hin & Hi & Hig)|[Hs Hi]]%Hr [(Hin' & Hi' & Hig')|[Hs' Hi']]%Hr Hne.
    + by apply Hot'.
    + rewrite <- (same_range_cidr _ _ v6 Hs'). by apply Hot.
    + rewrite <- (same_range_cidr _ _ v6 Hs). symmetry. by apply Hot.
    + congruence.
Qed.
Lemma SetGroup_rows_ok d g now : all_groups d ≠ LookupErr → rows_ok (group_rows d) →
  rows_ok (group_rows (SetGroup cfg ifaces decode reg d g now).1).
Proof.
  intros Hq Hok. unfold SetGroup. destruct (check_group cfg ifaces decode reg d g now) as [e|g'] eqn:Ec; [done|]. cbv zeta.
  apply check_group_ok in Ec as (Hv & Hid & Hch).
  assert (∀ v6, texts_disjoint (global_cidr v6) (group_cidr v6 g') ∧
    ∀ og, og ∈ group_rows d → grp_Id og ≠ grp_Id g' → texts_disjoint (group_cidr v6 og) (group_cidr v6 g')) as Hd.
  { intros v6. destruct (ParseCIDR (group_cidr v6 g')) as [[a n]|] eqn:Ep.
    - rewrite Hid. eapply checked_disjoint; [done|done|by eapply Hch].
    - split; [|intros og _ _]; intros a1 n1 a2 n2 _ E2; congruence. }
  assert (∀ d', (∃ i, ∀ r, r ∈ group_rows d' → r ∈ group_rows d ∧ grp_Id r ≠ i ∧ grp_Id r ≠ grp_Id g' ∨ same_range g' r ∧ grp_Id r = i) →
    rows_ok (group_rows d')) as Hsave.
  { intros d' Hd'. eapply rows_ok_save; [exact Hv|intros; by apply Hd|intros; by apply Hd|exact Hd'|exact Hok]. }
  destruct (Z.ltb_spec 0 (grp_Id g')) as [Hp|Hp].
  - assert (rows_ok (group_rows (db_set_group d g').1)) as Hr.
    { destruct (db_set_group_rows d g') as [->|Hr]; [done|]. apply Hsave. exists (grp_Id g'). intros r [[? ?]|?]%Hr; auto. }
    by destruct (db_set_group d g') as [d' [e|]].
  - assert (rows_ok (group_rows (db_add_group d g').1)) as Hr.
    { destruct (db_add_group_rows d g') as [->|(r & Hs & Hne & Hpos & Hr)]; [done|]. apply Hsave. exists (grp_Id r).
      intros x [->|Hx]%Hr; [by right|left]. split; [done|]. split; [by apply Hne|]. pose proof (group_rows_id _ _ Hx). lia. }
    by destruct (db_add_group d g') as [d' [e|]].
Qed.
Lemma table_rows_ok d : table_reachable d → rows_ok (group_rows d).
Proof.
  induction 1 as [d E|d g now _ IH Hq|d i _ IH].
  - rewrite E. split_and!; [constructor|set_solver..].
  - by apply SetGroup_rows_ok.
  - eapply rows_ok_sub; [apply db_del_group_rows|done].
Qed.

(** ** The pools *)
Definition same_bounds (p q : ipPoolConfig) : Prop := IpLongMin p = IpLongMin q ∧ IpLongMax p = IpLongMax q.
(** Pools of a server: set up from the configuration, then those of groups, in
    whatever state of the table they were looked up, and allocations, which move
    cursors but no bounds. *)
Inductive pools_reachable : pool_state db → Prop :=
| pools_init st0 st mtu : initIpPool cfg st0 = Some (st, mtu) → groupPoolCache st = ∅ → pools_reachable st
| pools_group st g d : pools_reachable st → table_reachable d → g ∈ group_rows d → pools_reachable (GetGroupIpPool cfg st (Some g)).1
| pools_alloc st st' : pools_reachable st → same_bounds (IpPool_g st) (IpPool_g st') →
    (∀ k p', groupPoolCache st' !! k = Some p' → ∃ p, groupPoolCache st !! k = Some p ∧ same_bounds p p') → pools_reachable st'.

Definition has_bounds (p : ipPoolConfig) (s e : string) : Prop := IpLongMin p = Ip2long (ParseIP s) ∧ IpLongMax p = Ip2long (ParseIP e).
(** What holds of them: the bounds are those of the texts. *)
Definition pools_ok (st : pool_state db) : Prop :=
  has_bounds (IpPool_g st) (Ipv4Start cfg) (Ipv4End cfg) ∧
  (∃ a n, ParseCIDR (Ipv4CIDR cfg) = Some (a, n) ∧ net_Contains n (ParseIP (Ipv4Start cfg)) = true ∧ net_Contains n (ParseIP (Ipv4End cfg)) = true) ∧
  ∀ k p, groupPoolCache st !! k = Some p → ∃ g n, group_cacheKey g = k ∧ own_range g n ∧
    (ClientCidr6 g = ""%string ∨ v6_range_text (ClientCidr6 g)) ∧ has_bounds p (ClientStart g) (ClientEnd g).

Definition no_bars g : Prop := no_bar (ClientCidr g) ∧ no_bar (ClientStart g) ∧ no_bar (ClientEnd g) ∧ no_bar (ClientGateway g) ∧ no_bar (ClientCidr6 g).
Lemma own_range_no_bars g n : own_range g n → ClientCidr6 g = ""%string ∨ v6_range_text (ClientCidr6 g) → no_bars g.
Proof.
  intros ((a & Ec) & _ & Ht & _) Hc6.
  assert (∀ s, s ∈ [ClientStart g; ClientEnd g; ClientGateway g] → no_bar s) as Hs by (intros s Hs; by apply ParseIP_no_bar, Ht).
  split_and!; [by eapply ParseCIDR_no_bar|apply Hs; set_solver..|].
  destruct Hc6 as [->|(a6 & n6 & o6 & E6 & _)]; [apply no_bar_empty|by eapply ParseCIDR_no_bar].
Qed.
Lemma group_cacheKey_bytes g : bytes_of (group_cacheKey g) =
  ((((bytes_of (grp_Name g) ++ bar :: bytes_of (ClientCidr g)) ++ bar :: bytes_of (ClientStart g)) ++ bar :: bytes_of (ClientEnd g))
    ++ bar :: bytes_of (ClientGateway g)) ++ bar :: bytes_of (ClientCidr6 g).
Proof. unfold group_cacheKey. rewrite !bytes_of_app. change (bytes_of "|") with [bar]. cbn [app]. by rewrite <- !app_assoc, <- !app_comm_cons. Qed.
(** The key of a cached pool determines its range. *)
Lemma group_cacheKey_inj g g' : no_bars g → no_bars g' → group_cacheKey g = group_cacheKey g' →
  ClientCidr g = ClientCidr g' ∧ ClientStart g = ClientStart g' ∧ ClientEnd g = ClientEnd g'.
Proof.
  intros (B1 & B2 & B3 & B4 & B5) (B1' & B2' & B3' & B4' & B5') E. apply (f_equal bytes_of) in E. rewrite !group_cacheKey_bytes in E.
  apply last_bar_inj in E as [E _]; [|done..]. apply last_bar_inj in E as [E _]; [|done..].
  apply last_bar_inj in E as [E ->%bytes_of_inj]; [|done..]. apply last_bar_inj in E as [E ->%bytes_of_inj]; [|done..].
  apply last_bar_inj in E as [_ ->%bytes_of_inj]; done.
Qed.

Lemma str_nonempty s : ParseIP s ≠ nil_ip → str_empty s = false.
Proof. intros Hs. apply bool_decide_eq_false. by intros ->. Qed.

(** A group with a range of its own gets a pool of its own. *)
Lemma GetGroupIpPool_own st g n : own_range g n → ClientCidr6 g = ""%string ∨ v6_range_text (ClientCidr6 g) → pools_ok st →
  (GetGroupIpPool cfg st (Some g)).2 = PGroup (group_cacheKey g) ∧ pools_ok (GetGroupIpPool cfg st (Some g)).1 ∧
  is_Some (groupPoolCache (GetGroupIpPool cfg st (Some g)).1 !! group_cacheKey g) ∧
  (∀ k, is_Some (groupPoolCache st !! k) → is_Some (groupPoolCache (GetGroupIpPool cfg st (Some g)).1 !! k)).
Proof.
  intros Hr Hc6 Hok. pose proof Hr as ((a & Ec) & _ & Ht & _).
  destruct (Ht (ClientStart g)) as [S1 S2]; [set_solver|]. destruct (Ht (ClientEnd g)) as [E1 E2]; [set_solver|].
  destruct (Ht (ClientGateway g)) as [G1 G2]; [set_solver|]. unfold GetGroupIpPool.
  assert (str_empty (ClientCidr g) = false) as -> by (apply bool_decide_eq_false; intros E; by rewrite E in Ec).
  rewrite !str_nonempty by done. cbn [orb]. destruct (groupPoolCache st !! group_cacheKey g) as [p|] eqn:Ek; [by eauto|].
  rewrite Ec. unfold ip_nil. rewrite !bool_decide_eq_false_2 by done. rewrite S2, E2, G2. cbn [negb andb fst snd].
  match goal with |- context [set_pool _ ?p st] => set (pool := p) end.
  assert (has_bounds pool (ClientStart g) (ClientEnd g)) as Hb.
  { subst pool. destruct (_ && _); [|done]. unfold initV6. repeat (case_match; try done). }
  split; [done|]. destruct Hok as (Hg & Hn & Hc). split_and!; [split_and!; [exact Hg|exact Hn|]| |].
  - cbn. intros k p [[<- <-]|[_ Hk]]%lookup_insert_Some; [|by apply Hc]. by exists g, n.
  - cbn. rewrite lookup_insert_eq. by eexists.
  - cbn. intros k Hk. destruct (decide (group_cacheKey g = k)) as [<-|]; [rewrite lookup_insert_eq; by eexists|by rewrite lookup_insert_ne].
Qed.

Lemma pools_reachable_ok st : pools_reachable st → pools_ok st.
Proof.
  induction 1 as [st0 st mtu Hi Hc|st g d _ IH Hd Hg|st st' _ IH Hgb Hcb].
  - unfold initIpPool in Hi. destruct (ParseCIDR (Ipv4CIDR cfg)) as [[a n]|] eqn:Ep; [|done]. cbv zeta in Hi.
    destruct (negb (net_Contains n (ParseIP (Ipv4Gateway cfg))) || _ || _) eqn:Eb; [done|].
    apply orb_false_iff in Eb as [[_ Es%negb_false_iff]%orb_false_iff Ee%negb_false_iff].
    assert (has_bounds (IpPool_g st) (Ipv4Start cfg) (Ipv4End cfg)) as Hb.
    { destruct (str_empty (Ipv6CIDR cfg)); [by injection Hi as <- _|]. unfold initV6 in Hi.
      repeat (case_match; try done); by simplify_eq. }
    split_and!; [exact Hb|by exists a, n|]. rewrite Hc. intros k p. by rewrite lookup_empty.
  - destruct (table_rows_ok _ Hd) as [Hv _]. rewrite Forall_forall in Hv. destruct (Hv g Hg) as [(E1 & _)|[[n Hn] Hc6]].
    + unfold GetGroupIpPool. assert (str_empty (ClientCidr g) = true) as -> by (by apply bool_decide_eq_true). exact IH.
    + by apply (GetGroupIpPool_own st g n).
  - destruct IH as ((B1 & B2) & Hn & Hc). destruct Hgb as [G1 G2]. split_and!; [split; congruence|exact Hn|].
    intros k p' (p & Hp & S1 & S2)%Hcb. destruct (Hc k p Hp) as (g & n & ? & ? & ? & ? & ?). exists g, n. split_and!; [done..|].
    split; congruence.
Qed.

Lemma own_range_interval g n p ip : own_range g n → has_bounds p (ClientStart g) (ClientEnd g) → in_range p ip →
  ∃ nn o, canon n 4 nn o ∧ net_Contains n (ParseIP (ClientStart g)) = true ∧ net_Contains n (ParseIP (ClientEnd g)) = true ∧
    Ip2long (ParseIP (ClientStart g)) ≤ Ip2long ip ≤ Ip2long (ParseIP (ClientEnd g)).
Proof.
  intros ((a & Ec) & H4 & Ht & _) [B1 B2] Hi. destruct (canon_v4 _ _ _ Ec H4) as (nn & o & C). exists nn, o.
  unfold in_range in Hi. rewrite B1, B2 in Hi. split_and!; [done|by apply Ht; set_solver..|lia|lia].
Qed.

Lemma cached_bounds st g n : pools_ok st → own_range g n → ClientCidr6 g = ""%string ∨ v6_range_text (ClientCidr6 g) →
  is_Some (groupPoolCache st !! group_cacheKey g) → has_bounds (get_pool st (PGroup (group_cacheKey g))) (ClientStart g) (ClientEnd g).
Proof.
  intros (_ & _ & Hc) Hn Hc6 [p Hp]. destruct (Hc _ _ Hp) as (g' & n' & Ek & Hn' & Hc6' & B). unfold get_pool. rewrite Hp. cbn [from_option id].
  destruct (group_cacheKey_inj g' g (own_range_no_bars _ _ Hn' Hc6') (own_range_no_bars _ _ Hn Hc6) Ek) as (_ & <- & <-). exact B.
Qed.
End reachable.


(** ** The check says what it means *)
Section exact.
Context {db : Type} `{GroupDb db, !GroupDbLaws db} (cfg : ServerConfig) (ifaces : interfaces).

(** The addresses of the master device of one family. *)
Definition master_nets (v6 : bool) : list string :=
  if String.eqb (MasterDev cfg) "" then []
  else match ifaces (MasterDev cfg) with
       | Some (Some addrs) => List.filter (λ a, match ParseCIDR a with Some (_, n) => Bool.eqb (bool_decide (ip_to4 (net_IP n) = None)) v6 | None => false end) addrs
       | _ => []
       end.

Lemma overlaps_text_disjoint c c' a n : ParseCIDR c' = Some (a, n) → overlaps_text c n = false ↔ texts_disjoint c c'.
Proof.
  intros E. split; [by eapply overlaps_text_false|]. intros Hd. apply not_true_is_false. unfold overlaps_text.
  destruct (ParseCIDR c) as [[a1 n1]|] eqn:E1; [|done]. intros Ho%(cidrOverlaps_shares _ _ _ _ _ _ E1 E). by eapply (Hd a1 n1 a n).
Qed.
Lemma check_others_exact c a n id v6 l : ParseCIDR c = Some (a, n) →
  check_others n id v6 l = inr tt ↔ ∀ og, og ∈ l → grp_Id og ≠ id → texts_disjoint (group_cidr v6 og) c.
Proof.
  intros E. induction l as [|x l IH]; cbn [check_others]; [split; [set_solver|done]|]. setoid_rewrite elem_of_cons.
  destruct (Z.eqb_spec (grp_Id x) id) as [Ei|Ei].
  { rewrite IH. split; [intros Ho og [->|?]; [done|by apply Ho]|auto]. }
  destruct (String.eqb_spec (group_cidr v6 x) "") as [Ee|Ee].
  { rewrite IH. split; [|auto]. intros Ho og [->|?] ?; [rewrite Ee; apply texts_disjoint_empty|by apply Ho]. }
  pose proof (overlaps_text_disjoint (group_cidr v6 x) c a n E) as Hx. destruct (overlaps_text _ _).
  - split; [done|]. intros Ho. enough (true = false) by done. apply Hx, Ho; auto.
  - rewrite IH. split; [|auto]. intros Ho og [->|?] ?; [by apply Hx|by apply Ho].
Qed.
Lemma check_master_exact c a n dev v6 l : ParseCIDR c = Some (a, n) →
  check_master n dev v6 l = inr tt ↔
  ∀ m, m ∈ List.filter (λ a, match ParseCIDR a with Some (_, n) => Bool.eqb (bool_decide (ip_to4 (net_IP n) = None)) v6 | None => false end) l →
    texts_disjoint m c.
Proof.
  intros E. induction l as [|x l IH]; cbn [check_master List.filter]; [split; [set_solver|done]|].
  destruct (ParseCIDR x) as [[ax nx]|] eqn:Ex; [|exact IH]. destruct (Bool.eqb _ v6); [cbn [negb]|exact IH]. setoid_rewrite elem_of_cons.
  pose proof (overlaps_text_disjoint x c a n E) as Hx. unfold overlaps_text in Hx. rewrite Ex in Hx. destruct (cidrOverlaps nx n).
  - split; [done|]. intros Ho. enough (true = false) by done. apply Hx, Ho; auto.
  - rewrite IH. split; [|auto]. intros Ho m [->|?]; [by apply Hx|by apply Ho].
Qed.
Lemma global_text_exact t c a n : ParseCIDR c = Some (a, n) → negb (String.eqb t "") && overlaps_text t n = false ↔ texts_disjoint t c.
Proof.
  intros E. rewrite <- (overlaps_text_disjoint t c a n E). by destruct (String.eqb_spec t "") as [->|].
Qed.
Lemma master_exact c a n v6 : ParseCIDR c = Some (a, n) →
  (if String.eqb (MasterDev cfg) "" then inr tt
   else match ifaces (MasterDev cfg) with Some (Some addrs) => check_master n (MasterDev cfg) v6 addrs | _ => inr tt end) = inr tt ↔
  ∀ m, m ∈ master_nets v6 → texts_disjoint m c.
Proof.
  intros E. unfold master_nets. destruct (String.eqb _ _); [split; [set_solver|done]|].
  destruct (ifaces _) as [[addrs|]|]; [by apply (check_master_exact c a)|split; [set_solver|done]..].
Qed.
End exact.
Lemma gbind_tt (m k : group_result unit) : gbind m (λ _, k) = inr tt ↔ m = inr tt ∧ k = inr tt.
Proof. destruct m as [e|[]]; cbn; naive_solver. Qed.
Lemma guard_tt b e : guard_e b e = inr tt ↔ b = false.
Proof. by destruct b. Qed.

(** C15. A network passes the overlap check, when the groups can be read, exactly
    if it shares no address with the global network, with the network of any other
    group, and with the networks of the master device of its family.  (The code
    compares only the first address of each with the other.) *)
Theorem overlap_check_exact {db} `{GroupDb db, !GroupDbLaws db} cfg ifaces (d : db) g v6 c a n :
  ParseCIDR c = Some (a, n) → all_groups d ≠ LookupErr →
  checkCidrOverlap cfg ifaces d n g v6 = inr tt ↔
  texts_disjoint (global_cidr cfg v6) c ∧
  (∀ og, og ∈ group_rows d → grp_Id og ≠ grp_Id g → texts_disjoint (group_cidr v6 og) c) ∧
  (∀ m, m ∈ master_nets cfg ifaces v6 → texts_disjoint m c).
Proof.
  intros E Hq. unfold checkCidrOverlap. fold (global_cidr cfg v6). rewrite gbind_tt, guard_tt.
  rewrite (global_text_exact _ c a n E), <- (check_others_exact c a n (grp_Id g) v6 (group_rows d) E).
  rewrite <- (master_exact cfg ifaces c a n v6 E), <- gbind_tt.
  destruct (all_groups d) as [l| |] eqn:El; [by rewrite (all_groups_rows _ _ El)|by rewrite (all_groups_none _ El)|done].
Qed.

(** ** Witnesses: a table in memory *)
Record mem_groups := { mg_rows : list Group }.
Definition set_grp_Id (i : Z) (g : Group) : Group :=
  {| grp_Id := i; grp_Name := grp_Name g; grp_Note := grp_Note g; SplitDns := SplitDns g; grp_PolicyId := grp_PolicyId g;
     AuthProfile := AuthProfile g; grp_Status := grp_Status g; Hidden := Hidden g; ClientCidr := ClientCidr g;
     ClientStart := ClientStart g; ClientEnd := ClientEnd g; ClientGateway := ClientGateway g; ClientCidr6 := ClientCidr6 g;
     OutDev := OutDev g; grp_CreatedAt := grp_CreatedAt g; grp_UpdatedAt := grp_UpdatedAt g |}.
Definition mg_live (d : mem_groups) : list Group := List.filter (λ g, 0 <? grp_Id g) (mg_rows d).
Definition mg_next (d : mem_groups) : Z := 1 + foldr (λ g m, Z.max (grp_Id g) m) 0 (mg_rows d).
#[export] Instance mem_group_db : GroupDb mem_groups := {
  all_groups d := Found (mg_live d);
  active_groups d := Found (List.filter (λ g, grp_Status g =? 1) (mg_live d));
  grp_by_id d i := match List.find (λ g, grp_Id g =? i) (mg_live d) with Some g => Found g | None => NotFound end;
  db_set_group d g := ({| mg_rows := map (λ r, if grp_Id r =? grp_Id g then g else r) (mg_rows d) |}, None);
  db_add_group d g := ({| mg_rows := mg_rows d ++ [set_grp_Id (mg_next d) g] |}, None);
  db_del_group d i := ({| mg_rows := List.filter (λ g, negb (grp_Id g =? i)) (mg_rows d) |}, None)
}.
Lemma mg_live_elem d g : g ∈ mg_live d ↔ g ∈ mg_rows d ∧ 0 < grp_Id g.
Proof. unfold mg_live. by rewrite list_elem_of_In, filter_In, <- list_elem_of_In, Z.ltb_lt. Qed.
Lemma mg_next_above d g : g ∈ mg_rows d → grp_Id g < mg_next d.
Proof.
  unfold mg_next. induction (mg_rows d) as [|x l IH]; cbn [foldr]; [set_solver|]. intros [->|Hx%IH]%elem_of_cons; lia.
Qed.
Lemma mg_next_pos d : 0 < mg_next d.
Proof. unfold mg_next. induction (mg_rows d) as [|x l IH]; cbn [foldr]; lia. Qed.
#[export] Instance mem_group_laws : GroupDbLaws mem_groups.
Proof.
  refine {| group_rows := mg_live |}.
  - intros d l [= <-]. done.
  - done.
  - intros d g. right. intros r [Hr Hp]%mg_live_elem. cbn in Hr. apply list_elem_of_fmap in Hr as (x & -> & Hx).
    destruct (Z.eqb_spec (grp_Id x) (grp_Id g)); [by right|left]. split; [by apply mg_live_elem|done].
  - intros d g. right. exists (set_grp_Id (mg_next d) g). pose proof (mg_next_pos d). split_and!; [done| |done|].
    + intros x [Hx _]%mg_live_elem. apply mg_next_above in Hx. cbn. lia.
    + intros x. rewrite !mg_live_elem. cbn. rewrite elem_of_app, elem_of_cons. split; [|intros [->|[? ?]]; cbn; auto].
      intros [[?|[->|?]] ?]; [by right|by left|set_solver].
  - intros d i g [Hg Hp]%mg_live_elem. apply mg_live_elem. split; [|done]. cbn in Hg.
    apply list_elem_of_In, filter_In in Hg as [Hg _]. by apply list_elem_of_In.
  - intros d r [_ Hp]%mg_live_elem. done.
Defined.

#[export] Instance mem_groups_policies : PolicyDb mem_groups := {
  pol_by_id _ _ := NotFound; user_row _ _ := NotFound; db_set_policy d _ := (d, None); db_add_policy d _ := (d, None);
  users_of_policy _ _ := Found []; groups_of_policy _ _ := Found []; all_users _ := Found [];
  update_user_traffic d _ _ _ _ := d; add_user_traffic d _ _ := (d, None)
}.
#[export] Instance mem_groups_ipmap : IpMapStore mem_groups := {
  one_addr _ _ := NotFound; one_addr6 _ _ := NotFound; one_mac _ _ _ := NotFound; find_user _ _ _ _ := Found [];
  store_add d _ := (d, true); store_set d _ := (d, true); store_del d _ := (d, true)
}.

Definition new_group (name cidr start end_ gateway : string) : Group :=
  {| grp_Id := 0; grp_Name := name; grp_Note := ""; SplitDns := []; grp_PolicyId := 0; AuthProfile := ""; grp_Status := 0;
     Hidden := 0; ClientCidr := cidr; ClientStart := start; ClientEnd := end_; ClientGateway := gateway; ClientCidr6 := "";
     OutDev := ""; grp_CreatedAt := 0; grp_UpdatedAt := 0 |}.
Definition eth0_only : interfaces := λ dev, if String.eqb dev "eth0" then Some (Some ["203.0.113.7/24"%string]) else None.
Definition local_only : string → option GroupAuthProfile := λ _, Some {| Step := [{| amc_Type := "local"; Provider := "" |}] |}.
Definition local_reg : ProviderRegistry unit :=
  {["local"%string := {| Name := "local"; Authenticate := λ w x _, (w, x, (StepPass, None)); Challenge := None |}]}.
Definition save (d : mem_groups) (g : Group) : mem_groups := (SetGroup example_cfg eth0_only local_only local_reg d g 0).1.

(** Two neighbouring networks; a third inside the first is refused. *)
Definition two_groups : mem_groups :=
  save (save (save {| mg_rows := [] |} (new_group "dev" "10.1.0.0/24" "10.1.0.10" "10.1.0.250" "10.1.0.1"))
             (new_group "ops" "10.1.1.0/24" "10.1.1.10" "10.1.1.250" "10.1.1.1"))
       (new_group "sub" "10.1.0.128/25" "10.1.0.130" "10.1.0.140" "10.1.0.129").
Definition group_at (i : nat) : Group := default (new_group "" "" "" "" "") (mg_rows two_groups !! i).
Definition no_pools : pool_state mem_groups := Build_pool_state zero_pool ∅ ∅ {| mg_rows := [] |}.
Definition started_pools : pool_state mem_groups := match initIpPool example_cfg no_pools with Some (st, _) => st | None => no_pools end.

Lemma two_groups_reachable : table_reachable example_cfg eth0_only local_only local_reg two_groups.
Proof. repeat (apply table_set; [|done]). by apply table_empty. Defined.


Lemma overlap_check_exact_witness :
  texts_disjoint (ClientCidr (group_at 0)) "10.2.0.0/24" ∧
  (SetGroup example_cfg eth0_only local_only local_reg two_groups (new_group "sub" "10.1.0.128/25" "10.1.0.130" "10.1.0.140" "10.1.0.129") 0).2 =
    inl (EOverlapGroup "10.1.0.128/25" "dev" "10.1.0.0/24").
Proof.
  split; [|vm_compute; reflexivity].
  assert (ParseCIDR "10.2.0.0/24" = Some (ParseIP "10.2.0.0", {| net_IP := [z2b 10; z2b 2; z2b 0; z2b 0];
    net_Mask := [z2b 255; z2b 255; z2b 255; z2b 0] |})) as Ep by (vm_compute; reflexivity).
  assert (all_groups two_groups ≠ LookupErr) as Hq by (vm_compute; discriminate).
  assert (checkCidrOverlap example_cfg eth0_only two_groups {| net_IP := [z2b 10; z2b 2; z2b 0; z2b 0];
    net_Mask := [z2b 255; z2b 255; z2b 255; z2b 0] |} (new_group "sub" "" "" "" "") false = inr tt) as Hc by (vm_compute; reflexivity).
  destruct (proj1 (overlap_check_exact example_cfg eth0_only two_groups (new_group "sub" "" "" "" "") false "10.2.0.0/24" _ _ Ep Hq) Hc) as (_ & Ho & _).
  apply (Ho (group_at 0)).
  - apply mg_live_elem. split; [apply list_elem_of_lookup_2 with 0%nat; vm_compute; reflexivity|vm_compute; reflexivity].
  - vm_compute. discriminate.
Defined.
