(* ===== verification/AccessLog.v ===== *)
(** * The access audit (server/handler/payload_access_audit.go)

    Packets that leave a tunnel are read once more by a pool of workers, which
    turn them into access records: the protocol and the name recognised, at most
    one record per key and interval.  A record goes through a channel to the
    batch that is written to the table.  One call of [logAudit] is one step. *)
From S2P Require Export TcpStream Acl.
Local Open Scope Z_scope.

(** [waterutil.IPv4Source] and [IPv4Payload]. *)
Class WaterUtilAudit := {
  IPv4Source : list byte → res IP;
  IPv4Payload : list byte → res (list byte)
}.
(** Addresses are [net.IPv4(a, b, c, d)], of sixteen bytes. *)
Class WaterUtilAuditLaws `{WaterUtil, WaterUtilAudit} : Prop := {
  IPv4Source_16 data ip : IPv4Source data = Ret ip → length ip = 16%nat;
  IPv4Destination_16 data ip : IPv4Destination data = Ret ip → length ip = 16%nat
}.

(** [dbdata.AccessAudit] *)
Record AccessAudit := {
  aa_Username : string; aa_GroupName : string; aa_Protocol : Z; aa_Src : string; aa_Dst : string;
  aa_SrcPort : Z; aa_DstPort : Z; aa_CreatedAt : Time; AccessProto : Z; Info : string
}.

Record accessAuditMergeKey := {
  mk_Username : string; mk_GroupName : string; mk_Protocol : Z; mk_Src : string; mk_Dst : string;
  mk_SrcPort : Z; mk_DstPort : Z
}.
#[export] Instance accessAuditMergeKey_eq_dec : EqDecision accessAuditMergeKey.
Proof. solve_decision. Defined.

Definition accessAuditKey (a : AccessAudit) : accessAuditMergeKey :=
  {| mk_Username := aa_Username a; mk_GroupName := aa_GroupName a; mk_Protocol := aa_Protocol a; mk_Src := aa_Src a;
     mk_Dst := aa_Dst a; mk_SrcPort := aa_SrcPort a; mk_DstPort := aa_DstPort a |}.
Definition isRawAccessProto (proto : Z) : bool := (proto =? acc_proto_tcp) || (proto =? acc_proto_udp).

(** ** The batch *)
(** The loop of [appendAudit] from the record [current] on; the result is what
    [l.Logs] is afterwards from there on. *)
Fixpoint appendAudit (logs : list AccessAudit) (incoming : AccessAudit) : list AccessAudit :=
  match logs with
  | [] => [incoming]
  | current :: logs' =>
      if negb (bool_decide (accessAuditKey current = accessAuditKey incoming)) then current :: appendAudit logs' incoming
      else if isRawAccessProto (AccessProto current) && negb (isRawAccessProto (AccessProto incoming)) then incoming :: logs'
      else if negb (isRawAccessProto (AccessProto current)) && isRawAccessProto (AccessProto incoming) then logs
      else if (AccessProto current =? AccessProto incoming) && EqualFold (Info current) (Info incoming) then logs
      else current :: appendAudit logs' incoming
  end.

(** The batch and what has been handed to the table.  [Write] empties the batch
    also when the table refuses it; the loop of [logAuditBatch] turns on a record
    ([Some]) or on the timer ([None]). *)
Record log_batch := { Logs : list AccessAudit; written : list AccessAudit }.
Definition batch_limit : Z := 100.
Definition batch_Write (l : log_batch) : log_batch := {| Logs := []; written := written l ++ Logs l |}.
Definition logAuditBatch_turn (l : log_batch) (ev : option AccessAudit) : log_batch :=
  match ev with
  | Some incoming =>
      let l := {| Logs := appendAudit (Logs l) incoming; written := written l |} in
      if batch_limit <=? len (Logs l) then batch_Write l else l
  | None => batch_Write l
  end.

(** ** The deduplication key *)
Definition accessAuditDedupKey (username groupName : string) (key : list byte) : string :=
  let u := bytes_of username in
  let g := bytes_of groupName in
  str_of (put32 (u32 (len u)) ++ u ++ put32 (u32 (len g)) ++ g ++ key).

(** [copy(key[i:j], src)] into the pooled buffer. *)
Definition copy_into (key : list byte) (i n : nat) (src : list byte) : list byte :=
  take i key ++ take n src ++ drop (i + Nat.min n (length src)) key.
Definition set_at (key : list byte) (i : nat) (x : Z) : list byte := <[i := z2b x]> key.

Record audit_state := { IpAuditMap : gmap string Z; TCPStreams : option tcpStreamCache }.
Definition store_audit (k : string) (v : Z) (st : audit_state) : audit_state :=
  {| IpAuditMap := <[k := v]> (IpAuditMap st); TCPStreams := TCPStreams st |}.
Definition with_streams (c : tcpStreamCache) (st : audit_state) : audit_state :=
  {| IpAuditMap := IpAuditMap st; TCPStreams := Some c |}.

(** ** Reading a packet *)
(** What the [switch] on the version sets; an empty segment is nil. *)
Record packet_info := {
  pi_proto : Z; pi_src : IP; pi_dst : IP; pi_sport : Z; pi_dport : Z; tcpSeg : list byte; udpSeg : list byte
}.

Section audit.
Context {F D : Type} `{WaterUtil, WaterUtilAudit}.
Context (ReadRequest : list byte → option string) (md5_Sum : list byte → list byte).

(** The case of IPv4: [None] is the early return. *)
Definition audit_v4 (data : list byte) : res (option packet_info) :=
  let! ipProto := IPv4Protocol data in
  let! ipSrc := IPv4Source data in
  let! ipDst := IPv4Destination data in
  let! ipPl := IPv4Payload data in
  if len ipPl <? 4 then Ret None
  else
    let! frag := be16 data 6 in
    if negb (Z.land frag 0x1fff =? 0) then Ret None
    else
      let! sport := be16 ipPl 0 in
      let! dport := be16 ipPl 2 in
      let! total := be16 data 2 in
      let ipTotalLen := Z.min total (len data) in
      let! b0 := at_z data 0 in
      let ihl := Z.shiftl (Z.land b0 15) 2 in
      let! seg := if (20 <=? ihl) && (ihl <? ipTotalLen) then slice data ihl ipTotalLen else Ret [] in
      Ret (Some {| pi_proto := ipProto; pi_src := ipSrc; pi_dst := ipDst; pi_sport := sport; pi_dport := dport;
                   tcpSeg := if ipProto =? proto_TCP then seg else []; udpSeg := if ipProto =? proto_UDP then seg else [] |}).

(** The case of IPv6. *)
Definition audit_v6 (data : list byte) : res (option packet_info) :=
  let! r := parseV6Header data in
  match r with
  | None => Ret None
  | Some info =>
      if negb (v6_Proto info =? 6) && negb (v6_Proto info =? 17) then Ret None
      else
        let pi seg := {| pi_proto := v6_Proto info; pi_src := v6_Src info; pi_dst := v6_Dst info; pi_sport := v6_SrcPort info;
                         pi_dport := v6_DstPort info; tcpSeg := if v6_Proto info =? 6 then seg else [];
                         udpSeg := if v6_Proto info =? 17 then seg else [] |} in
        if L4Off info <? len data then
          let! l4Data := slice data (L4Off info) (PacketEnd info) in
          if IsFragment info && negb (FragmentOffset info =? 0) then Ret None else Ret (Some (pi l4Data))
        else Ret (Some (pi []))
  end.

Definition audit_packet (data : list byte) : res (option packet_info) :=
  let! b0 := at_z data 0 in
  let v := Z.shiftr (Z.land b0 0xF0) 4 in
  if v =? 4 then audit_v4 data else if v =? 6 then audit_v6 data else Ret None.

(** ** The record of a packet *)
(** The protocol and name: TCP through the stream cache, DNS by its question. *)
Definition recognise (userName groupName : string) (p : packet_info) (st : audit_state) (now : Time)
    : res (audit_state * (Z * string)) :=
  if (pi_proto p =? proto_TCP) && (20 <=? len (tcpSeg p)) then
    match TCPStreams st with
    | Some c =>
        let streamKey := {| k_Username := userName; k_GroupName := groupName; k_Protocol := u8 (pi_proto p);
                            k_Src := ip_String (pi_src p); k_Dst := ip_String (pi_dst p);
                            k_SrcPort := pi_sport p; k_DstPort := pi_dport p |} in
        let! r := cache_add ReadRequest c streamKey (tcpSeg p) now in
        let '(c, (a, _)) := r in
        let! flags := at_z (tcpSeg p) 13 in
        let c := if negb (Z.land flags 5 =? 0) then cache_close c streamKey else c in
        Ret (with_streams c st, a)
    | None => let! a := onTCP ReadRequest (tcpSeg p) in Ret (st, a)
    end
  else if (pi_proto p =? proto_UDP) && (pi_dport p =? 53) && (12 <=? len (udpSeg p)) then
    let! name := parseDNSQuery (udpSeg p) in
    if negb (String.eqb name "") then Ret (st, (acc_proto_dns, name)) else Ret (st, (acc_proto_udp, ""%string))
  else Ret (st, (if pi_proto p =? proto_TCP then acc_proto_tcp else acc_proto_udp, ""%string)).

(** The protocol under which the bare address is marked. *)
Definition placeholder_proto (accessProto : Z) : Z :=
  if (accessProto =? acc_proto_https) || (accessProto =? acc_proto_http) then acc_proto_tcp
  else if accessProto =? acc_proto_dns then acc_proto_udp else accessProto.

(** The key in the pooled buffer [buf], before and after a name is known. *)
Definition base_key (buf : list byte) (p : packet_info) : list byte :=
  let key := copy_into buf 0 16 (pi_src p) in
  let key := copy_into key 16 16 (pi_dst p) in
  let key := copy_into key 32 2 (put16 (pi_sport p)) in
  let key := copy_into key 34 2 (put16 (pi_dport p)) in
  let key := set_at key 36 (if pi_proto p =? proto_TCP then acc_proto_tcp else acc_proto_udp) in
  copy_into key 37 16 (replicate 16 (z2b 0)).
Definition named_key (key : list byte) (accessProto : Z) (info : string) : list byte :=
  copy_into (set_at key 36 accessProto) 37 16 (md5_Sum (bytes_of info)).

(** The map after the lookups of a record, and whether the record is new. *)
Definition audit_dedup (interval : Z) (userName groupName : string) (key : list byte) (accessProto : Z) (info : string)
    (nu : Z) (st : audit_state) : audit_state * bool :=
  let '(st, key) :=
    if negb (String.eqb info "") && (0 <? interval) then
      (store_audit (accessAuditDedupKey userName groupName (set_at key 36 (placeholder_proto accessProto))) nu st,
       named_key key accessProto info)
    else (st, key) in
  let s := accessAuditDedupKey userName groupName key in
  if 0 <? interval then
    match IpAuditMap st !! s with
    | Some v => if nu - v <? interval then (st, false) else (store_audit s nu st, true)
    | None => (store_audit s nu st, true)
    end
  else (st, true).

(** [logAudit]: [fd] is the global FakeDNS manager, [buf] the pooled buffer, [room]
    whether the channel takes the record.  A panic is recovered. *)
Definition logAudit (cfg : ServerConfig) (fd : option (FakeDNSManager F D)) (buf : list byte) (st : audit_state)
    (userName groupName : string) (pl : Payload) (room : bool) (now : Time) : res (audit_state * option AccessAudit) :=
  if negb (is_ip_data pl) then Ret (st, None)
  else
    let! p := audit_packet (Data pl) in
    match p with
    | None => Ret (st, None)
    | Some p =>
        if negb (pi_proto p =? proto_TCP) && negb (pi_proto p =? proto_UDP) then Ret (st, None)
        else
          let! r := recognise userName groupName p st now in
          let '(st, (accessProto, info)) := r in
          let info :=
            match fd with
            | Some m => if String.eqb info "" then GetDomain m (ip_String (pi_dst p)) else info
            | None => info
            end in
          let '(st, fresh) := audit_dedup (AuditInterval cfg) userName groupName (base_key buf p) accessProto info (time_Unix now) st in
          if negb fresh || negb room then Ret (st, None)
          else Ret (st, Some {| aa_Username := userName; aa_GroupName := groupName; aa_Protocol := u8 (pi_proto p);
                                aa_Src := ip_String (pi_src p); aa_Dst := ip_String (pi_dst p); aa_SrcPort := pi_sport p;
                                aa_DstPort := pi_dport p; aa_CreatedAt := time_Unix now * Second;
                                AccessProto := accessProto; Info := info |})
    end.

(** The tick of [auditMapCleanupLoop] and of [tcpStreamCleanupLoop]. *)
Definition auditMapCleanup (cfg : ServerConfig) (st : audit_state) (now : Time) : audit_state :=
  if AuditInterval cfg <=? 0 then st
  else {| IpAuditMap := filter (λ kv, time_Unix now - AuditInterval cfg * 2 ≤ kv.2) (IpAuditMap st); TCPStreams := TCPStreams st |}.
Definition tcpStreamCleanup (st : audit_state) (now : Time) : audit_state :=
  match TCPStreams st with Some c => with_streams (cleanup c now) st | None => st end.

(** What the workers and the two tickers do, one after another. *)
Inductive audit_op :=
| AuditPacket (fd : option (FakeDNSManager F D)) (buf : list byte) (userName groupName : string) (pl : Payload) (room : bool)
| AuditMapSweep
| AuditStreamSweep.
Definition audit_step (cfg : ServerConfig) (st : audit_state) (op : Time * audit_op) : audit_state :=
  match op.2 with
  | AuditPacket fd buf userName groupName pl room =>
      match logAudit cfg fd buf st userName groupName pl room op.1 with Ret (st, _) => st | Panic => st end
  | AuditMapSweep => auditMapCleanup cfg st op.1
  | AuditStreamSweep => tcpStreamCleanup st op.1
  end.
End audit.
