(* ===== verification/AccessLogSpec.v ===== *)
(** * The access audit: what is recorded, and how often *)
From S2P Require Import AccessLog PacketSpec AclSpec.
Local Open Scope Z_scope.

(** ** The batch *)
(** Records of one flow that [appendAudit] takes for the same. *)
Definition same_record (a b : AccessAudit) : Prop :=
  accessAuditKey a = accessAuditKey b ∧ AccessProto a = AccessProto b ∧ fold_bytes (Info a) = fold_bytes (Info b).
#[export] Instance same_record_equiv : Equivalence same_record.
Proof.
  unfold same_record. split.
  - by intros a.
  - intros a b (? & ? & ?). done.
  - intros a b c (? & ? & ?) (? & ? & ?). split_and!; congruence.
Qed.
Abbreviation raw a := (isRawAccessProto (AccessProto a) = true).
(** Within a flow application records come before placeholders, none twice. *)
Definition batch_rel (x y : AccessAudit) : Prop :=
  accessAuditKey x = accessAuditKey y → (raw x → raw y) ∧ ¬ same_record x y.

Lemma appendAudit_elem l r x : x ∈ appendAudit l r → x = r ∨ x ∈ l.
Proof.
  induction l as [|c l IH]; cbn [appendAudit]; [set_solver|].
  repeat case_match; rewrite ?elem_of_cons; naive_solver.
Qed.
Lemma appendAudit_rel l r : ForallOrdPairs batch_rel l → ForallOrdPairs batch_rel (appendAudit l r).
Proof.
  induction 1 as [|c l Hc Hl IH]; cbn [appendAudit]; [by repeat constructor|]. rewrite Forall_forall in Hc.
  assert (batch_rel c r → ForallOrdPairs batch_rel (c :: appendAudit l r)) as Hkeep.
  { intros Hr. constructor; [|done]. apply Forall_forall. intros x [->|Hx]%appendAudit_elem; [done|by apply Hc]. }
  case_bool_decide as Ek; cbn [negb]; [|by apply Hkeep].
  destruct (isRawAccessProto (AccessProto c)) eqn:Rc, (isRawAccessProto (AccessProto r)) eqn:Rr; cbn [andb negb].
  all: try (destruct (Z.eqb_spec (AccessProto c) (AccessProto r)) as [Ep|Ep]; cbn [andb]; [unfold EqualFold; case_bool_decide as Ef|]).
  all: try (by constructor; [apply Forall_forall|]).
  all: try (apply Hkeep; intros _; split; [congruence|intros (_ & ? & ?); congruence]).
  all: constructor; [|done]; apply Forall_forall; intros y Hy Eky; destruct (Hc y Hy ltac:(congruence)) as [Hraw _]; specialize (Hraw Rc);
    (split; [congruence|intros (_ & E & _)]; rewrite <- E in Hraw; congruence).
Qed.
(** A record already there is still represented; so is the new one. *)
Lemma appendAudit_keeps l r x : x ∈ l →
  ∃ y, y ∈ appendAudit l r ∧ accessAuditKey y = accessAuditKey x ∧ (raw x ∨ y = x).
Proof.
  induction l as [|c l IH]; [set_solver|]. cbn [appendAudit]. intros [->|Hx]%elem_of_cons.
  - repeat case_match; rewrite ?andb_true_iff, ?negb_true_iff in *; try (exists c; split; [by left|by auto]).
    exists r. split; [by left|]. case_bool_decide; [|done]. split; [done|]. left. naive_solver.
  - assert (∃ y, y ∈ c :: appendAudit l r ∧ accessAuditKey y = accessAuditKey x ∧ (raw x ∨ y = x)) as Hk
      by (destruct (IH Hx) as (y & Hy & ?); exists y; split; [by right|done]).
    repeat case_match; try done; exists x; (split; [by right|by auto]).
Qed.
Lemma appendAudit_adds l r : ∃ y, y ∈ appendAudit l r ∧ accessAuditKey y = accessAuditKey r ∧ (raw r ∨ same_record y r).
Proof.
  induction l as [|c l (y & Hy & IH)]; cbn [appendAudit]; [exists r; split; [by left|split; [done|right; done]]|].
  case_bool_decide as Ek; cbn [negb]; [|exists y; split; [by right|done]].
  destruct (isRawAccessProto (AccessProto c)) eqn:Rc, (isRawAccessProto (AccessProto r)) eqn:Rr; cbn [andb negb].
  all: try (destruct (Z.eqb_spec (AccessProto c) (AccessProto r)) as [Ep|Ep]; cbn [andb]; [unfold EqualFold; case_bool_decide as Ef|]).
  all: try (by exists c; split; [left|auto]).
  all: try (exists c; split; [by left|split; [done|right; done]]).
  all: try (exists y; split; [by right|done]).
  exists r. split; [by left|]. split; [done|by right].
Qed.

Definition recorded (l : list AccessAudit) (r : AccessAudit) : Prop :=
  ∃ y, y ∈ l ∧ accessAuditKey y = accessAuditKey r ∧ (raw r ∨ same_record y r).
Lemma recorded_append l r x : recorded l x → recorded (appendAudit l r) x.
Proof.
  intros (y & Hy & Ek & Hs). destruct (appendAudit_keeps l r y Hy) as (z & Hz & Ez & Hr). exists z. split; [done|]. split; [congruence|].
  destruct Hs as [?|Hs]; [by left|]. destruct Hr as [Hr| ->]; [|by right]. left. by rewrite <- (proj1 (proj2 Hs)).
Qed.
Lemma recorded_mono l l' r : l ⊆ l' → recorded l r → recorded l' r.
Proof. intros Hl (y & ? & ?). exists y. auto. Qed.
Lemma appendAudit_len l r : len (appendAudit l r) ≤ len l + 1.
Proof.
  induction l as [|c l IH]; cbn [appendAudit]; [done|]. repeat case_match; rewrite ?len_cons in *; lia.
Qed.

Definition batch_ok (rs : list AccessAudit) (b : log_batch) : Prop :=
  len (Logs b) < batch_limit ∧ ForallOrdPairs batch_rel (Logs b) ∧ Logs b ++ written b ⊆ rs ∧
  ∀ r, r ∈ rs → recorded (Logs b ++ written b) r.
Lemma batch_turn_ok rs b ev : batch_ok rs b → batch_ok (match ev with Some r => rs ++ [r] | None => rs end) (logAuditBatch_turn b ev).
Proof.
  intros (Hl & Ho & Hs & Hr).
  assert (∀ rs b, ForallOrdPairs batch_rel (Logs b) → Logs b ++ written b ⊆ rs → (∀ r, r ∈ rs → recorded (Logs b ++ written b) r) →
    batch_ok rs (batch_Write b)) as Hw.
  { clear. intros rs b Ho Hs Hr. split_and!; cbn; [done|constructor|set_solver|].
    intros r Hin. eapply recorded_mono, Hr, Hin. set_solver. }
  destruct ev as [r|]; cbn [logAuditBatch_turn]; [|by apply Hw]. cbn [Logs]. set (l := appendAudit (Logs b) r).
  assert (l ++ written b ⊆ rs ++ [r]) as Hs'.
  { intros x. rewrite elem_of_app. intros [[->|Hx]%appendAudit_elem|Hx]; set_solver. }
  assert (∀ x, x ∈ rs ++ [r] → recorded (l ++ written b) x) as Hr'.
  { intros x [Hx|Hx]%elem_of_app.
    - destruct (Hr x Hx) as (y & [Hy|Hy]%elem_of_app & Hk); [|exists y; split; [set_solver|done]].
      apply (recorded_mono l); [set_solver|]. apply recorded_append. by exists y.
    - apply list_elem_of_singleton in Hx as ->. apply (recorded_mono l); [set_solver|]. apply appendAudit_adds. }
  assert (ForallOrdPairs batch_rel l) as Ho' by by apply appendAudit_rel.
  destruct (Z.leb_spec batch_limit (len l)) as [Hlim|Hlim]; [by apply Hw|split_and!; done].
Qed.


(** ** The key *)
Lemma split_at {A} (l : list A) n m : length l = (n + m)%nat → ∃ a b, l = a ++ b ∧ length a = n ∧ length b = m.
Proof. intros Hl. exists (take n l), (drop n l). split_and!; [by rewrite take_drop|rewrite length_take; lia|rewrite length_drop; lia]. Qed.
(** With addresses of sixteen bytes the buffer's old contents are all overwritten. *)
Lemma copy_into_app pre mid post i n src : length pre = i → length mid = length src → length src = n →
  copy_into (pre ++ mid ++ post) i n src = pre ++ src ++ post.
Proof.
  intros <- Hl <-. unfold copy_into. rewrite take_app_length, firstn_all, Nat.min_id. do 2 f_equal.
  rewrite drop_app_ge, <- Hl by lia. replace (length pre + length mid - length pre)%nat with (length mid) by lia. apply drop_app_length.
Qed.
Definition flow_proto (p : packet_info) : Z := if pi_proto p =? proto_TCP then acc_proto_tcp else acc_proto_udp.
Lemma base_key_form buf p : length buf = 53%nat → length (pi_src p) = 16%nat → length (pi_dst p) = 16%nat →
  base_key buf p = pi_src p ++ pi_dst p ++ put16 (pi_sport p) ++ put16 (pi_dport p) ++ [z2b (flow_proto p)] ++ replicate 16 (z2b 0).
Proof.
  intros Hb Hs Hd. destruct (split_at buf 16 37 Hb) as (b1 & b' & -> & H1 & Hb1). destruct (split_at b' 16 21 Hb1) as (b2 & b'' & -> & H2 & Hb2).
  destruct (split_at b'' 2 19 Hb2) as (b3 & b3' & -> & H3 & Hb3). destruct (split_at b3' 2 17 Hb3) as (b4 & b4' & -> & H4 & Hb4).
  destruct b4' as [|x b5]; [done|]. injection Hb4 as H5. unfold base_key.
  change (b1 ++ b2 ++ b3 ++ b4 ++ x :: b5) with ([] ++ b1 ++ b2 ++ b3 ++ b4 ++ x :: b5).
  rewrite (copy_into_app [] b1 _ 0 16 (pi_src p) eq_refl) by congruence. cbn [app].
  rewrite (copy_into_app (pi_src p) b2) by lia. rewrite (app_assoc (pi_src p)).
  rewrite (copy_into_app (pi_src p ++ pi_dst p) b3) by (rewrite ?length_app; cbn; lia). rewrite (app_assoc (pi_src p ++ pi_dst p)).
  rewrite (copy_into_app _ b4) by (rewrite ?length_app; cbn; lia). rewrite (app_assoc _ (put16 (pi_dport p))).
  unfold set_at. set (pre := _ ++ put16 (pi_dport p)). assert (length pre = 36%nat) as Hp by (unfold pre; rewrite !length_app; cbn; lia).
  rewrite <- Hp at 1. replace (length pre) with (length pre + 0)%nat by lia. rewrite insert_app_r. cbn [insert list_insert].
  fold (flow_proto p). change (pre ++ z2b (flow_proto p) :: b5) with (pre ++ [z2b (flow_proto p)] ++ b5). rewrite app_assoc, <- (app_nil_r b5).
  rewrite (copy_into_app _ b5) by (rewrite ?length_app, ?length_replicate; cbn; lia). unfold pre. by rewrite app_nil_r, <- !app_assoc.
Qed.
Lemma named_key_form md5 key pre b0 b1 proto info : key = pre ++ b0 :: b1 → length pre = 36%nat → length b1 = 16%nat →
  length (md5 (bytes_of info)) = 16%nat → named_key md5 key proto info = pre ++ z2b proto :: md5 (bytes_of info).
Proof.
  intros -> Hp Hb Hm. unfold named_key, set_at. rewrite <- Hp at 1. replace (length pre) with (length pre + 0)%nat by lia.
  rewrite insert_app_r. cbn [insert list_insert]. change (z2b proto :: b1) with ([z2b proto] ++ b1). rewrite app_assoc, <- (app_nil_r b1).
  rewrite (copy_into_app _ b1) by (rewrite ?length_app; cbn; lia). by rewrite app_nil_r, <- app_assoc.
Qed.

Lemma put32_length x : length (put32 x) = 4%nat.
Proof. reflexivity. Qed.
Lemma put16_inj x y : 0 ≤ x < 65536 → 0 ≤ y < 65536 → put16 x = put16 y → x = y.
Proof.
  intros Hx Hy [= E1 E2]. apply (f_equal b2z) in E1, E2. rewrite !b2z_z2b_small in * by (split; lia || (apply Z.div_lt_upper_bound; lia) || (apply Z.div_pos; lia) || (apply Z.mod_pos_bound; lia)).
  pose proof (Z.div_mod x 256 ltac:(done)). pose proof (Z.div_mod y 256 ltac:(done)). lia.
Qed.
Lemma put32_inj x y : 0 ≤ x < 2 ^ 32 → 0 ≤ y < 2 ^ 32 → put32 x = put32 y → x = y.
Proof.
  intros Hx Hy E. unfold put32 in E. apply app_inj_1 in E as [E1 E2]; [|done].
  apply put16_inj in E1; [|by apply Z.mod_pos_bound..]. apply put16_inj in E2; [|by apply Z.mod_pos_bound..].
  assert (0 ≤ x / 65536 < 65536 ∧ 0 ≤ y / 65536 < 65536) as [? ?]
    by (split; split; (apply Z.div_pos; lia) || (apply Z.div_lt_upper_bound; lia)).
  rewrite !(Z.mod_small (_ / _)) in E1 by done.
  pose proof (Z.div_mod x 65536 ltac:(done)). pose proof (Z.div_mod y 65536 ltac:(done)). lia.
Qed.
(** The length prefixes keep the parts of the key apart. *)
Lemma accessAuditDedupKey_inj u g k u' g' k' :
  str_len u < 2 ^ 32 → str_len g < 2 ^ 32 → str_len u' < 2 ^ 32 → str_len g' < 2 ^ 32 →
  accessAuditDedupKey u g k = accessAuditDedupKey u' g' k' → u = u' ∧ g = g' ∧ k = k'.
Proof.
  assert (∀ s, str_len s < 2 ^ 32 → u32 (len (bytes_of s)) = len (bytes_of s) ∧ 0 ≤ len (bytes_of s) < 2 ^ 32) as Hw.
  { intros s Hs. unfold str_len in Hs. pose proof (len_nonneg (bytes_of s)). split; [by apply wrap_small|done]. }
  assert (∀ s s' r r', str_len s < 2 ^ 32 → str_len s' < 2 ^ 32 →
    put32 (u32 (len (bytes_of s))) ++ bytes_of s ++ r = put32 (u32 (len (bytes_of s'))) ++ bytes_of s' ++ r' → s = s' ∧ r = r') as Hp.
  { intros s s' r r' Hs Hs' E. destruct (Hw s Hs) as [Es ?], (Hw s' Hs') as [Ew ?]. rewrite Es, Ew in E.
    apply app_inj_1 in E as [E1 E2]; [|done]. apply put32_inj in E1; [|done..].
    apply app_inj_1 in E2 as [E2 E3]; [|unfold len in E1; lia]. split; [by apply bytes_of_inj|done]. }
  unfold accessAuditDedupKey. intros H1 H2 H3 H4 E%str_of_inj. apply Hp in E as [-> E]; [|done..]. apply Hp in E as [-> E]; done.
Qed.

(** ** Once per interval *)
Section interval.
Context (md5_Sum : list byte → list byte).
Definition dedup_of (user group : string) (key : list byte) (accessProto : Z) (info : string) : string :=
  accessAuditDedupKey user group (if String.eqb info "" then key else named_key md5_Sum key accessProto info).

Lemma audit_dedup_fresh i u g key proto info nu st st' : 0 < i → audit_dedup md5_Sum i u g key proto info nu st = (st', true) →
  IpAuditMap st' !! dedup_of u g key proto info = Some nu ∧
  ∀ v, IpAuditMap st !! dedup_of u g key proto info = Some v → i ≤ nu - v.
Proof.
  intros Hi. unfold audit_dedup, dedup_of. rewrite (proj2 (Z.ltb_lt 0 i) Hi), andb_true_r.
  destruct (String.eqb info ""); cbn [negb].
  - destruct (IpAuditMap st !! _) as [v|] eqn:Ev.
    + destruct (Z.ltb_spec (nu - v) i) as [|Hv]; [done|]. intros [= <-]. cbn. rewrite lookup_insert_eq. split; [done|]. by intros ? [= <-].
    + intros [= <-]. cbn. by rewrite lookup_insert_eq.
  - set (s := accessAuditDedupKey u g (named_key md5_Sum key proto info)). set (s0 := accessAuditDedupKey u g (set_at _ _ _)). cbn [IpAuditMap store_audit].
    destruct (decide (s0 = s)) as [->|Hne].
    + rewrite lookup_insert_eq. destruct (Z.ltb_spec (nu - nu) i); [done|lia].
    + rewrite lookup_insert_ne by done. destruct (IpAuditMap st !! s) as [v|] eqn:Ev.
      * destruct (Z.ltb_spec (nu - v) i) as [|Hv]; [done|]. intros [= <-]. cbn. rewrite lookup_insert_eq. split; [done|]. by intros ? [= <-].
      * intros [= <-]. cbn. by rewrite lookup_insert_eq.
Qed.
Lemma store_keeps (m : gmap string Z) k nu s v : m !! s = Some v → ∃ v', <[k := nu]> m !! s = Some v' ∧ (v' = v ∨ v' = nu).
Proof. intros Hm. destruct (decide (k = s)) as [->|]; [rewrite lookup_insert_eq|rewrite lookup_insert_ne by done]; eauto. Qed.
Lemma audit_dedup_keeps i u g key proto info nu st st' b s v : audit_dedup md5_Sum i u g key proto info nu st = (st', b) →
  IpAuditMap st !! s = Some v → ∃ v', IpAuditMap st' !! s = Some v' ∧ (v' = v ∨ v' = nu).
Proof.
  intros E Hv. unfold audit_dedup in E.
  match type of E with (let '(_, _) := ?p in _) = _ => destruct p as [st1 k1] eqn:E1 end.
  assert (∃ v1, IpAuditMap st1 !! s = Some v1 ∧ (v1 = v ∨ v1 = nu)) as (v1 & H1 & Hv1).
  { destruct (negb _ && _); injection E1 as <- _; [by apply store_keeps|eauto]. }
  assert (IpAuditMap st' = IpAuditMap st1 ∨ ∃ k, IpAuditMap st' = <[k := nu]> (IpAuditMap st1)) as [->|[k ->]].
  { repeat case_match; simplify_eq; cbn [IpAuditMap store_audit]; eauto. }
  - eauto.
  - destruct (store_keeps (IpAuditMap st1) k nu s v1 H1) as (v2 & ? & ?). exists v2. naive_solver.
Qed.
End interval.

Section audit_spec.
Context {F D : Type} `{WaterUtil, WaterUtilAudit, !WaterUtilAuditLaws}.
Context (ReadRequest : list byte → option string) (md5_Sum : list byte → list byte) (cfg : ServerConfig).
Hypothesis md5_16 : ∀ x, length (md5_Sum x) = 16%nat.
Implicit Types (st : audit_state) (fd : option (FakeDNSManager F D)) (p : packet_info) (now : Time).
Implicit Types (op : Time * audit_op (F := F) (D := D)) (ops : list (Time * audit_op (F := F) (D := D))).

Lemma recognise_map u g p st now st1 a : recognise ReadRequest u g p st now = Ret (st1, a) → IpAuditMap st1 = IpAuditMap st.
Proof.
  unfold recognise. destruct (_ && _).
  - destruct (TCPStreams st) as [c|].
    + intros ([c' [a' b']] & _ & (fl & _ & Hk)%res_bind_Ret_inv)%res_bind_Ret_inv. by simplify_eq.
    + intros (? & _ & Hk)%res_bind_Ret_inv. by simplify_eq.
  - destruct (_ && _ && _); [intros (? & _ & Hk)%res_bind_Ret_inv; case_match; by simplify_eq|by intros [= <- _]].
Qed.
Definition fake_name fd (p : packet_info) : string := match fd with Some m => GetDomain m (ip_String (pi_dst p)) | None => ""%string end.

Lemma logAudit_inv fd buf st u g pl room now st' o : logAudit ReadRequest md5_Sum cfg fd buf st u g pl room now = Ret (st', o) →
  (IpAuditMap st' = IpAuditMap st ∧ o = None) ∨
  ∃ p st1 proto info b, audit_packet (Data pl) = Ret (Some p) ∧ recognise ReadRequest u g p st now = Ret (st1, (proto, info)) ∧
    audit_dedup md5_Sum (AuditInterval cfg) u g (base_key buf p) proto (if String.eqb info "" then fake_name fd p else info) (time_Unix now) st1 = (st', b) ∧
    (b = false → o = None) ∧ ∀ r, o = Some r → b = true ∧ AccessProto r = proto ∧ Info r = if String.eqb info "" then fake_name fd p else info.
Proof.
  unfold logAudit. destruct (negb (is_ip_data pl)); [intros [= <- <-]; by left|].
  intros ([p|] & Hp & Hk)%res_bind_Ret_inv; [|injection Hk as <- <-; by left].
  destruct (negb _ && negb _); [injection Hk as <- <-; by left|].
  apply res_bind_Ret_inv in Hk as ([st1 [proto info]] & Hr & Hk). right.
  assert (match fd with Some m => if String.eqb info "" then GetDomain m (ip_String (pi_dst p)) else info | None => info end =
    if String.eqb info "" then fake_name fd p else info) as Ei
    by (unfold fake_name; destruct fd; [done|]; by destruct (String.eqb_spec info "")).
  rewrite Ei in Hk. destruct (audit_dedup _ _ _ _ _ _ _ _ _) as [st2 b] eqn:Ed. exists p, st1, proto, info, b.
  destruct b, room; cbn [negb orb] in Hk; injection Hk as <- <-; split_and!; try done; by intros r [= <-].
Qed.

Lemma audit_packet_16 data p : audit_packet data = Ret (Some p) → length (pi_src p) = 16%nat ∧ length (pi_dst p) = 16%nat.
Proof.
  unfold audit_packet. intros (b0 & _ & Hk)%res_bind_Ret_inv. cbv zeta in Hk. destruct (_ =? 4); [|destruct (_ =? 6); [|done]].
  - unfold audit_v4 in Hk. apply res_bind_Ret_inv in Hk as (pr & _ & (src & Hs & (dst & Hd & (ippl & _ & Hk)%res_bind_Ret_inv)%res_bind_Ret_inv)%res_bind_Ret_inv).
    destruct (_ <? _); [done|]. apply res_bind_Ret_inv in Hk as (fr & _ & Hk). destruct (negb _); [done|].
    repeat (apply res_bind_Ret_inv in Hk as (? & _ & Hk)). injection Hk as <-. cbn. split; [by eapply IPv4Source_16|by eapply IPv4Destination_16].
  - unfold audit_v6 in Hk. apply res_bind_Ret_inv in Hk as ([i|] & Hi & Hk); [|done]. destruct (parseV6Header_ret data) as (r & E & Hr).
    rewrite Hi in E. injection E as <-. destruct (Hr i eq_refl) as (_ & Hs & Hd). apply slice_len in Hs, Hd. unfold len in Hs, Hd.
    destruct (_ && _); [done|]. destruct (_ <? _); [apply res_bind_Ret_inv in Hk as (seg & _ & Hk); destruct (_ && _); [done|]|];
      injection Hk as <-; cbn; lia.
Qed.

(** Two packets of one flow have one key, whatever buffers they are put in. *)
Definition same_flow (p q : packet_info) : Prop :=
  pi_proto p = pi_proto q ∧ pi_src p = pi_src q ∧ pi_dst p = pi_dst q ∧ pi_sport p = pi_sport q ∧ pi_dport p = pi_dport q.
Lemma same_flow_key data1 data2 p1 p2 buf1 buf2 : audit_packet data1 = Ret (Some p1) → audit_packet data2 = Ret (Some p2) →
  same_flow p1 p2 → length buf1 = 53%nat → length buf2 = 53%nat → base_key buf1 p1 = base_key buf2 p2.
Proof.
  intros [? ?]%audit_packet_16 [? ?]%audit_packet_16 (E1 & E2 & E3 & E4 & E5) ? ?. rewrite !base_key_form by done.
  unfold flow_proto. by rewrite E1, E2, E3, E4, E5.
Qed.

(** What was stored at [t] stays, or the interval has passed twice. *)
Lemma audit_step_keeps op st s v t1 t2 : t1 ≤ v → t1 ≤ time_Unix op.1 ≤ t2 → IpAuditMap st !! s = Some v →
  (∃ v', IpAuditMap (audit_step ReadRequest md5_Sum cfg st op) !! s = Some v' ∧ t1 ≤ v') ∨ AuditInterval cfg * 2 < t2 - t1.
Proof.
  intros Hv Ht Hs. destruct op as [now [fd buf u g pl room| |]]; cbn [fst snd audit_step] in *.
  - left. destruct (logAudit _ _ _ _ _ _ _ _ _ _ _) as [[st' o]|] eqn:El; [|by exists v].
    apply logAudit_inv in El as [[-> _]|(p & st1 & proto & info & b & _ & Hr & Hd & _)]; [by exists v|].
    apply recognise_map in Hr. rewrite <- Hr in Hs. destruct (audit_dedup_keeps _ _ _ _ _ _ _ _ _ _ _ _ _ Hd Hs) as (v' & ? & Hv').
    exists v'. split; [done|]. destruct Hv' as [->| ->]; lia.
  - unfold auditMapCleanup. destruct (AuditInterval cfg <=? 0); [left; by exists v|]. cbn.
    destruct (decide (time_Unix now - AuditInterval cfg * 2 ≤ v)) as [Hk|Hk]; [left; exists v|right; lia].
    split; [|done]. by apply map_lookup_filter_Some.
  - left. exists v. split; [|done]. unfold tcpStreamCleanup. by destruct (TCPStreams st).
Qed.
Lemma audit_run_keeps ops : ∀ st s v t1 t2, t1 ≤ v → Forall (λ op, t1 ≤ time_Unix op.1 ≤ t2) ops → IpAuditMap st !! s = Some v →
  (∃ v', IpAuditMap (fold_left (audit_step ReadRequest md5_Sum cfg) ops st) !! s = Some v' ∧ t1 ≤ v') ∨ AuditInterval cfg * 2 < t2 - t1.
Proof.
  induction ops as [|op ops IH]; intros st s v t1 t2 Hv Hf Hs; [left; by exists v|]. inversion_clear Hf as [|? ? Ht Hf'].
  destruct (audit_step_keeps op st s v t1 t2 Hv Ht Hs) as [(v' & Hs' & Hv')|?]; [|by right]. by eapply IH.
Qed.

(** The shared core: a record's key is not accepted again within the interval. *)
Lemma audit_key_held fd buf st u g pl room now st1 r ops t2 : 0 < AuditInterval cfg → length buf = 53%nat →
  logAudit ReadRequest md5_Sum cfg fd buf st u g pl room now = Ret (st1, Some r) →
  Forall (λ op, time_Unix now ≤ time_Unix op.1 ≤ t2) ops →
  ∃ p, audit_packet (Data pl) = Ret (Some p) ∧
    ((∃ v, IpAuditMap (fold_left (audit_step ReadRequest md5_Sum cfg) ops st1) !! dedup_of md5_Sum u g (base_key buf p) (AccessProto r) (Info r) = Some v ∧
      time_Unix now ≤ v) ∨ AuditInterval cfg * 2 < t2 - time_Unix now).
Proof.
  intros Hi Hb Hl Hf. apply logAudit_inv in Hl as [[_ ?]|(p & st0 & proto & info & b & Hp & _ & Hd & _ & Hr)]; [done|].
  destruct (Hr r eq_refl) as (-> & -> & ->). apply audit_dedup_fresh in Hd as [Hs _]; [|done]. exists p. split; [done|].
  eapply audit_run_keeps; [|done|exact Hs]. lia.
Qed.
End audit_spec.


(** C26. A protocol that is recognised without a name is not recorded: its key has
    the transport protocol, not the one recognised, so once the bare flow has a
    record, as it has from its first packet on, the record of SSH, FTP, SMTP, IMAP
    or POP3 is taken for a repetition for the rest of the interval. *)
Theorem nameless_protocol_not_recorded {F D} `{WaterUtil, WaterUtilAudit, !WaterUtilAuditLaws} ReadRequest md5_Sum cfg
    (fd1 fd2 : option (FakeDNSManager F D)) buf1 buf2 st st1 st2' st3 u g pl1 pl2 room1 room2 t1 t2 (ops : list (Time * audit_op (F := F) (D := D))) r1 o p1 p2 proto :
  0 < AuditInterval cfg → length buf1 = 53%nat → length buf2 = 53%nat →
  logAudit ReadRequest md5_Sum cfg fd1 buf1 st u g pl1 room1 t1 = Ret (st1, Some r1) → Info r1 = ""%string →
  Forall (λ op, time_Unix t1 ≤ time_Unix op.1 ≤ time_Unix t2) ops → time_Unix t2 - time_Unix t1 < AuditInterval cfg →
  let st2 := fold_left (audit_step ReadRequest md5_Sum cfg) ops st1 in
  audit_packet (Data pl1) = Ret (Some p1) → audit_packet (Data pl2) = Ret (Some p2) → same_flow p1 p2 →
  recognise ReadRequest u g p2 st2 t2 = Ret (st2', (proto, ""%string)) → fake_name fd2 p2 = ""%string →
  logAudit ReadRequest md5_Sum cfg fd2 buf2 st2 u g pl2 room2 t2 = Ret (st3, o) → o = None.
Proof.
  intros Hi Hb1 Hb2 L1 Ei Hops Ht st2 P1 P2 Hsame Hrec Hfk L2.
  destruct (audit_key_held ReadRequest md5_Sum cfg fd1 buf1 st u g pl1 room1 t1 st1 r1 ops (time_Unix t2) Hi Hb1 L1 Hops)
    as (p & P1' & [(v & Hv & Hle)|?]); [|lia]. rewrite P1 in P1'. injection P1' as <-. fold st2 in Hv. unfold dedup_of in Hv. rewrite Ei in Hv.
  apply logAudit_inv in L2 as [[_ ?]|(q & st0 & proto' & info & b & P2' & Hr & Hd & Hno & _)]; [done|].
  rewrite P2 in P2'. injection P2' as <-. rewrite Hrec in Hr. injection Hr as <- <- <-. cbn [String.eqb] in Hd. rewrite Hfk in Hd.
  apply Hno. destruct b; [exfalso|done]. apply audit_dedup_fresh in Hd as [_ Hfresh]; [|done]. apply recognise_map in Hrec.
  rewrite Hrec in Hfresh. unfold dedup_of in Hfresh. cbn [String.eqb] in *.
  rewrite (same_flow_key _ _ p1 p2 buf1 buf2 P1 P2 Hsame Hb1 Hb2) in Hv. specialize (Hfresh v Hv). lia.
Qed.

(** ** Witnesses: a SYN and a banner for port 22 *)
#[export] Instance ex_reader_audit : WaterUtilAudit := {
  IPv4Source data := let! d := slice data 12 16 in Ret (v4_in_v6_prefix ++ d);
  IPv4Payload data := let! b := at_z data 0 in slice data (Z.land b 15 * 4) (len data)
}.
#[export] Instance ex_reader_audit_laws : WaterUtilAuditLaws.
Proof.
  split; intros data ip (d & E & Hk)%res_bind_Ret_inv; apply slice_len in E; unfold len in E;
    assert (ip = v4_in_v6_prefix ++ d) as -> by congruence; rewrite length_app;
    change (length v4_in_v6_prefix) with 12%nat; lia.
Qed.
(** An IPv4 packet from 10.8.0.2:40000 to 10.1.2.3:22 with a sequence number and flags. *)
Definition ex_segment (seq flags : Z) (text : string) : Payload := {| LType := LTypeIPData; PType := 0;
  Data := [z2b 69; z2b 0] ++ put16 (40 + str_len text) ++ zs 4 ++ [z2b 64; z2b 6] ++ zs 2 ++ [z2b 10; z2b 8; z2b 0; z2b 2; z2b 10; z2b 1; z2b 2; z2b 3] ++
          put16 40000 ++ put16 22 ++ put32 seq ++ zs 4 ++ [z2b 80; z2b flags] ++ zs 6 ++ bytes_of text |}.
Definition ex_syn : Payload := ex_segment 1000 2 "".
Definition ex_banner : Payload := ex_segment 1001 24 "SSH-2.0-OpenSSH_9.6".
Definition ex_pi (seg : list byte) : packet_info :=
  {| pi_proto := 6; pi_src := v4_in_v6_prefix ++ [z2b 10; z2b 8; z2b 0; z2b 2]; pi_dst := v4_in_v6_prefix ++ [z2b 10; z2b 1; z2b 2; z2b 3];
     pi_sport := 40000; pi_dport := 22; tcpSeg := seg; udpSeg := [] |}.
Definition zero_md5 (x : list byte) : list byte := zs 16.
Definition no_http (x : list byte) : option string := None.
Definition audit_idle : audit_state := {| IpAuditMap := ∅; TCPStreams := Some newTCPStreamCache |}.
Definition no_fakedns : option (FakeDNSManager unit unit) := None.
Definition audit_now (st : audit_state) (pl : Payload) (t : Z) :=
  logAudit no_http zero_md5 example_cfg no_fakedns (zs 53) st "alice" "ops" pl true (t * Second).
Definition after_syn : audit_state := match audit_now audit_idle ex_syn 1000 with Ret (st, _) => st | Panic => audit_idle end.
Definition syn_record : AccessAudit := {| aa_Username := "alice"; aa_GroupName := "ops"; aa_Protocol := 6; aa_Src := "10.8.0.2";
  aa_Dst := "10.1.2.3"; aa_SrcPort := 40000; aa_DstPort := 22; aa_CreatedAt := 1000 * Second; AccessProto := acc_proto_tcp; Info := "" |}.
Lemma syn_recorded : audit_now audit_idle ex_syn 1000 = Ret (after_syn, Some syn_record).
Proof.
  unfold after_syn. destruct (audit_now audit_idle ex_syn 1000) as [[st o]|] eqn:E.
  - assert (match audit_now audit_idle ex_syn 1000 with Ret (_, o) => o | Panic => None end = Some syn_record) as Ho by (vm_compute; reflexivity).
    rewrite E in Ho. by subst o.
  - assert (match audit_now audit_idle ex_syn 1000 with Ret _ => true | Panic => false end = true) as Ho by (vm_compute; reflexivity).
    by rewrite E in Ho.
Defined.
Definition packet_of (pl : Payload) : packet_info :=
  match audit_packet (Data pl) with Ret (Some p) => p | _ => ex_pi [] end.


(** The banner a second later is recognised as SSH and not recorded. *)
Lemma nameless_protocol_not_recorded_witness :
  ∃ st2 st3, recognise no_http "alice" "ops" (packet_of ex_banner) after_syn (1001 * Second) = Ret (st2, (acc_proto_ssh, ""%string)) ∧
    audit_now after_syn ex_banner 1001 = Ret (st3, None).
Proof.
  assert (match recognise no_http "alice" "ops" (packet_of ex_banner) after_syn (1001 * Second) with Ret (_, a) => a | Panic => (0, ""%string) end =
    (acc_proto_ssh, ""%string)) as Hr by (vm_compute; reflexivity).
  destruct (recognise no_http "alice" "ops" (packet_of ex_banner) after_syn (1001 * Second)) as [[st2 a]|] eqn:Er; [subst a|discriminate Hr].
  assert (match audit_now after_syn ex_banner 1001 with Ret _ => true | Panic => false end = true) as He by (vm_compute; reflexivity).
  destruct (audit_now after_syn ex_banner 1001) as [[st3 o]|] eqn:E; [|discriminate He]. exists st2, st3. split; [reflexivity|].
  assert (audit_packet (Data ex_syn) = Ret (Some (packet_of ex_syn))) as P1 by (vm_compute; reflexivity).
  assert (audit_packet (Data ex_banner) = Ret (Some (packet_of ex_banner))) as P2 by (vm_compute; reflexivity).
  assert (same_flow (packet_of ex_syn) (packet_of ex_banner)) as Hs by (vm_compute; repeat split).
  rewrite (nameless_protocol_not_recorded no_http zero_md5 example_cfg no_fakedns no_fakedns (zs 53) (zs 53) audit_idle after_syn st2 st3 "alice" "ops"
    ex_syn ex_banner true true (1000 * Second) (1001 * Second) [] syn_record o (packet_of ex_syn) (packet_of ex_banner) acc_proto_ssh
    eq_refl eq_refl eq_refl syn_recorded eq_refl (List.Forall_nil _) eq_refl P1 P2 Hs Er eq_refl E).
  reflexivity.
Defined.
