(* ===== verification/Jwt.v ===== *)
(** * Signed tokens (server/pkg/jwt/jwt.go)

    The table of revoked tokens, the index of issued ones, issuing and checking.
    The library that signs and parses is the class [JwtLib]; a claim is a number,
    a text or a list of texts (a nil slice is the empty list, which every reader
    takes for the same). *)
From S2P Require Export DbTypes.
Local Open Scope Z_scope.

Inductive JVal := JNum (z : Z) | JStr (s : string) | JStrs (l : list string).
#[export] Instance JVal_eq_dec : EqDecision JVal.
Proof. solve_decision. Defined.
(** [jwt.MapClaims], [map[string]any] *)
Abbreviation MapClaims := (gmap string JVal).

(** [v, _ := claims[k].(string)] and [claims[k].(float64)]: the zero value when the
    claim is absent or has another type. *)
Definition claim_str (c : MapClaims) (k : string) : string := match c !! k with Some (JStr s) => s | _ => ""%string end.
Definition claim_num (c : MapClaims) (k : string) : Z := match c !! k with Some (JNum z) => z | _ => 0 end.

(** [SignedString] with HS256 under a secret ([None]: error), and [jwt.Parse] with a
    key function from the token's algorithm to the secret ([None]: refused). *)
Class JwtLib := {
  jwt_sign : string → MapClaims → option string;
  jwt_parse : (string → option string) → Time → string → option MapClaims
}.

(** [MapClaims.Valid]: a second is the unit of the comparison, [exp = 0] is no expiry. *)
Definition claims_valid (now : Time) (c : MapClaims) : bool :=
  ((claim_num c "exp" =? 0) || (time_Unix now <? claim_num c "exp")) && (claim_num c "iat" <=? time_Unix now).

(** What is signed is what is parsed, while it is valid; the empty text is no token. *)
Class JwtLaws `{JwtLib} : Prop := {
  jwt_parse_sign key secret c t now : jwt_sign secret c = Some t → key "HS256" = Some secret →
    jwt_parse key now t = if claims_valid now c then Some c else None;
  jwt_parse_empty key now : jwt_parse key now "" = None
}.

Record jwtIssuedRecord := { Subject : string; ji_ExpiresAt : Z }.
Record JwtState := { jwtRevoked : gmap string Z; jwtIssued : gmap string jwtIssuedRecord; jwtNotBefore : Z }.

(** The package's variables when the process starts. *)
Definition new_JwtState (now : Time) : JwtState := {| jwtRevoked := ∅; jwtIssued := ∅; jwtNotBefore := time_Unix now |}.
Definition with_revoked (m : gmap string Z) (st : JwtState) : JwtState :=
  {| jwtRevoked := m; jwtIssued := jwtIssued st; jwtNotBefore := jwtNotBefore st |}.
Definition with_issued (m : gmap string jwtIssuedRecord) (st : JwtState) : JwtState :=
  {| jwtRevoked := jwtRevoked st; jwtIssued := m; jwtNotBefore := jwtNotBefore st |}.

Definition jwtIssuedPurgeThreshold : Z := 10000.
Definition jwtNotBeforeExemptClaims : list string := ["webvpn_user"%string].
Definition JwtAdminLoginTTLSec : Z := 3600 * 3.
Definition JwtUserResetTTLSec : Z := 3600 * 24 * 3.
Definition JwtRevokeFallbackTTLSec : Z := 3600 * 24.

Definition RevokeJwt (jti : string) (expiresAt : Z) (now : Time) (st : JwtState) : JwtState :=
  if String.eqb jti "" then st
  else
    let n := time_Unix now in
    let expiresAt := if expiresAt <=? 0 then n + JwtRevokeFallbackTTLSec else expiresAt in
    with_revoked (<[jti := expiresAt]> (filter (λ kv : string * Z, n ≤ kv.2) (jwtRevoked st))) st.

(** The live tokens of a subject. *)
Definition subject_tokens (subject : string) (now : Time) (st : JwtState) : gmap string jwtIssuedRecord :=
  filter (λ kv : string * jwtIssuedRecord, time_Unix now ≤ ji_ExpiresAt kv.2 ∧ Subject kv.2 = subject) (jwtIssued st).
Definition RevokeSubjectJwt (subject : string) (now : Time) (st : JwtState) : JwtState * Z :=
  if String.eqb subject "" then (st, 0)
  else
    let items := map_to_list (subject_tokens subject now st) in
    let st := with_issued (filter (λ kv : string * jwtIssuedRecord,
                                     time_Unix now ≤ ji_ExpiresAt kv.2 ∧ Subject kv.2 ≠ subject) (jwtIssued st)) st in
    (foldl (λ st it, RevokeJwt it.1 (ji_ExpiresAt it.2) now st) st items, len items).

Inductive JwtError := EJwtParse | EJwtRevoked | EJwtNotBefore | EJwtNoJti | EJwtNoUser.

Section tokens.
Context `{JwtLib} (secret : string).

(** The key functions: only [GetJwtData] looks at the algorithm. *)
Definition any_key (alg : string) : option string := Some secret.
Definition hs256_key (alg : string) : option string := if String.eqb alg "HS256" then Some secret else None.

Definition RevokeJwtToken (tokenString : string) (now : Time) (st : JwtState) : JwtState :=
  match jwt_parse any_key now tokenString with
  | None => st
  | Some claims =>
      let jti := claim_str claims "jti" in
      if String.eqb jti "" then st else RevokeJwt jti (claim_num claims "exp") now st
  end.

Definition RegisterJwt (subject tokenString : string) (now : Time) (st : JwtState) : JwtState :=
  if String.eqb subject "" || String.eqb tokenString "" then st
  else
    match jwt_parse any_key now tokenString with
    | None => st
    | Some claims =>
        let jti := claim_str claims "jti" in
        if String.eqb jti "" then st
        else
          let m := <[jti := {| Subject := subject; ji_ExpiresAt := claim_num claims "exp" |}]> (jwtIssued st) in
          with_issued (if jwtIssuedPurgeThreshold <? Z.of_nat (size m)
                       then filter (λ kv : string * jwtIssuedRecord, time_Unix now ≤ ji_ExpiresAt kv.2) m
                       else m) st
    end.

(** The claims [SetJwtData] signs; those of [data] replace the standard ones.
    [jti] is the random text it draws. *)
Definition jwt_claims (data : MapClaims) (expiresAt : Z) (jti : string) (now : Time) : MapClaims :=
  data ∪ {["exp" := JNum expiresAt; "jti" := JStr jti; "iat" := JNum (time_Unix now)]}.
Definition SetJwtData (data : MapClaims) (expiresAt : Z) (jti : string) (now : Time) : option string :=
  jwt_sign secret (jwt_claims data expiresAt jti now).

Definition JtiOf (tokenString : string) (now : Time) : JwtError + string :=
  match jwt_parse any_key now tokenString with
  | None => inl EJwtParse
  | Some claims => let jti := claim_str claims "jti" in if String.eqb jti "" then inl EJwtNoJti else inr jti
  end.
Definition UsernameOf (tokenString : string) (now : Time) : JwtError + string :=
  match jwt_parse any_key now tokenString with
  | None => inl EJwtParse
  | Some claims => let u := claim_str claims "webvpn_user" in if String.eqb u "" then inl EJwtNoUser else inr u
  end.

Definition is_revoked (st : JwtState) (jti : string) : bool :=
  negb (String.eqb jti "") && bool_decide (is_Some (jwtRevoked st !! jti)).
Definition exempt (claims : MapClaims) : bool :=
  existsb (λ key, negb (String.eqb (claim_str claims key) "")) jwtNotBeforeExemptClaims.

Definition GetJwtData (st : JwtState) (now : Time) (jwtToken : string) : JwtError + MapClaims :=
  match jwt_parse hs256_key now jwtToken with
  | None => inl EJwtParse
  | Some claims =>
      if is_revoked st (claim_str claims "jti") then inl EJwtRevoked
      else if negb (exempt claims) && (claim_num claims "iat" <? jwtNotBefore st) then inl EJwtNotBefore
      else inr claims
  end.
End tokens.

(** ** Lemmas *)
Lemma RevokeJwt_not_before jti e now st : jwtNotBefore (RevokeJwt jti e now st) = jwtNotBefore st.
Proof. unfold RevokeJwt. by destruct (String.eqb _ _). Qed.
Lemma RevokeJwt_issued jti e now st : jwtIssued (RevokeJwt jti e now st) = jwtIssued st.
Proof. unfold RevokeJwt. by destruct (String.eqb _ _). Qed.

(** The entries a revocation leaves: its own, and the others that have not expired. *)
Lemma RevokeJwt_lookup jti e now st j : jti ≠ ""%string →
  jwtRevoked (RevokeJwt jti e now st) !! j =
  (if bool_decide (j = jti) then Some (if e <=? 0 then time_Unix now + JwtRevokeFallbackTTLSec else e)
   else match jwtRevoked st !! j with Some x => if time_Unix now <=? x then Some x else None | None => None end).
Proof.
  intros Hj. unfold RevokeJwt. rewrite (proj2 (String.eqb_neq _ _) Hj). cbn. case_bool_decide as E.
  - subst. by rewrite lookup_insert_eq.
  - rewrite lookup_insert_ne by done. rewrite map_lookup_filter. destruct (jwtRevoked st !! j) as [x|]; cbn; [|done].
    destruct (Z.leb_spec (time_Unix now) x); case_guard; cbn in *; try done; lia.
Qed.

Lemma jwt_claims_iat data e jti now : data !! "iat" = None → claim_num (jwt_claims data e jti now) "iat" = time_Unix now.
Proof. intros Hd. unfold claim_num, jwt_claims. rewrite lookup_union_r by done. reflexivity. Qed.
Lemma jwt_claims_exp data e jti now : data !! "exp" = None → claim_num (jwt_claims data e jti now) "exp" = e.
Proof. intros Hd. unfold claim_num, jwt_claims. rewrite lookup_union_r by done. reflexivity. Qed.
Lemma jwt_claims_jti data e jti now : data !! "jti" = None → claim_str (jwt_claims data e jti now) "jti" = jti.
Proof. intros Hd. unfold claim_str, jwt_claims. rewrite lookup_union_r by done. reflexivity. Qed.
Lemma jwt_claims_other data e jti now k : k ≠ "exp" → k ≠ "jti" → k ≠ "iat" → jwt_claims data e jti now !! k = data !! k.
Proof.
  intros. unfold jwt_claims. rewrite lookup_union. rewrite !lookup_insert_ne, lookup_singleton_ne by done. by destruct (data !! k).
Qed.
