(* ===== verification/WebVpn.v ===== *)
(** * WebVPN sessions (server/webvpn/session.go, dbdata/webvpn.go, handler/portal_api.go)

    A portal login gives a portal token and a grant; a WebVPN subdomain exchanges
    the grant (or the portal token) for a session, renews it half-way through its
    life and refuses it once the user was kicked out.  The tables are the class
    [WebVpnDb], the registry of public suffixes [PublicSuffix]. *)
From S2P Require Export Jwt.
Local Open Scope Z_scope.

Record WebVpnConfig := { WebVpnDomain : string; WebVpnSessionTTL : Z; WebVpnSessionMaxLifetime : Z }.

(** ** Applications *)
Record WebVpnApp := {
  app_Id : Z; app_Name : string; app_Note : string; Backend : string; app_Users : list string;
  app_Groups : list string; AllowPath : list string; IpAllowList : list string; AllowCrossSite : bool;
  CorsAllowedOrigins : list string; HostRewrite : string; SkipVerify : bool; app_Status : Z;
  app_CreatedAt : Time; app_UpdatedAt : Time
}.

Class WebVpnDb (db : Type) := {
  wdb_user : db → string → lookup_res User;                    (* One("Username", ..) *)
  wdb_users : db → option (list User);                         (* Find(&users, -1, 0) *)
  wdb_revoke : db → string → lookup_res Z;                     (* One("Username", ..), RevokedAt *)
  wdb_revokes : db → option (list (string * Z));               (* xdb.Find(&rows) *)
  wdb_update_revoke : db → string → Z → db * option string;    (* Update("Username", ..) *)
  wdb_add_revoke : db → string → Z → db * option string;       (* Add(rec) *)
  wdb_app_by_name : db → string → lookup_res WebVpnApp;
  wdb_app_by_id : db → Z → lookup_res WebVpnApp;
  wdb_active_apps : db → option (list WebVpnApp);              (* status=1, by Id *)
  wdb_set_app : db → WebVpnApp → db * option string;
  wdb_add_app : db → WebVpnApp → db * option string;
  wdb_del_app : db → Z → db * option string
}.

(** [publicsuffix.EffectiveTLDPlusOne]; [None] is an error. *)
Class PublicSuffix := { EffectiveTLDPlusOne : string → option string }.

(** ** Requests and cookies *)
(** What the handlers read of a request: [hr_grant] is the query parameter
    webvpn_grant, [hr_TLS] says that [r.TLS] is not nil, [hr_crossSite] is the context
    value; the other fields are headers. *)
Record HttpReq := {
  hr_Method : string; hr_Host : string; hr_Path : string; hr_RemoteAddr : string; hr_grant : string;
  hr_cookies : list (string * string); hr_TLS : bool; hr_XForwardedProto : string; hr_Origin : string; hr_Referer : string;
  hr_AcrMethod : string; hr_AcrHeaders : string; hr_crossSite : bool
}.
Definition WithCrossSiteCookie (r : HttpReq) (enabled : bool) : HttpReq := {|
  hr_Method := hr_Method r; hr_Host := hr_Host r; hr_Path := hr_Path r; hr_RemoteAddr := hr_RemoteAddr r;
  hr_grant := hr_grant r; hr_cookies := hr_cookies r; hr_TLS := hr_TLS r; hr_XForwardedProto := hr_XForwardedProto r; hr_Origin := hr_Origin r;
  hr_Referer := hr_Referer r; hr_AcrMethod := hr_AcrMethod r; hr_AcrHeaders := hr_AcrHeaders r; hr_crossSite := enabled |}.
(** [utils.IsTLS] *)
Definition IsTLS (r : HttpReq) : bool := hr_TLS r || EqualFold (hr_XForwardedProto r) "https".
(** [r.AddCookie]: behind the cookies the request has. *)
Definition AddCookie (name value : string) (r : HttpReq) : HttpReq := {|
  hr_Method := hr_Method r; hr_Host := hr_Host r; hr_Path := hr_Path r; hr_RemoteAddr := hr_RemoteAddr r;
  hr_grant := hr_grant r; hr_cookies := hr_cookies r ++ [(name, value)]; hr_TLS := hr_TLS r; hr_XForwardedProto := hr_XForwardedProto r; hr_Origin := hr_Origin r;
  hr_Referer := hr_Referer r; hr_AcrMethod := hr_AcrMethod r; hr_AcrHeaders := hr_AcrHeaders r; hr_crossSite := hr_crossSite r |}.
(** [r.Cookie(name)]: the first of that name; its value, empty when there is none. *)
Definition cookie_value (name : string) (r : HttpReq) : string :=
  match list_find (λ c : string * string, c.1 = name) (hr_cookies r) with Some (_, c) => c.2 | None => ""%string end.
Definition has_cookie (name : string) (r : HttpReq) : bool :=
  existsb (λ c : string * string, String.eqb c.1 name) (hr_cookies r).

Inductive SameSite := SameSiteLaxMode | SameSiteNoneMode.
(** A cookie the server sets, with Path=/ and HttpOnly. *)
Record Cookie := { ck_Name : string; ck_Value : string; ck_Domain : string; ck_MaxAge : Z; ck_Secure : bool; ck_SameSite : SameSite }.

Definition sessionCookieName : string := "webvpn_session".
Definition grantCookieName : string := "webvpn_grant".
Definition portalCookieName : string := "portal_session".

(** [stripPort], of both packages: what is before the last colon. *)
Definition stripPort (host : string) : string :=
  match last_index_byte ":"%byte (bytes_of host) with
  | Some i => str_of (take i (bytes_of host))
  | None => host
  end.

Definition trim_dot (s : string) : string :=
  match cut_suffix (bytes_of ".") (bytes_of s) with Some x => str_of x | None => s end.
Definition normal_host (s : string) : string := str_lower (trim_dot (str_trim (stripPort s))).

Section domains.
Context `{PublicSuffix} (cfg : WebVpnConfig).

Definition base2Domain (domain : string) : string :=
  let domain := normal_host domain in
  if String.eqb domain "" || negb (ip_nil (ParseIP domain)) || negb (str_contains domain ".") then domain
  else match EffectiveTLDPlusOne domain with Some registered => registered | None => "" end.

Definition CookieDomain (host : string) : string :=
  if String.eqb (WebVpnDomain cfg) "" then ""
  else
    let host := normal_host host in
    if negb (ip_nil (ParseIP host)) then ""
    else
      let base2 := base2Domain (WebVpnDomain cfg) in
      if String.eqb base2 "" then ""
      else if String.eqb host base2 || str_has_suffix host ("." ++ base2) then "." ++ base2 else "".

Definition wildcardDomain : string :=
  let base2 := base2Domain (WebVpnDomain cfg) in if String.eqb base2 "" then "" else "." ++ base2.

Definition sessionSameSite (r : HttpReq) : SameSite :=
  if hr_crossSite r && IsTLS r then SameSiteNoneMode else SameSiteLaxMode.
Definition mk_cookie (name token : string) (r : HttpReq) : Cookie :=
  {| ck_Name := name; ck_Value := token; ck_Domain := CookieDomain (hr_Host r); ck_MaxAge := 0; ck_Secure := IsTLS r;
     ck_SameSite := if String.eqb name sessionCookieName then sessionSameSite r else SameSiteLaxMode |}.
Definition grant_cookie (token : string) (r : HttpReq) : Cookie :=
  {| ck_Name := grantCookieName; ck_Value := token; ck_Domain := wildcardDomain; ck_MaxAge := 0; ck_Secure := IsTLS r;
     ck_SameSite := SameSiteLaxMode |}.
Definition ClearGrantCookie (r : HttpReq) : Cookie :=
  {| ck_Name := grantCookieName; ck_Value := ""; ck_Domain := wildcardDomain; ck_MaxAge := -1; ck_Secure := IsTLS r;
     ck_SameSite := SameSiteLaxMode |}.
Definition ClearCookie (r : HttpReq) : Cookie :=
  {| ck_Name := sessionCookieName; ck_Value := ""; ck_Domain := CookieDomain (hr_Host r); ck_MaxAge := -1; ck_Secure := IsTLS r;
     ck_SameSite := sessionSameSite r |}.
End domains.

(** ** Claims *)
Definition jwtInt64 (data : MapClaims) (key : string) : Z :=
  match data !! key with Some (JNum z) => z | Some (JStr s) => parse_int64 (bytes_of s) | _ => 0 end.
Definition toStringSlice (v : option JVal) : list string :=
  match v with
  | Some (JStrs l) => l
  | Some (JStr s) => if String.eqb s "" then [] else str_of <$> split_byte ","%byte (bytes_of s)
  | _ => []
  end.

(** [&dbdata.User{Type, Username, Groups, Status: 1}] *)
Definition claims_user (typ name : string) (groups : list string) : User := {|
  usr_Id := 0; usr_Type := typ; usr_Username := name; usr_Nickname := ""; Email := ""; Phone := "";
  PinCode := ""; LimitTime := None; OtpSecret := ""; DisableOtp := false; Groups := groups;
  usr_Mtu := 0; usr_PolicyId := 0; TrafficUsed := 0; TrafficResetAt := None; usr_Status := 1;
  ForcePwd := false; SendEmail := false; usr_CreatedAt := zero_time; usr_UpdatedAt := zero_time |}.
Definition with_groups (gs : list string) (u : User) : User := {|
  usr_Id := usr_Id u; usr_Type := usr_Type u; usr_Username := usr_Username u; usr_Nickname := usr_Nickname u;
  Email := Email u; Phone := Phone u; PinCode := PinCode u; LimitTime := LimitTime u; OtpSecret := OtpSecret u;
  DisableOtp := DisableOtp u; Groups := gs; usr_Mtu := usr_Mtu u; usr_PolicyId := usr_PolicyId u;
  TrafficUsed := TrafficUsed u; TrafficResetAt := TrafficResetAt u; usr_Status := usr_Status u; ForcePwd := ForcePwd u;
  SendEmail := SendEmail u; usr_CreatedAt := usr_CreatedAt u; usr_UpdatedAt := usr_UpdatedAt u |}.

Definition or_else (s t : string) : string := if String.eqb s "" then t else s.
Definition externalUserFromClaims (username : string) (data : MapClaims) : option User :=
  if String.eqb username "" then None
  else
    let userType := or_else (claim_str data "webvpn_grant_type") (or_else (claim_str data "webvpn_type") (claim_str data "portal_type")) in
    if String.eqb userType "local" || String.eqb userType "ldap" then None
    else
      let groups := match toStringSlice (data !! "webvpn_groups") with
                    | [] => toStringSlice (data !! "portal_groups")
                    | gs => gs
                    end in
      match groups with [] => None | _ => Some (claims_user userType username groups) end.

(** ** State *)
Record userCacheEntry := { ce_user : option User; ce_expire : Time }.
(** The process's variables and the tables behind them. *)
Record WebVpn (db : Type) := {
  w_db : db; w_jwt : JwtState; webVpnRevokeBefore : gmap string Z;
  userCache : gmap string userCacheEntry; userLastClean : Time;
  appCache : gmap string (option WebVpnApp); appExpire : Time
}.
Arguments w_db {db} w. Arguments w_jwt {db} w. Arguments webVpnRevokeBefore {db} w.
Arguments userCache {db} w. Arguments userLastClean {db} w. Arguments appCache {db} w. Arguments appExpire {db} w.
Definition with_wdb {db} (d : db) (w : WebVpn db) : WebVpn db := {|
  w_db := d; w_jwt := w_jwt w; webVpnRevokeBefore := webVpnRevokeBefore w; userCache := userCache w;
  userLastClean := userLastClean w; appCache := appCache w; appExpire := appExpire w |}.
Definition with_jwt {db} (j : JwtState) (w : WebVpn db) : WebVpn db := {|
  w_db := w_db w; w_jwt := j; webVpnRevokeBefore := webVpnRevokeBefore w; userCache := userCache w;
  userLastClean := userLastClean w; appCache := appCache w; appExpire := appExpire w |}.
Definition with_before {db} (m : gmap string Z) (w : WebVpn db) : WebVpn db := {|
  w_db := w_db w; w_jwt := w_jwt w; webVpnRevokeBefore := m; userCache := userCache w;
  userLastClean := userLastClean w; appCache := appCache w; appExpire := appExpire w |}.
Definition with_users {db} (m : gmap string userCacheEntry) (lc : Time) (w : WebVpn db) : WebVpn db := {|
  w_db := w_db w; w_jwt := w_jwt w; webVpnRevokeBefore := webVpnRevokeBefore w; userCache := m;
  userLastClean := lc; appCache := appCache w; appExpire := appExpire w |}.
Definition with_apps {db} (m : gmap string (option WebVpnApp)) (e : Time) (w : WebVpn db) : WebVpn db := {|
  w_db := w_db w; w_jwt := w_jwt w; webVpnRevokeBefore := webVpnRevokeBefore w; userCache := userCache w;
  userLastClean := userLastClean w; appCache := m; appExpire := e |}.

Definition sessionTTLDefaultMin : Z := 60.
Definition sessionMaxLifetimeDefaultMin : Z := 480.
Definition grantTTLSec : Z := 3600 * 3.
Definition userTTL : Duration := 60 * Second.
Definition userCacheMaxSize : Z := 1000.
Definition userCacheMinClean : Duration := Minute.
Definition sessionTTL (cfg : WebVpnConfig) : Duration :=
  s64 ((if WebVpnSessionTTL cfg <=? 0 then sessionTTLDefaultMin else WebVpnSessionTTL cfg) * Minute).
Definition sessionMaxLifetime (cfg : WebVpnConfig) : Duration :=
  s64 ((if WebVpnSessionMaxLifetime cfg <=? 0 then sessionMaxLifetimeDefaultMin else WebVpnSessionMaxLifetime cfg) * Minute).

Section sessions.
Context {db : Type} `{WebVpnDb db, JwtLib, PublicSuffix}.
Context (cfg : WebVpnConfig) (secret : string).
Implicit Types (w : WebVpn db) (r : HttpReq) (now : Time).

(** *** Kicking a user out *)
(** Another writer of the entry between the two locks is not interleaved, so the
    test [webVpnRevokeBefore[username] == ts] holds. *)
Definition WebVpnRevokeUser (username : string) now w : WebVpn db * option string :=
  if String.eqb username "" then (w, None)
  else
    let ts := time_Unix now in
    let old := webVpnRevokeBefore w !! username in
    let w := with_before (<[username := ts]> (webVpnRevokeBefore w)) w in
    let '(d, err) := match wdb_revoke (w_db w) username with
                     | Found _ => wdb_update_revoke (w_db w) username ts
                     | _ => wdb_add_revoke (w_db w) username ts
                     end in
    let w := with_wdb d w in
    match err with
    | None => (w, None)
    | Some e =>
        (with_before (match old with
                      | Some oldTs => <[username := oldTs]> (webVpnRevokeBefore w)
                      | None => delete username (webVpnRevokeBefore w)
                      end) w, Some e)
    end.

Definition WebVpnRevokeBeforeOf (username : string) w : WebVpn db * Z :=
  match webVpnRevokeBefore w !! username with
  | Some ts => (w, ts)
  | None =>
      match wdb_revoke (w_db w) username with
      | Found ts => (with_before (<[username := ts]> (webVpnRevokeBefore w)) w, ts)
      | _ => (w, 0)
      end
  end.

Definition LoadWebVpnRevoke w : WebVpn db :=
  match wdb_revokes (w_db w) with
  | None => w
  | Some rows => with_before (foldl (λ m row, <[row.1 := row.2]> m) (webVpnRevokeBefore w) rows) w
  end.
Definition WebVpnRevokeReset w : WebVpn db := with_before ∅ w.

Definition RevokeUser (username : string) now w : WebVpn db :=
  let '(w, _) := WebVpnRevokeUser username now w in with_users (delete username (userCache w)) (userLastClean w) w.

(** The loop of [WebVpnRevokeUsers]; errors are logged. *)
Definition WebVpnRevokeUsers (usernames : list string) now w : WebVpn db :=
  if bool_decide (usernames = []) || String.eqb (WebVpnDomain cfg) "" then w
  else foldl (λ w u, (WebVpnRevokeUser u now w).1) w usernames.

(** [dbdata.UsersInGroups]; [None] is an error. *)
Definition UsersInGroups (groups : list string) w : option (list User) :=
  match groups with
  | [] => Some []
  | _ => List.filter (λ u, existsb (λ g, bool_decide (g ∈ groups)) (Groups u)) <$> wdb_users (w_db w)
  end.
Fixpoint kick_each (users : list User) (kicked : list string) now w : WebVpn db :=
  match users with
  | [] => w
  | u :: users =>
      if bool_decide (usr_Username u ∈ kicked) then kick_each users kicked now w
      else
        match WebVpnRevokeUser (usr_Username u) now w with
        | (w, Some _) => kick_each users kicked now w
        | (w, None) => kick_each users (usr_Username u :: kicked) now w
        end
  end.
Definition WebVpnRevokeGroupMembers (groupNames : list string) now w : WebVpn db :=
  if bool_decide (groupNames = []) || String.eqb (WebVpnDomain cfg) "" then w
  else match UsersInGroups groupNames w with None => w | Some users => kick_each users [] now w end.

(** *** Users *)
Definition freshUser (username : string) w : option User :=
  if String.eqb username "" then None
  else match wdb_user (w_db w) username with
       | Found u => if usr_Status u =? 1 then Some u else None
       | _ => None
       end.

(** [maybeCleanLocked] after the entry was stored. *)
Definition maybeCleanLocked now w : WebVpn db :=
  if Z.of_nat (size (userCache w)) <=? userCacheMaxSize then w
  else if time_Sub now (userLastClean w) <? userCacheMinClean then w
  else with_users (filter (λ kv : string * userCacheEntry, time_After (ce_expire kv.2) now = true) (userCache w)) now w.
Definition store_user (username : string) (u : option User) now w : WebVpn db :=
  maybeCleanLocked now
    (with_users (<[username := {| ce_user := u; ce_expire := time_Add now userTTL |}]> (userCache w)) (userLastClean w) w).
Definition cachedUser (username : string) now w : WebVpn db * option User :=
  let load :=
    let u := match wdb_user (w_db w) username with
             | Found u => if usr_Status u =? 1 then Some u else None
             | _ => None
             end in
    (store_user username u now w, u) in
  match userCache w !! username with
  | Some e => if time_After (ce_expire e) now then (w, ce_user e) else load
  | None => load
  end.

(** *** Issuing *)
Definition Issue r (user : User) (issuedAt : Z) (jti : string) now : option (string * Cookie) :=
  let issuedAt := if issuedAt <=? 0 then time_Unix now else issuedAt in
  let expiresAt := time_Unix (time_Add now (sessionTTL cfg)) in
  token ← SetJwtData secret
    {["webvpn_user" := JStr (usr_Username user); "webvpn_type" := JStr (usr_Type user);
      "webvpn_groups" := JStrs (Groups user); "webvpn_issued" := JNum issuedAt]} expiresAt jti now;
  Some (token, mk_cookie cfg sessionCookieName token r).

Definition IssueGrant r (user : User) (portalJTI jti : string) now : option (string * Cookie) :=
  let expiresAt := time_Unix (time_Add now (grantTTLSec * Second)) in
  token ← SetJwtData secret
    {["webvpn_grant_user" := JStr (usr_Username user); "webvpn_grant_type" := JStr (usr_Type user);
      "webvpn_grant_jti" := JStr portalJTI; "webvpn_groups" := JStrs (Groups user)]} expiresAt jti now;
  Some (token, grant_cookie cfg token r).

(** *** Reading the session *)
Definition UserFromToken (token : string) now w : WebVpn db * option User :=
  match GetJwtData secret (w_jwt w) now token with
  | inl _ => (w, None)
  | inr data =>
      let username := claim_str data "webvpn_user" in
      if String.eqb username "" then (w, None)
      else
        let iat := jwtInt64 data "iat" in
        let '(w, kicked) :=
          if 0 <? iat then let '(w, before) := WebVpnRevokeBeforeOf username w in (w, (0 <? before) && (iat <=? before))
          else (w, false) in
        if kicked then (w, None)
        else
          let issued := jwtInt64 data "webvpn_issued" in
          let max := sessionMaxLifetime cfg in
          if (0 <? issued) && (0 <? max) && (max <? time_Sub now (issued * Second)) then (w, None)
          else
            let '(w, cached) := cachedUser username now w in
            let user := match cached with
                        | Some u => if usr_Status u =? 1 then Some u else externalUserFromClaims username data
                        | None => externalUserFromClaims username data
                        end in
            match user with
            | None => (w, None)
            | Some user =>
                if IsExpired (LimitTime user) now then (w, None)
                else match toStringSlice (data !! "webvpn_groups") with
                     | [] => (w, Some user)
                     | gs => (w, Some (with_groups gs user))
                     end
            end
  end.
Definition CurrentUser r now w : WebVpn db * option User :=
  let v := cookie_value sessionCookieName r in
  if String.eqb v "" then (w, None) else UserFromToken v now w.

(** *** Exchanging a grant *)
Definition portalSessionData r now w : option MapClaims :=
  let v := cookie_value portalCookieName r in
  if String.eqb v "" then None
  else match GetJwtData secret (w_jwt w) now v with inl _ => None | inr data => Some data end.
Definition portalIssuedAt r now w : Z :=
  match portalSessionData r now w with None => 0 | Some data => jwtInt64 data "iat" end.
Definition userFromPortalSession r now w : option User :=
  match portalSessionData r now w with
  | None => None
  | Some data =>
      let username := claim_str data "portal_user" in
      if String.eqb username "" then None
      else match freshUser username w with Some u => Some u | None => externalUserFromClaims username data end
  end.

Definition grant_value r : string :=
  if String.eqb (hr_grant r) "" then cookie_value grantCookieName r else hr_grant r.

(** The first half of [ExchangeGrant]: [Some] is its successful return. *)
Definition exchange_grant r (jti : string) now w : WebVpn db * list Cookie * option (string * User) :=
  let grantValue := grant_value r in
  if String.eqb grantValue "" then (w, [], None)
  else
    let clear := [ClearGrantCookie cfg r] in
    match GetJwtData secret (w_jwt w) now grantValue with
    | inl _ => (w, clear, None)
    | inr data =>
        let username := claim_str data "webvpn_grant_user" in
        let grantJTI := claim_str data "webvpn_grant_jti" in
        let portal := portalSessionData r now w in
        let portalJTI := match portal with Some p => claim_str p "jti" | None => ""%string end in
        let grantValid := negb (String.eqb username "") && negb (String.eqb grantJTI "")
                          && (negb (bool_decide (is_Some portal)) || String.eqb grantJTI portalJTI) in
        let '(w, grantValid) :=
          if grantValid then
            let '(w, before) := WebVpnRevokeBeforeOf username w in
            (w, negb ((0 <? before) && (jwtInt64 data "iat" <=? before)))
          else (w, false) in
        if negb grantValid then (w, clear, None)
        else
          match (match freshUser username w with Some u => Some u | None => externalUserFromClaims username data end) with
          | None => (w, clear, None)
          | Some user =>
              if IsExpired (LimitTime user) now then (w, clear, None)
              else
                match Issue r user 0 jti now with
                | Some (token, ck) =>
                    (with_jwt (RevokeJwtToken secret grantValue now (w_jwt w)) w, [ck; ClearGrantCookie cfg r], Some (token, user))
                | None => (w, [], None)
                end
          end
    end.
(** The second half. *)
Definition exchange_portal r (jti : string) now w : WebVpn db * list Cookie * option (string * User) :=
  match userFromPortalSession r now w with
  | None => (w, [], None)
  | Some user =>
      if IsExpired (LimitTime user) now then (w, [], None)
      else
        let '(w, before) := WebVpnRevokeBeforeOf (usr_Username user) w in
        if (0 <? before) && (portalIssuedAt r now w <=? before) then (w, [], None)
        else
          match Issue r user 0 jti now with
          | Some (token, ck) =>
              (w, ck :: (if has_cookie grantCookieName r then [ClearGrantCookie cfg r] else []), Some (token, user))
          | None => (w, [], None)
          end
  end.
Definition ExchangeGrant r (jti : string) now w : WebVpn db * list Cookie * option (string * User) :=
  match exchange_grant r jti now w with
  | (w, cks, Some res) => (w, cks, Some res)
  | (w, cks, None) => let '(w, cks', res) := exchange_portal r jti now w in (w, cks ++ cks', res)
  end.

(** *** Renewing and ending *)
(** The token issued, [None] when there is none; an error is one. *)
Definition Renew r (jti : string) now w : option (string * Cookie) :=
  let v := cookie_value sessionCookieName r in
  if String.eqb v "" then None
  else
    match GetJwtData secret (w_jwt w) now v with
    | inl _ => None
    | inr data =>
        let iat := jwtInt64 data "iat" in
        if iat <=? 0 then None
        else
          let ttl := sessionTTL cfg in
          if (ttl <=? 0) || (time_Sub now (iat * Second) <=? Z.quot ttl 2) then None
          else
            match freshUser (claim_str data "webvpn_user") w with
            | Some fresh => Issue r fresh (jwtInt64 data "webvpn_issued") jti now
            | None => None
            end
    end.

Definition RevokeCurrent r now w : WebVpn db :=
  let v := cookie_value sessionCookieName r in
  if String.eqb v "" then w
  else
    match JtiOf secret v now, GetJwtData secret (w_jwt w) now v with
    | inr jti, inr data => with_jwt (RevokeJwt jti (jwtInt64 data "exp") now (w_jwt w)) w
    | _, _ => w
    end.
Definition ResetCache w : WebVpn db := with_users ∅ (userLastClean w) w.

(** ** The portal (server/handler/portal_api.go, portal.go) *)
Definition portalIssueToken (user : User) (jti : string) now w : WebVpn db * option string :=
  match SetJwtData secret
    {["portal_user_id" := JNum (usr_Id user); "portal_user" := JStr (usr_Username user);
      "portal_type" := JStr (usr_Type user); "portal_groups" := JStrs (Groups user)]} (time_Unix now + 3600 * 3) jti now with
  | None => (w, None)
  | Some token => (with_jwt (RegisterJwt secret (usr_Username user) token now (w_jwt w)) w, Some token)
  end.

Definition portalCurrentUser r now w : option User :=
  let v := cookie_value portalCookieName r in
  if String.eqb v "" then None
  else
    match GetJwtData secret (w_jwt w) now v with
    | inl _ => None
    | inr data =>
        let username := claim_str data "portal_user" in
        if String.eqb username "" then None
        else
          match wdb_user (w_db w) username with
          | Found user => if (usr_Status user =? 1) && negb (IsExpired (LimitTime user) now) then Some user else None
          | _ =>
              let userType := claim_str data "portal_type" in
              if String.eqb userType "local" || String.eqb userType "ldap" then None
              else
                let groups := match data !! "portal_groups" with
                              | Some (JStrs l) => List.filter (λ n, negb (String.eqb n "")) l
                              | _ => []
                              end in
                match groups with [] => None | _ => Some (claims_user userType username groups) end
          end
    end.
End sessions.
