(* ===== verification/WebVpnProxy.v ===== *)
(** * WebVPN applications and requests (server/webvpn/app.go, proxy.go, handler/webvpn.go)

    Which applications a user may reach, what the reverse proxy rewrites, and the
    handler of a WebVPN subdomain from the request to the verdict.  URLs are parsed
    and printed by [UrlLib]. *)
From S2P Require Export WebVpn.
Local Open Scope Z_scope.

(** [net/url]: the fields of a URL the code looks at; [u_hasUser] says that [User] is
    not nil.  [url_Parse] is [None] on an error. *)
Record URL := { u_Scheme : string; u_hasUser : bool; u_Host : string; u_Path : string; u_RawQuery : string; u_Fragment : string; u_Opaque : string }.
Class UrlLib := { url_Parse : string → option URL; url_String : URL → string }.
Definition with_host (h : string) (u : URL) : URL := {|
  u_Scheme := u_Scheme u; u_hasUser := u_hasUser u; u_Host := h; u_Path := u_Path u; u_RawQuery := u_RawQuery u;
  u_Fragment := u_Fragment u; u_Opaque := u_Opaque u |}.
(** [url.splitHostPort], behind [Hostname] and [Port]: the port is cut off when it is
    digits only, brackets are removed. *)
Definition url_host_port (hp : string) : string * string :=
  let b := bytes_of hp in
  let '(host, port) :=
    match last_index_byte ":"%byte b with
    | Some i =>
        let p := drop (S i) b in
        if forallb (λ c, bool_decide (is_Some (digit c))) p then (take i b, p) else (b, [])
    | None => (b, [])
    end in
  let host := if has_prefix (bytes_of "[") host && has_suffix (bytes_of "]") host then take (length host - 2) (drop 1 host) else host in
  (str_of host, str_of port).

Inductive WebVpnError :=
| EWvEmptyName | EWvInvalidName | EWvEmptyBackend | EWvInvalidBackend | EWvInvalidId | EWvInvalidOrigin | EWvStore (e : string).

(** ** Applications (server/dbdata/webvpn.go) *)
Definition webVpnAppNameValid (name : string) : bool :=
  negb (String.eqb name "")
  && forallb (λ c : byte, ((97 <=? b2z c) && (b2z c <=? 122)) || ((48 <=? b2z c) && (b2z c <=? 57)) || (b2z c =? 45)) (bytes_of name).

Definition http_scheme (s : string) : bool := String.eqb s "http" || String.eqb s "https".
Definition empty (s : string) : bool := String.eqb s "".

Section apps.
Context {db : Type} `{WebVpnDb db, UrlLib}.
Context (cfg : WebVpnConfig).
Implicit Types (w : WebVpn db) (now : Time).

Definition ParseWebVpnBackendURL (raw : string) : option URL :=
  match url_Parse (str_trim raw) with
  | None => None
  | Some u =>
      let '(hostname, port) := url_host_port (u_Host u) in
      if negb (http_scheme (u_Scheme u)) || empty (u_Host u) || u_hasUser u || negb (empty (u_Opaque u))
         || negb (empty (u_RawQuery u)) || negb (empty (u_Fragment u)) || empty hostname then None
      else if forallb (λ c, bool_decide (is_Some (digit c))) (bytes_of port) then Some u else None
  end.

(** A valid origin: scheme, host and nothing else. *)
Definition origin_url (origin : string) : option URL :=
  match url_Parse origin with
  | None => None
  | Some u =>
      if negb (http_scheme (u_Scheme u)) || u_hasUser u || empty (u_Host u) || negb (empty (u_Path u))
         || negb (empty (u_RawQuery u)) || negb (empty (u_Fragment u)) then None
      else Some u
  end.
Definition origin_key (u : URL) : string := str_lower (u_Scheme u ++ "://" ++ u_Host u).

(** The loop of [normalizeWebVpnCorsOrigins] over the list, with [seen] and [origins]. *)
Fixpoint normalize_origins (l : list string) (seen : list string) (origins : list string) : option (list string) :=
  match l with
  | [] => Some origins
  | raw :: l =>
      let origin := str_trim raw in
      match origin_url origin with
      | None => None
      | Some u =>
          let key := origin_key u in
          if bool_decide (key ∈ seen) then normalize_origins l seen origins
          else normalize_origins l (key :: seen) (origins ++ [origin])
      end
  end.
Definition with_app (id : Z) (origins : list string) (status : Z) (now : Time) (a : WebVpnApp) : WebVpnApp := {|
  app_Id := id; app_Name := app_Name a; app_Note := app_Note a; Backend := Backend a; app_Users := app_Users a;
  app_Groups := app_Groups a; AllowPath := AllowPath a; IpAllowList := IpAllowList a; AllowCrossSite := AllowCrossSite a;
  CorsAllowedOrigins := origins; HostRewrite := HostRewrite a; SkipVerify := SkipVerify a; app_Status := status;
  app_CreatedAt := app_CreatedAt a; app_UpdatedAt := now |}.

Definition WebVpnCorsOriginAllowed (a : option WebVpnApp) (origin : string) : bool :=
  match a with
  | None => false
  | Some a =>
      if negb (AllowCrossSite a) || empty origin then false
      else match origin_url origin with
           | None => false
           | Some u => existsb (λ allowed, match url_Parse (str_trim allowed) with
                                           | Some v => String.eqb (origin_key v) (origin_key u)
                                           | None => false
                                           end) (CorsAllowedOrigins a)
           end
  end.

(** [UsernamesOfGroup] *)
Definition UsernamesOfGroup (groupName : string) w : list string :=
  if empty groupName then []
  else match wdb_users (w_db w) with
       | None => []
       | Some users => usr_Username <$> List.filter (λ u, bool_decide (groupName ∈ Groups u)) users
       end.
Definition add_kick (u : string) (toKick : list string) : list string :=
  if empty u || bool_decide (u ∈ toKick) then toKick else toKick ++ [u].
(** [keepUsers] and [keepGroups] hold the names that are not empty. *)
Definition kept (names : list string) (n : string) : bool := negb (empty n) && bool_decide (n ∈ names).
Definition users_to_kick (oldUsers oldGroups newUsers newGroups : list string) w : list string :=
  let toKick := foldl (λ k u, if kept newUsers u then k else add_kick u k) [] oldUsers in
  foldl (λ k g, if empty g || kept newGroups g then k
                else foldl (λ k u, if kept newUsers u then k else add_kick u k) k (UsernamesOfGroup g w)) toKick oldGroups.
Definition revokeAffectedWebVpnUsers (oldUsers oldGroups newUsers newGroups : list string) now w : WebVpn db :=
  match users_to_kick oldUsers oldGroups newUsers newGroups w with
  | [] => w
  | toKick => WebVpnRevokeUsers cfg toKick now w
  end.

Definition InvalidateWebVpnAppCache w : WebVpn db := with_apps ∅ (appExpire w) w.
Definition webVpnAppCacheTTL : Duration := 60 * Second.

Definition SetWebVpnApp (a : WebVpnApp) now w : WebVpn db * option WebVpnError :=
  if empty (app_Name a) then (w, Some EWvEmptyName)
  else if negb (webVpnAppNameValid (app_Name a)) then (w, Some EWvInvalidName)
  else if empty (Backend a) then (w, Some EWvEmptyBackend)
  else match ParseWebVpnBackendURL (Backend a) with
  | None => (w, Some EWvInvalidBackend)
  | Some _ =>
      match normalize_origins (CorsAllowedOrigins a) [] [] with
      | None => (w, Some EWvInvalidOrigin)
      | Some origins =>
          let '(oldUsers, oldGroups) :=
            if 0 <? app_Id a then
              match wdb_app_by_id (w_db w) (app_Id a) with Found old => (app_Users old, app_Groups old) | _ => ([], []) end
            else ([], []) in
          let '(d, err) :=
            if 0 <? app_Id a then wdb_set_app (w_db w) (with_app (app_Id a) origins (app_Status a) now a)
            else wdb_add_app (w_db w) (with_app (app_Id a) origins (if app_Status a =? 0 then 1 else app_Status a) now a) in
          let w := with_wdb d w in
          match err with
          | Some e => (w, Some (EWvStore e))
          | None =>
              (revokeAffectedWebVpnUsers oldUsers oldGroups (app_Users a) (app_Groups a) now (InvalidateWebVpnAppCache w), None)
          end
      end
  end.

Definition DelWebVpnApp (id : Z) now w : WebVpn db * option WebVpnError :=
  if id <? 1 then (w, Some EWvInvalidId)
  else
    let '(delUsers, delGroups) :=
      match wdb_app_by_id (w_db w) id with Found old => (app_Users old, app_Groups old) | _ => ([], []) end in
    let '(d, err) := wdb_del_app (w_db w) id in
    let w := with_wdb d w in
    match err with
    | Some e => (w, Some (EWvStore e))
    | None => (revokeAffectedWebVpnUsers delUsers delGroups [] [] now (InvalidateWebVpnAppCache w), None)
    end.

(** The cached nil of a missing name is stored and never a hit. *)
Definition GetWebVpnAppByName (name : string) now w : WebVpn db * lookup_res WebVpnApp :=
  match appCache w !! name, time_Before now (appExpire w) with
  | Some (Some hit), true => (w, Found hit)
  | _, _ =>
      match wdb_app_by_name (w_db w) name with
      | Found a => (with_apps (<[name := Some a]> (appCache w)) (time_Add now webVpnAppCacheTTL) w, Found a)
      | NotFound => (with_apps (<[name := None]> (appCache w)) (time_Add now webVpnAppCacheTTL) w, NotFound)
      | LookupErr => (w, LookupErr)
      end
  end.

Definition WebVpnUserAllowed (a : WebVpnApp) (user : User) : bool :=
  if negb (bool_decide (app_Users a = [])) && negb (bool_decide (usr_Username user ∈ app_Users a)) then false
  else if negb (bool_decide (app_Groups a = [])) then existsb (λ g, bool_decide (g ∈ app_Groups a)) (Groups user)
  else true.

(** The three lists of [AppsForUser]: by group, by name, without groups. *)
Fixpoint sort_apps (apps : list WebVpnApp) (user : User) : list WebVpnApp * list WebVpnApp * list WebVpnApp :=
  match apps with
  | [] => ([], [], [])
  | a :: apps =>
      let '(byGroup, byUser, fallback) := sort_apps apps user in
      if bool_decide (app_Groups a = []) then (byGroup, byUser, a :: fallback)
      else if existsb (λ g, bool_decide (g ∈ Groups user)) (app_Groups a) then (a :: byGroup, byUser, fallback)
      else if bool_decide (usr_Username user ∈ app_Users a) then (byGroup, a :: byUser, fallback)
      else (byGroup, byUser, fallback)
  end.
Fixpoint unseen_allowed (apps : list WebVpnApp) (seen : list Z) (user : User) : list WebVpnApp :=
  match apps with
  | [] => []
  | a :: apps =>
      if bool_decide (app_Id a ∈ seen) then unseen_allowed apps seen user
      else if WebVpnUserAllowed a user then a :: unseen_allowed apps (app_Id a :: seen) user
      else unseen_allowed apps (app_Id a :: seen) user
  end.
Definition AppsForUser (user : User) w : option (list WebVpnApp) :=
  match wdb_active_apps (w_db w) with
  | None => None
  | Some apps => let '(byGroup, byUser, fallback) := sort_apps apps user in
                 Some (unseen_allowed ((byGroup ++ byUser) ++ fallback) [] user)
  end.
End apps.
